(* ===== verification/_CoqProject ===== *)
-Q . S2P
Prelude.v
PyVal.v
JsonCodec.v
Tasks.v
Justified.v
Queue.v
Config.v
Scheduler.v
LocalWorker.v
LocalThreads.v
GrpcWorker.v
World.v
GrpcPool.v
GrpcPoolFacts.v
GrpcDelivery.v
GrpcSettle.v
GrpcRouting.v
GrpcHonest.v
JobStore.v
JobStoreFacts.v
JobGateway.v
JobGatewayFacts.v
GatewaySql.v
Dispatch.v
Deployment.v
AtomicFile.v
WorkerServer.v
WorkerServerFacts.v
ApiServer.v
ConfigPush.v
ApiServerFacts.v
ServingPath.v
ApiLifespan.v
Registry.v
RegistryFacts.v
DiscoveryLoop.v
WorkerLifecycle.v
WorkerLifecycleFacts.v
TextWorker.v
V73Worker.v
V73WorkerFacts.v
V73Paths.v
V73Locks.v
Fleet.v
JobPath.v
EndToEnd.v
JobEndToEnd.v
DeployChecks.v
ArgParse.v
Rollout.v
RolloutFacts.v
DrainHandshake.v
RolloutRetry.v
Receiver.v
HostPlan.v
HostProposal.v
HostCommands.v
HostCommandsFacts.v
SmokeTest.v
SmokeCommands.v
Metrics.v
LoadTest.v
Plots.v
PlotDrawing.v
Experiments.v
ExperimentsFacts.v
Sustained.v
SustainedFacts.v
CommandLine.v
