(* ===== verification/Prelude.v ===== *)
(** * A verification library for the latency-aware inference system

    The program ([src/system/]) serves inference requests over HTTP.  A request becomes a
    task; tasks wait in one bounded queue; a scheduler thread forms batches by one of three
    strategies and hands each to a pool of workers, in-process or remote.  A remote worker is
    reached through a proxy with a private queue of batches and a dispatch thread; the set of
    proxies follows a ZooKeeper registry or a static list.  Durable jobs live in a PostgreSQL
    table: a gateway leases rows, runs each as a task through the same queue and reports the
    outcome under the lease.  A worker process answers batches by simulation or through one of
    two model adapters, the text service and the calibrated V7.3 model.  The receiver in
    [src/deploy/ci/deploy_platform.py] rolls out new versions behind drain markers that the
    gateway and the adapter honour.  [src/experiments/] loads a running system, computes
    metrics from the log and writes result files and plots.

    ** Files

    - [Prelude] (this file): rationals as clock readings, automation, lemmas on lists, options
      and sorting.  [PyVal]: JSON values, insertion-ordered dicts, truth values, [str.strip],
      [int].  [JsonCodec]: a concrete faithful codec, the instance of the law the development
      asks of [json].  [ArgParse]: [argparse] for parsers with options only.
    - [Tasks]: [task.py].  The record [Task], its locked updates ([mark_processing],
      [mark_done], [mark_failed], [try_reserve_retry]), its deadline, and the store of shared
      task objects that every other component points into.  [Justified]: every finished task
      holds an answer that [justifies] its payload, kept by every discipline below.
    - [Queue], [Config], [Scheduler], [LocalWorker]: [queue.py], [config.py], [scheduler.py],
      [worker.py].  [LocalThreads]: the threads of the in-process pool one step at a time.
    - [GrpcWorker], [World], [GrpcPool]: [grpc_worker_pool.py].  [GrpcWorker] has the critical
      sections of one proxy; [World] the state all threads of the dispatch path share and the
      relation [rely] that bounds what they do to it; [GrpcPool] the methods of the proxy and
      of the pool.  Theorems: [GrpcPoolFacts] (every method stays within [rely]),
      [GrpcDelivery] (hand-over, no loss), [GrpcSettle] (processing and stopping a proxy),
      [GrpcRouting] (routing, membership, shutdown, configuration of static pools),
      [GrpcHonest] (results only from workers that answer).  [ConfigPush]: the threads that
      carry a new failure rate to the workers.
    - [JobStore], [JobStoreFacts]: [job_store.py], one function per SQL statement.
      [JobGateway], [JobGatewayFacts]: [job_gateway.py] over an interface of the table
      ([JobStoreAPI], [JobStoreLaws]).  [GatewaySql] implements the interface by [JobStore], so
      that the gateway moves the table by its statements only.
    - [Dispatch]: the scheduler's loop with the pool's [submit] as its handler.
    - [Deployment]: [deployment.py], the gate, its middleware and the health page.
    - [WorkerServer], [WorkerServerFacts]: the request handlers of [grpc_worker_server.py].
      [WorkerLifecycle], [WorkerLifecycleFacts]: its [serve], the main thread beside the signal
      handler, the registration loop and the publisher of the draining state.
    - [ApiServer], [ApiServerFacts]: the endpoints of [api_server.py].  [ApiLifespan]: its
      [lifespan], what it builds from the settings and what can fail.
    - [Registry], [RegistryFacts]: [zookeeper_registry.py] over an interface of the client
      library ([ZooKeeper], [ZooKeeperLaws]) with a concrete instance.  [DiscoveryLoop]: the
      refresh thread one call at a time, while nodes change and watches fire late.
    - [TextWorker]: [worker_text.py].  [V73Worker], [V73WorkerFacts]: [worker_v73.py];
      [V73Paths]: its checks of paths over a file system with links; [V73Locks]: its locks
      under any interleaving of calls.
    - The system as a whole: [ServingPath] (a handler with the scheduler, a pool and the other
      requests between its steps), [Fleet] (the worker processes and what their answers say),
      [EndToEnd] (predictions and text requests), [JobPath] and [JobEndToEnd] (durable jobs).
    - [DeployChecks], [Rollout], [RolloutFacts]: [deploy_platform.py].  [DrainHandshake]: its
      [wait_idle] against the gates of [Deployment] running at the other end.  [RolloutRetry]:
      the exit statuses of a rollout.  [Receiver]: [main] and [Runtime.__init__], the command,
      the host lock, the archive and the exit status of the process.  [AtomicFile]:
      [atomic_json] and [V73Worker._write_json] down to file system calls.  [HostCommands],
      [HostCommandsFacts]: the processes a rollout starts, over a container engine.
    - [HostPlan], [HostProposal], [SmokeTest], [SmokeCommands]: [prepare_host.py],
      [release_status.py], [run_tests.py] and [smoke_image.py] of [src/deploy/ci/].
    - [Metrics], [LoadTest], [Plots], [PlotDrawing], [Experiments], [ExperimentsFacts]:
      [metrics.py], [load_test.py], [plot_results.py] and [run_experiments.py] of
      [src/experiments/], over an environment of files, load tests and subprocesses.
      [Sustained], [SustainedFacts]: [sustained_load_test.py].
    - [CommandLine]: the programs from the words they are started with: [main] of
      [run_experiments.py] and the options of three others.

    ** How the code is represented

    Python values are [pyval]s, dicts are association lists in insertion order, strings are
    byte strings (white space is the ASCII white space).  Floats are exact rationals: rounding
    is not modelled, and no theorem depends on it.  Python integers are [Z].  Task objects are
    references into a store ([tref]), because the queue, the batches, the proxies and the
    handlers share and mutate them; so are proxies ([pref]).  [uuid4] is a function of the
    tasks that exist, assumed to return an identifier none of them bears where that matters.

    A method that holds a lock is one function.  Between critical sections other threads run:
    on the dispatch path, in the gateway and in the API handlers an environment function (the
    [sched] of [GrpcPool], the [tick] of [JobGateway] and [ApiServer]) changes the shared state
    at every such point, constrained only by a class ([WellBehaved], [GatewayEnv], [ApiEnv])
    that says it respects the rely relation; [dispatch_guarantee] shows that the program's own
    methods respect it.  For the end-to-end theorems that function is the program itself: the
    [plan] of [ServingPath] and [JobPath] says which arrivals, scheduler turns and pool threads
    run at each point, in any order.  What the workers may answer is given by the set of
    [deployed] backends; each RPC is a call of one of them, on any state earlier attempts left
    it.  What a deployment fixes, the text services' answers among it, and which attempts it has
    made at V7.3 jobs are the members of [FleetFacts].  The queue, the proxy, the in-process pool, discovery, [serve], the V7.3 locks and the
    load generator are also treated as step machines, for every interleaving.  Clocks,
    arrivals, RPC outcomes and configuration reads are arguments; clock readings that the code
    relies on to end a loop appear as hypotheses ([ClockPasses]; [turn_ends] for the clock of
    the batching window), and so does that the wall clock does not step back within one turn of
    the latency-aware strategy ([turn_ok]); what happens if it does is
    [clock_step_back_hands_over_twice].

    Exceptions are values: sums, options, or the monads [G] (state survives the raise), [V]
    (a number of effects before the process dies), [D] (an exception or death before or after
    every operation), [Cmd] (processes started by the receiver) and [E] (the experiments), the
    first three with their triples.  SQL statements are atomic and read an arbitrary [now()].
    Files are bytes with whether they reached the disk, and a crash keeps only what did.  The
    container engine is any that obeys [EngineLaws]; the ZooKeeper client any that obeys
    [ZooKeeperLaws]; the JSON codec any that round-trips.

    Loops over data are structural.  The polling loops of the API handlers, the worker's wait
    and the batching strategy recurse on the list of observations they make or on a fuel that
    the theorems bound by the deadline: [batching_next_batch_correct],
    [process_batch_answers_all], [predict_answers_own_task], [text_task_answers_own_task], the
    theorems on the scheduler's loop and the end-to-end theorems conclude that the loop ends with its result, not that the result
    is right if it ends.  The loops of the rollout count the polls made before their deadline.

    ** What is proved

    - End to end ([EndToEnd], [JobEndToEnd]): whatever the other threads do and whichever
      workers answer, a prediction request is answered, and a 200 carries the square of its own
      input; where no simulated worker is deployed, a text request is answered, and a 200 carries
      what the text service of the pinned model said to exactly its payload, and a row of the
      job table that says succeeded carries an answer of the V7.3 worker to its own
      specification, through database faults, retries and other processes that keep to such
      answers.
    - A task's first outcome is final and the only one; at most one retry is granted; the
      updates refine the life cycle pending, processing, finished ([Tasks]).
    - The queue is a FIFO that loses nothing ([Queue]); each strategy returns a bounded batch,
      the batching one in time, the latency-aware one the oldest first; the scheduler loop
      neither loses nor duplicates a task while the clock does not step back, but strands the
      buffer of the latency-aware strategy when another is selected ([Scheduler]).
    - In the in-process pool a queued batch is processed and a stopped worker ends
      ([LocalThreads]).
    - On the gRPC path, under interference: every task of a submitted batch is settled or
      accepted by a proxy; processing or stopping a proxy settles or hands over what it holds;
      a hand-over goes once, to another ready and capable proxy; a proxy has at most two
      batches, and its gauges are exact at every step of its users and its dispatch thread; a
      simulation task that a worker leaves out of its response stays unfinished; membership equals the registry's snapshot; shutdown is final.
    - At most one completion of a job is accepted, a lost attempt is fenced, a live lease is
      exclusive, claims are in due order; the gateway bounds its attempts in flight, accounts
      for each one and ends overdue jobs, faults and other processes included.
    - The worker answers every request of a batch exactly once and so satisfies what the proxy
      relies on; the job endpoints need the exact token.
    - From a scheduler turn to the proxies no task is lost or in two places ([Dispatch]).
    - Registration never touches a node of another session; discovery publishes complete
      snapshots only, loses no change and comes to rest; at rest the pool is the registry.  The
      drain gate counts exactly and admits none while draining.
    - A worker is announced only while it serves; its server stops within thirty seconds of a
      signal, and the process ends after a join of at most three seconds and the calls that have
      no timeout; it gets no new work once its draining state is seen.  The API process comes up
      completely or raises; durable jobs are served only between start-up and shutdown.
    - [wait_idle] returns only when the gateway and the adapter have drained and stay so; the
      exit status of the receiver tells whether the platform was replaced and whether another
      try is safe.
    - The V7.3 bridge sends one request per job at most, over any sequence of attempts and
      crashes; its answers agree and describe only files that an attempt found, verified and
      uploaded; a path it
      accepts stays in the directory of its job; one collector runs at a time.  The text
      adapter sends only what passed its checks.
    - A rollout that is interrupted or dies leaves the recorded platform running or admission
      closed with a recovery record, unless an exception arrives between the last assignment of
      [resume_safe] and the end of its [try] ([late_interrupt_reopens]); one that returns has replaced everything; the
      markers of others survive; only confined layouts and exact commands are obeyed; no
      container of another environment is touched; state files are replaced whole.
    - A proposed host state is one the receiver starts from, and it is written where only its
      owner can read it; the smoke test passes on an image that behaves, and leaves no
      container behind.
    - The counters of the load generator agree with its log, its rate is bounded and it
      returns; metrics are complete and ordered, with the throughput of the whole span; a batch
      of experiments keeps every row it measured, and its plots find their fields in the rows
      that were measured; a refused configuration is recorded as if it
      had been applied.  The sustained generator accounts for every slot of time, never
      catches up in a burst and reports nearest-rank percentiles.
    - The configurations that a command line of the experiments can express are characterised;
      each is read back from the words written for it, and all words that are read as it do the
      same; a command line that is not accepted ends before anything runs ([CommandLine]).

    ** What is not modelled

    Thread start and join, sleeping, logging and Prometheus exposition; FastAPI routing and the
    request-model classes, whose checks are conditions of the handlers; the generated protocol
    code; the declarations of metrics; the package's exports; the tests.  Errors of the local
    file system in the V7.3 bridge other than crashes; the creation of its storage client; a
    text that [urlsplit] itself rejects; the message the receiver prints with its status; how
    matplotlib renders, with sizes, colours and fonts; help and log texts; errors of
    [os.remove]; the temporary files of the smoke test.  [argparse] is the
    one of Python 3.12, without positional arguments.  An exception in a rollout arrives at an
    operation or between the last assignment of a [try] and its end, not between two other
    assignments of [run].  In [WorkerLifecycle] time passes in the two timed waits and in
    the [finally] clause, and the calls of one registration are one step.  Third-party libraries,
    ZooKeeper, PostgreSQL's planner, Docker, gRPC and SHA-256 are parameters or observations;
    the fingerprint of a specification is a function that may collide, so what rests on it is
    stated up to equal fingerprints. *)
From stdpp Require Export base tactics list gmap strings option sorting.
From Stdlib Require Export QArith Qround Lqa Qminmax Lia ZArith.
From Stdlib Require Import Permutation.

#[export] Set Warnings "-clear-no-such-hyp".

(** ** Rationals as clock readings and Python floats *)

Declare Scope py_scope.
Delimit Scope py_scope with py.
Open Scope py_scope.
(* QArith opens [Q_scope]; sizes, counters and indices are integers here. *)
Open Scope nat_scope.
Open Scope Z_scope.
Open Scope py_scope.

Definition Qltb (x y : Q) : bool := negb (Qle_bool y x).

Notation "x '<=?q' y" := (Qle_bool x y) (at level 70, no associativity) : py_scope.
Notation "x '<?q' y" := (Qltb x y) (at level 70, no associativity) : py_scope.

Lemma Qleb_true (x y : Q) : (x <=?q y) = true ↔ (x <= y)%Q.
Proof. apply Qle_bool_iff. Qed.

Lemma Qleb_false (x y : Q) : (x <=?q y) = false ↔ (y < x)%Q.
Proof.
  split.
  - intros H. apply Qnot_le_lt. intros Hle%Qleb_true. congruence.
  - intros H. destruct (x <=?q y) eqn:E; [|done].
    apply Qleb_true in E. exfalso. lra.
Qed.

Lemma Qltb_true (x y : Q) : (x <?q y) = true ↔ (x < y)%Q.
Proof. unfold Qltb. rewrite negb_true_iff. apply Qleb_false. Qed.

Lemma Qltb_false (x y : Q) : (x <?q y) = false ↔ (y <= x)%Q.
Proof. unfold Qltb. rewrite negb_false_iff. apply Qleb_true. Qed.

(** Turns every boolean comparison of the context and the goal into the
    proposition it decides, then calls the linear solver of [Q]. *)
Ltac qbool :=
  repeat match goal with
  | H : (_ <=?q _) = true |- _ => apply Qleb_true in H
  | H : (_ <=?q _) = false |- _ => apply Qleb_false in H
  | H : (_ <?q _) = true |- _ => apply Qltb_true in H
  | H : (_ <?q _) = false |- _ => apply Qltb_false in H
  | |- (_ <=?q _) = true => apply Qleb_true
  | |- (_ <=?q _) = false => apply Qleb_false
  | |- (_ <?q _) = true => apply Qltb_true
  | |- (_ <?q _) = false => apply Qltb_false
  end.
Ltac qlra := qbool; lra.

(** Turns [Z] and [bool] comparisons into propositions. *)
Ltac zbool :=
  repeat match goal with
  | H : Z.ltb _ _ = true |- _ => apply Z.ltb_lt in H
  | H : Z.ltb _ _ = false |- _ => apply Z.ltb_ge in H
  | H : Z.leb _ _ = true |- _ => apply Z.leb_le in H
  | H : Z.leb _ _ = false |- _ => apply Z.leb_gt in H
  | H : Z.eqb _ _ = true |- _ => apply Z.eqb_eq in H
  | H : Z.eqb _ _ = false |- _ => apply Z.eqb_neq in H
  | H : (_ && _)%bool = true |- _ => apply andb_true_iff in H; destruct H
  | H : (_ || _)%bool = false |- _ => apply orb_false_iff in H; destruct H
  | H : negb _ = true |- _ => apply negb_true_iff in H
  | H : negb _ = false |- _ => apply negb_false_iff in H
  | H : bool_decide _ = true |- _ => apply bool_decide_eq_true in H
  | H : bool_decide _ = false |- _ => apply bool_decide_eq_false in H
  end.

(** Splits every [match] and [if] of the goal, cleaning up the equations. *)
Ltac cases := repeat (case_match; simplify_eq/=).

(** Python's [max(0.0, x)] on floats. *)
Definition py_max0 (x : Q) : Q := if x <?q 0 then 0%Q else x.

Lemma py_max0_nonneg x : (0 <= py_max0 x)%Q.
Proof. unfold py_max0. case_match; qlra. Qed.

Lemma py_max0_pos x : (0 < py_max0 x)%Q ↔ (0 < x)%Q.
Proof. unfold py_max0. case_match; qbool; split; intros; lra. Qed.

(** ** Python list slices and lengths *)

(** [l[:n]]: a negative bound counts from the end of the list. *)
Definition py_take {A} (n : Z) (l : list A) : list A :=
  if 0 <=? n then take (Z.to_nat n) l
  else take (Z.to_nat (Z.of_nat (length l) + n)) l.

#[global] Arguments py_take : simpl never.

Definition py_len {A} (l : list A) : Z := Z.of_nat (length l).

Lemma py_len_app {A} (l k : list A) : py_len (l ++ k) = py_len l + py_len k.
Proof. unfold py_len. rewrite length_app. lia. Qed.

Lemma py_len_snoc {A} (l : list A) x : py_len (l ++ [x]) = py_len l + 1.
Proof. rewrite py_len_app. done. Qed.

Lemma py_len_nonneg {A} (l : list A) : 0 <= py_len l.
Proof. unfold py_len. lia. Qed.

Lemma py_take_length {A} n (l : list A) :
  0 <= n → py_len (py_take n l) = Z.min n (py_len l).
Proof.
  intros Hn. unfold py_take, py_len.
  rewrite (proj2 (Z.leb_le 0 n)) by done. rewrite length_take. lia.
Qed.

Lemma py_take_ge {A} n (l : list A) : py_len l <= n → py_take n l = l.
Proof. intros Hn. unfold py_take, py_len in *. case_match; apply take_ge; lia. Qed.

Lemma py_take_nil {A} n : py_take n (@nil A) = [].
Proof. unfold py_take. case_match; apply take_nil. Qed.

Lemma py_take_prefix {A} n (l : list A) : ∃ k, py_take n l = take k l.
Proof. unfold py_take. case_match; eauto. Qed.

(** ** Stable sort by a rational key ([list.sort(key=...)]) *)

Section stable_sort.
Context {A : Type} (key : A → Q).

Fixpoint sort_insert (x : A) (l : list A) : list A :=
  match l with
  | [] => [x]
  | y :: l' => if key x <=?q key y then x :: y :: l' else y :: sort_insert x l'
  end.

Definition py_sort (l : list A) : list A := foldr sort_insert [] l.

Lemma sort_insert_perm x l : sort_insert x l ≡ₚ x :: l.
Proof.
  induction l as [|y l IH]; simpl; [done|].
  case_match; [done|]. rewrite IH. apply Permutation_swap.
Qed.

Lemma py_sort_perm l : py_sort l ≡ₚ l.
Proof.
  induction l as [|x l IH]; simpl; [done|].
  by rewrite sort_insert_perm, IH.
Qed.

Definition key_le (x y : A) : Prop := (key x <= key y)%Q.

Lemma sort_insert_sorted x l :
  StronglySorted key_le l → StronglySorted key_le (sort_insert x l).
Proof.
  induction 1 as [|y l Hs IH Hy]; simpl; [repeat constructor|].
  destruct (key x <=?q key y) eqn:E; qbool.
  - constructor; [by constructor|]. constructor; [done|].
    eapply Forall_impl; [exact Hy|]. unfold key_le. intros; lra.
  - constructor; [done|]. rewrite sort_insert_perm.
    constructor; [unfold key_le; lra|done].
Qed.

Lemma py_sort_sorted l : StronglySorted key_le (py_sort l).
Proof. induction l; simpl; [constructor|by apply sort_insert_sorted]. Qed.

Lemma sort_insert_app_l x l1 l2 :
  Forall (key_le x) l2 → sort_insert x (l1 ++ l2) = sort_insert x l1 ++ l2.
Proof.
  intros H2. induction l1 as [|y l1 IH]; simpl.
  - destruct l2 as [|z l2]; [done|]. simpl.
    apply Forall_cons in H2 as [Hz _]. unfold key_le in Hz.
    by rewrite (proj2 (Qleb_true _ _) Hz).
  - case_match; [done|]. by rewrite IH.
Qed.

Lemma sort_insert_app_r x l1 l2 :
  Forall (λ y, (key y < key x)%Q) l1 →
  sort_insert x (l1 ++ l2) = l1 ++ sort_insert x l2.
Proof.
  induction 1 as [|y l1 Hy _ IH]; simpl; [done|].
  by rewrite (proj2 (Qleb_false _ _) Hy), IH.
Qed.

(** Sorting the two halves of a split whose left keys are all below its right
    keys is sorting the whole list, ties included. *)
Lemma py_sort_split (p : A → bool) l :
  (∀ x y, x ∈ l → y ∈ l → p x = true → p y = false → (key x < key y)%Q) →
  py_sort l = py_sort (filter (λ x, p x = true) l)
           ++ py_sort (filter (λ x, p x = false) l).
Proof.
  induction l as [|a l IH]; intros Hp; [done|].
  simpl py_sort. rewrite IH by (intros x y Hx Hy; apply Hp; by constructor).
  rewrite !filter_cons. destruct (p a) eqn:Ea; simpl.
  - rewrite sort_insert_app_l; [done|].
    rewrite py_sort_perm. apply Forall_forall.
    intros y [Hy Hin]%list_elem_of_filter.
    unfold key_le. enough (key a < key y)%Q by lra. apply Hp; set_solver.
  - rewrite sort_insert_app_r; [done|].
    rewrite py_sort_perm. apply Forall_forall.
    intros y [Hy Hin]%list_elem_of_filter. apply Hp; set_solver.
Qed.
End stable_sort.

(** ** Lists *)

Lemma filter_partition_perm {A} (p : A → bool) (l : list A) :
  filter (λ x, p x = true) l ++ filter (λ x, p x = false) l ≡ₚ l.
Proof.
  induction l as [|a l IH]; [done|].
  rewrite !filter_cons. destruct (p a); simpl.
  - by rewrite IH.
  - rewrite <- Permutation_middle. by rewrite IH.
Qed.

Lemma filter_none {A} (P : A → Prop) `{∀ x, Decision (P x)} (l : list A) :
  (∀ x, x ∈ l → ¬ P x) → filter P l = [].
Proof.
  induction l as [|a l IH]; intros HP; [done|].
  rewrite filter_cons_False by (apply HP; set_solver). apply IH. set_solver.
Qed.

Lemma filter_every {A} (P : A → Prop) `{∀ x, Decision (P x)} (l : list A) :
  (∀ x, x ∈ l → P x) → filter P l = l.
Proof.
  induction l as [|a l IH]; intros HP; [done|].
  rewrite filter_cons_True by (apply HP; set_solver). f_equal. apply IH. set_solver.
Qed.

(** Removing from a duplicate-free list the elements of a part of it leaves
    exactly the rest. *)
Lemma filter_notin_perm `{EqDecision A} (l s r : list A) :
  NoDup l → l ≡ₚ s ++ r → filter (λ x, x ∉ s) l ≡ₚ r.
Proof.
  intros Hnd Hp. rewrite Hp in Hnd. apply NoDup_app in Hnd as (_ & Hdis & _).
  rewrite Hp, filter_app.
  rewrite (filter_none _ s) by set_solver.
  rewrite (filter_every _ r) by (intros x Hx Hs; by apply (Hdis x)). done.
Qed.
