(* ===== verification/PyVal.v ===== *)
(** Python values as the request path carries them: the payloads of tasks, the
    results of workers and the JSON documents exchanged with other processes.
    A value is built from the constructors a JSON decoder produces; a dict keeps
    its insertion order, as Python's does. *)
From S2P Require Import Prelude.

#[warnings="-register-all"]
Inductive pyval :=
| PyNone
| PyBool (b : bool)
| PyInt (z : Z)
| PyFloat (q : Q)
| PyStr (s : string)
| PyList (l : list pyval)
| PyDict (d : list (string * pyval)).

(** ** Dictionaries *)

(** [d.get(k)]: the value of the key, if it is there. *)
Fixpoint dict_lookup {V} (d : list (string * V)) (k : string) : option V :=
  match d with
  | [] => None
  | (k', v) :: d' => if decide (k = k') then Some v else dict_lookup d' k
  end.

(** [d.get(k, default)]. *)
Definition dict_get {V} (d : list (string * V)) (k : string) (default : V) : V :=
  match dict_lookup d k with Some v => v | None => default end.

(** [d[k] = v]: an existing key keeps its position, a new one goes last. *)
Fixpoint dict_set {V} (d : list (string * V)) (k : string) (v : V) : list (string * V) :=
  match d with
  | [] => [(k, v)]
  | (k', v') :: d' =>
      if decide (k = k') then (k', v) :: d' else (k', v') :: dict_set d' k v
  end.

(** [del d[k]] and [d.pop(k)] (the entry removed; nothing when it is absent). *)
Definition dict_del {V} (d : list (string * V)) (k : string) : list (string * V) :=
  filter (λ kv, kv.1 ≠ k) d.

Definition dict_keys {V} (d : list (string * V)) : list string := d.*1.
Definition dict_values {V} (d : list (string * V)) : list V := d.*2.

Section dict.
Context {V : Type}.
Implicit Types d : list (string * V).

Lemma dict_lookup_set_eq d k v : dict_lookup (dict_set d k v) k = Some v.
Proof.
  induction d as [|[k' v'] d IH]; simpl; [by rewrite decide_True|].
  destruct (decide (k = k')) as [->|Hne]; simpl.
  - by rewrite decide_True.
  - by rewrite decide_False.
Qed.

Lemma dict_lookup_set_ne d k k' v :
  k ≠ k' → dict_lookup (dict_set d k v) k' = dict_lookup d k'.
Proof.
  intros Hne. induction d as [|[j w] d IH]; simpl; [by rewrite decide_False|].
  destruct (decide (k = j)) as [->|Hkj]; simpl.
  - by rewrite !decide_False by done.
  - by case_decide.
Qed.

Lemma dict_lookup_del_eq d k : dict_lookup (dict_del d k) k = None.
Proof.
  unfold dict_del. induction d as [|[j w] d IH]; [done|].
  rewrite filter_cons. case_decide as Hj; simpl in *; [|done].
  by rewrite decide_False.
Qed.

Lemma dict_lookup_del_ne d k k' :
  k ≠ k' → dict_lookup (dict_del d k) k' = dict_lookup d k'.
Proof.
  intros Hne. unfold dict_del. induction d as [|[j w] d IH]; [done|].
  rewrite filter_cons. case_decide as Hj; simpl in *.
  - by case_decide.
  - rewrite decide_False; [done|]. congruence.
Qed.

Lemma dict_lookup_elem d k v : dict_lookup d k = Some v → (k, v) ∈ d.
Proof.
  induction d as [|[j w] d IH]; simpl; [done|].
  case_decide; intros; simplify_eq; set_solver.
Qed.

Lemma dict_keys_cons d k j w :
  k ∈ dict_keys ((j, w) :: d) ↔ k = j ∨ k ∈ dict_keys d.
Proof. apply elem_of_cons. Qed.

Lemma dict_lookup_None d k : dict_lookup d k = None ↔ k ∉ dict_keys d.
Proof.
  induction d as [|[j w] d IH]; [set_solver|]. cbn [dict_lookup].
  rewrite dict_keys_cons. case_decide as Hj; [|rewrite IH]; naive_solver.
Qed.

Lemma dict_elem_lookup d k v :
  NoDup (dict_keys d) → (k, v) ∈ d → dict_lookup d k = Some v.
Proof.
  induction d as [|[j w] d IH]; simpl; [set_solver|].
  intros [Hj Hnd]%NoDup_cons [Heq|Hin]%elem_of_cons.
  - simplify_eq. by rewrite decide_True.
  - rewrite decide_False; [by apply IH|].
    intros ->. apply Hj. apply list_elem_of_fmap. by exists (j, v).
Qed.

Lemma dict_keys_set d k v :
  dict_keys (dict_set d k v)
  = if decide (k ∈ dict_keys d) then dict_keys d else dict_keys d ++ [k].
Proof.
  induction d as [|[j w] d IH]; [done|]. simpl dict_set.
  destruct (decide (k = j)) as [->|Hne].
  - rewrite decide_True; [done|]. apply dict_keys_cons. by left.
  - change (j :: dict_keys (dict_set d k v) =
      if decide (k ∈ dict_keys ((j, w) :: d)) then j :: dict_keys d
      else (j :: dict_keys d) ++ [k]).
    rewrite IH. pose proof (dict_keys_cons d k j w).
    case_decide; case_decide; naive_solver.
Qed.

Lemma dict_set_nodup d k v :
  NoDup (dict_keys d) → NoDup (dict_keys (dict_set d k v)).
Proof.
  intros Hnd. rewrite dict_keys_set. case_decide; [done|].
  apply NoDup_app. split_and!; [done|set_solver|apply NoDup_singleton].
Qed.

Lemma dict_elem_set d k v j w :
  (j, w) ∈ dict_set d k v → (j, w) = (k, v) ∨ (j, w) ∈ d.
Proof.
  induction d as [|[i u] d IH]; simpl; [set_solver|].
  case_decide as Hk; [subst|]; intros [?|Hin]%elem_of_cons; set_solver.
Qed.

Lemma dict_elem_del d k j w : (j, w) ∈ dict_del d k → j ≠ k ∧ (j, w) ∈ d.
Proof. unfold dict_del. rewrite list_elem_of_filter. simpl. auto. Qed.

Lemma dict_del_keys d k :
  dict_keys (dict_del d k) = filter (λ j, j ≠ k) (dict_keys d).
Proof.
  unfold dict_keys, dict_del. induction d as [|[j w] d IH]; [done|].
  rewrite fmap_cons, !filter_cons. cbn [fst].
  case_decide; [by rewrite fmap_cons, IH|done].
Qed.

Lemma dict_del_nodup d k :
  NoDup (dict_keys d) → NoDup (dict_keys (dict_del d k)).
Proof. intros Hnd. rewrite dict_del_keys. by apply NoDup_filter. Qed.
End dict.

(** ** Tests the source performs on values *)

Definition is_dict (v : pyval) : bool := match v with PyDict _ => true | _ => false end.
Definition is_str (v : pyval) : bool := match v with PyStr _ => true | _ => false end.

(** [v == "s"] for a string literal. *)
Definition py_eq_str (v : pyval) (s : string) : bool :=
  match v with PyStr s' => bool_decide (s' = s) | _ => false end.

Lemma py_eq_str_true v s : py_eq_str v s = true ↔ v = PyStr s.
Proof.
  destruct v; simpl; try (split; [done|congruence]).
  rewrite bool_decide_eq_true. split; congruence.
Qed.

(** [v.get(k, default)] when [v] is known to be a dict. *)
Definition pyval_get (v : pyval) (k : string) (default : pyval) : pyval :=
  match v with PyDict d => dict_get d k default | _ => default end.

(** Truth value testing, [bool(v)]. *)
Definition py_truthy (v : pyval) : bool :=
  match v with
  | PyNone => false
  | PyBool b => b
  | PyInt z => negb (z =? 0)
  | PyFloat q => negb (Qeq_bool q 0)
  | PyStr s => negb (bool_decide (s = EmptyString))
  | PyList l => match l with [] => false | _ => true end
  | PyDict d => match d with [] => false | _ => true end
  end.

(** ** [v == w]

    Numbers compare by value whatever their type, dicts whatever their order. *)

Definition py_number (v : pyval) : option Q :=
  match v with
  | PyBool b => Some (if b then 1 else 0)%Q
  | PyInt z => Some (inject_Z z)
  | PyFloat q => Some q
  | _ => None
  end.

Fixpoint py_eq (v w : pyval) {struct v} : bool :=
  match v, w with
  | PyNone, PyNone => true
  | PyStr s, PyStr t => bool_decide (s = t)
  | PyList l, PyList k =>
      (fix go (l k : list pyval) : bool :=
         match l, k with
         | [], [] => true
         | x :: l', y :: k' => py_eq x y && go l' k'
         | _, _ => false
         end) l k
  | PyDict d, PyDict e =>
      bool_decide (length d = length e) &&
      (fix go (d : list (string * pyval)) : bool :=
         match d with
         | [] => true
         | (k, x) :: d' => match dict_lookup e k with Some y => py_eq x y && go d' | None => false end
         end) d
  | _, _ => match py_number v, py_number w with Some a, Some b => Qeq_bool a b | _, _ => false end
  end.

Lemma py_eq_string v s : py_eq v (PyStr s) = py_eq_str v s.
Proof. by destruct v. Qed.

Example py_eq_ok :
  py_eq (PyDict [("a", PyInt 1); ("b", PyList [PyNone])]) (PyDict [("b", PyList [PyNone]); ("a", PyFloat 1)])%string = true ∧
  py_eq (PyList [PyInt 1]) (PyList [PyInt 1; PyInt 2]) = false ∧ py_eq (PyStr "1") (PyInt 1) = false.
Proof. done. Qed.

(** ** Python's [x * x] *)

Definition type_name (v : pyval) : string :=
  match v with
  | PyNone => "NoneType" | PyBool _ => "bool" | PyInt _ => "int"
  | PyFloat _ => "float" | PyStr _ => "str" | PyList _ => "list" | PyDict _ => "dict"
  end%string.

(** The value of [x * x], or the text of the [TypeError] it raises.  A [bool]
    multiplies as the integer it is. *)
Definition py_square (x : pyval) : pyval + string :=
  match x with
  | PyInt z => inl (PyInt (z * z))
  | PyBool b => inl (PyInt (if b then 1 else 0))
  | PyFloat q => inl (PyFloat (q * q)%Q)
  | PyStr _ | PyList _ =>
      inr ("can't multiply sequence by non-int of type '" +:+ type_name x +:+ "'")%string
  | PyNone | PyDict _ =>
      inr ("unsupported operand type(s) for *: '" +:+ type_name x +:+ "' and '"
             +:+ type_name x +:+ "'")%string
  end.

(** ** [str.strip]

    Strings are byte strings, so of the characters Python counts as white space
    the ASCII ones are recognised. *)

Definition is_space (c : Ascii.ascii) : bool :=
  let n := Ascii.nat_of_ascii c in
  ((9 <=? n) && (n <=? 13) || (28 <=? n) && (n <=? 32))%nat.

(** [not s.strip()]. *)
Definition py_blank (s : string) : bool := forallb is_space (String.list_ascii_of_string s).

(** [s.strip()]. *)
Fixpoint drop_spaces (l : list Ascii.ascii) : list Ascii.ascii :=
  match l with
  | [] => []
  | c :: l' => if is_space c then drop_spaces l' else l
  end.

Definition py_strip (s : string) : string :=
  String.string_of_list_ascii
    (rev (drop_spaces (rev (drop_spaces (String.list_ascii_of_string s))))).

Lemma drop_spaces_nil l : drop_spaces l = [] ↔ forallb is_space l = true.
Proof.
  induction l as [|c l IH]; simpl; [done|]. destruct (is_space c); simpl; [done|].
  split; done.
Qed.

Lemma py_strip_blank s : py_strip s = EmptyString ↔ py_blank s = true.
Proof.
  unfold py_strip, py_blank. set (l := String.list_ascii_of_string s). clearbody l. clear s.
  rewrite <- drop_spaces_nil. split.
  - intros H. destruct (drop_spaces l) as [|c k] eqn:E; [done|].
    assert (rev (drop_spaces (rev (c :: k))) = []) as Hn.
    { by destruct (rev (drop_spaces (rev (c :: k)))). }
    apply (f_equal (@rev _)) in Hn. rewrite rev_involutive in Hn. simpl in Hn.
    apply drop_spaces_nil in Hn. rewrite forallb_app in Hn. simpl in Hn.
    assert (is_space c = false) as Hc.
    { clear -E. induction l as [|d l IH]; simpl in E; [done|].
      destruct (is_space d) eqn:Ed; [by apply IH|]. by injection E as -> _. }
    rewrite Hc, andb_false_r in Hn. done.
  - intros ->. done.
Qed.

(** A text without white space at its ends is its own strip. *)
Lemma py_strip_tight s : forallb (λ c, negb (is_space c)) (String.list_ascii_of_string s) = true → py_strip s = s.
Proof.
  unfold py_strip. set (l := String.list_ascii_of_string s). intros H.
  assert (∀ k, forallb (λ c, negb (is_space c)) k = true → drop_spaces k = k) as Hd.
  { intros [|c k]; simpl; [done|]. destruct (is_space c); [done|]. done. }
  rewrite (Hd l H), (Hd (rev l)), rev_involutive; [apply String.string_of_list_ascii_of_string|].
  rewrite forallb_forall in *. intros c Hc. apply H. by apply in_rev.
Qed.

Lemma string_app_cancel (a b c : string) : (a +:+ b = a +:+ c)%string → b = c.
Proof. induction a as [|x a IH]; simpl; [done|]. intros [= H]. auto. Qed.

(** ** [int] of a string *)

Abbreviation chars := (list Ascii.ascii).
Definition chars_of (s : string) : chars := String.list_ascii_of_string s.

Definition is_char (c : Ascii.ascii) (code : nat) : bool := bool_decide (Ascii.nat_of_ascii c = code).

(** [s.rstrip('/')], on characters. *)
Fixpoint rstrip_slash (l : list Ascii.ascii) : list Ascii.ascii :=
  match l with
  | [] => []
  | c :: l' => match rstrip_slash l' with [] => if is_char c 47 then [] else [c] | r => c :: r end
  end.

Definition digit_of (c : Ascii.ascii) : option Z :=
  let n := Z.of_nat (Ascii.nat_of_ascii c) in
  if (48 <=? n) && (n <=? 57) then Some (n - 48) else None.

(** The leading digits: their value and number, and the rest. *)
Fixpoint read_digits (acc : Z) (count : nat) (l : chars) : Z * nat * chars :=
  match l with
  | c :: l' => match digit_of c with
               | Some d => read_digits (10 * acc + d) (S count) l'
               | None => (acc, count, l)
               end
  | [] => (acc, count, [])
  end.

Definition read_sign (l : chars) : bool * chars :=
  match l with
  | c :: l' => if is_char c 45 then (true, l')
               else if is_char c 43 then (false, l') else (false, l)
  | [] => (false, [])
  end.

(** Digits with single underscores between them. *)
Fixpoint int_digits (acc : Z) (after_digit : bool) (l : chars) : option Z :=
  match l with
  | [] => if after_digit then Some acc else None
  | c :: l' =>
      if is_char c 95 then if after_digit then int_digits acc false l' else None
      else d ← digit_of c; int_digits (10 * acc + d) true l'
  end.

(** [int(s)]; [None] is its [ValueError]. *)
Definition py_int_of (s : string) : option Z :=
  let '(neg, l) := read_sign (chars_of (py_strip s)) in
  n ← int_digits 0 false l; Some (if neg then - n else n).

Example py_int_of_ok :
  py_int_of " 12_0 " = Some 120 ∧ py_int_of "-3" = Some (-3) ∧ py_int_of "1_" = None ∧ py_int_of EmptyString = None.
Proof. done. Qed.
