(* ===== verification/JsonCodec.v ===== *)
(** What the program relies on of the [json] module: a value that is dumped is loaded again.
    The interface is a class; an instance shows that it can be met.  Its text is not JSON
    (no theorem looks at it), only as faithful. *)
From stdpp Require Import countable.
From S2P Require Import Prelude PyVal.

(** [json.loads(json.dumps(v)) == v] for the values of this model. *)
Class JsonRoundTrip (dumps : pyval → string) (loads : string → pyval + string) : Prop :=
  json_round_trip : ∀ v, loads (dumps v) = inl v.

(** ** An instance: values as trees, trees as numbers, numbers as digits *)

(** The nested induction that [pyval] needs. *)
Lemma pyval_nested_ind (P : pyval → Prop) :
  P PyNone → (∀ b, P (PyBool b)) → (∀ z, P (PyInt z)) → (∀ q, P (PyFloat q)) → (∀ s, P (PyStr s)) →
  (∀ l, Forall P l → P (PyList l)) → (∀ d, Forall (λ kv, P kv.2) d → P (PyDict d)) → ∀ v, P v.
Proof.
  intros Hn Hb Hi Hf Hs Hl Hd. fix IH 1. intros [|b|z|q|s|l|d]; [exact Hn|apply Hb|apply Hi|apply Hf|apply Hs| |].
  - apply Hl. induction l as [|v l IHl]; constructor; [apply IH|exact IHl].
  - apply Hd. induction d as [|[k v] d IHd]; constructor; [apply IH|exact IHd].
Qed.

Definition json_leaf : Type := (bool + Z) + ((Z * positive) + string).

Fixpoint tree_of (v : pyval) : gen_tree json_leaf :=
  match v with
  | PyNone => GenNode 0 []
  | PyBool b => GenLeaf (inl (inl b))
  | PyInt z => GenLeaf (inl (inr z))
  | PyFloat q => GenLeaf (inr (inl (Qnum q, Qden q)))
  | PyStr s => GenLeaf (inr (inr s))
  | PyList l => GenNode 1 (map tree_of l)
  | PyDict d => GenNode 2 (map (λ kv, GenNode 3 [GenLeaf (inr (inr kv.1)); tree_of kv.2]) d)
  end.

Fixpoint of_tree (t : gen_tree json_leaf) : pyval :=
  match t with
  | GenLeaf (inl (inl b)) => PyBool b
  | GenLeaf (inl (inr z)) => PyInt z
  | GenLeaf (inr (inl (n, d))) => PyFloat (Qmake n d)
  | GenLeaf (inr (inr s)) => PyStr s
  | GenNode 1 l => PyList (map of_tree l)
  | GenNode 2 l =>
      PyDict (map (λ t, match t with
                        | GenNode 3 [GenLeaf (inr (inr k)); u] => (k, of_tree u)
                        | _ => (EmptyString, PyNone)
                        end) l)
  | _ => PyNone
  end.

Lemma of_tree_of v : of_tree (tree_of v) = v.
Proof.
  induction v as [| | |[]| |l IH|d IH] using pyval_nested_ind; try done; simpl; f_equal.
  - induction IH as [|v l Hv _ IHl]; [done|]. simpl. by rewrite Hv, IHl.
  - induction IH as [|[k v] d Hv _ IHd]; [done|]. simpl in *. by rewrite Hv, IHd.
Qed.

Fixpoint digits_of (p : positive) : string :=
  match p with
  | xH => EmptyString
  | xO p => String (Ascii.ascii_of_nat 48) (digits_of p)
  | xI p => String (Ascii.ascii_of_nat 49) (digits_of p)
  end.

Fixpoint of_digits (s : string) : option positive :=
  match s with
  | EmptyString => Some xH
  | String c s => p ← of_digits s; if is_char c 48 then Some (xO p) else if is_char c 49 then Some (xI p) else None
  end.

Lemma of_digits_of p : of_digits (digits_of p) = Some p.
Proof. by induction p as [p IH|p IH|]; simpl; rewrite ?IH. Qed.

Definition text_dumps (v : pyval) : string := digits_of (encode (tree_of v)).
Definition text_loads (s : string) : pyval + string :=
  match of_digits s ≫= decode with
  | Some t => inl (of_tree t)
  | None => inr "Expecting value"%string
  end.

#[export] Instance text_round_trip : JsonRoundTrip text_dumps text_loads.
Proof. intros v. unfold text_loads, text_dumps. rewrite of_digits_of. cbn [mbind option_bind].
  by rewrite decode_encode, of_tree_of. Qed.

Example text_round_trip_computes :
  text_loads (text_dumps (PyDict [("x", PyList [PyInt 3; PyFloat (1 # 2)]); ("y", PyStr "z")]%string))
    = inl (PyDict [("x", PyList [PyInt 3; PyFloat (1 # 2)]); ("y", PyStr "z")]%string).
Proof. vm_compute. reflexivity. Qed.
