(* ===== verification/Tasks.v ===== *)
(** The task record of [src/system/task.py]: its life cycle, its locked updates
    and its deadline arithmetic, with the store of shared task objects that the
    queue, the proxies and the API handler all point into. *)
From S2P Require Import Prelude PyVal.

(** ** Data *)

Inductive TaskStatus := PENDING | PROCESSING | DONE | FAILED.

#[export] Instance TaskStatus_eq_dec : EqDecision TaskStatus.
Proof. solve_decision. Defined.

Definition status_value (s : TaskStatus) : string :=
  match s with
  | PENDING => "pending" | PROCESSING => "processing"
  | DONE => "done" | FAILED => "failed"
  end%string.

Record Task := mkTask {
  input_data : pyval;
  task_id : string;
  creation_time : Q;
  status : TaskStatus;
  result : pyval;
  error : option string;
  error_code : option string;
  start_time : option Q;
  end_time : option Q;
  deadline : option Q;
  retry_count : Z;
}.

(** The constructor call [Task(input_data=..., deadline=...)]: the identifier
    and the creation time come from the defaults [uuid.uuid4] and [time.time]. *)
Definition new_task (data : pyval) (uuid : string) (wall : Q) (dl : option Q) : Task :=
  mkTask data uuid wall PENDING PyNone None None None None dl 0.

(** [self.status in (TaskStatus.DONE, TaskStatus.FAILED)]. *)
Definition is_terminal (t : Task) : bool :=
  match status t with DONE | FAILED => true | PENDING | PROCESSING => false end.

(** ** Clocks: [wall] is a reading of [time.time()], [mono] one of
    [time.monotonic()] *)

Definition age_ms (wall : Q) (t : Task) : Q := ((wall - creation_time t) * 1000)%Q.

Definition processing_latency_ms (t : Task) : option Q :=
  match start_time t, end_time t with
  | Some s, Some e => Some ((e - s) * 1000)%Q
  | _, _ => None
  end.

Definition remaining_seconds (mono : Q) (t : Task) : option Q :=
  match deadline t with
  | None => None
  | Some d => Some (py_max0 (d - mono)%Q)
  end.

Definition is_expired (mono : Q) (t : Task) : bool :=
  match remaining_seconds mono t with
  | Some r => r <=?q 0
  | None => false
  end.

(** ** Locked updates *)

Definition mark_processing (wall : Q) (t : Task) : Task :=
  if is_terminal t then t
  else mkTask (input_data t) (task_id t) (creation_time t) PROCESSING (result t)
         (error t) (error_code t)
         (match start_time t with None => Some wall | Some s => Some s end)
         (end_time t) (deadline t) (retry_count t).

Definition mark_done (wall : Q) (r : pyval) (t : Task) : Task :=
  if is_terminal t then t
  else mkTask (input_data t) (task_id t) (creation_time t) DONE r
         (error t) (error_code t) (start_time t) (Some wall) (deadline t) (retry_count t).

Definition mark_failed (wall : Q) (err : string) (code : option string) (t : Task) : Task :=
  if is_terminal t then t
  else mkTask (input_data t) (task_id t) (creation_time t) FAILED (result t)
         (Some err) code (start_time t) (Some wall) (deadline t) (retry_count t).

Definition try_reserve_retry (mono : Q) (t : Task) : bool * Task :=
  if is_terminal t then (false, t)
  else if is_expired mono t || (1 <=? retry_count t) then (false, t)
  else (true,
        mkTask (input_data t) (task_id t) (creation_time t) (status t) (result t)
          (error t) (error_code t) (start_time t) (end_time t) (deadline t)
          (retry_count t + 1)).

(** [round(x, 2)]: to the nearest hundredth, ties to the even one. *)
Definition py_round2 (x : Q) : Q :=
  let y := (x * 100)%Q in
  let f := Qfloor y in
  let d := (y - inject_Z f)%Q in
  let n := if d <?q (1 # 2) then f
           else if (1 # 2) <?q d then f + 1
           else if Z.even f then f else f + 1 in
  (n # 100)%Q.

Definition opt_val {A} (f : A → pyval) (o : option A) : pyval :=
  match o with Some a => f a | None => PyNone end.

Definition to_dict (wall : Q) (t : Task) : list (string * pyval) :=
  [("task_id", PyStr (task_id t));
   ("status", PyStr (status_value (status t)));
   ("result", result t);
   ("error", opt_val PyStr (error t));
   ("age_ms", PyFloat (py_round2 (age_ms wall t)));
   ("processing_latency_ms",
      opt_val (λ l, PyFloat (py_round2 l)) (processing_latency_ms t))]%string.

(** ** The operations as one alphabet: each is one critical section of the
    task's lock, so any concurrent use of a task is a sequence of them *)

Inductive task_op :=
| OpProcessing (wall : Q)
| OpDone (wall : Q) (r : pyval)
| OpFailed (wall : Q) (err : string) (code : option string)
| OpReserve (mono : Q).

(** The updated task, and whether the operation returned [True] (only
    [try_reserve_retry] returns a value). *)
Definition run_op (t : Task) (o : task_op) : bool * Task :=
  match o with
  | OpProcessing wall => (false, mark_processing wall t)
  | OpDone wall r => (false, mark_done wall r t)
  | OpFailed wall err code => (false, mark_failed wall err code t)
  | OpReserve mono => try_reserve_retry mono t
  end.

Definition apply_op (t : Task) (o : task_op) : Task := (run_op t o).2.

Definition run_ops (t : Task) (os : list task_op) : Task := foldl apply_op t os.

Definition task_step (t t' : Task) : Prop := ∃ o, t' = apply_op t o.

(** The number of retries granted along a sequence. *)
Fixpoint grants (t : Task) (os : list task_op) : Z :=
  match os with
  | [] => 0
  | o :: os' => let '(b, t') := run_op t o in (if b then 1 else 0) + grants t' os'
  end.

(** ** What a terminal task keeps *)

Lemma terminal_status t : is_terminal t = true ↔ status t = DONE ∨ status t = FAILED.
Proof. unfold is_terminal. destruct (status t); intuition congruence. Qed.

Lemma apply_op_terminal t o : is_terminal t = true → apply_op t o = t.
Proof.
  intros Ht. destruct o; unfold apply_op; simpl;
    unfold mark_processing, mark_done, mark_failed, try_reserve_retry; by rewrite Ht.
Qed.

Lemma run_ops_terminal t os : is_terminal t = true → run_ops t os = t.
Proof.
  intros Ht. induction os as [|o os IH]; [done|].
  unfold run_ops in *. simpl. by rewrite apply_op_terminal.
Qed.

(** No operation touches the identity, the payload, the creation time or the
    deadline. *)
Lemma apply_op_frame t o :
  input_data (apply_op t o) = input_data t ∧ task_id (apply_op t o) = task_id t ∧
  creation_time (apply_op t o) = creation_time t ∧ deadline (apply_op t o) = deadline t.
Proof.
  destruct o; unfold apply_op; simpl;
    unfold mark_processing, mark_done, mark_failed, try_reserve_retry; cases; done.
Qed.

Lemma run_ops_frame t os :
  input_data (run_ops t os) = input_data t ∧ task_id (run_ops t os) = task_id t ∧
  creation_time (run_ops t os) = creation_time t ∧ deadline (run_ops t os) = deadline t.
Proof.
  revert t. induction os as [|o os IH]; intros t; [done|].
  change (run_ops t (o :: os)) with (run_ops (apply_op t o) os).
  destruct (IH (apply_op t o)) as (-> & -> & -> & ->). apply apply_op_frame.
Qed.

(** ** Well-formedness *)

Definition task_wf (t : Task) : Prop :=
  (0 <= retry_count t <= 1) ∧
  match status t with
  | PENDING => start_time t = None ∧ end_time t = None ∧ result t = PyNone ∧
               error t = None ∧ error_code t = None
  | PROCESSING => is_Some (start_time t) ∧ end_time t = None ∧ result t = PyNone ∧
                  error t = None ∧ error_code t = None
  | DONE => is_Some (end_time t) ∧ error t = None ∧ error_code t = None
  | FAILED => is_Some (end_time t) ∧ is_Some (error t) ∧ result t = PyNone
  end.

Lemma new_task_wf data uuid wall dl : task_wf (new_task data uuid wall dl).
Proof. repeat split; simpl; (done || lia). Qed.

Lemma apply_op_wf t o : task_wf t → task_wf (apply_op t o).
Proof.
  intros [Hr Hs]. destruct o; unfold apply_op; simpl;
    unfold mark_processing, mark_done, mark_failed, try_reserve_retry, task_wf,
      is_terminal in *;
    destruct (status t) eqn:E; simpl; rewrite ?E;
    repeat (case_match; simpl; rewrite ?E); zbool; destruct_and?; split_and?;
    eauto; lia.
Qed.

(** ** Deadlines *)

Lemma remaining_seconds_nonneg mono t r :
  remaining_seconds mono t = Some r → (0 <= r)%Q.
Proof.
  unfold remaining_seconds. case_match; intros; simplify_eq. apply py_max0_nonneg.
Qed.

Lemma is_expired_spec mono t :
  is_expired mono t = true ↔ ∃ d, deadline t = Some d ∧ (d <= mono)%Q.
Proof.
  unfold is_expired, remaining_seconds. destruct (deadline t) as [d|].
  - rewrite Qleb_true. pose proof (py_max0_pos (d - mono)) as Hp. split.
    + intros H. exists d. split; [done|].
      apply Qnot_lt_le. intros Hlt. assert (0 < d - mono)%Q as H0 by lra.
      apply Hp in H0. lra.
    + intros (? & [= <-] & Hle). apply Qnot_lt_le. intros Hlt%Hp. lra.
  - split; [done|naive_solver].
Qed.

Lemma is_expired_mono t m1 m2 :
  (m1 <= m2)%Q → is_expired m1 t = true → is_expired m2 t = true.
Proof.
  intros Hle (d & Hd & Hm)%is_expired_spec. apply is_expired_spec.
  exists d. split; [done|]. lra.
Qed.

(** ** The store of task objects

    Queues, batches and handlers hold references to the same object; a reference
    is a number and the store maps it to the object's present state. *)

Abbreviation tref := nat (only parsing).
Abbreviation store := (gmap nat Task).

(** [h2] is a later store than [h1]: every object is still there and has only
    undergone task operations; new objects may have been created. *)
Definition store_le (h1 h2 : store) : Prop :=
  ∀ r t, h1 !! r = Some t → ∃ os, h2 !! r = Some (run_ops t os).

#[export] Instance store_le_preorder : PreOrder store_le.
Proof.
  split.
  - intros h r t Hr. by exists [].
  - intros h1 h2 h3 H12 H23 r t Hr. destruct (H12 r t Hr) as [o1 H2].
    destruct (H23 r _ H2) as [o2 H3]. exists (o1 ++ o2).
    unfold run_ops in *. by rewrite foldl_app.
Qed.

Lemma store_le_alter (h : store) r f :
  (∀ t, h !! r = Some t → ∃ os, f t = run_ops t os) → store_le h (alter f r h).
Proof.
  intros Hf r' t Hr'. destruct (decide (r = r')) as [<-|Hne].
  - rewrite lookup_alter_eq, Hr'. simpl. destruct (Hf t Hr') as [os ->]. by exists os.
  - rewrite lookup_alter_ne by done. by exists [].
Qed.

Lemma store_le_op (h : store) r o : store_le h (alter (λ t, apply_op t o) r h).
Proof. apply store_le_alter. intros t _. by exists [o]. Qed.

Lemma store_le_mark_failed wall err code r (h : store) :
  store_le h (alter (mark_failed wall err code) r h).
Proof. apply (store_le_op h r (OpFailed wall err code)). Qed.

Lemma store_le_mark_done wall v r (h : store) :
  store_le h (alter (mark_done wall v) r h).
Proof. apply (store_le_op h r (OpDone wall v)). Qed.

Lemma store_le_mark_processing wall r (h : store) :
  store_le h (alter (mark_processing wall) r h).
Proof. apply (store_le_op h r (OpProcessing wall)). Qed.

Lemma store_le_reserve mono r (h : store) :
  store_le h (alter (λ t, (try_reserve_retry mono t).2) r h).
Proof. apply (store_le_op h r (OpReserve mono)). Qed.

(** A terminal task of the store stays exactly as it is. *)
Lemma store_le_terminal h1 h2 r t :
  store_le h1 h2 → h1 !! r = Some t → is_terminal t = true → h2 !! r = Some t.
Proof.
  intros Hle Hr Ht. destruct (Hle r t Hr) as [os H2]. by rewrite run_ops_terminal in H2.
Qed.

(** The reference points at a finished task. *)
Definition settled (h : store) (r : tref) : Prop :=
  ∃ t, h !! r = Some t ∧ is_terminal t = true.

Lemma settled_mono h1 h2 r : store_le h1 h2 → settled h1 r → settled h2 r.
Proof. intros Hle (t & Hr & Ht). exists t. eauto using store_le_terminal. Qed.

Lemma mark_failed_terminal wall err code t :
  is_terminal (mark_failed wall err code t) = true.
Proof. unfold mark_failed. by destruct (is_terminal t) eqn:E. Qed.

Lemma mark_done_terminal wall v t : is_terminal (mark_done wall v t) = true.
Proof. unfold mark_done. by destruct (is_terminal t) eqn:E. Qed.

Lemma settled_alter (h : store) r f :
  (∀ t, is_terminal (f t) = true) → is_Some (h !! r) → settled (alter f r h) r.
Proof.
  intros Hf [t Hr]. exists (f t). by rewrite lookup_alter_eq, Hr.
Qed.

(** [for task in batch: ...] with an action of its own for each task. *)
Definition for_each (f : tref → Task → Task) (batch : list tref) (h : store) : store :=
  foldl (λ h r, alter (f r) r h) h batch.

Lemma for_each_cons f r batch h :
  for_each f (r :: batch) h = for_each f batch (alter (f r) r h).
Proof. done. Qed.

Lemma store_le_for_each f batch (h : store) :
  (∀ r t, ∃ os, f r t = run_ops t os) → store_le h (for_each f batch h).
Proof.
  intros Hf. revert h. induction batch as [|r batch IH]; intros h; [done|].
  rewrite for_each_cons. etrans; [|apply IH]. apply store_le_alter. intros; apply Hf.
Qed.

Lemma for_each_lookup f batch (h : store) r :
  NoDup batch →
  for_each f batch h !! r = if decide (r ∈ batch) then f r <$> h !! r else h !! r.
Proof.
  revert h. induction batch as [|r' batch IH]; intros h Hnd; [done|].
  apply NoDup_cons in Hnd as [Hn Hnd]. rewrite for_each_cons, IH by done.
  destruct (decide (r = r')) as [->|Hne].
  - rewrite decide_False by done. rewrite decide_True by set_solver.
    by rewrite lookup_alter_eq.
  - rewrite lookup_alter_ne by done. do 2 case_decide; set_solver.
Qed.

(** An action that finishes every task finishes the batch. *)
Lemma for_each_settled f batch (h : store) r :
  (∀ r t, is_terminal (f r t) = true ∧ ∃ os, f r t = run_ops t os) →
  r ∈ batch → is_Some (h !! r) → settled (for_each f batch h) r.
Proof.
  intros Hf. revert h. induction batch as [|r' batch IH]; intros h Hin Hr; [set_solver|].
  rewrite for_each_cons. apply elem_of_cons in Hin as [->|Hin].
  - eapply settled_mono; [apply store_le_for_each; intros; apply Hf|].
    apply settled_alter; [apply Hf|done].
  - apply IH; [done|]. by rewrite lookup_alter_is_Some.
Qed.

Create HintDb tasks discriminated.
#[export] Hint Resolve store_le_mark_failed store_le_mark_done store_le_mark_processing
  store_le_reserve store_le_for_each : tasks.
#[export] Hint Extern 1 (store_le ?h ?h) => reflexivity : tasks.

(** ** Who decides the outcome *)

(** The first operation of a sequence that publishes an outcome. *)
Fixpoint first_publication (os : list task_op) : option task_op :=
  match os with
  | [] => None
  | (OpDone _ _ | OpFailed _ _ _) as o :: _ => Some o
  | _ :: os' => first_publication os'
  end.

Lemma first_publication_unfold t o os :
  is_terminal t = false →
  match o with
  | OpDone _ _ | OpFailed _ _ _ => run_ops t (o :: os) = apply_op t o
  | _ => is_terminal (apply_op t o) = false ∧ result (apply_op t o) = result t ∧
         error (apply_op t o) = error t ∧ error_code (apply_op t o) = error_code t ∧
         end_time (apply_op t o) = end_time t
  end.
Proof.
  intros Ht. destruct o; simpl.
  - unfold apply_op; simpl. unfold mark_processing. by rewrite Ht.
  - apply run_ops_terminal, mark_done_terminal.
  - apply run_ops_terminal, mark_failed_terminal.
  - unfold apply_op; simpl. unfold try_reserve_retry. rewrite Ht.
    case_match; simpl; rewrite ?Ht; done.
Qed.

(** C4. Whatever sequence of locked updates reaches an unfinished task, its
    outcome is the one of the first update that publishes a result or an error:
    later ones change nothing, and without one the task stays unfinished with
    its outcome fields untouched. *)
Theorem first_publication_wins (t : Task) (os : list task_op) :
  is_terminal t = false →
  let t' := run_ops t os in
  match first_publication os with
  | Some (OpDone wall r) =>
      status t' = DONE ∧ result t' = r ∧ error t' = error t ∧
      error_code t' = error_code t ∧ end_time t' = Some wall
  | Some (OpFailed wall err code) =>
      status t' = FAILED ∧ result t' = result t ∧ error t' = Some err ∧
      error_code t' = code ∧ end_time t' = Some wall
  | _ =>
      is_terminal t' = false ∧ result t' = result t ∧ error t' = error t ∧
      error_code t' = error_code t ∧ end_time t' = end_time t
  end.
Proof.
  revert t. induction os as [|o os IH]; intros t Ht; [done|].
  pose proof (first_publication_unfold t o os Ht) as Ho.
  destruct o; cbn [first_publication]; cbv zeta.
  - destruct Ho as (Ht' & <- & <- & <- & <-). by apply (IH (apply_op t _)).
  - rewrite Ho. unfold apply_op; simpl. unfold mark_done. by rewrite Ht.
  - rewrite Ho. unfold apply_op; simpl. unfold mark_failed. by rewrite Ht.
  - destruct Ho as (Ht' & <- & <- & <- & <-). by apply (IH (apply_op t _)).
Qed.

Lemma first_publication_wins_witness :
  let t := new_task PyNone "id" 0 None in
  status (run_ops t [OpProcessing 1; OpFailed 2 "late" None; OpDone 3 (PyInt 9)]) = FAILED.
Proof.
  pose proof (first_publication_wins (new_task PyNone "id" 0 None)
    [OpProcessing 1; OpFailed 2 "late" None; OpDone 3 (PyInt 9)] eq_refl) as H.
  cbn [first_publication] in H. exact (proj1 H).
Defined.

(** ** The life cycle as a specification *)

Inductive life :=
| Waiting
| Running
| Succeeded (r : pyval)
| Errored (err : string) (code : option string).

Inductive life_step : life → life → Prop :=
| life_begin : life_step Waiting Running
| life_succeed l r : l = Waiting ∨ l = Running → life_step l (Succeeded r)
| life_fail l err code : l = Waiting ∨ l = Running → life_step l (Errored err code).

Definition life_of (t : Task) : life :=
  match status t with
  | PENDING => Waiting
  | PROCESSING => Running
  | DONE => Succeeded (result t)
  | FAILED => Errored (default EmptyString (error t)) (error_code t)
  end.

Lemma life_of_op t o : rtc life_step (life_of t) (life_of (apply_op t o)).
Proof.
  destruct o; unfold apply_op; simpl;
    unfold mark_processing, mark_done, mark_failed, try_reserve_retry, is_terminal, life_of;
    destruct (status t) eqn:E; simpl; rewrite ?E; try reflexivity;
    try (destruct (_ || _); simpl; rewrite ?E; reflexivity);
    apply rtc_once; eauto using life_step.
Qed.

Lemma task_step_wf t t' : task_step t t' → task_wf t → task_wf t'.
Proof. intros [o ->]. apply apply_op_wf. Qed.

(** Every task reached from a fresh one by any interleaving of its locked
    updates follows the life cycle waiting, running, then succeeded or errored
    once and for all, and is well formed: one retry at most, an end time and
    exactly one of result and error when finished, a start time when running. *)
Theorem task_refines_life_cycle data uuid wall dl (t : Task) :
  rtc task_step (new_task data uuid wall dl) t →
  rtc life_step Waiting (life_of t) ∧ task_wf t ∧ task_id t = uuid ∧
  input_data t = data ∧ deadline t = dl.
Proof.
  apply (rtc_ind_r (λ t, rtc life_step Waiting (life_of t) ∧ task_wf t ∧
    task_id t = uuid ∧ input_data t = data ∧ deadline t = dl)).
  - split_and!; (reflexivity || apply new_task_wf).
  - intros t1 t2 _ [o ->] (Hl & Hwf & <- & <- & <-).
    destruct (apply_op_frame t1 o) as (? & ? & ? & ?).
    split_and!; eauto using apply_op_wf. etrans; [exact Hl|apply life_of_op].
Qed.

Lemma task_refines_life_cycle_witness :
  let t := apply_op (new_task (PyInt 3) "id" 0 (Some 30%Q)) (OpDone 1 (PyInt 9)) in
  rtc life_step Waiting (Succeeded (PyInt 9)) ∧ task_wf t.
Proof.
  destruct (task_refines_life_cycle (PyInt 3) "id" 0 (Some 30%Q)
    (apply_op (new_task (PyInt 3) "id" 0 (Some 30%Q)) (OpDone 1 (PyInt 9))))
    as (Hl & Hwf & _).
  { apply rtc_once. by exists (OpDone 1 (PyInt 9)). }
  by split.
Defined.

(** ** Retries *)

Lemma try_reserve_retry_true mono t :
  (try_reserve_retry mono t).1 = true ↔
  is_terminal t = false ∧ is_expired mono t = false ∧ retry_count t < 1.
Proof.
  unfold try_reserve_retry. destruct (is_terminal t); [naive_solver|].
  destruct (is_expired mono t); simpl; [naive_solver|].
  destruct (1 <=? retry_count t) eqn:E; zbool; simpl; intuition (done || lia).
Qed.

Lemma run_op_count t o :
  0 <= retry_count t →
  retry_count (run_op t o).2 = retry_count t + (if (run_op t o).1 then 1 else 0) ∧
  ((run_op t o).1 = true → retry_count t = 0).
Proof.
  intros Hr. destruct o; simpl;
    unfold mark_processing, mark_done, mark_failed, try_reserve_retry;
    repeat (case_match; simpl); zbool; split; (done || lia).
Qed.

Lemma grants_bound t os :
  0 <= retry_count t → 0 <= grants t os ∧ grants t os <= Z.max 0 (1 - retry_count t).
Proof.
  revert t. induction os as [|o os IH]; intros t Hr; simpl; [lia|].
  destruct (run_op t o) as [b t'] eqn:E.
  pose proof (run_op_count t o Hr) as [Hc Hb]. rewrite E in Hc, Hb; simpl in Hc, Hb.
  destruct (IH t') as [H1 H2]; [destruct b; lia|].
  destruct b; [specialize (Hb eq_refl)|]; lia.
Qed.

(** The clock reading an operation makes, when it reads the monotonic clock. *)
Definition op_mono_after (m : Q) (o : task_op) : Prop :=
  match o with OpReserve mono => (m <= mono)%Q | _ => True end.

Lemma grants_expired m t os :
  is_expired m t = true → Forall (op_mono_after m) os → grants t os = 0.
Proof.
  revert t. induction os as [|o os IH]; intros t He Hos; simpl; [done|].
  apply Forall_cons in Hos as [Ho Hos].
  destruct (run_op t o) as [b t'] eqn:E.
  assert (b = false) as ->.
  { destruct b; [|done]. destruct o; simplify_eq/=.
    assert ((try_reserve_retry mono t).1 = true) as Hb by by rewrite E.
    apply try_reserve_retry_true in Hb as (_ & Hx & _).
    rewrite (is_expired_mono t m mono Ho He) in Hx. done. }
  apply IH; [|done]. replace t' with (apply_op t o) by (unfold apply_op; by rewrite E).
  apply is_expired_spec in He as (d & Hd & Hm). apply is_expired_spec. exists d.
  split; [|done]. rewrite <- Hd. apply apply_op_frame.
Qed.

(** Along any interleaving of locked updates of a fresh task at most one
    retry is ever granted, and none once its deadline has passed. *)
Theorem retry_granted_at_most_once data uuid wall dl (os1 os2 : list task_op) (m : Q) :
  let t := new_task data uuid wall dl in
  0 <= grants t (os1 ++ os2) <= 1 ∧
  (is_expired m t = true → Forall (op_mono_after m) os2 →
   grants (run_ops t os1) os2 = 0).
Proof.
  cbv zeta. split.
  - destruct (grants_bound (new_task data uuid wall dl) (os1 ++ os2)) as [? ?];
      [done|simpl in *; lia].
  - intros He Ho. eapply grants_expired; [|exact Ho].
    apply is_expired_spec in He as (d & Hd & Hm). apply is_expired_spec. exists d.
    split; [|done]. rewrite <- Hd. apply run_ops_frame.
Qed.

Lemma retry_granted_at_most_once_witness :
  let t := new_task PyNone "id" 0 (Some 5%Q) in
  is_expired 6 t = true ∧ grants (run_ops t [OpProcessing 1]) [OpReserve 7] = 0 ∧
  grants t [OpReserve 1; OpReserve 2] = 1.
Proof.
  split; [reflexivity|]. split; [|reflexivity].
  destruct (retry_granted_at_most_once PyNone "id" 0 (Some 5%Q) [OpProcessing 1]
    [OpReserve 7] 6) as [_ H].
  apply H; [reflexivity|]. repeat constructor. simpl. lra.
Defined.
