(* ===== verification/Justified.v ===== *)
(** The answers of completed tasks.  A relation says what may be answered to a payload; a
    store is justified when each completed task holds an answer to its own payload, and
    the tasks are told apart by their identifiers, so that results find their task. *)
From S2P Require Import Prelude PyVal Tasks.

Section justified.
Context (justifies : pyval → pyval → Prop).

(** Tasks are told apart by their identifiers, and each completed one is justified. *)
Definition unique_ids (h : store) : Prop :=
  ∀ r1 r2 t1 t2, h !! r1 = Some t1 → h !! r2 = Some t2 → task_id t1 = task_id t2 → r1 = r2.

Definition task_justified (t : Task) : Prop := status t = DONE → justifies (input_data t) (result t).

Definition justified (h : store) : Prop :=
  unique_ids h ∧ ∀ r t, h !! r = Some t → task_justified t.

(** ** Updates *)

Lemma unique_ids_evolve h1 h2 :
  (∀ r t2, h2 !! r = Some t2 → ∃ t1, h1 !! r = Some t1 ∧ task_id t2 = task_id t1) → unique_ids h1 → unique_ids h2.
Proof.
  intros H Hu r1 r2 t1 t2 H1 H2 Hid. destruct (H r1 t1 H1) as (u1 & Hu1 & E1). destruct (H r2 t2 H2) as (u2 & Hu2 & E2).
  apply (Hu r1 r2 u1 u2); congruence.
Qed.

(** A locked update of one task, which completes it only with an answer to its payload. *)
Lemma update_justified (h : store) r f :
  (∀ t, h !! r = Some t → ∃ o, f t = apply_op t o ∧
     match o with OpDone _ v => justifies (input_data t) v | _ => True end) →
  justified h → justified (alter f r h).
Proof.
  intros Hf [Hu Hj]. split.
  - eapply unique_ids_evolve; [|exact Hu]. intros q t2 [(<- & t & Ht & ->)|[_ Ht]]%lookup_alter_Some; [|eauto].
    destruct (Hf t Ht) as (o & -> & _). exists t. split; [done|apply apply_op_frame].
  - intros q t2 [(<- & t & Ht & ->)|[_ Ht]]%lookup_alter_Some; [|by eapply Hj]. specialize (Hj r t Ht).
    destruct (Hf t Ht) as (o & -> & Ho). intros Hd. rewrite (proj1 (apply_op_frame t o)).
    destruct (is_terminal t) eqn:Em; [rewrite apply_op_terminal in * by done; by apply Hj|].
    destruct o as [|?|?|?]; unfold apply_op, run_op in *.
    + exfalso. unfold mark_processing in Hd. by rewrite Em in Hd.
    + unfold mark_done. by rewrite Em.
    + exfalso. unfold mark_failed in Hd. by rewrite Em in Hd.
    + exfalso. unfold try_reserve_retry in Hd. rewrite Em in Hd. unfold is_terminal in Em.
      destruct (_ || _); simpl in Hd; by rewrite Hd in Em.
Qed.

Lemma fail_justified (h : store) r wall err code : justified h → justified (alter (mark_failed wall err code) r h).
Proof. apply update_justified. intros t _. by exists (OpFailed wall err code). Qed.

Lemma complete_justified (h : store) r wall v :
  (∀ t, h !! r = Some t → justifies (input_data t) v) → justified h → justified (alter (mark_done wall v) r h).
Proof. intros Hv. apply update_justified. intros t Ht. exists (OpDone wall v). split; [done|by apply Hv]. Qed.

(** One update for each task of a batch. *)
Lemma for_each_justified f batch (h : store) :
  (∀ r t, ∃ o, f r t = apply_op t o ∧ match o with OpDone _ v => justifies (input_data t) v | _ => True end) →
  justified h → justified (for_each f batch h).
Proof.
  intros Hf. revert h. induction batch as [|r batch IH]; intros h Hj; [done|]. rewrite for_each_cons. apply IH.
  apply update_justified; [|done]. intros t _. apply Hf.
Qed.

(** A new task with an identifier of its own. *)
Lemma create_justified (h : store) r data uuid wall dl :
  h !! r = None → (∀ q t, h !! q = Some t → task_id t ≠ uuid) → justified h →
  justified (<[r := new_task data uuid wall dl]> h).
Proof.
  intros Hr Hid [Hu Hj]. split.
  - intros r1 r2 t1 t2 [[<- <-]|[Hn1 H1]]%lookup_insert_Some [[<- <-]|[Hn2 H2]]%lookup_insert_Some E; [done|..].
    + by destruct (Hid r2 t2 H2).
    + by destruct (Hid r1 t1 H1).
    + by apply (Hu r1 r2 t1 t2).
  - intros q t [[<- <-]|[_ Ht]]%lookup_insert_Some; [done|by eapply Hj].
Qed.

End justified.
