(* ===== verification/Queue.v ===== *)
(** The bounded task queue of [src/system/queue.py]: a [queue.Queue] of task
    references with separately locked counters, first as the atomic sections its
    threads execute, then as the whole methods. *)
From S2P Require Import Prelude PyVal Tasks.

Record TaskQueue := mkQueue {
  q_items : list tref;
  q_maxsize : Z;
  total_enqueued : Z;
  total_dequeued : Z;
}.

Definition queue_init (maxsize : Z) : TaskQueue := mkQueue [] maxsize 0 0.

(** ** Atomic sections

    [queue.Queue] refuses an element when [maxsize > 0] and the queue holds that
    many; the counters have a lock of their own, taken afterwards. *)

Definition queue_full (q : TaskQueue) : bool :=
  (0 <? q_maxsize q) && (q_maxsize q <=? py_len (q_items q)).

Definition put_commit (r : tref) (q : TaskQueue) : option TaskQueue :=
  if queue_full q then None
  else Some (mkQueue (q_items q ++ [r]) (q_maxsize q) (total_enqueued q) (total_dequeued q)).

Definition put_count (q : TaskQueue) : TaskQueue :=
  mkQueue (q_items q) (q_maxsize q) (total_enqueued q + 1) (total_dequeued q).

Definition get_commit (q : TaskQueue) : option (tref * TaskQueue) :=
  match q_items q with
  | [] => None
  | r :: rs => Some (r, mkQueue rs (q_maxsize q) (total_enqueued q) (total_dequeued q))
  end.

Definition get_count (n : Z) (q : TaskQueue) : TaskQueue :=
  mkQueue (q_items q) (q_maxsize q) (total_enqueued q) (total_dequeued q + n).

(** ** Methods, at the instant that decides them *)

(** [put]: [None] is [queue.Full], raised when the queue is at capacity once the
    timeout has run out (at once for the API, which passes zero). *)
Definition queue_put (r : tref) (q : TaskQueue) : option TaskQueue :=
  match put_commit r q with
  | None => None
  | Some q' => Some (put_count q')
  end.

(** [get]: [None] when the queue stayed empty for the whole timeout. *)
Definition queue_get (q : TaskQueue) : option tref * TaskQueue :=
  match get_commit q with
  | None => (None, q)
  | Some (r, q') => (Some r, get_count 1 q')
  end.

(** The puts of producer threads that take effect, in order, during a window of
    the consumer; a full queue refuses them. *)
Fixpoint arrive (rs : list tref) (q : TaskQueue) : TaskQueue :=
  match rs with
  | [] => q
  | r :: rs' => arrive rs' (match queue_put r q with Some q' => q' | None => q end)
  end.

(** The loop of [drain]: [n] iterations left, [arr] the arrivals before each. *)
Fixpoint drain_loop (n : nat) (arr : list (list tref)) (items : list tref) (q : TaskQueue)
    : list tref * TaskQueue :=
  match n with
  | O => (items, q)
  | S n' =>
      let q := arrive (hd [] arr) q in
      match get_commit q with
      | None => (items, q)
      | Some (r, q') => drain_loop n' (tl arr) (items ++ [r]) q'
      end
  end.

Definition queue_drain (max_items : Z) (arr : list (list tref)) (q : TaskQueue)
    : list tref * TaskQueue :=
  let '(items, q') := drain_loop (Z.to_nat max_items) arr [] q in
  (items, get_count (py_len items) q').

Definition queue_size (q : TaskQueue) : Z := py_len (q_items q).

Definition queue_empty (q : TaskQueue) : bool := queue_size q =? 0.

Definition queue_stats (q : TaskQueue) : list (string * pyval) :=
  [("queue_size", PyInt (queue_size q));
   ("total_enqueued", PyInt (total_enqueued q));
   ("total_dequeued", PyInt (total_dequeued q))]%string.

(** ** Concurrent use

    A thread that has put or taken elements still owes the counter update; the
    two logs record what went in and what came out, in order. *)

Record qworld := mkQworld {
  qw_queue : TaskQueue;
  qw_owed_in : Z;
  qw_owed_out : Z;
  qw_log_in : list tref;
  qw_log_out : list tref;
}.

Definition qworld_init (maxsize : Z) : qworld := mkQworld (queue_init maxsize) 0 0 [] [].

Inductive queue_step : qworld → qworld → Prop :=
| qs_put r q q' i o li lo :
    put_commit r q = Some q' →
    queue_step (mkQworld q i o li lo) (mkQworld q' (i + 1) o (li ++ [r]) lo)
| qs_put_count q i o li lo :
    0 < i →
    queue_step (mkQworld q i o li lo) (mkQworld (put_count q) (i - 1) o li lo)
| qs_get r q q' i o li lo :
    get_commit q = Some (r, q') →
    queue_step (mkQworld q i o li lo) (mkQworld q' i (o + 1) li (lo ++ [r]))
| qs_get_count n q i o li lo :
    0 <= n <= o →
    queue_step (mkQworld q i o li lo) (mkQworld (get_count n q) i (o - n) li lo).

Definition qworld_inv (maxsize : Z) (w : qworld) : Prop :=
  let q := qw_queue w in
  q_maxsize q = maxsize ∧
  qw_log_in w = qw_log_out w ++ q_items q ∧
  0 <= qw_owed_in w ∧ 0 <= qw_owed_out w ∧
  total_enqueued q + qw_owed_in w = py_len (qw_log_in w) ∧
  total_dequeued q + qw_owed_out w = py_len (qw_log_out w) ∧
  (0 < maxsize → py_len (q_items q) <= maxsize).

Lemma put_commit_Some r q q' :
  put_commit r q = Some q' →
  q' = mkQueue (q_items q ++ [r]) (q_maxsize q) (total_enqueued q) (total_dequeued q) ∧
  (0 < q_maxsize q → py_len (q_items q) < q_maxsize q).
Proof.
  unfold put_commit, queue_full. intros H.
  destruct (_ && _) eqn:E; [done|]. split; [congruence|].
  intros Hm. apply andb_false_iff in E as [E|E]; zbool; lia.
Qed.

Lemma get_commit_Some r q q' :
  get_commit q = Some (r, q') →
  q_items q = r :: q_items q' ∧
  q' = mkQueue (q_items q') (q_maxsize q) (total_enqueued q) (total_dequeued q).
Proof. unfold get_commit. intros H. by case_match; simplify_eq/=. Qed.

Lemma queue_step_inv m w w' : queue_step w w' → qworld_inv m w → qworld_inv m w'.
Proof.
  intros [r q q' i o li lo Hp|q i o li lo Hi|r q q' i o li lo Hg|n q i o li lo Hn]
    (Hm & Hl & H1 & H2 & Hin & Hout & Hb); unfold qworld_inv in *; simpl in *.
  - apply put_commit_Some in Hp as [-> Hfull]; simpl. rewrite py_len_app.
    split_and!; try done; try lia.
    + by rewrite Hl, app_assoc.
    + unfold py_len in *; simpl; lia.
    + intros Hpos. rewrite py_len_app. unfold py_len in *; simpl. rewrite Hm in Hfull. lia.
  - split_and!; try done; lia.
  - apply get_commit_Some in Hg as [Hit ->]; simpl. rewrite py_len_app.
    split_and!; try done; try lia.
    + by rewrite Hl, Hit, <- app_assoc.
    + unfold py_len in *; simpl; lia.
    + intros Hpos. specialize (Hb Hpos). rewrite Hit in Hb. unfold py_len in *. simpl in Hb. lia.
  - split_and!; try done; lia.
Qed.

(** C32. Under any interleaving of producers and consumers the queue is a FIFO
    that loses and duplicates nothing: what came out followed by what is inside
    is exactly what went in, in order.  The capacity is respected, and each
    counter lags the truth by exactly the updates still owed, so at rest the
    size is the difference of the two counters. *)
Theorem queue_is_fifo (maxsize : Z) (w : qworld) :
  rtc queue_step (qworld_init maxsize) w →
  let q := qw_queue w in
  qw_log_in w = qw_log_out w ++ q_items q ∧
  (0 < maxsize → queue_size q <= maxsize) ∧
  total_enqueued q + qw_owed_in w = py_len (qw_log_in w) ∧
  total_dequeued q + qw_owed_out w = py_len (qw_log_out w) ∧
  (qw_owed_in w = 0 → qw_owed_out w = 0 →
   queue_size q = total_enqueued q - total_dequeued q).
Proof.
  intros Hr. assert (qworld_inv maxsize w) as (Hm & Hl & H1 & H2 & Hi & Ho & Hb).
  { revert w Hr. apply rtc_ind_r; [|eauto using queue_step_inv].
    unfold qworld_inv, py_len; simpl. split_and!; try done; lia. }
  cbv zeta. split_and!; try done. intros Hin Hout. unfold queue_size.
  rewrite Hl, py_len_app in Hi. lia.
Qed.

Lemma queue_is_fifo_witness :
  rtc queue_step (qworld_init 2)
    (mkQworld (mkQueue [7%nat] 2 2 1) 0 0 [5%nat; 7%nat] [5%nat]) ∧
  queue_size (mkQueue [7%nat] 2 2 1) = 1.
Proof.
  assert (rtc queue_step (qworld_init 2)
    (mkQworld (mkQueue [7%nat] 2 2 1) 0 0 [5%nat; 7%nat] [5%nat])) as Hr.
  { eapply rtc_l; [by apply (qs_put 5%nat)|].
    eapply rtc_l; [by apply (qs_put 7%nat)|].
    eapply rtc_l; [by apply (qs_get 5%nat)|].
    eapply rtc_l; [by apply qs_put_count|].
    eapply rtc_l; [by apply qs_put_count|].
    eapply rtc_l; [by apply (qs_get_count 1)|]. reflexivity. }
  split; [done|].
  destruct (queue_is_fifo 2 _ Hr) as (_ & _ & _ & _ & H). by apply H.
Defined.

(** The counters are not a snapshot: a consumer's update can be visible before
    the producer's, and [stats] then reports more dequeued than enqueued. *)
Example stats_can_invert :
  ∃ w, rtc queue_step (qworld_init 0) w ∧
    total_enqueued (qw_queue w) < total_dequeued (qw_queue w).
Proof.
  eexists. split; [|shelve].
  eapply rtc_l; [by apply (qs_put 1%nat)|].
  eapply rtc_l; [by apply (qs_get 1%nat)|].
  eapply rtc_l; [by apply (qs_get_count 1)|]. reflexivity.
  Unshelve. reflexivity.
Qed.

(** ** The methods between arrivals *)

Lemma queue_put_items r q q' :
  queue_put r q = Some q' → q_items q' = q_items q ++ [r].
Proof.
  unfold queue_put. destruct (put_commit r q) eqn:E; [|done].
  intros [= <-]. by apply put_commit_Some in E as [-> _].
Qed.

Lemma arrive_items rs q :
  ∃ acc, acc `sublist_of` rs ∧ q_items (arrive rs q) = q_items q ++ acc.
Proof.
  revert q. induction rs as [|r rs IH]; intros q; simpl.
  - exists []. by rewrite app_nil_r.
  - destruct (queue_put r q) as [q'|] eqn:E.
    + destruct (IH q') as (acc & Hs & ->). exists (r :: acc).
      split; [by apply sublist_skip|].
      by rewrite (queue_put_items _ _ _ E), <- app_assoc.
    + destruct (IH q) as (acc & Hs & ->). exists acc.
      split; [by apply sublist_cons|done].
Qed.

Lemma queue_get_spec q :
  match queue_get q with
  | (None, q') => q_items q = [] ∧ q' = q
  | (Some r, q') => q_items q = r :: q_items q'
  end.
Proof.
  unfold queue_get. destruct (get_commit q) as [[r q']|] eqn:E.
  - by apply get_commit_Some in E as [? _].
  - unfold get_commit in E. by destruct (q_items q).
Qed.

Lemma drain_loop_spec n arr items q items' q' :
  drain_loop n arr items q = (items', q') →
  ∃ acc, acc `sublist_of` mjoin (take n arr) ∧
    items' ++ q_items q' = items ++ q_items q ++ acc ∧
    (length items' <= length items + n)%nat.
Proof.
  revert arr items q. induction n as [|n IH]; intros arr items q; simpl.
  - intros [= <- <-]. exists []. rewrite app_nil_r. split_and!; [done|done|lia].
  - destruct (arrive_items (hd [] arr) q) as (acc & Hs & Ha).
    destruct (get_commit _) as [[r q1]|] eqn:E; intros H.
    + apply get_commit_Some in E as [Hit _].
      destruct (IH _ _ _ H) as (acc' & Hs' & Heq & Hlen).
      exists (acc ++ acc'). split_and!.
      * destruct arr as [|a arr]; simpl in *.
        { apply sublist_nil_r in Hs as ->. by rewrite take_nil in Hs'. }
        by apply sublist_app.
      * rewrite Heq, <- !app_assoc. simpl. rewrite app_comm_cons, <- Hit, Ha.
        by rewrite <- app_assoc.
      * rewrite length_app in Hlen. simpl in Hlen. lia.
    + simplify_eq. exists acc. split_and!; [|by rewrite Ha|lia].
      destruct arr as [|a arr]; simpl in *; [done|].
      etrans; [exact Hs|]. apply sublist_inserts_r. done.
Qed.

Lemma drain_loop_short n arr items q items' q' :
  drain_loop n arr items q = (items', q') →
  length items' = (length items + n)%nat ∨ q_items q' = [].
Proof.
  revert arr items q. induction n as [|n IH]; intros arr items q; simpl.
  - intros [= <- <-]. left. lia.
  - destruct (get_commit _) as [[r q1]|] eqn:E.
    + intros H. destruct (IH _ _ _ H) as [Hl|]; [left|by right].
      rewrite length_app in Hl. simpl in Hl. lia.
    + intros [= <- <-]. right. unfold get_commit in E. by destruct (q_items _).
Qed.

(** One [get] that waits while [rs] arrive. *)
Lemma get_after_arrivals rs q o q' :
  queue_get (arrive rs q) = (o, q') →
  ∃ acc, acc `sublist_of` rs ∧
    match o with
    | Some r => q_items q ++ acc = r :: q_items q'
    | None => q_items q ++ acc = [] ∧ q_items q' = []
    end.
Proof.
  intros H. destruct (arrive_items rs q) as (acc & Hs & Ha). exists acc. split; [done|].
  pose proof (queue_get_spec (arrive rs q)) as Hg. rewrite H in Hg.
  destruct o as [r|].
  - by rewrite <- Ha.
  - destruct Hg as [Hg ->]. by rewrite <- Ha, Hg.
Qed.

Lemma queue_drain_spec n arr q items q' :
  queue_drain n arr q = (items, q') →
  ∃ acc, acc `sublist_of` mjoin (take (Z.to_nat n) arr) ∧
    items ++ q_items q' = q_items q ++ acc ∧
    py_len items <= Z.max 0 n ∧
    (py_len items < n → q_items q' = []).
Proof.
  unfold queue_drain. destruct (drain_loop _ _ _ _) as [its q1] eqn:E.
  intros [= <- <-]. destruct (drain_loop_spec _ _ _ _ _ _ E) as (acc & Hs & Heq & Hl).
  exists acc. simpl in *. split_and!; [done|done| |].
  - unfold py_len. lia.
  - intros Hlt. destruct (drain_loop_short _ _ _ _ _ _ E) as [Hd|Hd]; [|done].
    simpl in Hd. unfold py_len in Hlt. lia.
Qed.
