(* ===== verification/Config.v ===== *)
(** The runtime configuration of [src/system/config.py]: the shared mutable
    record, its keyword update and its snapshot. *)
From S2P Require Import Prelude PyVal.

Record SystemConfig := mkConfig {
  batch_size : Z;
  num_workers : Z;
  inference_latency_ms : Q;
  scheduler_strategy : string;
  failure_rate : Q;
  latency_threshold_ms : Q;
  max_queue_size : Z;
  host : string;
  port : Z;
}.

Definition default_config : SystemConfig :=
  mkConfig 4 4 60 "fifo" 0 150 10000 "0.0.0.0" 8000.

(** One keyword argument of [update]: a field of the record with a value of its
    declared type, or a name the object has no attribute for. *)
Inductive config_kwarg :=
| KwBatchSize (n : Z)
| KwNumWorkers (n : Z)
| KwInferenceLatency (x : Q)
| KwStrategy (s : string)
| KwFailureRate (x : Q)
| KwLatencyThreshold (x : Q)
| KwMaxQueueSize (n : Z)
| KwHost (s : string)
| KwPort (n : Z)
| KwUnknown (key : string).

(** [setattr], or the [ValueError] for a key that is no attribute. *)
Definition config_setattr (kw : config_kwarg) (c : SystemConfig) : SystemConfig + string :=
  let 'mkConfig bs nw lat st fr thr mq ho po := c in
  match kw with
  | KwBatchSize n => inl (mkConfig n nw lat st fr thr mq ho po)
  | KwNumWorkers n => inl (mkConfig bs n lat st fr thr mq ho po)
  | KwInferenceLatency x => inl (mkConfig bs nw x st fr thr mq ho po)
  | KwStrategy s => inl (mkConfig bs nw lat s fr thr mq ho po)
  | KwFailureRate x => inl (mkConfig bs nw lat st x thr mq ho po)
  | KwLatencyThreshold x => inl (mkConfig bs nw lat st fr x mq ho po)
  | KwMaxQueueSize n => inl (mkConfig bs nw lat st fr thr n ho po)
  | KwHost s => inl (mkConfig bs nw lat st fr thr mq s po)
  | KwPort n => inl (mkConfig bs nw lat st fr thr mq ho n)
  | KwUnknown key => inr ("Unknown config key: " +:+ key)%string
  end.

(** The loop over [kwargs.items()]: assignments made before an unknown key stay. *)
Fixpoint config_update (kws : list config_kwarg) (c : SystemConfig)
    : SystemConfig * option string :=
  match kws with
  | [] => (c, None)
  | kw :: kws' =>
      match config_setattr kw c with
      | inl c' => config_update kws' c'
      | inr err => (c, Some err)
      end
  end.

Definition config_snapshot (c : SystemConfig) : list (string * pyval) :=
  [("batch_size", PyInt (batch_size c));
   ("num_workers", PyInt (num_workers c));
   ("inference_latency_ms", PyFloat (inference_latency_ms c));
   ("scheduler_strategy", PyStr (scheduler_strategy c));
   ("failure_rate", PyFloat (failure_rate c));
   ("latency_threshold_ms", PyFloat (latency_threshold_ms c));
   ("max_queue_size", PyInt (max_queue_size c));
   ("host", PyStr (host c));
   ("port", PyInt (port c))]%string.

Definition kw_known (kw : config_kwarg) : bool :=
  match kw with KwUnknown _ => false | _ => true end.

Lemma config_update_known kws c :
  Forall (λ kw, kw_known kw = true) kws → (config_update kws c).2 = None.
Proof.
  revert c. induction kws as [|kw kws IH]; intros c; [done|].
  intros [Hk Hks]%Forall_cons. destruct c. destruct kw; simplify_eq/=; by apply IH.
Qed.

(** An unknown key aborts the update half way: the keys before it are applied,
    the keys after it are not. *)
Lemma config_update_partial kws1 key kws2 c :
  Forall (λ kw, kw_known kw = true) kws1 →
  config_update (kws1 ++ KwUnknown key :: kws2) c
  = ((config_update kws1 c).1, Some ("Unknown config key: " +:+ key)%string).
Proof.
  revert c. induction kws1 as [|kw kws IH]; intros c; simpl; [by destruct c|].
  intros [Hk Hks]%Forall_cons. destruct c. destruct kw; simplify_eq/=; by apply IH.
Qed.
