(* ===== verification/Scheduler.v ===== *)
(** The batching strategies and the scheduler loop of [src/system/scheduler.py].
    A strategy runs while producers keep putting tasks, the clock advances and
    the configuration changes: each turn of a loop reads its own clock, its own
    configuration and its own arrivals, supplied by a [tick]. *)
From S2P Require Import Prelude PyVal Tasks Queue Config.

(** What one turn of a strategy's loop observes: the arrivals before its [get]
    returns, [config.batch_size] and [time.time()]. *)
Record tick := mkTick {
  tk_arrivals : list tref;
  tk_batch_size : Z;
  tk_wall : Q;
}.

Definition arrivals_of (tks : list tick) : list tref := mjoin (tk_arrivals <$> tks).

(** ** [FIFOScheduler.next_batch] *)

(** [None]: the ticks ran out with the loop still running. *)
Fixpoint fifo_loop (tks : list tick) (batch : list tref) (q : TaskQueue)
    : option (list tref * TaskQueue) :=
  match tks with
  | [] => None
  | tk :: tks' =>
      if py_len batch <? tk_batch_size tk then
        match queue_get (arrive (tk_arrivals tk) q) with
        | (None, q') => Some (batch, q')
        | (Some r, q') => fifo_loop tks' (batch ++ [r]) q'
        end
      else Some (batch, q)
  end.

Definition fifo_next_batch (tks : list tick) (q : TaskQueue) := fifo_loop tks [] q.

(** ** [BatchingScheduler.next_batch] *)

Definition FILL_TIMEOUT : Q := 1 # 10.

Fixpoint batching_loop (dl : Q) (tks : list tick) (batch : list tref) (q : TaskQueue)
    : option (list tref * TaskQueue) :=
  match tks with
  | [] => None
  | tk :: tks' =>
      if (py_len batch <? tk_batch_size tk) && (tk_wall tk <?q dl) then
        match queue_get (arrive (tk_arrivals tk) q) with
        | (None, q') => batching_loop dl tks' batch q'
        | (Some r, q') => batching_loop dl tks' (batch ++ [r]) q'
        end
      else Some (batch, q)
  end.

Definition batching_next_batch (wall0 : Q) (tks : list tick) (q : TaskQueue) :=
  batching_loop (wall0 + FILL_TIMEOUT)%Q tks [] q.

(** ** [LatencyAwareScheduler.next_batch] *)

(** The readings of one call: the batch size for the cap and for the slice, the
    threshold, the arrivals during the drain, and the clock as the first and the
    second comprehension read it for each task. *)
Record latency_obs := mkObs {
  ob_cap_batch_size : Z;
  ob_batch_size : Z;
  ob_threshold : Q;
  ob_arrivals : list (list tref);
  ob_clock_old : tref → Q;
  ob_clock_fresh : tref → Q;
}.

Section latency_aware.
Context (h : store).

(** [t.age_ms] and [t.creation_time] of the object a reference points at. *)
Definition creation_of (r : tref) : Q :=
  match h !! r with Some t => creation_time t | None => 0%Q end.
Definition age_of (wall : Q) (r : tref) : Q :=
  match h !! r with Some t => age_ms wall t | None => 0%Q end.

Definition is_old (ob : latency_obs) (r : tref) : bool :=
  ob_threshold ob <=?q age_of (ob_clock_old ob r) r.
Definition is_fresh (ob : latency_obs) (r : tref) : bool :=
  age_of (ob_clock_fresh ob r) r <?q ob_threshold ob.

(** The batch, the new buffer, and the queue. *)
Definition latency_next_batch (ob : latency_obs) (buffer : list tref) (q : TaskQueue)
    : list tref * list tref * TaskQueue :=
  let cap := ob_cap_batch_size ob * 4 in
  let '(buffer, q) :=
    if py_len buffer <? cap then
      let '(new_tasks, q') := queue_drain (cap - py_len buffer) (ob_arrivals ob) q in
      (buffer ++ new_tasks, q')
    else (buffer, q) in
  match buffer with
  | [] => ([], [], q)
  | _ =>
      let old := filter (λ r, is_old ob r = true) buffer in
      let fresh := filter (λ r, is_fresh ob r = true) buffer in
      let batch := py_take (ob_batch_size ob)
                     (py_sort creation_of old ++ py_sort creation_of fresh) in
      (batch, filter (λ r, r ∉ batch) buffer, q)
  end.
End latency_aware.

(** ** [Scheduler._loop] *)

(** The strategies that read the queue, by the name the configuration holds. *)
Record sched_state := mkSched {
  sc_queue : TaskQueue;
  sc_buffer : list tref;   (* the latency-aware strategy's own buffer *)
}.

(** One turn of the loop: the batch to hand to the handler, if there is one.
    [None]: the strategy's own loop has not finished within the ticks given. *)
Definition scheduler_iteration (h : store) (strategy : string) (wall0 : Q)
    (tks : list tick) (ob : latency_obs) (s : sched_state)
    : option (list tref * sched_state) :=
  if decide (strategy = "fifo"%string) then
    '(batch, q) ← fifo_next_batch tks (sc_queue s);
    Some (batch, mkSched q (sc_buffer s))
  else if decide (strategy = "batching"%string) then
    '(batch, q) ← batching_next_batch wall0 tks (sc_queue s);
    Some (batch, mkSched q (sc_buffer s))
  else if decide (strategy = "latency_aware"%string) then
    let '(batch, buffer, q) := latency_next_batch h ob (sc_buffer s) (sc_queue s) in
    Some (batch, mkSched q buffer)
  else Some ([], s).

(** ** The FIFO strategy *)

Lemma arrivals_cons tk tks : arrivals_of (tk :: tks) = tk_arrivals tk ++ arrivals_of tks.
Proof. done. Qed.

Lemma fifo_loop_order tks batch q batch' q' :
  fifo_loop tks batch q = Some (batch', q') →
  ∃ acc, acc `sublist_of` arrivals_of tks ∧
    batch' ++ q_items q' = batch ++ q_items q ++ acc.
Proof.
  revert batch q. induction tks as [|tk tks IH]; intros batch q; simpl; [done|].
  case_match; [|intros [= <- <-]; exists []; rewrite app_nil_r; split; [apply sublist_nil_l|done]].
  destruct (queue_get _) as [o q1] eqn:Eg.
  destruct (get_after_arrivals _ _ _ _ Eg) as (acc & Hs & Ho).
  rewrite arrivals_cons. destruct o as [r|]; intros H1.
  - destruct (IH _ _ H1) as (acc' & Hs' & Heq). exists (acc ++ acc').
    split; [by apply sublist_app|].
    rewrite Heq, <- app_assoc. simpl. by rewrite app_comm_cons, <- Ho, <- app_assoc.
  - simplify_eq. destruct Ho as [Ho Hq]. exists acc.
    split; [by apply sublist_inserts_r|]. by rewrite Ho, Hq.
Qed.

Lemma fifo_loop_total B tks batch q :
  Forall (λ tk, tk_batch_size tk <= B) tks →
  py_len batch <= B → B - py_len batch < py_len tks →
  is_Some (fifo_loop tks batch q).
Proof.
  revert batch q. induction tks as [|tk tks IH]; intros batch q Hb Hle Hlt; simpl.
  - unfold py_len in *. simpl in *. lia.
  - apply Forall_cons in Hb as [Hb Hbs]. case_match; [|done]. zbool.
    destruct (queue_get _) as [[r|] q1]; [|done].
    apply IH; [done|rewrite py_len_snoc; lia|].
    rewrite py_len_snoc. unfold py_len in *. simpl in *. lia.
Qed.

Lemma fifo_loop_size tks batch q batch' q' :
  fifo_loop tks batch q = Some (batch', q') →
  (∀ B, Forall (λ tk, tk_batch_size tk <= B) tks → py_len batch <= B → py_len batch' <= B) ∧
  (∀ n, Forall (λ tk, n <= tk_batch_size tk) tks → py_len batch' < n → q_items q' = []).
Proof.
  revert batch q. induction tks as [|tk tks IH]; intros batch q; simpl; [done|].
  case_match; zbool.
  - destruct (queue_get _) as [o q1] eqn:Eg. destruct o as [r|]; intros H1.
    + destruct (IH _ _ H1) as [HB Hn]. split.
      * intros B [Hb Hbs]%Forall_cons Hle. apply HB; [done|]. rewrite py_len_snoc. lia.
      * intros n [? ?]%Forall_cons Hlt. eauto.
    + simplify_eq. destruct (get_after_arrivals _ _ _ _ Eg) as (acc & _ & _ & Hq). done.
  - intros [= <- <-]. split; [done|]. intros n [? ?]%Forall_cons Hlt. lia.
Qed.

(** The FIFO strategy finishes whenever the batch size stays bounded, and
    hands out a prefix of the arrival order: the batch followed by what stays in
    the queue is what was queued followed by the arrivals it accepted.  The batch
    never exceeds the configured size, and it falls short only when the queue is
    empty. *)
Theorem fifo_next_batch_correct (tks : list tick) (q : TaskQueue) (B : Z) :
  0 <= B → Forall (λ tk, tk_batch_size tk <= B) tks → B < py_len tks →
  ∃ batch q' acc,
    fifo_next_batch tks q = Some (batch, q') ∧
    acc `sublist_of` arrivals_of tks ∧
    batch ++ q_items q' = q_items q ++ acc ∧
    py_len batch <= B ∧
    (∀ n, Forall (λ tk, n <= tk_batch_size tk) tks → py_len batch < n → q_items q' = []).
Proof.
  intros HB Hbs Hlen.
  destruct (fifo_loop_total B tks [] q) as [[batch q'] E]; [done|done|unfold py_len in *; simpl; lia|].
  destruct (fifo_loop_order _ _ _ _ _ E) as (acc & Hs & Heq).
  destruct (fifo_loop_size _ _ _ _ _ E) as [H1 H2].
  exists batch, q', acc. split_and!; eauto.
Qed.

Lemma fifo_next_batch_correct_witness :
  let tks := [mkTick [3%nat] 2 0; mkTick [] 2 0; mkTick [] 2 0] in
  ∃ batch q' acc,
    fifo_next_batch tks (mkQueue [1%nat; 2%nat] 5 2 0) = Some (batch, q') ∧
    batch ++ q_items q' = [1%nat; 2%nat] ++ acc.
Proof.
  destruct (fifo_next_batch_correct [mkTick [3%nat] 2 0; mkTick [] 2 0; mkTick [] 2 0]
    (mkQueue [1%nat; 2%nat] 5 2 0) 2) as (b & q' & acc & H1 & _ & H2 & _).
  - lia.
  - repeat constructor; simpl; lia.
  - reflexivity.
  - exists b, q', acc. split; [exact H1|exact H2].
Defined.

(** ** The batching strategy *)

Lemma batching_loop_order dl tks batch q batch' q' :
  batching_loop dl tks batch q = Some (batch', q') →
  ∃ acc, acc `sublist_of` arrivals_of tks ∧
    batch' ++ q_items q' = batch ++ q_items q ++ acc.
Proof.
  revert batch q. induction tks as [|tk tks IH]; intros batch q; simpl; [done|].
  case_match; [|intros [= <- <-]; exists []; rewrite app_nil_r; split; [apply sublist_nil_l|done]].
  destruct (queue_get _) as [o q1] eqn:Eg.
  destruct (get_after_arrivals _ _ _ _ Eg) as (acc & Hs & Ho).
  rewrite arrivals_cons. destruct o as [r|]; intros H1;
    destruct (IH _ _ H1) as (acc' & Hs' & Heq); exists (acc ++ acc');
    (split; [by apply sublist_app|]); rewrite Heq.
  - rewrite <- app_assoc. simpl. by rewrite app_comm_cons, <- Ho, <- app_assoc.
  - destruct Ho as [Ho Hq]. apply app_nil in Ho as [-> ->]. by rewrite Hq.
Qed.

Lemma batching_loop_total dl tks batch q :
  Exists (λ tk, (dl <= tk_wall tk)%Q) tks → is_Some (batching_loop dl tks batch q).
Proof.
  revert batch q. induction tks as [|tk tks IH]; intros batch q Hex; simpl.
  - by apply Exists_nil in Hex.
  - destruct ((_ <? _) && _) eqn:E; [|done]. zbool.
    apply Exists_cons in Hex as [Hd|Hex]; [qlra|].
    destruct (queue_get _) as [[r|] q1]; by apply IH.
Qed.

Lemma batching_loop_size dl tks batch q batch' q' :
  batching_loop dl tks batch q = Some (batch', q') →
  (∀ B, Forall (λ tk, tk_batch_size tk <= B) tks → py_len batch <= B → py_len batch' <= B) ∧
  (∀ n, Forall (λ tk, n <= tk_batch_size tk) tks → py_len batch' < n →
        Exists (λ tk, (dl <= tk_wall tk)%Q) tks).
Proof.
  revert batch q. induction tks as [|tk tks IH]; intros batch q; simpl; [done|].
  destruct ((_ <? _) && _) eqn:E; zbool.
  - destruct (queue_get _) as [o q1] eqn:Eg. destruct o as [r|]; intros H1;
      destruct (IH _ _ H1) as [HB Hn]; split.
    + intros B [Hb Hbs]%Forall_cons Hle. apply HB; [done|]. rewrite py_len_snoc. lia.
    + intros n [? ?]%Forall_cons Hlt. apply Exists_cons. right. eauto.
    + intros B [Hb Hbs]%Forall_cons Hle. by apply HB.
    + intros n [? ?]%Forall_cons Hlt. apply Exists_cons. right. eauto.
  - intros [= <- <-]. split; [done|]. intros n [? ?]%Forall_cons Hlt.
    apply Exists_cons. left. apply andb_false_iff in E as [E|E]; zbool; [lia|qlra].
Qed.

(** The batching strategy finishes as soon as its clock has passed the fill
    deadline; until then it takes tasks in arrival order, never more than the
    configured size, and a run that ends within the fill window returns a full
    batch. *)
Theorem batching_next_batch_correct (wall0 : Q) (tks : list tick) (q : TaskQueue) :
  Exists (λ tk, (wall0 + FILL_TIMEOUT <= tk_wall tk)%Q) tks →
  ∃ batch q' acc,
    batching_next_batch wall0 tks q = Some (batch, q') ∧
    acc `sublist_of` arrivals_of tks ∧
    batch ++ q_items q' = q_items q ++ acc ∧
    (∀ B, 0 <= B → Forall (λ tk, tk_batch_size tk <= B) tks → py_len batch <= B) ∧
    (∀ early n b q1, batching_next_batch wall0 early q = Some (b, q1) →
       Forall (λ tk, (tk_wall tk < wall0 + FILL_TIMEOUT)%Q) early →
       Forall (λ tk, n <= tk_batch_size tk) early → n <= py_len b).
Proof.
  intros Hex. destruct (batching_loop_total _ _ [] q Hex) as [[batch q'] E].
  destruct (batching_loop_order _ _ _ _ _ _ E) as (acc & Hs & Heq).
  destruct (batching_loop_size _ _ _ _ _ _ E) as [H1 _].
  exists batch, q', acc. split_and!; eauto.
  intros early n b q1 E1 Hearly Hn. apply Z.nlt_ge. intros Hlt.
  destruct (batching_loop_size _ _ _ _ _ _ E1) as [_ H2].
  specialize (H2 n Hn Hlt). apply Exists_exists in H2 as (tk & Hin & Hd).
  rewrite Forall_forall in Hearly. specialize (Hearly tk Hin). simpl in Hearly. lra.
Qed.

Lemma batching_next_batch_correct_witness :
  let tks := [mkTick [3%nat] 2 0; mkTick [] 2 1] in
  ∃ batch q' acc,
    batching_next_batch 0 tks (mkQueue [] 5 0 0) = Some (batch, q') ∧
    batch ++ q_items q' = [] ++ acc.
Proof.
  destruct (batching_next_batch_correct 0 [mkTick [3%nat] 2 0; mkTick [] 2 1]
    (mkQueue [] 5 0 0)) as (b & q' & acc & H1 & _ & H2 & _).
  - apply Exists_cons. right. apply Exists_cons. left. vm_compute. discriminate.
  - exists b, q', acc. split; [exact H1|exact H2].
Defined.

(** ** The latency-aware strategy *)

Section latency_aware_proofs.
Context (h : store).

(** The contents the call works on: the buffer topped up from the queue. *)
Lemma latency_fill ob buffer q :
  ∃ filled q' acc,
    latency_next_batch h ob buffer q =
      (let batch := py_take (ob_batch_size ob)
                      (py_sort (creation_of h) (filter (λ r, is_old h ob r = true) filled) ++
                       py_sort (creation_of h) (filter (λ r, is_fresh h ob r = true) filled)) in
       (batch, filter (λ r, r ∉ batch) filled, q')) ∧
    acc `sublist_of` mjoin (ob_arrivals ob) ∧
    filled ++ q_items q' = buffer ++ q_items q ++ acc ∧
    py_len filled <= Z.max (py_len buffer) (ob_cap_batch_size ob * 4) ∧
    (py_len filled < ob_cap_batch_size ob * 4 → q_items q' = []) ∧
    buffer `prefix_of` filled.
Proof.
  unfold latency_next_batch. destruct (py_len buffer <? _) eqn:Hcap; zbool.
  - destruct (queue_drain _ _ _) as [its q'] eqn:E.
    destruct (queue_drain_spec _ _ _ _ _ E) as (acc & Hs & Heq & Hl & Hd).
    exists (buffer ++ its), q', acc. split_and!.
    + destruct (buffer ++ its) as [|r rs]; [simpl; by rewrite py_take_nil|reflexivity].
    + etrans; [exact Hs|]. clear. set (n := Z.to_nat _). clearbody n.
      revert n. induction (ob_arrivals ob) as [|a l IH]; intros n.
      * rewrite take_nil. done.
      * destruct n; simpl; [apply sublist_nil_l|]. by apply sublist_app.
    + rewrite <- app_assoc. by rewrite Heq.
    + rewrite py_len_app. lia.
    + rewrite py_len_app. intros. apply Hd. lia.
    + by apply prefix_app_r.
  - exists buffer, q, []. rewrite app_nil_r. split_and!; try done; try lia.
    + destruct buffer as [|r rs]; [simpl; by rewrite py_take_nil|reflexivity].
    + apply sublist_nil_l.
Qed.

Lemma py_take_perm {A} n (l : list A) : ∃ rest, l ≡ₚ py_take n l ++ rest.
Proof.
  destruct (py_take_prefix n l) as [k ->]. exists (drop k l). by rewrite take_drop.
Qed.

(** The two comprehensions pick disjoint tasks when the clock does not run
    backwards between them. *)
Lemma old_fresh_perm ob (l : list tref) :
  (∀ r, (ob_clock_old ob r <= ob_clock_fresh ob r)%Q) →
  ∃ skipped, l ≡ₚ filter (λ r, is_old h ob r = true) l ++
                  filter (λ r, is_fresh h ob r = true) l ++ skipped.
Proof.
  intros Hc. induction l as [|r l [sk IH]]; [by exists []|].
  rewrite !filter_cons.
  destruct (is_old h ob r) eqn:Eo, (is_fresh h ob r) eqn:Ef; simpl.
  - exfalso. unfold is_old, is_fresh, age_of, age_ms in *. specialize (Hc r).
    destruct (h !! r); qlra.
  - exists sk. by rewrite IH at 1.
  - exists sk. rewrite IH at 1. by rewrite <- Permutation_middle.
  - exists (r :: sk). rewrite IH at 1. rewrite app_assoc, Permutation_middle.
    by rewrite <- app_assoc.
Qed.

(** A call of the latency-aware strategy loses no task and duplicates
    none, whatever the clock and the configuration do meanwhile (as long as the
    clock does not run backwards): the batch, the buffer it keeps and what it
    leaves in the queue are the old buffer, the old queue and the accepted
    arrivals. The batch respects the batch size and the buffer its cap. *)
Theorem latency_next_batch_conserves (ob : latency_obs) (buffer : list tref)
    (q : TaskQueue) :
  (∀ r, (ob_clock_old ob r <= ob_clock_fresh ob r)%Q) →
  0 <= ob_batch_size ob →
  NoDup (buffer ++ q_items q ++ mjoin (ob_arrivals ob)) →
  let '(batch, buffer', q') := latency_next_batch h ob buffer q in
  ∃ acc, acc `sublist_of` mjoin (ob_arrivals ob) ∧
    batch ++ buffer' ++ q_items q' ≡ₚ buffer ++ q_items q ++ acc ∧
    py_len batch <= ob_batch_size ob ∧
    py_len buffer' <= Z.max (py_len buffer) (ob_cap_batch_size ob * 4).
Proof using Type.
  intros Hc Hbs Hnd. destruct (latency_fill ob buffer q) as
    (filled & q' & acc & -> & Hs & Heq & Hcap & _).
  cbv zeta. set (cand := py_sort _ _ ++ py_sort _ _).
  set (batch := py_take _ cand). exists acc.
  assert (NoDup filled) as Hnf.
  { assert (NoDup (filled ++ q_items q')) as Hn by
      (rewrite Heq; eapply sublist_NoDup; [exact Hnd|auto using sublist_app]).
    by apply NoDup_app in Hn as [? _]. }
  destruct (old_fresh_perm ob filled Hc) as [sk Hsk].
  destruct (py_take_perm (ob_batch_size ob) cand) as [rest Hrest].
  assert (filled ≡ₚ batch ++ rest ++ sk) as Hperm.
  { rewrite Hsk at 1. rewrite app_assoc.
    rewrite <- (py_sort_perm (creation_of h) (filter (λ r, is_old h ob r = true) filled)).
    rewrite <- (py_sort_perm (creation_of h) (filter (λ r, is_fresh h ob r = true) filled)).
    fold cand. by rewrite Hrest at 1; rewrite <- app_assoc. }
  pose proof (filter_notin_perm filled batch (rest ++ sk) Hnf Hperm) as Hbuf.
  split_and!; [done| | |].
  - rewrite <- Heq, app_assoc. by rewrite Hbuf, <- Hperm.
  - unfold batch. rewrite py_take_length by done. lia.
  - etrans; [|exact Hcap]. unfold py_len.
    pose proof (length_filter (λ r, r ∉ batch) filled). lia.
Qed.

(** C34. The two comprehensions read the clock separately.  If it steps back between them, a task
    that was old for the first is fresh for the second, is in both lists, and is handed over
    twice in one batch, as soon as the batch has room for it. *)
Theorem clock_step_back_hands_over_twice (ob : latency_obs) (buffer : list tref) (q : TaskQueue) (r : tref) :
  r ∈ buffer → is_old h ob r = true → is_fresh h ob r = true →
  2 * py_len (buffer ++ q_items q ++ mjoin (ob_arrivals ob)) <= ob_batch_size ob →
  let '(batch, _, _) := latency_next_batch h ob buffer q in
  ∃ before between after, batch = before ++ r :: between ++ r :: after.
Proof using Type.
  intros Hr Ho Hf Hsize. destruct (latency_fill ob buffer q) as (filled & q' & acc & -> & Hs & Heq & _ & _ & Hpre).
  cbv zeta. set (old := py_sort _ _). set (fresh := py_sort _ _).
  assert (r ∈ filled) as Hin by (destruct Hpre as [k ->]; apply elem_of_app; by left).
  assert (r ∈ old) as Hold by (unfold old; rewrite py_sort_perm; by apply list_elem_of_filter).
  assert (r ∈ fresh) as Hfresh by (unfold fresh; rewrite py_sort_perm; by apply list_elem_of_filter).
  assert (length (old ++ fresh) <= 2 * length filled)%nat as Hlen.
  { rewrite length_app. unfold old, fresh. rewrite !py_sort_perm.
    pose proof (length_filter (λ r, is_old h ob r = true) filled). pose proof (length_filter (λ r, is_fresh h ob r = true) filled). lia. }
  assert (length filled <= length (buffer ++ q_items q ++ mjoin (ob_arrivals ob)))%nat as Hfill.
  { assert (length (filled ++ q_items q') = length (buffer ++ q_items q ++ acc)) as E by (by rewrite Heq).
    apply sublist_length in Hs. rewrite !length_app in *. lia. }
  rewrite py_take_ge by (unfold py_len in *; lia).
  apply list_elem_of_split in Hold as (l1 & l2 & ->), Hfresh as (l3 & l4 & ->).
  exists l1, (l2 ++ l3), l4. by rewrite <- !app_assoc.
Qed.

(** With one clock reading per call, the batch is the oldest tasks of the
    filled buffer, by creation time and in buffer order among equals: the split
    at the latency threshold has no influence on the order. *)
Theorem latency_next_batch_is_oldest_first (ob : latency_obs) (buffer : list tref)
    (q : TaskQueue) (now : Q) :
  (∀ r, ob_clock_old ob r = now ∧ ob_clock_fresh ob r = now) →
  Forall (λ r, is_Some (h !! r)) (buffer ++ q_items q ++ mjoin (ob_arrivals ob)) →
  let '(batch, buffer', q') := latency_next_batch h ob buffer q in
  ∃ filled acc,
    acc `sublist_of` mjoin (ob_arrivals ob) ∧
    filled ++ q_items q' = buffer ++ q_items q ++ acc ∧
    batch = py_take (ob_batch_size ob) (py_sort (creation_of h) filled) ∧
    buffer' = filter (λ r, r ∉ batch) filled ∧
    (py_len filled < ob_cap_batch_size ob * 4 → q_items q' = []).
Proof using Type.
  intros Hclk Hin. destruct (latency_fill ob buffer q) as
    (filled & q' & acc & -> & Hs & Heq & _ & Hfull & _).
  cbv zeta. exists filled, acc. split_and!; [done|done| |done|done]. f_equal.
  rewrite (py_sort_split (creation_of h) (is_old h ob) filled).
  - f_equal. f_equal. apply list_filter_iff. intros r. unfold is_old, is_fresh, Qltb.
    destruct (Hclk r) as [-> ->]. apply negb_true_iff.
  - intros x y Hx Hy Hox Hoy. unfold is_old, age_of, creation_of in *.
    assert (∀ r, r ∈ filled → is_Some (h !! r)) as Hsome.
    { intros r Hr. rewrite Forall_forall in Hin. apply Hin.
      assert (r ∈ filled ++ q_items q') as Hr' by set_solver. rewrite Heq in Hr'.
      apply elem_of_app in Hr' as [?|Hr']; [set_solver|].
      apply elem_of_app in Hr' as [?|Hr']; [set_solver|].
      do 2 (apply elem_of_app; right). by eapply elem_of_sublist. }
    destruct (Hsome x Hx) as [tx Htx], (Hsome y Hy) as [ty Hty].
    destruct (Hclk x) as [Hcx _], (Hclk y) as [Hcy _]. rewrite Hcx in Hox.
    rewrite Hcy in Hoy.
    rewrite Htx in Hox |- *. rewrite Hty in Hoy |- *. unfold age_ms in *. qlra.
Qed.
End latency_aware_proofs.

Definition sample_task (created : Q) : Task := new_task PyNone "sample" created None.

Definition sample_store : store :=
  list_to_map [(1%nat, sample_task 5); (2%nat, sample_task 1); (3%nat, sample_task 3)].

Lemma latency_next_batch_conserves_witness :
  let ob := mkObs 2 2 100 [[3%nat]] (λ _, 5%Q) (λ _, 5%Q) in
  let '(batch, buffer', q') :=
    latency_next_batch sample_store ob [1%nat] (mkQueue [2%nat] 0 1 0) in
  ∃ acc, batch ++ buffer' ++ q_items q' ≡ₚ [1%nat] ++ [2%nat] ++ acc ∧
         py_len batch <= 2.
Proof.
  pose proof (latency_next_batch_conserves sample_store
    (mkObs 2 2 100 [[3%nat]] (λ _, 5%Q) (λ _, 5%Q)) [1%nat] (mkQueue [2%nat] 0 1 0)) as H.
  destruct H as (acc & _ & Hp & Hb & _).
  - intros r. apply Qle_refl.
  - simpl. lia.
  - apply (bool_decide_unpack _). vm_compute. exact I.
  - exists acc. split; [exact Hp|exact Hb].
Defined.

(** The clock reads 2 s for the first comprehension and 1 s for the second; the task was
    created at 1 s and the threshold is 500 ms. *)
Lemma clock_step_back_hands_over_twice_witness :
  let ob := mkObs 2 2 500 [] (λ _, 2%Q) (λ _, 1%Q) in
  (latency_next_batch sample_store ob [2%nat] (mkQueue [] 0 0 0)).1.1 = [2%nat; 2%nat] ∧
  ∃ before between after,
    (latency_next_batch sample_store ob [2%nat] (mkQueue [] 0 0 0)).1.1 = before ++ 2%nat :: between ++ 2%nat :: after.
Proof.
  split; [vm_compute; reflexivity|].
  pose proof (clock_step_back_hands_over_twice sample_store (mkObs 2 2 500 [] (λ _, 2%Q) (λ _, 1%Q)) [2%nat]
    (mkQueue [] 0 0 0) 2%nat) as H.
  destruct (latency_next_batch _ _ _ _) as [[batch buf] q]. apply H.
  - by left.
  - vm_compute. reflexivity.
  - vm_compute. reflexivity.
  - vm_compute. discriminate.
Defined.

Lemma latency_next_batch_is_oldest_first_witness :
  let ob := mkObs 2 2 100 [[3%nat]] (λ _, 5%Q) (λ _, 5%Q) in
  (latency_next_batch sample_store ob [1%nat] (mkQueue [2%nat] 0 1 0)).1.1 = [2%nat; 3%nat].
Proof.
  pose proof (latency_next_batch_is_oldest_first sample_store
    (mkObs 2 2 100 [[3%nat]] (λ _, 5%Q) (λ _, 5%Q)) [1%nat] (mkQueue [2%nat] 0 1 0) 5) as H.
  destruct H as (filled & acc & _).
  - intros r. split; reflexivity.
  - repeat constructor; eexists; reflexivity.
  - reflexivity.
Defined.

(** ** The loop *)

(** What one turn of the loop observes. *)
Record turn := mkTurn {
  tn_store : store;
  tn_strategy : string;
  tn_wall : Q;
  tn_ticks : list tick;
  tn_obs : latency_obs;
}.

Section loop.
(** The handler is the pool's [submit]: it updates the state of the pool and
    may raise, in which case the loop logs the exception and goes on. *)
Context {W : Type} (handler : list tref → W → W * option string).

(** The turns until [stop] is set; the batches handed over, in order. *)
Fixpoint scheduler_loop (turns : list turn) (s : sched_state) (w : W)
    : option (sched_state * W * list (list tref)) :=
  match turns with
  | [] => Some (s, w, [])
  | tn :: turns' =>
      '(batch, s') ← scheduler_iteration (tn_store tn) (tn_strategy tn) (tn_wall tn)
                       (tn_ticks tn) (tn_obs tn) s;
      match batch with
      | [] => scheduler_loop turns' s' w
      | _ =>
          let '(w', _) := handler batch w in
          '(s'', w'', batches) ← scheduler_loop turns' s' w';
          Some (s'', w'', batch :: batches)
      end
  end.
End loop.

Definition turn_arrivals (tn : turn) : list tref :=
  if decide (tn_strategy tn = "latency_aware"%string) then mjoin (ob_arrivals (tn_obs tn))
  else arrivals_of (tn_ticks tn).

(** The ticks given to a turn are enough for its strategy to finish: the batch size stays
    below their number, or one of them is past the fill deadline. *)
Definition turn_ends (tn : turn) : Prop :=
  (tn_strategy tn = "fifo"%string →
     ∃ B, 0 <= B < py_len (tn_ticks tn) ∧ Forall (λ tk, tk_batch_size tk <= B) (tn_ticks tn)) ∧
  (tn_strategy tn = "batching"%string → Exists (λ tk, (tn_wall tn + FILL_TIMEOUT <= tk_wall tk)%Q) (tn_ticks tn)).

Lemma scheduler_iteration_total tn s :
  turn_ends tn →
  is_Some (scheduler_iteration (tn_store tn) (tn_strategy tn) (tn_wall tn) (tn_ticks tn) (tn_obs tn) s).
Proof.
  intros [Hf Hb]. unfold scheduler_iteration.
  destruct (decide (tn_strategy tn = "fifo"%string)) as [E|_].
  { destruct (Hf E) as (B & HB & Hbs).
    destruct (fifo_loop_total B (tn_ticks tn) [] (sc_queue s)) as [[b q] E']; [done|unfold py_len in *; simpl; lia..|].
    unfold fifo_next_batch. by rewrite E'. }
  destruct (decide (tn_strategy tn = "batching"%string)) as [E|_].
  { destruct (batching_loop_total (tn_wall tn + FILL_TIMEOUT)%Q (tn_ticks tn) [] (sc_queue s) (Hb E)) as [[b q] E'].
    unfold batching_next_batch. by rewrite E'. }
  destruct (decide (tn_strategy tn = "latency_aware"%string)); [|done].
  by destruct (latency_next_batch _ _ _ _) as [[b buf] q].
Qed.

(** The clock does not step back between the two comprehensions of a turn. *)
Definition turn_ok (tn : turn) : Prop :=
  (∀ r, (ob_clock_old (tn_obs tn) r <= ob_clock_fresh (tn_obs tn) r)%Q) ∧
  0 <= ob_batch_size (tn_obs tn).

Lemma scheduler_iteration_conserves tn s batch s' :
  turn_ok tn →
  NoDup (sc_buffer s ++ q_items (sc_queue s) ++ turn_arrivals tn) →
  scheduler_iteration (tn_store tn) (tn_strategy tn) (tn_wall tn) (tn_ticks tn)
    (tn_obs tn) s = Some (batch, s') →
  ∃ acc, acc `sublist_of` turn_arrivals tn ∧
    batch ++ sc_buffer s' ++ q_items (sc_queue s')
      ≡ₚ sc_buffer s ++ q_items (sc_queue s) ++ acc ∧
    (tn_strategy tn ≠ "latency_aware"%string → sc_buffer s' = sc_buffer s).
Proof.
  intros [Hclk Hbs] Hnd. unfold scheduler_iteration, turn_arrivals in *.
  assert (∀ batch q (it acc : list tref) , batch ++ q = it ++ acc →
    batch ++ sc_buffer s ++ q ≡ₚ sc_buffer s ++ it ++ acc) as Hmove.
  { intros b q it acc Heq. rewrite <- Heq, !app_assoc.
    by rewrite (Permutation_app_comm b). }
  destruct (decide (tn_strategy tn = "fifo"%string)) as [->|Hf]; simpl in *.
  { destruct (fifo_next_batch _ _) as [[b q]|] eqn:E; [|done]. intros [= <- <-].
    destruct (fifo_loop_order _ _ _ _ _ E) as (acc & Hs & Heq). exists acc.
    split_and!; [done| |done]. by apply Hmove. }
  destruct (decide (tn_strategy tn = "batching"%string)) as [->|Hb]; simpl in *.
  { destruct (batching_next_batch _ _ _) as [[b q]|] eqn:E; [|done]. intros [= <- <-].
    destruct (batching_loop_order _ _ _ _ _ _ E) as (acc & Hs & Heq). exists acc.
    split_and!; [done| |done]. by apply Hmove. }
  destruct (decide (tn_strategy tn = "latency_aware"%string)) as [->|Hl]; simpl in *.
  - pose proof (latency_next_batch_conserves (tn_store tn) (tn_obs tn) (sc_buffer s)
      (sc_queue s) Hclk Hbs Hnd) as H.
    destruct (latency_next_batch _ _ _ _) as [[b buf] q2]. intros [= <- <-].
    destruct H as (acc' & Hs' & Hp & _). exists acc'. done.
  - intros [= <- <-]. exists []. rewrite app_nil_r.
    split_and!; [apply sublist_nil_l|done|done].
Qed.

Section loop_proofs.
Context {W : Type} (handler : list tref → W → W * option string).

Lemma scheduler_loop_cons tn turns s w s' w' batches :
  scheduler_loop handler (tn :: turns) s w = Some (s', w', batches) →
  ∃ batch s1 w1 batches1,
    scheduler_iteration (tn_store tn) (tn_strategy tn) (tn_wall tn) (tn_ticks tn)
      (tn_obs tn) s = Some (batch, s1) ∧
    scheduler_loop handler turns s1 w1 = Some (s', w', batches1) ∧
    mjoin batches = batch ++ mjoin batches1.
Proof.
  simpl. destruct (scheduler_iteration _ _ _ _ _ s) as [[batch s1]|]; simpl; [|done].
  destruct batch as [|r batch].
  - intros H. by exists [], s1, w, batches.
  - destruct (handler (r :: batch) w) as [w1 e].
    destruct (scheduler_loop handler turns s1 w1) as [[[s2 w2] bs]|] eqn:E; simpl; [|done].
    intros [= <- <- <-]. by exists (r :: batch), s1, w1, bs.
Qed.

(** The loop returns when every turn has ticks enough. *)
Lemma scheduler_loop_total turns s w :
  Forall turn_ends turns → ∃ s' w' batches, scheduler_loop handler turns s w = Some (s', w', batches).
Proof.
  intros H. revert s w. induction H as [|tn turns Htn _ IH]; intros s w; simpl; [by eauto|].
  destruct (scheduler_iteration_total tn s Htn) as [[batch s1] E]. rewrite E. simpl.
  destruct batch as [|r batch]; [apply IH|]. destruct (handler (r :: batch) w) as [w1 e].
  destruct (IH s1 w1) as (s2 & w2 & bs & E2). rewrite E2. by eauto.
Qed.

Lemma scheduler_loop_perm turns s w s' w' batches :
  Forall turn_ok turns →
  NoDup (sc_buffer s ++ q_items (sc_queue s) ++ mjoin (turn_arrivals <$> turns)) →
  scheduler_loop handler turns s w = Some (s', w', batches) →
  ∃ acc, acc `sublist_of` mjoin (turn_arrivals <$> turns) ∧
    mjoin batches ++ sc_buffer s' ++ q_items (sc_queue s')
      ≡ₚ sc_buffer s ++ q_items (sc_queue s) ++ acc.
Proof.
  revert s w batches. induction turns as [|tn turns IH]; intros s w batches Hok Hnd.
  - intros [= <- <- <-]. exists []. by rewrite app_nil_r.
  - apply Forall_cons in Hok as [Htn Hok]. intros H.
    destruct (scheduler_loop_cons _ _ _ _ _ _ _ H) as (batch & s1 & w1 & bs & E & H' & ->).
    simpl in Hnd. rewrite !app_assoc in Hnd.
    pose proof Hnd as Hnd1. apply NoDup_app in Hnd1 as [Hnd1 _].
    rewrite <- app_assoc in Hnd1.
    destruct (scheduler_iteration_conserves tn s batch s1 Htn Hnd1 E) as (acc1 & Hs1 & Hp1 & _).
    destruct (IH s1 w1 bs Hok) as (acc2 & Hs2 & Hp2); [|done|].
    + assert (NoDup ((batch ++ sc_buffer s1 ++ q_items (sc_queue s1)) ++
        mjoin (turn_arrivals <$> turns))) as Hn.
      { rewrite Hp1. eapply sublist_NoDup; [exact Hnd|].
        apply sublist_app; [|done]. rewrite <- app_assoc. auto using sublist_app. }
      rewrite <- !app_assoc in Hn. by apply NoDup_app in Hn as (_ & _ & ?).
    + exists (acc1 ++ acc2). split; [by apply sublist_app|].
      rewrite <- app_assoc, Hp2. rewrite !app_assoc. apply Permutation_app_tail.
      by rewrite <- app_assoc, Hp1, <- app_assoc.
Qed.

Lemma scheduler_loop_buffer turns s w s' w' batches :
  Forall (λ tn, tn_strategy tn ≠ "latency_aware"%string) turns →
  scheduler_loop handler turns s w = Some (s', w', batches) →
  sc_buffer s' = sc_buffer s.
Proof.
  revert s w batches. induction turns as [|tn turns IH]; intros s w batches Hst.
  - by intros [= <- <- <-].
  - apply Forall_cons in Hst as [Htn Hst]. intros H.
    destruct (scheduler_loop_cons _ _ _ _ _ _ _ H) as (batch & s1 & w1 & bs & E & H' & _).
    rewrite (IH _ _ _ Hst H'). revert E. unfold scheduler_iteration.
    repeat case_decide; try done;
      try (by intros; simplify_eq);
      match goal with |- (?m ≫= _ = _ → _) => destruct m as [[]|]; simpl; [|done] end;
      by intros [= <- <-].
Qed.

(** What a run of the loop conserves: it hands every task over at most once and loses none. *)
Lemma scheduler_loop_once turns s w s' w' batches :
  Forall turn_ok turns →
  NoDup (sc_buffer s ++ q_items (sc_queue s) ++ mjoin (turn_arrivals <$> turns)) →
  scheduler_loop handler turns s w = Some (s', w', batches) →
  NoDup (mjoin batches) ∧
  ∃ acc, acc `sublist_of` mjoin (turn_arrivals <$> turns) ∧
    mjoin batches ++ sc_buffer s' ++ q_items (sc_queue s')
      ≡ₚ sc_buffer s ++ q_items (sc_queue s) ++ acc.
Proof.
  intros Hok Hnd H.
  destruct (scheduler_loop_perm turns s w s' w' batches Hok Hnd H) as (acc & Hs & Hp).
  split; [|by exists acc].
  assert (NoDup (mjoin batches ++ sc_buffer s' ++ q_items (sc_queue s'))) as Hn.
  { rewrite Hp. eapply sublist_NoDup; [exact Hnd|]. auto using sublist_app. }
  by apply NoDup_app in Hn as [? _].
Qed.

(** C8. Whatever strategies the configuration selects turn by turn, and even
    when the handler raises, the loop goes through its turns, given ticks enough, hands
    every task over at most once and loses none: the batches, the latency-aware buffer and
    the queue are together what was there at the start plus the arrivals the queue
    accepted.  This holds as long as the wall clock does not step back within a turn of the
    latency-aware strategy; [clock_step_back_hands_over_twice] shows what happens if it does. *)
Theorem scheduler_loop_conserves turns s w :
  Forall turn_ends turns → Forall turn_ok turns →
  NoDup (sc_buffer s ++ q_items (sc_queue s) ++ mjoin (turn_arrivals <$> turns)) →
  ∃ s' w' batches, scheduler_loop handler turns s w = Some (s', w', batches) ∧
    NoDup (mjoin batches) ∧
    ∃ acc, acc `sublist_of` mjoin (turn_arrivals <$> turns) ∧
      mjoin batches ++ sc_buffer s' ++ q_items (sc_queue s')
        ≡ₚ sc_buffer s ++ q_items (sc_queue s) ++ acc.
Proof.
  intros Hends Hok Hnd. destruct (scheduler_loop_total turns s w Hends) as (s' & w' & batches & E).
  exists s', w', batches. split; [done|]. by apply (scheduler_loop_once turns s w s' w').
Qed.

(** C33. Once the configuration leaves the latency-aware strategy, the tasks of
    its private buffer are stranded: as long as another strategy is selected no
    turn of the loop dispatches any of them, and the buffer stays as it is. *)
Theorem switching_strategy_strands_buffer turns s w s' w' batches :
  Forall turn_ok turns →
  NoDup (sc_buffer s ++ q_items (sc_queue s) ++ mjoin (turn_arrivals <$> turns)) →
  Forall (λ tn, tn_strategy tn ≠ "latency_aware"%string) turns →
  scheduler_loop handler turns s w = Some (s', w', batches) →
  sc_buffer s' = sc_buffer s ∧ (∀ r, r ∈ sc_buffer s → r ∉ mjoin batches).
Proof.
  intros Hok Hnd Hst H. pose proof (scheduler_loop_buffer _ _ _ _ _ _ Hst H) as Hb.
  split; [done|].
  destruct (scheduler_loop_perm turns s w s' w' batches Hok Hnd H) as (acc & Hs & Hp).
  assert (NoDup (mjoin batches ++ sc_buffer s' ++ q_items (sc_queue s'))) as Hn.
  { rewrite Hp. eapply sublist_NoDup; [exact Hnd|]. auto using sublist_app. }
  apply NoDup_app in Hn as (_ & Hdis & _). intros r Hr Hin.
  apply (Hdis r Hin). rewrite Hb. by apply elem_of_app; left.
Qed.
End loop_proofs.

Definition sample_obs : latency_obs := mkObs 2 1 100 [] (λ _, 5%Q) (λ _, 5%Q).

Definition sample_turns (strategy : string) : list turn :=
  [mkTurn sample_store strategy 0 [mkTick [2%nat] 1 0; mkTick [] 1 0] sample_obs].

Lemma scheduler_loop_conserves_witness :
  ∃ s' w' batches,
    scheduler_loop (λ b w, (w + py_len b, Some "raised"%string)) (sample_turns "fifo")
      (mkSched (mkQueue [3%nat] 0 1 0) [1%nat]) 0 = Some (s', w', batches) ∧
    NoDup (mjoin batches) ∧ w' = 1.
Proof.
  destruct (scheduler_loop_conserves (λ b w, (w + py_len b, Some "raised"%string))
    (sample_turns "fifo") (mkSched (mkQueue [3%nat] 0 1 0) [1%nat]) 0) as (s' & w' & batches & E & Hn & _).
  - repeat constructor; simpl; [|done]. intros _. exists 1. split; [unfold py_len; simpl; lia|repeat constructor; simpl; lia].
  - repeat constructor; simpl; try lia. intros; apply Qle_refl.
  - apply (bool_decide_unpack _). vm_compute. exact I.
  - exists s', w', batches. split; [exact E|]. split; [exact Hn|].
    assert (E' := E). vm_compute in E'. by injection E' as _ <- _.
Defined.

Lemma switching_strategy_strands_buffer_witness :
  ∃ s' w' batches,
    scheduler_loop (λ b w, (w + py_len b, None)) (sample_turns "fifo")
      (mkSched (mkQueue [3%nat] 0 1 0) [1%nat]) 0 = Some (s', w', batches) ∧
    sc_buffer s' = [1%nat].
Proof.
  eexists _, _, _. split; [reflexivity|].
  destruct (switching_strategy_strands_buffer (λ b w, (w + py_len b, None))
    (sample_turns "fifo") (mkSched (mkQueue [3%nat] 0 1 0) [1%nat]) 0
    (mkSched (mkQueue [2%nat] 0 2 1) [1%nat]) 1 [[3%nat]]) as [H _].
  - repeat constructor; simpl; try lia. intros; apply Qle_refl.
  - apply (bool_decide_unpack _). vm_compute. exact I.
  - repeat constructor. simpl. discriminate.
  - reflexivity.
  - exact H.
Defined.
