(* ===== verification/LocalWorker.v ===== *)
(** The in-process simulation workers of [src/system/worker.py]: the batch
    computation, the private batch queue and the round-robin pool. *)
From stdpp Require Import pretty.
From S2P Require Import Prelude PyVal Tasks Config.

(** ** [Worker] *)

Record Worker := mkWorker {
  lw_id : Z;
  lw_batch_queue : list (list tref);
  lw_processed : Z;
}.

Definition worker_init (worker_id : Z) : Worker := mkWorker worker_id [] 0.

Definition worker_submit (batch : list tref) (w : Worker) : Worker :=
  mkWorker (lw_id w) (lw_batch_queue w ++ [batch]) (lw_processed w).

(** Queued work only: the batch being processed has left the queue. *)
Definition worker_busy (w : Worker) : bool :=
  match lw_batch_queue w with [] => false | _ => true end.

(** The clock as the calls on each task of one batch read it, and the random
    draw of the failure injection. *)
Record batch_obs := mkBatchObs {
  bo_start : tref → Q;
  bo_end : tref → Q;
  bo_random : Q;
}.

Definition injected_failure (worker_id : Z) : string :=
  ("Worker-" +:+ pretty worker_id +:+ ": injected failure")%string.

(** [task.input_data.get("x", 0) if isinstance(task.input_data, dict) else 0]. *)
Definition input_x (data : pyval) : pyval :=
  match data with PyDict d => dict_get d "x" (PyInt 0) | _ => PyInt 0 end.

Definition prediction (worker_id : Z) (x2 : pyval) : pyval :=
  PyDict [("prediction"%string, x2); ("worker_id"%string, PyInt worker_id)].

(** The body of the last loop: the result, or the exception's text. *)
Definition predict_task (worker_id : Z) (wall : Q) (t : Task) : Task :=
  match py_square (input_x (input_data t)) with
  | inl x2 => mark_done wall (prediction worker_id x2) t
  | inr err => mark_failed wall err None t
  end.

(** The simulated batch time: a fixed overhead and 5% of it per task. *)
Definition local_total_ms (latency : Q) (batch : list tref) : Q :=
  (latency + inject_Z (py_len batch) * (latency * (5 # 100)))%Q.

Definition worker_process (c : SystemConfig) (ob : batch_obs) (batch : list tref)
    (w : Worker) (h : store) : Worker * store :=
  let h := for_each (λ r, mark_processing (bo_start ob r)) batch h in
  if (0 <?q failure_rate c) && (bo_random ob <?q failure_rate c) then
    (w, for_each (λ r, mark_failed (bo_end ob r) (injected_failure (lw_id w)) None) batch h)
  else
    (mkWorker (lw_id w) (lw_batch_queue w) (lw_processed w + py_len batch),
     for_each (λ r, predict_task (lw_id w) (bo_end ob r)) batch h).

(** The inner loop of [_loop]: pop and process until the queue is empty. The
    fuel is the number of batches, one per turn. *)
Fixpoint worker_drain (fuel : nat) (c : SystemConfig) (obs : nat → batch_obs)
    (w : Worker) (h : store) : Worker * store :=
  match fuel with
  | O => (w, h)
  | S fuel' =>
      match lw_batch_queue w with
      | [] => (w, h)
      | batch :: rest =>
          let '(w', h') := worker_process c (obs fuel) batch
                             (mkWorker (lw_id w) rest (lw_processed w)) h in
          worker_drain fuel' c obs w' h'
      end
  end.

(** ** [WorkerPool] *)

Record WorkerPool := mkPool {
  lp_workers : list Worker;
  lp_rr_index : Z;
}.

Definition pool_start (c : SystemConfig) : WorkerPool :=
  mkPool (worker_init <$> (Z.of_nat <$> seq 0 (Z.to_nat (num_workers c)))) 0.

(** The indices of the workers the batch may go to. *)
Definition idle_indices (ws : list Worker) : list nat :=
  filter (λ i, (if ws !! i is Some w then worker_busy w else true) = false)
    (seq 0 (length ws)).

Definition pool_choice (p : WorkerPool) : option nat :=
  let all := seq 0 (length (lp_workers p)) in
  let idle := idle_indices (lp_workers p) in
  let pool := match idle with [] => all | _ => idle end in
  pool !! Z.to_nat (lp_rr_index p mod py_len pool).

Definition pool_submit (wall : tref → Q) (batch : list tref) (p : WorkerPool) (h : store)
    : WorkerPool * store :=
  match lp_workers p with
  | [] => (p, for_each (λ r, mark_failed (wall r) "no workers available" None) batch h)
  | _ =>
      match pool_choice p with
      | Some i => (mkPool (alter (worker_submit batch) i (lp_workers p)) (lp_rr_index p + 1), h)
      | None => (p, h)   (* not reached: the index is within the pool *)
      end
  end.

(** ** A batch, once processed, is finished *)

Lemma predict_task_run wid wall t :
  ∃ os, predict_task wid wall t = run_ops t os.
Proof.
  unfold predict_task. case_match.
  - by exists [OpDone wall (prediction wid p)].
  - by exists [OpFailed wall s None].
Qed.

Lemma predict_task_terminal wid wall t : is_terminal (predict_task wid wall t) = true.
Proof.
  unfold predict_task. case_match; auto using mark_done_terminal, mark_failed_terminal.
Qed.

Lemma worker_process_store_le c ob batch w h :
  store_le h (worker_process c ob batch w h).2.
Proof.
  unfold worker_process.
  assert (∀ h, store_le h (for_each (λ r, mark_processing (bo_start ob r)) batch h)) as H0.
  { intros h'. apply store_le_for_each. intros r t. by exists [OpProcessing (bo_start ob r)]. }
  case_match; simpl; (etrans; [apply H0|]); apply store_le_for_each; intros r t.
  - by exists [OpFailed (bo_end ob r) (injected_failure (lw_id w)) None].
  - apply predict_task_run.
Qed.

(** Processing a batch finishes every task of it. Without an injected
    failure an unfinished task gets the square of its input and the worker's
    identity, or the error the multiplication raises; with one, every task of the
    batch fails and the processed counter stays. *)
Theorem worker_process_finishes (c : SystemConfig) (ob : batch_obs) (batch : list tref)
    (w w' : Worker) (h h' : store) (r : tref) (t : Task) :
  NoDup batch → r ∈ batch → h !! r = Some t → is_terminal t = false →
  worker_process c ob batch w h = (w', h') →
  settled h' r ∧
  ∃ t', h' !! r = Some t' ∧
    if (0 <?q failure_rate c) && (bo_random ob <?q failure_rate c) then
      status t' = FAILED ∧ error t' = Some (injected_failure (lw_id w)) ∧
      lw_processed w' = lw_processed w
    else
      lw_processed w' = lw_processed w + py_len batch ∧
      match py_square (input_x (input_data t)) with
      | inl x2 => status t' = DONE ∧ result t' = prediction (lw_id w) x2
      | inr err => status t' = FAILED ∧ error t' = Some err
      end.
Proof.
  intros Hnd Hin Hr Ht. unfold worker_process.
  destruct (_ && _); intros [= <- <-]; rewrite ?for_each_lookup, ?decide_True by done;
    rewrite Hr; simpl.
  - split.
    + eexists. rewrite for_each_lookup, decide_True, for_each_lookup, decide_True, Hr by done.
      split; [reflexivity|apply mark_failed_terminal].
    + eexists. split; [reflexivity|]. unfold mark_failed, mark_processing. by rewrite Ht.
  - split.
    + eexists. rewrite for_each_lookup, decide_True, for_each_lookup, decide_True, Hr by done.
      split; [reflexivity|apply predict_task_terminal].
    + eexists. split; [reflexivity|]. split; [done|].
      unfold predict_task, mark_processing. rewrite Ht; simpl.
      case_match; unfold mark_done, mark_failed; simpl; done.
Qed.

Lemma worker_process_finishes_witness :
  let t := new_task (PyDict [("x"%string, PyInt 3)]) "id" 0 None in
  ∃ h', (worker_process default_config (mkBatchObs (λ _, 1%Q) (λ _, 2%Q) 0) [4%nat]
      (worker_init 7) {[4%nat := t]}).2 = h' ∧ settled h' 4%nat.
Proof.
  eexists. split; [reflexivity|].
  refine (proj1 (worker_process_finishes default_config
    (mkBatchObs (λ _, 1%Q) (λ _, 2%Q) 0) [4%nat] (worker_init 7) _
    {[4%nat := new_task (PyDict [("x"%string, PyInt 3)]) "id" 0 None]} _ 4%nat
    (new_task (PyDict [("x"%string, PyInt 3)]) "id" 0 None) _ _ _ _ _)).
  - apply NoDup_singleton.
  - set_solver.
  - reflexivity.
  - reflexivity.
  - reflexivity.
Defined.

(** ** Routing *)

Lemma idle_indices_spec ws i :
  i ∈ idle_indices ws ↔ ∃ w, ws !! i = Some w ∧ worker_busy w = false.
Proof.
  unfold idle_indices. rewrite list_elem_of_filter. split.
  - intros [Hb _]. destruct (ws !! i) eqn:E; naive_solver.
  - intros (w & Hw & Hb). rewrite Hw. split; [done|].
    apply elem_of_seq. apply lookup_lt_Some in Hw. lia.
Qed.

Lemma pool_choice_spec p :
  lp_workers p ≠ [] →
  ∃ i w, pool_choice p = Some i ∧ lp_workers p !! i = Some w ∧
    (worker_busy w = true → ∀ j w', lp_workers p !! j = Some w' → worker_busy w' = true).
Proof.
  intros Hne. unfold pool_choice.
  assert (∀ l : list nat, l ≠ [] → is_Some (l !! Z.to_nat (lp_rr_index p mod py_len l))) as Hsome.
  { intros l Hl. apply lookup_lt_is_Some. unfold py_len.
    assert (0 < Z.of_nat (length l)) by (destruct l; simpl in *; [done|lia]).
    pose proof (Z.mod_pos_bound (lp_rr_index p) (Z.of_nat (length l))). lia. }
  destruct (idle_indices (lp_workers p)) as [|i0 idle] eqn:E.
  - destruct (Hsome (seq 0 (length (lp_workers p)))) as [i Hi].
    { destruct (lp_workers p); done. }
    rewrite Hi. pose proof Hi as [-> Hlt]%lookup_seq.
    destruct (lookup_lt_is_Some_2 (lp_workers p) _ Hlt) as [w Hw].
    eexists _, w. split_and!; [done|exact Hw|]. intros _ j w' Hj.
    destruct (worker_busy w') eqn:Eb; [done|].
    assert (j ∈ idle_indices (lp_workers p)) as Hin by (apply idle_indices_spec; eauto).
    rewrite E in Hin. set_solver.
  - destruct (Hsome (i0 :: idle)) as [i Hi]; [done|]. rewrite Hi.
    apply list_elem_of_lookup_2 in Hi. rewrite <- E in Hi.
    apply idle_indices_spec in Hi as (w & Hw & Hb).
    exists i, w. split_and!; [done|done|]. congruence.
Qed.

(** [submit] appends the batch to exactly one worker's queue, and to one
    without queued work whenever there is one; with no worker at all it fails
    every task of the batch. *)
Theorem pool_submit_routes (wall : tref → Q) (batch : list tref) (p : WorkerPool) (h : store) :
  let '(p', h') := pool_submit wall batch p h in
  match lp_workers p with
  | [] => p' = p ∧ ∀ r, r ∈ batch → is_Some (h !! r) → settled h' r
  | _ => h' = h ∧ ∃ i w,
      lp_workers p !! i = Some w ∧
      lp_workers p' = <[i := worker_submit batch w]> (lp_workers p) ∧
      (worker_busy w = true → ∀ j w', lp_workers p !! j = Some w' → worker_busy w' = true)
  end.
Proof.
  unfold pool_submit. destruct (lp_workers p) as [|w0 ws] eqn:E.
  - split; [done|]. intros r Hin Hr. apply for_each_settled; [|done|done].
    intros. split; [apply mark_failed_terminal|]. by exists [OpFailed (wall r0) "no workers available" None].
  - rewrite <- E. destruct (pool_choice_spec p) as (i & w & -> & Hw & Hb); [by rewrite E|].
    split; [done|]. exists i, w. split_and!; [done| |done]. simpl.
    apply list_eq. intros j. destruct (decide (i = j)) as [<-|Hne].
    + rewrite list_lookup_alter_eq, Hw, list_lookup_insert_eq; [done|].
      by eapply lookup_lt_Some.
    + by rewrite list_lookup_alter_ne, list_lookup_insert_ne.
Qed.
