(* ===== verification/LocalThreads.v ===== *)
(** The threads of the in-process pool: [Worker._loop] of [src/system/worker.py] step by
    step, with [submit] and [stop] split where another thread may run in between, and the
    thread of [Scheduler] in [src/system/scheduler.py] with its stop flag. *)
From S2P Require Import Prelude PyVal Tasks Queue Config Scheduler LocalWorker.

(** ** One worker's thread *)

(** Where [_loop] is; [LwSleep] is inside [_process], before the outcome is written. *)
Inductive lw_pc :=
| LwUnstarted
| LwTest                          (* while not self._stop.is_set() *)
| LwWait                          (* self._has_work.wait(timeout=0.1) *)
| LwClear                         (* self._has_work.clear() *)
| LwTake                          (* if not self._batch_queue: break; pop(0) *)
| LwBusy (batch : list tref)      (* self._process(batch) *)
| LwSleep (batch : list tref)
| LwExited.

(** The object, its two events and its thread; the last three fields are history: the
    submitters between their append and their [set], and the batches appended and
    processed so far. *)
Record lw_thread := mkLwThread {
  lt_worker : Worker;
  lt_has_work : bool;
  lt_stop : bool;
  lt_pc : lw_pc;
  lt_wakers : nat;
  lt_submitted : list (list tref);
  lt_finished : list (list tref);
}.

Definition lt_init (worker_id : Z) : lw_thread :=
  mkLwThread (worker_init worker_id) false false LwUnstarted 0 [] [].

(** [Worker.start]; a thread is started once. *)
Definition lt_start (s : lw_thread) : lw_thread * option string :=
  let s := mkLwThread (lt_worker s) (lt_has_work s) false (lt_pc s) (lt_wakers s) (lt_submitted s) (lt_finished s) in
  match lt_pc s with
  | LwUnstarted =>
      (mkLwThread (lt_worker s) (lt_has_work s) false LwTest (lt_wakers s) (lt_submitted s) (lt_finished s), None)
  | _ => (s, Some "threads can only be started once"%string)
  end.

(** The two halves of [Worker.submit]. *)
Definition lt_append (batch : list tref) (s : lw_thread) : lw_thread :=
  mkLwThread (worker_submit batch (lt_worker s)) (lt_has_work s) (lt_stop s) (lt_pc s) (S (lt_wakers s))
    (lt_submitted s ++ [batch]) (lt_finished s).
Definition lt_wake (s : lw_thread) : lw_thread :=
  mkLwThread (lt_worker s) true (lt_stop s) (lt_pc s) (pred (lt_wakers s)) (lt_submitted s) (lt_finished s).

(** The two halves of [Worker.stop], before its join. *)
Definition lt_set_stop (s : lw_thread) : lw_thread :=
  mkLwThread (lt_worker s) (lt_has_work s) true (lt_pc s) (lt_wakers s) (lt_submitted s) (lt_finished s).
Definition lt_stop_wake (s : lw_thread) : lw_thread :=
  mkLwThread (lt_worker s) true (lt_stop s) (lt_pc s) (lt_wakers s) (lt_submitted s) (lt_finished s).

(** [_process] before and after its sleep. *)
Definition process_begin (ob : batch_obs) (batch : list tref) (h : store) : store :=
  for_each (λ r, mark_processing (bo_start ob r)) batch h.
Definition process_end (c : SystemConfig) (ob : batch_obs) (batch : list tref) (w : Worker) (h : store) : Worker * store :=
  if (0 <?q failure_rate c) && (bo_random ob <?q failure_rate c) then
    (w, for_each (λ r, mark_failed (bo_end ob r) (injected_failure (lw_id w)) None) batch h)
  else
    (mkWorker (lw_id w) (lw_batch_queue w) (lw_processed w + py_len batch),
     for_each (λ r, predict_task (lw_id w) (bo_end ob r)) batch h).

Lemma process_split c ob batch w h :
  worker_process c ob batch w h = process_end c ob batch w (process_begin ob batch h).
Proof. done. Qed.

Definition lt_goto (pc : lw_pc) (s : lw_thread) : lw_thread :=
  mkLwThread (lt_worker s) (lt_has_work s) (lt_stop s) pc (lt_wakers s) (lt_submitted s) (lt_finished s).

(** One step of the thread, under the configuration and the observations of then.  The
    wait returns when there is work or when its timeout passes. *)
Definition lt_step (c : SystemConfig) (ob : batch_obs) (s : lw_thread) (h : store) : lw_thread * store :=
  match lt_pc s with
  | LwUnstarted | LwExited => (s, h)
  | LwTest => (lt_goto (if lt_stop s then LwExited else LwWait) s, h)
  | LwWait => (lt_goto LwClear s, h)
  | LwClear =>
      (mkLwThread (lt_worker s) false (lt_stop s) LwTake (lt_wakers s) (lt_submitted s) (lt_finished s), h)
  | LwTake =>
      match lw_batch_queue (lt_worker s) with
      | [] => (lt_goto LwTest s, h)
      | batch :: rest =>
          let w := mkWorker (lw_id (lt_worker s)) rest (lw_processed (lt_worker s)) in
          (mkLwThread w (lt_has_work s) (lt_stop s) (LwBusy batch) (lt_wakers s) (lt_submitted s) (lt_finished s), h)
      end
  | LwBusy batch => (lt_goto (LwSleep batch) s, process_begin ob batch h)
  | LwSleep batch =>
      let '(w, h) := process_end c ob batch (lt_worker s) h in
      (mkLwThread w (lt_has_work s) (lt_stop s) LwTake (lt_wakers s) (lt_submitted s) (lt_finished s ++ [batch]), h)
  end.

(** What happens to a worker: its thread runs, the scheduler submits, the pool stops it,
    and other threads change task objects. *)
Inductive lw_event :=
| EvThread (c : SystemConfig) (ob : batch_obs)
| EvAppend (batch : list tref)
| EvWake
| EvSetStop
| EvStopWake
| EvTasks (f : store → store).

Definition lt_event (e : lw_event) (sh : lw_thread * store) : lw_thread * store :=
  let '(s, h) := sh in
  match e with
  | EvThread c ob => lt_step c ob s h
  | EvAppend batch => (lt_append batch s, h)
  | EvWake => (lt_wake s, h)
  | EvSetStop => (lt_set_stop s, h)
  | EvStopWake => (lt_stop_wake s, h)
  | EvTasks f => (s, f h)
  end.

Definition lt_run (es : list lw_event) (sh : lw_thread * store) : lw_thread * store :=
  foldl (λ sh e, lt_event e sh) sh es.

(** The other threads of the process change tasks along their operations only. *)
Definition tasks_move (e : lw_event) : Prop :=
  match e with EvTasks f => ∀ h, store_le h (f h) | _ => True end.

(** ** Invariants *)

Definition lt_in_hand (s : lw_thread) : list (list tref) :=
  match lt_pc s with LwBusy batch | LwSleep batch => [batch] | _ => [] end.

(** Batches are processed in the order of submission, none twice and none dropped; and
    the thread never waits beside a queue that is not empty, unless the submitter is about
    to wake it. *)
Record lt_inv (s : lw_thread) : Prop := {
  li_fifo : lt_finished s ++ lt_in_hand s ++ lw_batch_queue (lt_worker s) = lt_submitted s;
  li_awake : (lt_pc s = LwTest ∨ lt_pc s = LwWait ∨ lt_pc s = LwUnstarted) → lw_batch_queue (lt_worker s) ≠ [] →
             lt_has_work s = true ∨ (0 < lt_wakers s)%nat;
}.

Lemma lt_init_inv wid : lt_inv (lt_init wid).
Proof. by split. Qed.

Lemma process_end_queue c ob batch w h :
  lw_batch_queue (process_end c ob batch w h).1 = lw_batch_queue w ∧ lw_id (process_end c ob batch w h).1 = lw_id w.
Proof. unfold process_end. by destruct (_ && _). Qed.

Lemma lt_step_inv c ob s h : lt_inv s → lt_inv (lt_step c ob s h).1.
Proof.
  intros [Hf Ha]. unfold lt_step, lt_in_hand in *.
  destruct (lt_pc s) as [| | | | |batch|batch|] eqn:Ep; try (split; unfold lt_in_hand; simpl; rewrite ?Ep; naive_solver).
  - destruct (lt_stop s); split; simpl; naive_solver.
  - destruct (lw_batch_queue (lt_worker s)) eqn:Eq; split; simpl; rewrite ?Eq; naive_solver.
  - pose proof (process_end_queue c ob batch (lt_worker s) h) as [Eq _].
    destruct (process_end c ob batch (lt_worker s) h) as [w h']. simpl in *. split; simpl; [|naive_solver].
    by rewrite Eq, <- app_assoc.
Qed.

Lemma lt_event_inv e sh : lt_inv sh.1 → lt_inv (lt_event e sh).1.
Proof.
  destruct sh as [s h]. simpl. intros H. destruct e as [c ob|batch| | | |f]; simpl; [by apply lt_step_inv|..];
    destruct H as [Hf Ha]; split; simpl; auto.
  - unfold lt_in_hand in *. simpl. by rewrite <- Hf, <- !app_assoc.
  - intros _ _. right. lia.
Qed.

Lemma lt_run_inv es sh : lt_inv sh.1 → lt_inv (lt_run es sh).1.
Proof. revert sh. induction es as [|e es IH]; intros sh H; [done|]. by apply IH, lt_event_inv. Qed.

Lemma lt_start_inv s : lt_inv s → lt_inv (lt_start s).1.
Proof. intros [Hf Ha]. unfold lt_start, lt_in_hand in *. simpl. destruct (lt_pc s) eqn:Ep; split; simpl; rewrite ?Ep; auto. Qed.

(** ** What a batch goes through *)

Lemma process_begin_le ob batch h : store_le h (process_begin ob batch h).
Proof. apply store_le_for_each. intros r t. by exists [OpProcessing (bo_start ob r)]. Qed.

(** The outcome moves the tasks along and finishes those of the batch. *)
Lemma process_end_settles c ob batch w h :
  store_le h (process_end c ob batch w h).2 ∧
  ∀ r, r ∈ batch → is_Some (h !! r) → settled (process_end c ob batch w h).2 r.
Proof.
  unfold process_end. destruct (_ && _); simpl.
  - assert (∀ r t, ∃ os, mark_failed (bo_end ob r) (injected_failure (lw_id w)) None t = run_ops t os) as H.
    { intros r t. by exists [OpFailed (bo_end ob r) (injected_failure (lw_id w)) None]. }
    split; [by apply store_le_for_each|]. intros r Hr Ht. apply for_each_settled; [|done|done].
    intros q t. split; [apply mark_failed_terminal|apply H].
  - split; [apply store_le_for_each; intros; apply predict_task_run|]. intros r Hr Ht.
    apply for_each_settled; [|done|done]. intros q t. split; [apply predict_task_terminal|apply predict_task_run].
Qed.

(** Relative to the tasks of [h0]: those of the finished batches have an outcome. *)
Definition finished_settled (h0 : store) (sh : lw_thread * store) : Prop :=
  store_le h0 sh.2 ∧
  ∀ batch r, batch ∈ lt_finished sh.1 → r ∈ batch → is_Some (h0 !! r) → settled sh.2 r.

Lemma finished_settled_le h0 s h h' : store_le h h' → finished_settled h0 (s, h) → finished_settled h0 (s, h').
Proof.
  intros Hle [H0 Hs]. split; [by etrans|]. intros batch r Hb Hr Hi. eapply settled_mono; [exact Hle|by apply (Hs batch)].
Qed.

Lemma finished_settled_event h0 e sh : tasks_move e → finished_settled h0 sh → finished_settled h0 (lt_event e sh).
Proof.
  destruct sh as [s h]. intros He H. destruct e as [c ob|batch| | | |f]; try exact H; simpl in *;
    [|eapply finished_settled_le; [apply He|exact H]].
  unfold lt_step. destruct (lt_pc s) as [| | | | |batch|batch|]; try exact H.
  - destruct (lw_batch_queue (lt_worker s)); exact H.
  - eapply finished_settled_le; [apply process_begin_le|exact H].
  - destruct (process_end_settles c ob batch (lt_worker s) h) as [Hle Hset].
    destruct (process_end c ob batch (lt_worker s) h) as [w h']. simpl in *. destruct H as [H0 Hs].
    split; simpl; [by etrans|]. intros b r [Hb|Hb]%elem_of_app Hr Hi.
    + eapply settled_mono; [exact Hle|by apply (Hs b)].
    + apply list_elem_of_singleton in Hb as ->. apply Hset; [done|]. destruct Hi as [t Ht].
      destruct (H0 r t Ht) as [os Ht']. by eexists.
Qed.

Lemma finished_settled_run h0 es sh : Forall tasks_move es → finished_settled h0 sh → finished_settled h0 (lt_run es sh).
Proof.
  intros Hes. revert sh. induction Hes as [|e es He _ IH]; intros sh H; [done|]. by apply IH, finished_settled_event.
Qed.

(** ** Response: a queued batch is processed *)

Definition is_thread_event (e : lw_event) : bool := match e with EvThread _ _ => true | _ => false end.
Definition thread_steps (es : list lw_event) : nat := length (filter (λ e, is_thread_event e = true) es).

Definition lt_running (s : lw_thread) : Prop := lt_pc s ≠ LwUnstarted ∧ lt_pc s ≠ LwExited.

(** Steps of the thread until it takes its next batch. *)
Definition to_take (s : lw_thread) : nat :=
  match lt_pc s with LwTest => 3 | LwWait => 2 | LwClear => 1 | LwBusy _ => 2 | LwSleep _ => 1 | _ => 0 end.

(** Steps of the thread until it has finished the first [n] batches submitted. *)
Definition steps_left (n : nat) (s : lw_thread) : nat :=
  match (n - length (lt_finished s))%nat with
  | O => 0
  | m => to_take s + 3 * (m - length (lt_in_hand s))
  end.

(** A thread that serves: it runs, and nobody has stopped it. *)
Definition lt_serving (s : lw_thread) : Prop := lt_running s ∧ lt_stop s = false ∧ lt_inv s.

Definition not_stopping (e : lw_event) : Prop := match e with EvSetStop => False | _ => True end.

Lemma serving_step c ob s h : lt_running s → lt_stop s = false → lt_running (lt_step c ob s h).1 ∧ lt_stop (lt_step c ob s h).1 = false.
Proof.
  intros [Hu He] Hs. unfold lt_step, lt_running. destruct (lt_pc s) as [| | | | |batch|batch|]; simpl; rewrite ?Hs; try done.
  - by destruct (lw_batch_queue (lt_worker s)).
  - by destruct (process_end c ob batch (lt_worker s) h).
Qed.

Lemma serving_event e sh : not_stopping e → lt_serving sh.1 → lt_serving (lt_event e sh).1.
Proof.
  intros He (Hr & Hs & Hi). pose proof (lt_event_inv e sh Hi) as Hi'. destruct sh as [s h]. unfold lt_serving.
  destruct e as [c ob|batch| | | |f]; try done. by destruct (serving_step c ob s h Hr Hs).
Qed.

(** A step of the thread brings the first [n] batches nearer; the others do not put them off. *)
Lemma steps_left_thread n c ob s h :
  lt_serving s → (n ≤ length (lt_submitted s))%nat →
  (steps_left n (lt_step c ob s h).1 ≤ pred (steps_left n s))%nat.
Proof.
  intros ((Hu & He) & Hs & [Hf _]) Hn. apply (f_equal length) in Hf. rewrite !length_app in Hf.
  unfold steps_left, to_take, lt_in_hand, lt_step in *. destruct (lt_pc s) as [| | | | |batch|batch|] eqn:Ep; try done; simpl in *.
  1: rewrite Hs; simpl. 1-3, 5: destruct (n - _)%nat; simpl; lia.
  - destruct (lw_batch_queue (lt_worker s)) as [|b rest] eqn:Eq; simpl in *; destruct (n - _)%nat eqn:En; simpl; lia.
  - destruct (process_end c ob batch (lt_worker s) h) as [w h']. simpl. rewrite length_app. simpl.
    destruct (n - length (lt_finished s))%nat as [|m] eqn:En; [by replace (n - _)%nat with 0%nat by lia|].
    replace (n - _)%nat with m by lia. destruct m; simpl; lia.
Qed.

Lemma steps_left_event n e sh :
  not_stopping e → lt_serving sh.1 → (n ≤ length (lt_submitted sh.1))%nat →
  (steps_left n (lt_event e sh).1 ≤ steps_left n sh.1 - (if is_thread_event e then 1 else 0))%nat ∧
  (n ≤ length (lt_submitted (lt_event e sh).1))%nat.
Proof.
  destruct sh as [s h]. intros He Hs Hn. simpl in *. split.
  - destruct e; simpl; try (unfold steps_left, to_take, lt_in_hand; simpl; lia).
    pose proof (steps_left_thread n c ob s h Hs Hn). lia.
  - destruct e; simpl; rewrite ?length_app; try lia. unfold lt_step.
    destruct (lt_pc s); simpl; try lia; [by destruct (lw_batch_queue _)|by destruct (process_end _ _ _ _ _)].
Qed.

Lemma steps_left_run n es sh :
  Forall not_stopping es → lt_serving sh.1 → (n ≤ length (lt_submitted sh.1))%nat →
  (steps_left n (lt_run es sh).1 ≤ steps_left n sh.1 - thread_steps es)%nat ∧ lt_serving (lt_run es sh).1.
Proof.
  intros Hes. revert sh. unfold thread_steps. induction Hes as [|e es He _ IH]; intros sh Hs Hn; [simpl; split; [lia|done]|].
  destruct (steps_left_event n e sh He Hs Hn) as [H1 H2]. destruct (IH (lt_event e sh)) as [H3 H4]; [by apply serving_event|done|].
  split; [|exact H4]. change (lt_run (e :: es) sh) with (lt_run es (lt_event e sh)). rewrite filter_cons.
  destruct (is_thread_event e); simpl in *; lia.
Qed.

Lemma steps_left_zero n s : steps_left n s = 0%nat → (n ≤ length (lt_finished s))%nat.
Proof.
  unfold steps_left, to_take, lt_in_hand. destruct (n - length (lt_finished s))%nat eqn:E; [lia|].
  destruct (lt_pc s); simpl; lia.
Qed.

Lemma steps_left_bound n s : (steps_left n s ≤ 3 * (n - length (lt_finished s)) + 3)%nat.
Proof.
  unfold steps_left, to_take, lt_in_hand. destruct (n - length (lt_finished s))%nat eqn:E; [lia|].
  destruct (lt_pc s); simpl; lia.
Qed.

Lemma lt_run_submitted es sh : lt_submitted sh.1 `prefix_of` lt_submitted (lt_run es sh).1.
Proof.
  revert sh. induction es as [|e es IH]; intros sh; [done|]. etrans; [|apply IH]. destruct sh as [s h].
  destruct e; simpl; try done; [|by eexists]. unfold lt_step.
  destruct (lt_pc s); simpl; try done; [by destruct (lw_batch_queue _)|by destruct (process_end _ _ _ _ _)].
Qed.

(** A batch submitted to a worker of the in-process pool is processed: while nobody
    stops the worker, its thread has written an outcome into every task of the batches it
    holds after at most three of its steps for each and three more, whatever is submitted
    and whoever else moves the tasks meanwhile; and batches are finished in the order of
    their submission, each once. *)
Theorem queued_batches_are_processed (es : list lw_event) (s : lw_thread) (h : store) :
  lt_serving s → finished_settled h (s, h) → Forall not_stopping es → Forall tasks_move es →
  (3 * (length (lt_submitted s) - length (lt_finished s)) + 3 ≤ thread_steps es)%nat →
  let '(s', h') := lt_run es (s, h) in
  lt_submitted s `prefix_of` lt_finished s' ∧ lt_finished s' `prefix_of` lt_submitted s' ∧
  ∀ batch r, batch ∈ lt_submitted s → r ∈ batch → is_Some (h !! r) → settled h' r.
Proof.
  intros Hs Hset Hns Hmv Hn.
  destruct (steps_left_run (length (lt_submitted s)) es (s, h) Hns Hs (le_n _)) as [Hl (_ & _ & Hi)].
  apply (finished_settled_run h es _ Hmv) in Hset. pose proof (lt_run_submitted es (s, h)) as Hmore.
  pose proof (steps_left_bound (length (lt_submitted s)) s) as Hb.
  destruct (lt_run es (s, h)) as [s' h']. simpl in *. destruct Hset as [_ Hset]. destruct Hi as [Hfifo _]. simpl in Hset.
  assert (lt_finished s' `prefix_of` lt_submitted s') as Hpre by (rewrite <- Hfifo; by apply prefix_app_r).
  assert (lt_submitted s `prefix_of` lt_finished s') as Hdone.
  { destruct (prefix_weak_total _ _ _ Hmore Hpre) as [H|H]; [done|].
    assert (length (lt_submitted s) ≤ length (lt_finished s'))%nat by (apply steps_left_zero; lia).
    by rewrite (prefix_length_eq _ _ H) by done. }
  split_and!; [done|done|]. intros batch r Hin Hr Hi. destruct Hdone as [more E].
  apply (Hset batch r); [|exact Hr|exact Hi]. rewrite E. apply elem_of_app. by left.
Qed.

(** ** Shutdown *)

(** Steps of a stopped thread until it ends. *)
Definition exit_rank (s : lw_thread) : nat :=
  let q := (3 * length (lw_batch_queue (lt_worker s)))%nat in
  match lt_pc s with
  | LwUnstarted | LwExited => 0
  | LwTest => 1
  | LwTake => q + 2
  | LwClear | LwSleep _ => q + 3
  | LwWait | LwBusy _ => q + 4
  end.

Definition no_submission (e : lw_event) : Prop := match e with EvAppend _ => False | _ => True end.

(** What the thread has yet to process before it ends. *)
Definition committed (s : lw_thread) : list (list tref) :=
  match lt_pc s with
  | LwTest | LwUnstarted | LwExited => []
  | _ => lt_in_hand s ++ lw_batch_queue (lt_worker s)
  end.

(** A stopped thread that will have finished [all] and leaves [left] behind. *)
Record ending (all left : list (list tref)) (s : lw_thread) : Prop := {
  en_stopped : lt_stop s = true;
  en_started : lt_pc s ≠ LwUnstarted;
  en_plan : lt_finished s ++ committed s = all;
  en_left : lt_in_hand s ++ lw_batch_queue (lt_worker s) = committed s ++ left;
}.

Definition left_behind (s : lw_thread) : list (list tref) :=
  match lt_pc s with LwTest | LwUnstarted | LwExited => lw_batch_queue (lt_worker s) | _ => [] end.

Lemma ending_start s :
  lt_stop s = true → lt_pc s ≠ LwUnstarted → ending (lt_finished s ++ committed s) (left_behind s) s.
Proof.
  intros Hs Hu. split; try done. unfold committed, left_behind, lt_in_hand.
  destruct (lt_pc s); rewrite ?app_nil_r; done.
Qed.

Lemma exit_rank_event all left e sh :
  no_submission e → ending all left sh.1 →
  ending all left (lt_event e sh).1 ∧
  (exit_rank (lt_event e sh).1 ≤ exit_rank sh.1 - (if is_thread_event e then 1 else 0))%nat.
Proof.
  destruct sh as [s h]. intros He [Hs Hu Hp Hl]. destruct e as [c ob|batch| | | |f]; try done; simpl;
    [|by split; [split|unfold exit_rank; simpl; lia]..].
  unfold lt_step, exit_rank, committed, lt_in_hand in *. cbn [fst snd] in *.
  destruct (lt_pc s) as [| | | | |batch|batch|] eqn:Ep; try done.
  1: rewrite Hs; split; [split|simpl; lia]; done.
  1, 2: split; [by split|simpl; lia].
  - destruct (lw_batch_queue (lt_worker s)) as [|b rest] eqn:Eq; (split; [split|]);
      unfold committed, lt_in_hand in *; simpl in *; rewrite ?Eq; try done; simpl; lia.
  - split; [by split|simpl; lia].
  - pose proof (process_end_queue c ob batch (lt_worker s) h) as [Eq _].
    destruct (process_end c ob batch (lt_worker s) h) as [w h']. simpl in *. split; [split|simpl; rewrite ?Eq; lia]; try done;
      unfold committed, lt_in_hand in *; simpl in *; rewrite ?Eq; [by rewrite <- Hp, <- app_assoc|by simplify_list_eq].
  - split; [split; simpl; unfold committed, lt_in_hand; by rewrite ?Ep|simpl; rewrite ?Ep; lia].
Qed.

Lemma exit_rank_run all left es sh :
  Forall no_submission es → ending all left sh.1 →
  ending all left (lt_run es sh).1 ∧ (exit_rank (lt_run es sh).1 ≤ exit_rank sh.1 - thread_steps es)%nat.
Proof.
  intros Hes. revert sh. unfold thread_steps. induction Hes as [|e es He _ IH]; intros sh H; [simpl; split; [done|lia]|].
  destruct (exit_rank_event all left e sh He H) as [H1 R1]. destruct (IH _ H1) as [H2 R2].
  split; [exact H2|]. change (lt_run (e :: es) sh) with (lt_run es (lt_event e sh)). rewrite filter_cons.
  destruct (is_thread_event e); simpl in *; lia.
Qed.

(** [Worker.stop] ends the worker: with no further submission its thread ends after at
    most [exit_rank] of its steps.  It first processes everything it holds, unless the flag
    caught it at the head of its loop: then the batches queued since are never processed,
    and their tasks keep the state they have. *)
Theorem stopped_worker_ends (es : list lw_event) (s : lw_thread) (h : store) :
  lt_running s → lt_stop s = true → finished_settled h (s, h) →
  Forall no_submission es → Forall tasks_move es → (exit_rank s ≤ thread_steps es)%nat →
  let '(s', h') := lt_run es (s, h) in
  lt_pc s' = LwExited ∧
  (lt_pc s ≠ LwTest →
     lt_finished s' = lt_finished s ++ lt_in_hand s ++ lw_batch_queue (lt_worker s) ∧ lw_batch_queue (lt_worker s') = [] ∧
     ∀ batch r, batch ∈ lt_in_hand s ++ lw_batch_queue (lt_worker s) → r ∈ batch → is_Some (h !! r) → settled h' r) ∧
  (lt_pc s = LwTest → lt_finished s' = lt_finished s ∧ lw_batch_queue (lt_worker s') = lw_batch_queue (lt_worker s)).
Proof.
  intros [Hu He] Hs Hset Hns Hmv Hn.
  destruct (exit_rank_run _ _ es (s, h) Hns (ending_start s Hs Hu)) as [[_ Hu' Hp Hl] Hr].
  apply (finished_settled_run h es _ Hmv) in Hset. destruct (lt_run es (s, h)) as [s' h']. simpl in *.
  destruct Hset as [_ Hset]. simpl in Hset.
  assert (lt_pc s' = LwExited) as Ex by (assert (exit_rank s' = 0)%nat as E0 by lia; unfold exit_rank in E0; destruct (lt_pc s'); simpl in E0; done || lia).
  assert (committed s' = []) as Ec by (unfold committed; by rewrite Ex).
  rewrite Ec, app_nil_r in Hp. rewrite Ec in Hl. unfold lt_in_hand in Hl at 1. rewrite Ex in Hl. simpl in Hl.
  unfold committed, left_behind in *. split; [done|]. split; intros Ht.
  - assert (lt_finished s' = lt_finished s ++ lt_in_hand s ++ lw_batch_queue (lt_worker s)) as E by (by destruct (lt_pc s)).
    split_and!; [done|by destruct (lt_pc s)|]. intros batch r Hb Hin Hi.
    apply (Hset batch r); [|exact Hin|exact Hi]. rewrite E. apply elem_of_app. by right.
  - rewrite Ht in *. by rewrite Hp, app_nil_r.
Qed.

(** A thread that has ended processes nothing any more; what is submitted then is kept. *)
Lemma ended_worker_strands es sh :
  lt_pc sh.1 = LwExited →
  lt_pc (lt_run es sh).1 = LwExited ∧ lt_finished (lt_run es sh).1 = lt_finished sh.1.
Proof.
  revert sh. induction es as [|e es IH]; intros [s h] Ep; [done|]. simpl in Ep.
  assert (lt_pc (lt_event e (s, h)).1 = LwExited ∧ lt_finished (lt_event e (s, h)).1 = lt_finished s) as [E1 E2].
  { destruct e; simpl; try done. unfold lt_step. by rewrite Ep. }
  destruct (IH _ E1) as [H1 H2]. split; [exact H1|]. etrans; [exact H2|exact E2].
Qed.

(** ** [WorkerPool.start] and [WorkerPool.stop] *)

Definition local_pool_start (c : SystemConfig) : list lw_thread :=
  (λ n, (lt_start (lt_init (Z.of_nat n))).1) <$> seq 0 (Z.to_nat (num_workers c)).

(** The signals [stop] sends, worker by worker; each is followed by a join that waits no
    longer than its timeout. *)
Definition local_pool_stop (ws : list lw_thread) : list (nat * lw_event) :=
  mjoin (imap (λ i _, [(i, EvSetStop); (i, EvStopWake)]) ws).

Lemma local_pool_start_serves c : Forall lt_serving (local_pool_start c).
Proof.
  unfold local_pool_start. apply Forall_fmap, Forall_forall. intros n _. split; [done|]. split; [done|].
  apply lt_start_inv, lt_init_inv.
Qed.

Lemma local_pool_start_workers c : lt_worker <$> local_pool_start c = lp_workers (pool_start c).
Proof. unfold local_pool_start, pool_start. simpl. rewrite <- !list_fmap_compose. done. Qed.

(** Every worker is signalled, after those before it. *)
Lemma local_pool_stop_all ws i : is_Some (ws !! i) → (i, EvSetStop) ∈ local_pool_stop ws ∧ (i, EvStopWake) ∈ local_pool_stop ws.
Proof.
  intros [s Hs]. unfold local_pool_stop. rewrite !list_elem_of_join. split;
    exists [(i, EvSetStop); (i, EvStopWake)]; (split; [set_solver|]); apply elem_of_lookup_imap; by exists i, s.
Qed.

(** ** The thread of [Scheduler] *)

Inductive sch_pc := ScUnstarted | ScTest | ScTurn | ScHandle (batch : list tref) | ScExited.

(** The stop event, the thread, the strategies' state; history: the batches handed over. *)
Record sch_thread := mkSchThread {
  sh_stop : bool;
  sh_pc : sch_pc;
  sh_sched : sched_state;
  sh_batches : list (list tref);
}.

(** [Scheduler.__init__], [start] and the first half of [stop]. *)
Definition sch_init (s : sched_state) : sch_thread := mkSchThread false ScUnstarted s [].
Definition sch_start (t : sch_thread) : sch_thread := mkSchThread false ScTest (sh_sched t) (sh_batches t).
Definition sch_set_stop (t : sch_thread) : sch_thread := mkSchThread true (sh_pc t) (sh_sched t) (sh_batches t).

Section scheduler_thread.
Context {W : Type} (handler : list tref → W → W * option string).

(** One step of [_loop]; [tn] is what a turn observes.  An unknown strategy is a turn
    without a batch; an exception of the handler is logged. *)
Definition sch_step (tn : turn) (tw : sch_thread * W) : option (sch_thread * W) :=
  let '(t, w) := tw in
  match sh_pc t with
  | ScUnstarted | ScExited => Some (t, w)
  | ScTest => Some (mkSchThread (sh_stop t) (if sh_stop t then ScExited else ScTurn) (sh_sched t) (sh_batches t), w)
  | ScTurn =>
      '(batch, s) ← scheduler_iteration (tn_store tn) (tn_strategy tn) (tn_wall tn) (tn_ticks tn) (tn_obs tn) (sh_sched t);
      Some (mkSchThread (sh_stop t) (match batch with [] => ScTest | _ => ScHandle batch end) s (sh_batches t), w)
  | ScHandle batch =>
      Some (mkSchThread (sh_stop t) ScTest (sh_sched t) (sh_batches t ++ [batch]), (handler batch w).1)
  end.

Fixpoint sch_run (tns : list turn) (tw : sch_thread * W) : option (sch_thread * W) :=
  match tns with [] => Some tw | tn :: tns' => tw' ← sch_step tn tw; sch_run tns' tw' end.

Lemma scheduler_loop_app turns1 turns2 s w :
  scheduler_loop handler (turns1 ++ turns2) s w =
  '(s1, w1, b1) ← scheduler_loop handler turns1 s w;
  '(s2, w2, b2) ← scheduler_loop handler turns2 s1 w1; Some (s2, w2, b1 ++ b2).
Proof.
  revert s w. induction turns1 as [|tn turns1 IH]; intros s w; simpl.
  - by destruct (scheduler_loop handler turns2 s w) as [[[]]|].
  - destruct (scheduler_iteration _ _ _ _ _ _) as [[[|r batch] s1]|]; simpl; [apply IH| |done].
    destruct (handler (r :: batch) w) as [w1 o]. rewrite IH.
    destruct (scheduler_loop handler turns1 s1 w1) as [[[s2 w2] b1]|]; simpl; [|done].
    by destruct (scheduler_loop handler turns2 s2 w2) as [[[]]|].
Qed.

(** What the thread has done since its start is a run of [scheduler_loop], up to the batch
    it holds. *)
Definition follows_loop (s0 : sched_state) (w0 : W) (tw : sch_thread * W) : Prop :=
  ∃ turns, match sh_pc tw.1 with
           | ScHandle batch =>
               ∃ tn s, scheduler_loop handler turns s0 w0 = Some (s, tw.2, sh_batches tw.1) ∧ batch ≠ [] ∧
                 scheduler_iteration (tn_store tn) (tn_strategy tn) (tn_wall tn) (tn_ticks tn) (tn_obs tn) s
                   = Some (batch, sh_sched tw.1)
           | _ => scheduler_loop handler turns s0 w0 = Some (sh_sched tw.1, tw.2, sh_batches tw.1)
           end.

Lemma sch_step_follows s0 w0 tn tw tw' : sch_step tn tw = Some tw' → follows_loop s0 w0 tw → follows_loop s0 w0 tw'.
Proof.
  destruct tw as [t w]. unfold sch_step, follows_loop. intros E (turns & H). simpl in H. destruct (sh_pc t) as [| | |batch|] eqn:Ep.
  - injection E as <-. exists turns. simpl. by rewrite Ep.
  - injection E as <-. exists turns. simpl. by destruct (sh_stop t).
  - destruct (scheduler_iteration _ _ _ _ _ _) as [[[|r batch] s]|] eqn:Ei; simpl in E; [| |done]; injection E as <-; simpl.
    + exists (turns ++ [tn]). rewrite scheduler_loop_app, H. simpl. rewrite Ei. simpl. by rewrite app_nil_r.
    + exists turns, tn, (sh_sched t). by rewrite Ei.
  - injection E as <-. destruct H as (tn' & s & H & Hne & Hi). exists (turns ++ [tn']). simpl.
    rewrite scheduler_loop_app, H. simpl. rewrite Hi. simpl. destruct batch as [|r batch]; [done|].
    by destruct (handler (r :: batch) w).
  - injection E as <-. exists turns. simpl. by rewrite Ep.
Qed.

(** The thread implements the loop: whatever it observes, and whenever it is stopped, the
    batches it has handed over and the state between two turns are those of a run of
    [scheduler_loop]. *)
Theorem scheduler_thread_refines_loop tns s0 w0 t w :
  sch_run tns (sch_start (sch_init s0), w0) = Some (t, w) → follows_loop s0 w0 (t, w).
Proof.
  assert (follows_loop s0 w0 (sch_start (sch_init s0), w0)) as H by (by exists []).
  revert H. generalize (sch_start (sch_init s0), w0). induction tns as [|tn tns IH]; intros tw H E; simpl in E; [by injection E as ->|].
  destruct (sch_step tn tw) as [tw1|] eqn:E1; [|done]. eapply IH; [|exact E]. by eapply sch_step_follows.
Qed.

Definition handover_due (t : sch_thread) : nat :=
  match sh_pc t with ScTurn | ScHandle _ => 1 | _ => 0 end.
Definition sch_rank (t : sch_thread) : nat :=
  match sh_pc t with ScTest => 1 | ScHandle _ => 2 | ScTurn => 3 | _ => 0 end.

(** After [stop] the thread hands over at most the batch it is collecting or holds, and
    ends; what it has not handed over stays in the queue and in the buffer. *)
Theorem stopped_scheduler_ends tns t w t' w' :
  sh_stop t = true → sh_pc t ≠ ScUnstarted → sch_run tns (t, w) = Some (t', w') →
  (∃ more, sh_batches t' = sh_batches t ++ more ∧ (length more ≤ handover_due t)%nat) ∧
  ((sch_rank t ≤ length tns)%nat → sh_pc t' = ScExited).
Proof.
  revert t w. induction tns as [|tn tns IH]; intros t w Hs Hu E; cbn [sch_run] in E.
  - injection E as -> ->. split; [exists []; rewrite app_nil_r; split; [done|simpl; lia]|].
    unfold sch_rank. destruct (sh_pc t'); simpl; intros; try done; lia.
  - destruct (sch_step tn (t, w)) as [[t1 w1]|] eqn:E1; [|done]. simpl in E. unfold sch_step in E1.
    unfold handover_due, sch_rank in *.
    destruct (sh_pc t) as [| | |batch|] eqn:Ep; [done|..].
    + injection E1 as <- <-. rewrite Hs in E. apply IH in E as [Hb Hx]; [|done..]. simpl in *. split; [done|].
      intros _. apply Hx. lia.
    + destruct (scheduler_iteration _ _ _ _ _ _) as [[batch s]|]; simpl in E1; [|done]. injection E1 as <- <-.
      apply IH in E as [(more & Hb & Hl) Hx]; [|done|by destruct batch]. simpl in *.
      split; [exists more; split; [done|destruct batch; simpl in *; lia]|]. intros H. apply Hx. destruct batch; simpl; lia.
    + injection E1 as <- <-. apply IH in E as [(more & Hb & Hl) Hx]; [|done..]. simpl in *.
      split; [|intros H; apply Hx; lia]. exists (batch :: more). split; [by rewrite Hb, <- app_assoc|simpl; lia].
    + injection E1 as <- <-. apply IH in E as [(more & Hb & Hl) Hx]; [|done|by rewrite Ep]. rewrite Ep in Hl, Hx.
      split; [by exists more|]. intros _. apply Hx. lia.
Qed.
End scheduler_thread.

(** ** Runs *)

Definition plain_obs : batch_obs := mkBatchObs (λ _, 1%Q) (λ _, 2%Q) 1.
Definition thread_turns (n : nat) : list lw_event := replicate n (EvThread default_config plain_obs).
Definition local_store : store :=
  {[0%nat := new_task (PyDict [("x"%string, PyInt 3)]) "a" 0 None; 1%nat := new_task (PyDict [("x"%string, PyInt 4)]) "b" 0 None]}.

(** The worker [7], started and given a batch. *)
Definition loaded_worker : lw_thread := lt_append [0%nat] (lt_start (lt_init 7)).1.

Lemma loaded_worker_serves : lt_serving loaded_worker.
Proof. split; [done|]. split; [done|]. apply (lt_event_inv (EvAppend [0%nat]) (_, ∅)), lt_start_inv, lt_init_inv. Qed.

Lemma queued_batches_are_processed_witness :
  settled (lt_run (thread_turns 3 ++ [EvWake; EvAppend [1%nat]] ++ thread_turns 3) (loaded_worker, local_store)).2 0%nat.
Proof.
  pose proof (queued_batches_are_processed (thread_turns 3 ++ [EvWake; EvAppend [1%nat]] ++ thread_turns 3)
    loaded_worker local_store loaded_worker_serves) as H.
  destruct (lt_run _ _) as [s' h']. apply H with [0%nat].
  - split; [reflexivity|]. intros batch r Hb. by apply not_elem_of_nil in Hb.
  - repeat constructor.
  - repeat constructor.
  - vm_compute. lia.
  - apply list_elem_of_here.
  - apply list_elem_of_here.
  - by eexists.
Defined.

(** The same worker, stopped while it waits, and while it is at the head of its loop. *)
Definition caught_waiting : lw_thread := lt_set_stop (lt_step default_config plain_obs loaded_worker local_store).1.
Definition caught_testing : lw_thread := lt_set_stop loaded_worker.

Lemma nothing_finished s h : lt_finished s = [] → finished_settled h (s, h).
Proof. intros E. split; [reflexivity|]. intros batch r Hb. simpl in Hb. rewrite E in Hb. by apply not_elem_of_nil in Hb. Qed.

Lemma stopped_worker_ends_witness :
  (let '(s, _) := lt_run (EvStopWake :: thread_turns 8) (caught_waiting, local_store) in lw_batch_queue (lt_worker s) = []) ∧
  (let '(s, _) := lt_run (EvStopWake :: thread_turns 8) (caught_testing, local_store) in lw_batch_queue (lt_worker s) = [[0%nat]]).
Proof.
  pose proof (stopped_worker_ends (EvStopWake :: thread_turns 8) caught_waiting local_store) as H1.
  pose proof (stopped_worker_ends (EvStopWake :: thread_turns 8) caught_testing local_store) as H2.
  split.
  - destruct (lt_run _ _) as [s' h'].
    apply H1; [done|done|by apply nothing_finished|repeat constructor|repeat constructor|vm_compute; lia|done].
  - destruct (lt_run _ _) as [s' h'].
    apply H2; [done|done|by apply nothing_finished|repeat constructor|repeat constructor|vm_compute; lia|done].
Defined.

Example local_thread_run :
  let '(s, h) := lt_run (thread_turns 3 ++ [EvWake; EvAppend [1%nat]] ++ thread_turns 12) (loaded_worker, local_store) in
  (lt_finished s, lw_processed (lt_worker s), (λ r, result <$> h !! r) <$> [0; 1]%nat) =
  ([[0%nat]; [1%nat]], 2, [Some (prediction 7 (PyInt 9)); Some (prediction 7 (PyInt 16))]).
Proof. vm_compute. reflexivity. Qed.
