(* ===== verification/GrpcWorker.v ===== *)
(** The client-side proxy of one remote worker, [GrpcWorker] of
    [src/system/grpc_worker_pool.py]: the critical sections of its lock as
    functions on its record, and the invariant they keep under any interleaving.
    The parts of its methods that reach other proxies are in [GrpcPool]. *)
From S2P Require Import Prelude PyVal Tasks.

(** The lifecycle states the registry admits. *)
Inductive worker_state := READY | DRAINING.

#[export] Instance worker_state_eq_dec : EqDecision worker_state.
Proof. solve_decision. Defined.

(** [_processing] and [_stop] are flags, the last five fields are the gauges the
    proxy publishes under its worker label. *)
Record GrpcWorker := mkGrpcWorker {
  gw_worker_id : string;
  gw_address : string;
  gw_batch_queue : list (list tref);
  gw_stop : bool;
  gw_retry_on_stop : bool;
  gw_processing : bool;
  gw_routing_state : worker_state;
  gw_queued_metric : Z;
  gw_active_metric : Z;
  gw_ready_metric : Z;
  gw_draining_metric : Z;
  gw_metrics_removed : bool;
}.

Definition bool_int (b : bool) : Z := if b then 1 else 0.

(** [_update_state_metrics]: each state's gauge is one when the proxy runs in it. *)
Definition update_state_metrics (g : GrpcWorker) : GrpcWorker :=
  let flag s := bool_int (negb (gw_stop g) && bool_decide (gw_routing_state g = s)) in
  mkGrpcWorker (gw_worker_id g) (gw_address g) (gw_batch_queue g) (gw_stop g)
    (gw_retry_on_stop g) (gw_processing g) (gw_routing_state g) (gw_queued_metric g)
    (gw_active_metric g) (flag READY) (flag DRAINING) (gw_metrics_removed g).

Definition gw_init (worker_id address : string) : GrpcWorker :=
  update_state_metrics
    (mkGrpcWorker worker_id address [] false false false READY 0 0 0 0 false).

Definition gw_set_queue (b : list (list tref)) (g : GrpcWorker) : GrpcWorker :=
  mkGrpcWorker (gw_worker_id g) (gw_address g) b (gw_stop g)
    (gw_retry_on_stop g) (gw_processing g) (gw_routing_state g) (py_len b)
    (gw_active_metric g) (gw_ready_metric g) (gw_draining_metric g) (gw_metrics_removed g).

Definition gw_set_processing (p : bool) (g : GrpcWorker) : GrpcWorker :=
  mkGrpcWorker (gw_worker_id g) (gw_address g) (gw_batch_queue g) (gw_stop g)
    (gw_retry_on_stop g) p (gw_routing_state g) (gw_queued_metric g)
    (gw_active_metric g) (gw_ready_metric g) (gw_draining_metric g) (gw_metrics_removed g).

(** The gauge around the RPC: set before the call, reset by its [finally]. *)
Definition gw_set_active (n : Z) (g : GrpcWorker) : GrpcWorker :=
  mkGrpcWorker (gw_worker_id g) (gw_address g) (gw_batch_queue g) (gw_stop g)
    (gw_retry_on_stop g) (gw_processing g) (gw_routing_state g) (gw_queued_metric g)
    n (gw_ready_metric g) (gw_draining_metric g) (gw_metrics_removed g).

Definition gw_rpc_begin (g : GrpcWorker) : GrpcWorker := gw_set_active 1 g.
Definition gw_rpc_end (g : GrpcWorker) : GrpcWorker := gw_set_active 0 g.

(** ** The critical sections *)

(** [outstanding = self._processing + len(self._batch_queue)]. *)
Definition gw_outstanding (g : GrpcWorker) : Z :=
  bool_int (gw_processing g) + py_len (gw_batch_queue g).

Definition gw_is_ready (g : GrpcWorker) : bool :=
  negb (gw_stop g) && bool_decide (gw_routing_state g = READY).

Definition gw_try_submit (batch : list tref) (g : GrpcWorker) : bool * GrpcWorker :=
  if gw_stop g || negb (bool_decide (gw_routing_state g = READY)) then (false, g)
  else if 2 <=? gw_outstanding g then (false, g)
  else (true, gw_set_queue (gw_batch_queue g ++ [batch]) g).

Definition gw_busy (g : GrpcWorker) : bool :=
  gw_processing g || match gw_batch_queue g with [] => false | _ => true end.

Definition gw_begin_stop (retry_pending : bool) (g : GrpcWorker) : GrpcWorker :=
  if gw_stop g then g
  else update_state_metrics
    (mkGrpcWorker (gw_worker_id g) (gw_address g) (gw_batch_queue g) true
       retry_pending (gw_processing g) (gw_routing_state g) (gw_queued_metric g)
       (gw_active_metric g) (gw_ready_metric g) (gw_draining_metric g)
       (gw_metrics_removed g)).

(** The section of [stop] that takes the pending batches away. *)
Definition gw_take_pending (g : GrpcWorker) : list (list tref) * GrpcWorker :=
  (gw_batch_queue g, gw_set_queue [] g).

(** The last section of [stop]: the labels are removed once. *)
Definition gw_remove_metrics (g : GrpcWorker) : GrpcWorker :=
  mkGrpcWorker (gw_worker_id g) (gw_address g) (gw_batch_queue g) (gw_stop g)
    (gw_retry_on_stop g) (gw_processing g) (gw_routing_state g) (gw_queued_metric g)
    (gw_active_metric g) (gw_ready_metric g) (gw_draining_metric g) true.

(** The section of [_loop] that pops a batch; [None] leaves the inner loop. *)
Definition gw_take (g : GrpcWorker) : option (list tref * GrpcWorker) :=
  if gw_stop g then None
  else match gw_batch_queue g with
       | [] => None
       | batch :: rest => Some (batch, gw_set_processing true (gw_set_queue rest g))
       end.

Definition gw_set_routing_state (s : worker_state) (g : GrpcWorker) : GrpcWorker :=
  update_state_metrics
    (mkGrpcWorker (gw_worker_id g) (gw_address g) (gw_batch_queue g) (gw_stop g)
       (gw_retry_on_stop g) (gw_processing g) s (gw_queued_metric g)
       (gw_active_metric g) (gw_ready_metric g) (gw_draining_metric g)
       (gw_metrics_removed g)).

(** ** Interleavings

    One step is one critical section, or one update of the RPC gauge. *)

Inductive gw_step : GrpcWorker → GrpcWorker → Prop :=
| gs_try_submit batch g : gw_step g (gw_try_submit batch g).2
| gs_take batch g g' : gw_take g = Some (batch, g') → gw_step g g'
| gs_rpc_begin g : gw_step g (gw_rpc_begin g)
| gs_rpc_end g : gw_step g (gw_rpc_end g)
| gs_done g : gw_step g (gw_set_processing false g)
| gs_begin_stop retry g : gw_step g (gw_begin_stop retry g)
| gs_take_pending g : gw_step g (gw_take_pending g).2
| gs_remove_metrics g : gw_step g (gw_remove_metrics g)
| gs_set_state s g : gw_step g (gw_set_routing_state s g).

Definition gw_inv (g : GrpcWorker) : Prop :=
  gw_outstanding g <= 2 ∧
  gw_queued_metric g = py_len (gw_batch_queue g) ∧
  0 <= gw_active_metric g <= 1 ∧
  gw_ready_metric g = bool_int (gw_is_ready g) ∧
  gw_draining_metric g
    = bool_int (negb (gw_stop g) && bool_decide (gw_routing_state g = DRAINING)).

Lemma gw_init_inv wid addr : gw_inv (gw_init wid addr).
Proof. unfold gw_inv, gw_outstanding, py_len. simpl. split_and!; (lia || done). Qed.

Lemma gw_try_submit_spec batch g :
  let '(ok, g') := gw_try_submit batch g in
  if ok then
    gw_is_ready g = true ∧ gw_outstanding g < 2 ∧
    g' = gw_set_queue (gw_batch_queue g ++ [batch]) g
  else g' = g ∧ (gw_is_ready g = false ∨ 2 <= gw_outstanding g).
Proof.
  unfold gw_try_submit, gw_is_ready. destruct (gw_stop g); simpl; [auto|].
  destruct (bool_decide _); simpl; [|auto].
  destruct (2 <=? _) eqn:E; zbool; auto.
Qed.

Lemma gw_step_inv g g' : gw_step g g' → gw_inv g → gw_inv g'.
Proof.
  unfold gw_inv. intros Hstep (H1 & H2 & H3 & H4 & H5). destruct Hstep.
  - pose proof (gw_try_submit_spec batch g) as Hs.
    destruct (gw_try_submit batch g) as [[] g']; simpl in *.
    + destruct Hs as (_ & Hlt & ->). unfold gw_outstanding in *; simpl.
      split_and!; try done; try lia. rewrite py_len_snoc. lia.
    + by destruct Hs as [-> _].
  - unfold gw_take in *. destruct (gw_stop g) eqn:Es; [done|].
    destruct (gw_batch_queue g) as [|b rest] eqn:Eq; [done|]. simplify_eq/=.
    unfold gw_outstanding, gw_is_ready, py_len in *. simpl in *. rewrite Eq, Es in *.
    simpl in *. destruct (gw_processing g); simpl in *; split_and!; try done; try lia.
  - simpl. split_and!; try done; lia.
  - simpl. split_and!; try done; lia.
  - unfold gw_outstanding in *; simpl in *.
    destruct (gw_processing g); simpl in *; split_and!; try done; lia.
  - unfold gw_begin_stop. destruct (gw_stop g) eqn:Es; [by rewrite Es in *|].
    unfold gw_outstanding, gw_is_ready in *. simpl in *. done.
  - simpl. unfold gw_outstanding, gw_is_ready in *. simpl.
    pose proof (py_len_nonneg (gw_batch_queue g)). unfold py_len in *. simpl.
    split_and!; try done; lia.
  - done.
  - unfold gw_outstanding, gw_is_ready in *. simpl in *. done.
Qed.

(** What a stopped proxy can still do: nothing that gives it work. *)
Lemma gw_step_stopped g g' :
  gw_step g g' → gw_stop g = true →
  gw_stop g' = true ∧ gw_retry_on_stop g' = gw_retry_on_stop g ∧
  (gw_batch_queue g' = gw_batch_queue g ∨ gw_batch_queue g' = []).
Proof.
  destruct 1; intros Hs; simpl in *; auto.
  - unfold gw_try_submit. rewrite Hs. simpl. auto.
  - unfold gw_take in *. rewrite Hs in *. done.
  - unfold gw_begin_stop. rewrite Hs. auto.
Qed.

Lemma gw_step_identity g g' :
  gw_step g g' → gw_worker_id g' = gw_worker_id g ∧ gw_address g' = gw_address g.
Proof.
  destruct 1; try done.
  - unfold gw_try_submit. repeat case_match; done.
  - unfold gw_take in *. repeat case_match; simplify_eq; done.
  - unfold gw_begin_stop. by case_match.
Qed.

(** ** The proxy with its dispatch thread

    The thread of [_loop] takes a batch, may make one call for it in [_process], and is done
    with it; every other section is some other thread's, at any moment. *)

Inductive dispatch_pc := DispatchIdle | DispatchBatch | DispatchRpc.

#[export] Instance dispatch_pc_eq_dec : EqDecision dispatch_pc.
Proof. solve_decision. Defined.

Inductive gw_thread_step : GrpcWorker * dispatch_pc → GrpcWorker * dispatch_pc → Prop :=
| gt_take batch g g' : gw_take g = Some (batch, g') → gw_thread_step (g, DispatchIdle) (g', DispatchBatch)
| gt_rpc_begin g : gw_thread_step (g, DispatchBatch) (gw_rpc_begin g, DispatchRpc)
| gt_rpc_end g : gw_thread_step (g, DispatchRpc) (gw_rpc_end g, DispatchBatch)
| gt_done g : gw_thread_step (g, DispatchBatch) (gw_set_processing false g, DispatchIdle)
| gt_try_submit batch g pc : gw_thread_step (g, pc) ((gw_try_submit batch g).2, pc)
| gt_begin_stop retry g pc : gw_thread_step (g, pc) (gw_begin_stop retry g, pc)
| gt_take_pending g pc : gw_thread_step (g, pc) ((gw_take_pending g).2, pc)
| gt_remove_metrics g pc : gw_thread_step (g, pc) (gw_remove_metrics g, pc)
| gt_set_state s g pc : gw_thread_step (g, pc) (gw_set_routing_state s g, pc).

Lemma gw_thread_step_step x y : gw_thread_step x y → gw_step x.1 y.1.
Proof. destruct 1; simpl; econstructor; eassumption. Qed.

Lemma gw_thread_steps x y : rtc gw_thread_step x y → rtc gw_step x.1 y.1.
Proof. induction 1 as [|x y z Hs _ IH]; [done|]. eapply rtc_l; [by apply gw_thread_step_step|done]. Qed.

(** The flag and the gauge say where the dispatch thread is. *)
Definition gauge_exact (x : GrpcWorker * dispatch_pc) : Prop :=
  gw_active_metric x.1 = bool_int (bool_decide (x.2 = DispatchRpc)) ∧
  gw_processing x.1 = negb (bool_decide (x.2 = DispatchIdle)).

Lemma gauge_step x y : gw_thread_step x y → gauge_exact x → gauge_exact y.
Proof.
  unfold gauge_exact. destruct 1; simpl; intros [Ha Hp]; auto.
  - unfold gw_take in *. destruct (gw_stop g); [done|]. destruct (gw_batch_queue g); [done|]. simplify_eq/=. auto.
  - unfold gw_try_submit. destruct (_ || _); [auto|]. destruct (2 <=? _); auto.
  - unfold gw_begin_stop. destruct (gw_stop g); auto.
Qed.

Lemma gauge_steps wid addr x : rtc gw_thread_step (gw_init wid addr, DispatchIdle) x → gauge_exact x.
Proof.
  revert x. apply rtc_ind_r; [done|]. intros x y _ Hs Hx. by eapply gauge_step.
Qed.

(** C31. Under any interleaving of its users with its dispatch thread a proxy never has more
    than two outstanding batches, and its gauges are exact: the queue's length, one if an RPC
    is in flight and zero otherwise, and exactly the running state's flag; it keeps its
    identity, and once stopped it stays stopped, keeps its retry decision and receives no
    batch. *)
Theorem gw_capacity_and_gauges (wid addr : string) (g g' : GrpcWorker) (pc pc' : dispatch_pc) :
  rtc gw_thread_step (gw_init wid addr, DispatchIdle) (g, pc) → rtc gw_thread_step (g, pc) (g', pc') →
  gw_outstanding g <= 2 ∧
  gw_queued_metric g = py_len (gw_batch_queue g) ∧
  gw_active_metric g = bool_int (bool_decide (pc = DispatchRpc)) ∧
  gw_ready_metric g = bool_int (gw_is_ready g) ∧
  gw_draining_metric g
    = bool_int (negb (gw_stop g) && bool_decide (gw_routing_state g = DRAINING)) ∧
  gw_worker_id g' = wid ∧ gw_address g' = addr ∧
  (gw_stop g = true →
   gw_stop g' = true ∧ gw_retry_on_stop g' = gw_retry_on_stop g ∧
   (gw_batch_queue g' = gw_batch_queue g ∨ gw_batch_queue g' = [])).
Proof.
  intros Ht Ht'. destruct (gauge_steps _ _ _ Ht) as [H3 _]. simpl in H3.
  apply gw_thread_steps in Ht as Hr, Ht' as Hr'. simpl in Hr, Hr'. clear Ht Ht'.
  assert (gw_inv g) as (H1 & H2 & _ & H4 & H5).
  { clear -Hr. revert g Hr. apply rtc_ind_r; [apply gw_init_inv|]. intros x y _ Hxy Hx. by eapply gw_step_inv. }
  assert (gw_worker_id g' = wid ∧ gw_address g' = addr) as [Hw Ha].
  { assert (rtc gw_step (gw_init wid addr) g') as Hall by by etrans.
    clear -Hall. revert g' Hall. apply rtc_ind_r; [done|].
    intros g1 g2 _ Hs [<- <-]. by apply gw_step_identity. }
  split_and!; try done; try lia. intros Hs. clear -Hr' Hs. revert g' Hr'.
  apply rtc_ind_r; [auto|]. intros g1 g2 _ Hs12 (H1 & H2 & H3).
  destruct (gw_step_stopped _ _ Hs12 H1) as (H1' & H2' & H3').
  split_and!; [done|congruence|]. destruct H3, H3'; [left|right|right|right]; congruence.
Qed.

(** A batch is taken and its call is under way when the proxy is told to stop. *)
Lemma gw_capacity_and_gauges_witness :
  let g := gw_rpc_begin (gw_set_processing true (gw_set_queue [] (gw_try_submit [1%nat] (gw_init "w" "a")).2)) in
  gw_outstanding g <= 2 ∧ gw_active_metric g = 1 ∧ gw_worker_id (gw_begin_stop true g) = "w"%string.
Proof.
  set (g1 := (gw_try_submit [1%nat] (gw_init "w" "a")).2). set (g2 := gw_set_processing true (gw_set_queue [] g1)).
  destruct (gw_capacity_and_gauges "w" "a" (gw_rpc_begin g2) (gw_begin_stop true (gw_rpc_begin g2)) DispatchRpc DispatchRpc)
    as (H & _ & Ha & _ & _ & Hw & _).
  - eapply rtc_l; [apply (gt_try_submit [1%nat])|]. eapply rtc_l; [apply (gt_take [1%nat] g1 g2); reflexivity|].
    apply rtc_once, gt_rpc_begin.
  - apply rtc_once, gt_begin_stop.
  - split; [exact H|]. split; [exact Ha|exact Hw].
Defined.
