(* ===== verification/World.v ===== *)
(** The shared state of the gRPC dispatch path and the interference other threads
    may exert on it: the task objects, the worker proxies, the pool's membership,
    the clocks and the retry counters, with the relation every thread of the
    program respects ([rely]). *)
From S2P Require Import Prelude PyVal Tasks GrpcWorker.

(** A reference to a proxy object. Removed proxies stay referenced by their own
    thread, so the proxies live in a store of their own and the pool's dict maps
    worker identifiers to references, in insertion order. *)
Abbreviation pref := nat (only parsing).

Record world := mkWorld {
  w_tasks : store;
  w_proxies : gmap nat GrpcWorker;
  w_members : list (string * pref);       (* GrpcWorkerPool._workers *)
  w_stopping : bool;                      (* GrpcWorkerPool._stopping *)
  w_rr_index : Z;                         (* GrpcWorkerPool._rr_index *)
  w_worker_count : Z;                     (* WORKER_COUNT *)
  w_retry_submissions : Z;                (* RETRY_SUBMISSIONS *)
  w_retry_completions : Z;                (* RETRY_COMPLETIONS *)
  w_mono : Q;                             (* time.monotonic() *)
  w_wall : Q;                             (* time.time() *)
  w_pauses : nat;                         (* scheduling points passed so far *)
  w_trace : list (pref * list tref);      (* history: the batches accepted, in order *)
}.

(** ** Updates *)

Definition set_tasks (h : store) (w : world) : world :=
  mkWorld h (w_proxies w) (w_members w) (w_stopping w) (w_rr_index w) (w_worker_count w)
    (w_retry_submissions w) (w_retry_completions w) (w_mono w) (w_wall w) (w_pauses w)
    (w_trace w).

Definition set_proxies (ps : gmap nat GrpcWorker) (w : world) : world :=
  mkWorld (w_tasks w) ps (w_members w) (w_stopping w) (w_rr_index w) (w_worker_count w)
    (w_retry_submissions w) (w_retry_completions w) (w_mono w) (w_wall w) (w_pauses w)
    (w_trace w).

Definition set_members (ms : list (string * pref)) (w : world) : world :=
  mkWorld (w_tasks w) (w_proxies w) ms (w_stopping w) (w_rr_index w) (w_worker_count w)
    (w_retry_submissions w) (w_retry_completions w) (w_mono w) (w_wall w) (w_pauses w)
    (w_trace w).

Definition set_stopping (w : world) : world :=
  mkWorld (w_tasks w) (w_proxies w) (w_members w) true (w_rr_index w) (w_worker_count w)
    (w_retry_submissions w) (w_retry_completions w) (w_mono w) (w_wall w) (w_pauses w)
    (w_trace w).

Definition bump_rr (w : world) : world :=
  mkWorld (w_tasks w) (w_proxies w) (w_members w) (w_stopping w) (w_rr_index w + 1)
    (w_worker_count w) (w_retry_submissions w) (w_retry_completions w) (w_mono w)
    (w_wall w) (w_pauses w) (w_trace w).

Definition set_worker_count (n : Z) (w : world) : world :=
  mkWorld (w_tasks w) (w_proxies w) (w_members w) (w_stopping w) (w_rr_index w) n
    (w_retry_submissions w) (w_retry_completions w) (w_mono w) (w_wall w) (w_pauses w)
    (w_trace w).

Definition count_submission (w : world) : world :=
  mkWorld (w_tasks w) (w_proxies w) (w_members w) (w_stopping w) (w_rr_index w)
    (w_worker_count w) (w_retry_submissions w + 1) (w_retry_completions w) (w_mono w)
    (w_wall w) (w_pauses w) (w_trace w).

Definition count_completion (w : world) : world :=
  mkWorld (w_tasks w) (w_proxies w) (w_members w) (w_stopping w) (w_rr_index w)
    (w_worker_count w) (w_retry_submissions w) (w_retry_completions w + 1) (w_mono w)
    (w_wall w) (w_pauses w) (w_trace w).

Definition log_accept (p : pref) (batch : list tref) (w : world) : world :=
  mkWorld (w_tasks w) (w_proxies w) (w_members w) (w_stopping w) (w_rr_index w)
    (w_worker_count w) (w_retry_submissions w) (w_retry_completions w) (w_mono w)
    (w_wall w) (w_pauses w) (w_trace w ++ [(p, batch)]).

Definition bump_pauses (w : world) : world :=
  mkWorld (w_tasks w) (w_proxies w) (w_members w) (w_stopping w) (w_rr_index w)
    (w_worker_count w) (w_retry_submissions w) (w_retry_completions w) (w_mono w)
    (w_wall w) (S (w_pauses w)) (w_trace w).

Definition update_task (f : Task → Task) (r : tref) (w : world) : world :=
  set_tasks (alter f r (w_tasks w)) w.

Definition update_proxy (f : GrpcWorker → GrpcWorker) (p : pref) (w : world) : world :=
  set_proxies (alter f p (w_proxies w)) w.

(** ** Well-formed worlds *)

(** The pool's dict has one entry per key, and each entry points at a live proxy
    object created for that key. *)
Definition members_ok (ps : gmap nat GrpcWorker) (ms : list (string * pref)) : Prop :=
  NoDup (dict_keys ms) ∧
  ∀ wid p, (wid, p) ∈ ms → ∃ g, ps !! p = Some g ∧ gw_worker_id g = wid.

Definition world_wf (w : world) : Prop :=
  (∀ p g, w_proxies w !! p = Some g → gw_inv g) ∧
  members_ok (w_proxies w) (w_members w).

(** ** Interference *)

Definition proxies_le (ps1 ps2 : gmap nat GrpcWorker) : Prop :=
  ∀ p g, ps1 !! p = Some g → ∃ g', ps2 !! p = Some g' ∧ rtc gw_step g g'.

Record world_le (w1 w2 : world) : Prop := {
  le_tasks : store_le (w_tasks w1) (w_tasks w2);
  le_proxies : proxies_le (w_proxies w1) (w_proxies w2);
  le_stopping : w_stopping w1 = true → w_stopping w2 = true;
  le_mono : (w_mono w1 <= w_mono w2)%Q;
  le_trace : ∃ more, w_trace w2 = w_trace w1 ++ more;
}.

(** What any thread may do to the world between two critical sections of
    another: tasks and proxies move only along their own operations, the clock
    does not run backwards, the pool does not restart, history is not rewritten,
    and well-formedness is kept. *)
Definition rely (w1 w2 : world) : Prop :=
  world_le w1 w2 ∧ (world_wf w1 → world_wf w2).

#[export] Instance proxies_le_preorder : PreOrder proxies_le.
Proof.
  split.
  - intros ps p g Hp. exists g. done.
  - intros ps1 ps2 ps3 H12 H23 p g Hp. destruct (H12 p g Hp) as (g2 & H2 & Hs2).
    destruct (H23 p g2 H2) as (g3 & H3 & Hs3). exists g3. split; [done|by etrans].
Qed.

#[export] Instance world_le_preorder : PreOrder world_le.
Proof.
  split.
  - intros w. split; try done; [apply Qle_refl|]. exists []. by rewrite app_nil_r.
  - intros w1 w2 w3 [? ? ? ? [m1 E1]] [? ? ? ? [m2 E2]]. split; [by etrans|by etrans|auto|lra|].
    exists (m1 ++ m2). by rewrite E2, E1, app_assoc.
Qed.

#[export] Instance rely_preorder : PreOrder rely.
Proof.
  split.
  - intros w. split; [reflexivity|done].
  - intros w1 w2 w3 [H1 F1] [H2 F2]. split; [by etrans|auto].
Qed.

(** ** The updates respect it *)

Lemma members_ok_proxies_le ps1 ps2 ms :
  proxies_le ps1 ps2 → members_ok ps1 ms → members_ok ps2 ms.
Proof.
  intros Hle [Hnd Hm]. split; [done|]. intros wid p Hin.
  destruct (Hm wid p Hin) as (g & Hg & <-). destruct (Hle p g Hg) as (g' & Hg' & Hs).
  exists g'. split; [done|]. clear -Hs.
  induction Hs as [|g1 g2 g3 H12 _ IH]; [done|]. rewrite IH. by apply gw_step_identity.
Qed.

Lemma rely_tasks h w : store_le (w_tasks w) h → rely w (set_tasks h w).
Proof.
  intros Hle. split; [|done]. split; try done; [apply Qle_refl|].
  exists []. by rewrite app_nil_r.
Qed.

Lemma rely_update_task f r w :
  (∀ t, ∃ os, f t = run_ops t os) → rely w (update_task f r w).
Proof. intros Hf. apply rely_tasks, store_le_alter. intros; apply Hf. Qed.

Lemma proxies_le_alter ps f p :
  (∀ g, ps !! p = Some g → rtc gw_step g (f g)) → proxies_le ps (alter f p ps).
Proof.
  intros Hf q g Hq. destruct (decide (p = q)) as [<-|Hne].
  - exists (f g). by rewrite lookup_alter_eq, Hq; auto.
  - exists g. by rewrite lookup_alter_ne.
Qed.

Lemma rely_update_proxy f p w :
  (∀ g, w_proxies w !! p = Some g → rtc gw_step g (f g)) → rely w (update_proxy f p w).
Proof.
  intros Hf. pose proof (proxies_le_alter (w_proxies w) f p Hf) as Hle. split.
  - split; try done; [apply Qle_refl|]. exists []. by rewrite app_nil_r.
  - intros [Hi Hm]. split; [|by apply members_ok_proxies_le with (w_proxies w)].
    intros q g Hq. simpl in Hq. apply lookup_alter_Some in Hq as [(<- & g0 & Hg0 & ->)|[_ Hq]].
    + specialize (Hi p g0 Hg0). specialize (Hf g0 Hg0). clear -Hi Hf.
      induction Hf; eauto using gw_step_inv.
    + by apply (Hi q).
Qed.

Lemma rely_log p batch w : rely w (log_accept p batch w).
Proof. split; [|done]. split; try done; [apply Qle_refl|]. by exists [(p, batch)]. Qed.

Lemma rely_bump_rr w : rely w (bump_rr w).
Proof.
  split; [|done]. split; try done; [apply Qle_refl|]. exists []. by rewrite app_nil_r.
Qed.

Lemma rely_count_submission w : rely w (count_submission w).
Proof.
  split; [|done]. split; try done; [apply Qle_refl|]. exists []. by rewrite app_nil_r.
Qed.

Lemma rely_count_completion w : rely w (count_completion w).
Proof.
  split; [|done]. split; try done; [apply Qle_refl|]. exists []. by rewrite app_nil_r.
Qed.

Lemma rely_worker_count n w : rely w (set_worker_count n w).
Proof.
  split; [|done]. split; try done; [apply Qle_refl|]. exists []. by rewrite app_nil_r.
Qed.

Lemma rely_stopping w : rely w (set_stopping w).
Proof.
  split; [|done]. split; try done; [apply Qle_refl|]. exists []. by rewrite app_nil_r.
Qed.

Lemma rely_bump_pauses w : rely w (bump_pauses w).
Proof.
  split; [|done]. split; try done; [apply Qle_refl|]. exists []. by rewrite app_nil_r.
Qed.

Lemma rely_members ms w :
  (world_wf w → members_ok (w_proxies w) ms) → rely w (set_members ms w).
Proof.
  intros Hm. split.
  - split; try done; [apply Qle_refl|]. exists []. by rewrite app_nil_r.
  - intros Hwf. split; [apply Hwf|by apply Hm].
Qed.

(** A new proxy object. *)
Lemma rely_new_proxy p g w :
  w_proxies w !! p = None → gw_inv g →
  rely w (set_proxies (<[p := g]> (w_proxies w)) w).
Proof.
  intros Hp Hg.
  assert (proxies_le (w_proxies w) (<[p := g]> (w_proxies w))) as Hle.
  { intros q g' Hq. exists g'. rewrite lookup_insert_ne by congruence. done. }
  split.
  - split; try done; [apply Qle_refl|]. exists []. by rewrite app_nil_r.
  - intros [Hi Hm]. split; [|by eapply members_ok_proxies_le].
    intros q g' Hq. simpl in Hq. apply lookup_insert_Some in Hq as [[_ <-]|[_ Hq]]; eauto.
Qed.

Create HintDb rely discriminated.
#[export] Hint Resolve rely_log rely_bump_rr rely_count_submission rely_count_completion
  rely_worker_count rely_stopping rely_bump_pauses : rely.

(** ** Steps that complete no task

    Most steps of the program let tasks only start, fail or reserve a retry, and create
    none; the exceptions are the scheduling points and the results of a worker. *)

Record quiet (w1 w2 : world) : Prop := {
  qt_rely : rely w1 w2;
  qt_tasks : ∀ r t2, w_tasks w2 !! r = Some t2 →
    ∃ t1 os, w_tasks w1 !! r = Some t1 ∧ t2 = run_ops t1 os ∧ (status t2 = DONE → status t1 = DONE);
}.

Lemma quiet_same_tasks w1 w2 : rely w1 w2 → w_tasks w2 = w_tasks w1 → quiet w1 w2.
Proof. intros H E. split; [done|]. intros r t2 Ht. rewrite E in Ht. by exists t2, []. Qed.

Lemma quiet_update_task f r w :
  (∀ t, ∃ o, f t = apply_op t o ∧ match o with OpDone _ _ => False | _ => True end) → quiet w (update_task f r w).
Proof.
  intros Hf. split.
  - apply rely_update_task. intros t. destruct (Hf t) as (o & -> & _). by exists [o].
  - intros q t2 Ht. simpl in Ht. apply lookup_alter_Some in Ht as [(<- & t & Ht & ->)|[_ Ht]]; [|by exists t2, []].
    destruct (Hf t) as (o & Ho & Hn). exists t, [o]. split_and!; [done|done|]. rewrite Ho. intros Hd.
    destruct o as [|?|?|?]; try done; unfold apply_op in Hd; simpl in Hd.
    + unfold mark_processing in Hd. by destruct (is_terminal t).
    + unfold mark_failed in Hd. by destruct (is_terminal t).
    + unfold try_reserve_retry in Hd. by destruct (is_terminal t); [|destruct (_ || _)].
Qed.

Lemma quiet_update_proxy f p w :
  (∀ g, w_proxies w !! p = Some g → rtc gw_step g (f g)) → quiet w (update_proxy f p w).
Proof. intros H. apply quiet_same_tasks; [by apply rely_update_proxy|done]. Qed.

Lemma quiet_log p batch w : quiet w (log_accept p batch w).
Proof. apply quiet_same_tasks; [apply rely_log|done]. Qed.
Lemma quiet_bump_rr w : quiet w (bump_rr w).
Proof. apply quiet_same_tasks; [apply rely_bump_rr|done]. Qed.
Lemma quiet_count_submission w : quiet w (count_submission w).
Proof. apply quiet_same_tasks; [apply rely_count_submission|done]. Qed.
Lemma quiet_count_completion w : quiet w (count_completion w).
Proof. apply quiet_same_tasks; [apply rely_count_completion|done]. Qed.
Lemma quiet_worker_count n w : quiet w (set_worker_count n w).
Proof. apply quiet_same_tasks; [apply rely_worker_count|done]. Qed.
Lemma quiet_stopping w : quiet w (set_stopping w).
Proof. apply quiet_same_tasks; [apply rely_stopping|done]. Qed.
Lemma quiet_members ms w : (world_wf w → members_ok (w_proxies w) ms) → quiet w (set_members ms w).
Proof. intros H. apply quiet_same_tasks; [by apply rely_members|done]. Qed.
Lemma quiet_new_proxy p g w :
  w_proxies w !! p = None → gw_inv g → quiet w (set_proxies (<[p := g]> (w_proxies w)) w).
Proof. intros Hp Hg. apply quiet_same_tasks; [by apply rely_new_proxy|done]. Qed.

(** ** Consequences the clients use *)

Lemma rely_settled w1 w2 r : rely w1 w2 → settled (w_tasks w1) r → settled (w_tasks w2) r.
Proof. intros [H _]. apply settled_mono, H. Qed.

Lemma rely_task w1 w2 r : rely w1 w2 → is_Some (w_tasks w1 !! r) → is_Some (w_tasks w2 !! r).
Proof. intros [H _] [t Ht]. destruct (le_tasks _ _ H r t Ht) as [os ?]. eauto. Qed.

Lemma rely_trace w1 w2 x : rely w1 w2 → x ∈ w_trace w1 → x ∈ w_trace w2.
Proof. intros [H _]. destruct (le_trace _ _ H) as [more ->]. set_solver. Qed.

Lemma rely_proxy w1 w2 p g :
  rely w1 w2 → w_proxies w1 !! p = Some g →
  ∃ g', w_proxies w2 !! p = Some g' ∧ rtc gw_step g g'.
Proof. intros [H _]. apply (le_proxies _ _ H). Qed.

Lemma gw_steps_identity g g' :
  rtc gw_step g g' → gw_worker_id g' = gw_worker_id g ∧ gw_address g' = gw_address g.
Proof.
  induction 1 as [|g1 g2 g3 H12 _ [IH1 IH2]]; [done|].
  rewrite IH1, IH2. by apply gw_step_identity.
Qed.

Lemma gw_steps_stopped g g' :
  rtc gw_step g g' → gw_stop g = true →
  gw_stop g' = true ∧ (gw_batch_queue g = [] → gw_batch_queue g' = []).
Proof.
  induction 1 as [|g1 g2 g3 H12 _ IH]; [done|]. intros Hs.
  destruct (gw_step_stopped _ _ H12 Hs) as (H1 & _ & H2).
  destruct (IH H1) as [H3 H4]. split; [done|]. intros Hq. apply H4.
  destruct H2; congruence.
Qed.
