(* ===== verification/GrpcPool.v ===== *)
(** Routing, hand-off and membership in [src/system/grpc_worker_pool.py]: the
    methods of [GrpcWorkerPool], and the methods of [GrpcWorker] that settle
    tasks or hand them to another proxy.

    Every critical section is preceded by a scheduling point ([pause]), at which
    the other threads of the program may change the world in any way [rely]
    allows; the environment [sched] decides what they do. *)
From S2P Require Import Prelude PyVal Tasks GrpcWorker World.

(** ** The external parts *)

(** [grpc.StatusCode], as far as the code distinguishes it. *)
Inductive grpc_code := DEADLINE_EXCEEDED | UNAVAILABLE | CANCELLED | OTHER_CODE.

#[export] Instance grpc_code_eq_dec : EqDecision grpc_code.
Proof. solve_decision. Defined.

(** [inference_pb2.TaskRequest] and [TaskResult]. *)
Record TaskRequest := mkTaskRequest {
  rq_task_id : string;
  rq_input_json : string;
  rq_remaining_seconds : option Q;
}.

Record TaskResult := mkTaskResult {
  rs_task_id : string;
  rs_success : bool;
  rs_result_json : string;
  rs_error : string;
  rs_error_code : string;
}.

(** The outcome of [stub.ProcessBatch]: a response, an [RpcError] with its code
    and text, or another exception (whether it is a [ValueError], and its text). *)
Inductive rpc_outcome :=
| RpcOk (results : list TaskResult)
| RpcFail (code : grpc_code) (msg : string)
| RpcRaise (value_error : bool) (msg : string).

(** What surrounds the pool: the other threads, the remote workers and the JSON
    codec ([loads] gives the value, or the text of its [ValueError]). *)
Record environment := mkEnvironment {
  sched : nat → world → world;
  rpc : nat → string → list TaskRequest → Q → rpc_outcome;
  json_dumps : pyval → string;
  json_loads : string → pyval + string;
  capabilities : option (list (string * list string));   (* WORKER_CAPABILITIES *)
}.

(** The environment's threads stay within what the program's threads can do. *)
Class WellBehaved (env : environment) : Prop :=
  env_rely : ∀ n w, rely w (sched env n w).

Section pool.
Context (env : environment).

(** A scheduling point. *)
Definition pause (w : world) : world := sched env (w_pauses w) (bump_pauses w).

(** ** Locked access to one task or one proxy *)

Definition fail_task (err : string) (code : option string) (r : tref) (w : world) : world :=
  let w := pause w in
  update_task (mark_failed (w_wall w) err code) r w.

Definition try_submit_at (p : pref) (batch : list tref) (w : world) : bool * world :=
  let w := pause w in
  match w_proxies w !! p with
  | None => (false, w)
  | Some g =>
      let '(ok, _) := gw_try_submit batch g in
      let w := update_proxy (λ g, (gw_try_submit batch g).2) p w in
      (ok, if ok then log_accept p batch w else w)
  end.

Fixpoint fail_tasks (err : string) (code : option string) (batch : list tref) (w : world)
    : world :=
  match batch with
  | [] => w
  | r :: batch' => fail_tasks err code batch' (fail_task err code r w)
  end.

(** [GrpcWorker.submit]. *)
Definition gw_submit (p : pref) (batch : list tref) (w : world) : world :=
  let '(ok, w) := try_submit_at p batch w in
  if ok then w
  else fail_tasks "worker unavailable or at capacity" (Some "overloaded"%string) batch w.

(** ** Task kinds and capabilities *)

(** [_kind]. *)
Definition task_kind (t : Task) : pyval :=
  match input_data t with
  | PyDict d => dict_get d "kind" (PyStr "simulation")
  | _ => PyStr "simulation"
  end.

(** The kinds whose execution is never repeated on another worker. *)
Definition model_kinds : list string :=
  ["synthx_v73"; "synthx_text_v123"; "synthx_text_refinement"]%string.

(** [isinstance(input_data, dict) and input_data.get("kind") in (...)]. *)
Definition is_model_task (t : Task) : bool :=
  match input_data t with
  | PyDict d =>
      match dict_get d "kind" PyNone with
      | PyStr k => bool_decide (k ∈ model_kinds)
      | _ => false
      end
  | _ => false
  end.

Definition worker_kinds (wid : string) : list string :=
  match capabilities env with
  | None => ["simulation"; "synthx_v73"]%string
  | Some caps => dict_get caps wid []
  end.

(** [_supports]. *)
Definition supports (wid : string) (t : Task) : bool :=
  match task_kind t with
  | PyStr k => bool_decide (k ∈ worker_kinds wid)
  | _ => false
  end.

(** The pool's proxies, in the order of its dict. *)
Definition member_proxies (w : world) : list (pref * GrpcWorker) :=
  omap (λ '(_, p), g ← w_proxies w !! p; Some (p, g)) (w_members w).

(** ** [try_resubmit] *)

(** The first proxy of the list that accepts the batch. *)
Fixpoint submit_first (ps : list pref) (batch : list tref) (w : world)
    : option pref * world :=
  match ps with
  | [] => (None, w)
  | p :: ps' =>
      let '(ok, w) := try_submit_at p batch w in
      if ok then (Some p, w) else submit_first ps' batch w
  end.

Definition retry_candidates (t : Task) (failed : string) (w : world) : list pref :=
  (filter (λ pg, negb (bool_decide (gw_worker_id pg.2 = failed)) && gw_is_ready pg.2
                 && supports (gw_worker_id pg.2) t = true) (member_proxies w)).*1.

Definition is_busy_at (w : world) (p : pref) : bool :=
  match w_proxies w !! p with Some g => gw_busy g | None => false end.

(** Whether the task was handed over, and to which proxy. *)
Definition try_resubmit (r : tref) (failed : string) (w : world) : option pref * world :=
  let w := pause w in
  if w_stopping w then (None, w)
  else
    match w_tasks w !! r with
    | None => (None, w)
    | Some t =>
        let candidates := retry_candidates t failed w in
        match candidates with
        | [] => (None, w)
        | _ =>
            let w := pause w in
            let granted := match w_tasks w !! r with
                           | Some t => (try_reserve_retry (w_mono w) t).1
                           | None => false end in
            let w := update_task (λ t, (try_reserve_retry (w_mono w) t).2) r w in
            if negb granted then (None, w)
            else
              let w := pause w in
              let idle := filter (λ p, is_busy_at w p = false) candidates in
              let busy := filter (λ p, is_busy_at w p = true) candidates in
              let '(target, w) := submit_first (idle ++ busy) [r] w in
              match target with
              | Some p => (Some p, count_submission w)
              | None => (None, w)
              end
        end
    end.

(** ** [_finish_or_retry] *)

Definition proxy_id (w : world) (p : pref) : string :=
  match w_proxies w !! p with Some g => gw_worker_id g | None => EmptyString end.

Definition finish_or_retry (p : pref) (err : string) (retry_allowed : bool) (r : tref)
    (w : world) : world :=
  match w_tasks w !! r with
  | None => w
  | Some t =>
      if is_terminal t then w
      else if is_expired (w_mono w) t then
        fail_task "request deadline exceeded" (Some "deadline_exceeded"%string) r w
      else if is_model_task t then fail_task err (Some "transport_error"%string) r w
      else if retry_allowed then
        let '(target, w) := try_resubmit r (proxy_id w p) w in
        match target with
        | Some _ => w
        | None => fail_task err None r w
        end
      else fail_task err None r w
  end.

Fixpoint finish_tasks (p : pref) (err : string) (allowed : world → bool)
    (batch : list tref) (w : world) : world :=
  match batch with
  | [] => w
  | r :: batch' =>
      finish_tasks p err allowed batch' (finish_or_retry p err (allowed w) r w)
  end.

Definition stop_flag (w : world) (p : pref) : bool :=
  match w_proxies w !! p with Some g => gw_stop g | None => false end.

Definition retry_flag (w : world) (p : pref) : bool :=
  match w_proxies w !! p with Some g => gw_retry_on_stop g | None => false end.

(** ** [_process] *)

(** The first loop: the tasks still worth sending; expired ones are failed. *)
Fixpoint live_tasks (batch : list tref) (w : world) : list tref * world :=
  match batch with
  | [] => ([], w)
  | r :: batch' =>
      let w := pause w in
      match w_tasks w !! r with
      | None => live_tasks batch' w
      | Some t =>
          if is_terminal t then live_tasks batch' w
          else if is_expired (w_mono w) t then
            live_tasks batch'
              (fail_task "request deadline exceeded" (Some "deadline_exceeded"%string) r w)
          else let '(rs, w) := live_tasks batch' w in (r :: rs, w)
      end
  end.

Fixpoint start_tasks (batch : list tref) (w : world) : world :=
  match batch with
  | [] => w
  | r :: batch' =>
      let w := pause w in
      start_tasks batch' (update_task (mark_processing (w_wall w)) r w)
  end.

(** The requests, each with the budget left when it is built. *)
Fixpoint build_requests (batch : list tref) (w : world) : list TaskRequest * world :=
  match batch with
  | [] => ([], w)
  | r :: batch' =>
      let w := pause w in
      match w_tasks w !! r with
      | None => build_requests batch' w
      | Some t =>
          let rq := mkTaskRequest (task_id t) (json_dumps env (input_data t))
                      (remaining_seconds (w_mono w) t) in
          let '(rqs, w) := build_requests batch' w in
          (rq :: rqs, w)
      end
  end.

(** [max(remaining_times) if remaining_times else 35.0]. *)
Definition rpc_timeout (rqs : list TaskRequest) : Q :=
  match omap rq_remaining_seconds rqs with
  | [] => 35
  | x :: xs => foldl Qmax x xs
  end.

(** [{task.task_id: task for task in batch}]. *)
Definition task_map (batch : list tref) (w : world) : list (string * tref) :=
  foldl (λ m r, match w_tasks w !! r with
                | Some t => dict_set m (task_id t) r
                | None => m end) [] batch.

Definition empty_to_none (s : string) : option string :=
  if decide (s = EmptyString) then None else Some s.

(** The loop over [response.results]: the world, and the text of the
    [ValueError] that [json.loads] raised, if one did. *)
Fixpoint apply_results (m : list (string * tref)) (results : list TaskResult) (w : world)
    : world * option string :=
  match results with
  | [] => (w, None)
  | res :: results' =>
      match dict_lookup m (rs_task_id res) with
      | None => apply_results m results' w
      | Some r =>
          if rs_success res then
            match json_loads env (rs_result_json res) with
            | inr msg => (w, Some msg)
            | inl v =>
                let w := pause w in
                let w := update_task (mark_done (w_wall w) v) r w in
                let retried := match w_tasks w !! r with
                  | Some t => negb (retry_count t =? 0) && bool_decide (status t = DONE)
                  | None => false end in
                apply_results m results' (if retried then count_completion w else w)
            end
          else
            apply_results m results'
              (fail_task (rs_error res) (empty_to_none (rs_error_code res)) r w)
      end
  end.

(** The loop that fails the model tasks the response left out. *)
Fixpoint fail_omitted (batch : list tref) (w : world) : world :=
  match batch with
  | [] => w
  | r :: batch' =>
      match w_tasks w !! r with
      | Some t =>
          if is_model_task t && negb (is_terminal t) then
            fail_omitted batch'
              (fail_task "worker omitted task result" (Some "transport_error"%string) r w)
          else fail_omitted batch' w
      | None => fail_omitted batch' w
      end
  end.

(** The [except Exception] branch. *)
Definition process_raised (p : pref) (batch : list tref) (value_error : bool)
    (msg : string) (w : world) : world :=
  finish_tasks p msg (λ w, stop_flag w p && retry_flag w p && value_error) batch w.

(** The [except grpc.RpcError] branch. *)
Definition process_rpc_error (p : pref) (batch : list tref) (code : grpc_code)
    (msg : string) (w : world) : world :=
  if decide (code = DEADLINE_EXCEEDED) then
    fail_tasks "request deadline exceeded" (Some "deadline_exceeded"%string) batch w
  else
    let retiring := stop_flag w p && retry_flag w p in
    let retry_allowed :=
      (bool_decide (code = UNAVAILABLE) && (negb (stop_flag w p) || retiring))
      || (bool_decide (code = CANCELLED) && retiring) in
    finish_tasks p msg (λ _, retry_allowed) batch w.

(** The [try] block and its handlers. *)
Definition process_rpc (p : pref) (batch : list tref) (m : list (string * tref))
    (requests : list TaskRequest) (timeout : Q) (w : world) : world :=
  let w := update_proxy gw_rpc_begin p w in
  let outcome := rpc env (w_pauses w) (proxy_id w p) requests timeout in
  let w := pause w in
  let w := update_proxy gw_rpc_end p w in
  match outcome with
  | RpcOk results =>
      let '(w, exn) := apply_results m results w in
      match exn with
      | None => fail_omitted batch w
      | Some msg => process_raised p batch true msg w
      end
  | RpcFail code msg => process_rpc_error p batch code msg w
  | RpcRaise value_error msg => process_raised p batch value_error msg w
  end.

Definition gw_process (p : pref) (batch : list tref) (w : world) : world :=
  let '(active, w) := live_tasks batch w in
  match active with
  | [] => w
  | _ =>
      let w := pause w in
      if stop_flag w p then
        finish_tasks p "worker removed" (λ w, retry_flag w p) active w
      else
        let w := start_tasks active w in
        let m := task_map active w in
        let '(requests, w) := build_requests active w in
        let timeout := rpc_timeout requests in
        if timeout <=?q 0 then
          fail_tasks "request deadline exceeded" (Some "deadline_exceeded"%string) active w
        else process_rpc p active m requests timeout w
  end.

(** One turn of the inner loop of [_loop]; [false]: nothing to take. *)
Definition gw_loop_turn (p : pref) (w : world) : bool * world :=
  let w := pause w in
  match w_proxies w !! p with
  | None => (false, w)
  | Some g =>
      match gw_take g with
      | None => (false, w)
      | Some (batch, g') =>
          let w := set_proxies (<[p := g']> (w_proxies w)) w in
          let w := gw_process p batch w in
          let w := pause w in
          (true, update_proxy (gw_set_processing false) p w)
      end
  end.

(** ** [stop] *)

Fixpoint finish_batches (p : pref) (pending : list (list tref)) (w : world) : world :=
  match pending with
  | [] => w
  | batch :: pending' =>
      finish_batches p pending'
        (finish_tasks p "worker removed" (λ w, retry_flag w p) batch w)
  end.

Definition gw_stop_proxy (retry_pending : bool) (p : pref) (w : world) : world :=
  let w := update_proxy (gw_begin_stop retry_pending) p (pause w) in
  let w := pause w in
  match w_proxies w !! p with
  | None => w
  | Some g =>
      let pending := gw_batch_queue g in
      let w := update_proxy (λ g, (gw_take_pending g).2) p w in
      let w := finish_batches p pending w in
      update_proxy gw_remove_metrics p (pause w)
  end.

(** ** [GrpcWorkerPool.submit] *)

Definition ready_members (t : Task) (w : world) : list pref :=
  (filter (λ pg, gw_is_ready pg.2 && supports (gw_worker_id pg.2) t = true)
          (member_proxies w)).*1.

(** The chosen proxy: round robin over the idle ones, or over all ready ones. *)
Definition choose_proxy (ready : list pref) (w : world) : option pref :=
  let idle := filter (λ p, is_busy_at w p = false) ready in
  let pool := match idle with [] => ready | _ => idle end in
  pool !! Z.to_nat (w_rr_index w mod py_len pool).

(** The second pass: the other members in the dict's order, each if it is ready
    and capable when its turn comes. *)
Fixpoint submit_others (p : pref) (t : Task) (members : list (string * pref))
    (batch : list tref) (w : world) : option pref * world :=
  match members with
  | [] => (None, w)
  | (wid, q) :: members' =>
      let ready := match w_proxies w !! q with
                   | Some g => gw_is_ready g && supports (gw_worker_id g) t
                   | None => false end in
      if bool_decide (q = p) || negb ready then submit_others p t members' batch w
      else
        let '(ok, w) := try_submit_at q batch w in
        if ok then (Some q, w) else submit_others p t members' batch w
  end.

(** [_submit_compatible]; the result is the proxy that accepted the batch. *)
Definition submit_compatible (batch : list tref) (w : world) : option pref * world :=
  let w := pause w in
  match head batch ≫= λ r, w_tasks w !! r with
  | None => (None, w)   (* not reached: a group has at least one task *)
  | Some t =>
      let ready := ready_members t w in
      match choose_proxy ready w with
      | None => (None, fail_tasks "no ready workers available" (Some "overloaded"%string) batch w)
      | Some p =>
          let '(ok, w) := try_submit_at p batch (bump_rr w) in
          if ok then (Some p, w)
          else
            let w := pause w in
            let '(target, w) := submit_others p t (w_members w) batch w in
            match target with
            | Some q => (Some q, w)
            | None => (None, fail_tasks "all workers at capacity" (Some "overloaded"%string)
                               batch w)
            end
      end
  end.

(** The loop that splits a batch by kind, failing tasks whose kind is no string;
    the groups keep the order in which their kinds first appear. *)
Fixpoint group_tasks (batch : list tref) (groups : list (string * list tref)) (w : world)
    : list (string * list tref) * world :=
  match batch with
  | [] => (groups, w)
  | r :: batch' =>
      match w_tasks w !! r with
      | None => group_tasks batch' groups w
      | Some t =>
          match task_kind t with
          | PyStr k => group_tasks batch' (dict_set groups k (dict_get groups k [] ++ [r])) w
          | _ => group_tasks batch' groups
                   (fail_task "invalid task kind" (Some "invalid_spec"%string) r w)
          end
      end
  end.

Fixpoint submit_groups (groups : list (list tref)) (w : world) : world :=
  match groups with
  | [] => w
  | batch :: groups' => submit_groups groups' (submit_compatible batch w).2
  end.

Definition pool_submit_batch (batch : list tref) (w : world) : world :=
  let '(groups, w) := group_tasks batch [] w in
  submit_groups (dict_values groups) w.

(** ** Membership *)

(** [WorkerInfo] of the registry. *)
Record WorkerInfo := mkWorkerInfo { wi_address : string; wi_state : worker_state }.

(** The loop over the snapshot, inside the pool's lock. *)
Definition add_member (wid : string) (info : WorkerInfo) (w : world) : world :=
  let w :=
    match dict_lookup (w_members w) wid with
    | Some _ => w
    | None =>
        let p := fresh (dom (w_proxies w)) in
        set_members (dict_set (w_members w) wid p)
          (set_proxies (<[p := gw_init wid (wi_address info)]> (w_proxies w)) w)
    end in
  match dict_lookup (w_members w) wid with
  | Some p => update_proxy (gw_set_routing_state (wi_state info)) p w
  | None => w
  end.

Fixpoint add_members (snapshot : list (string * WorkerInfo)) (w : world) : world :=
  match snapshot with
  | [] => w
  | (wid, info) :: snapshot' => add_members snapshot' (add_member wid info w)
  end.

(** The loop over [gone]: the proxies leave the dict already stopped. *)
Fixpoint remove_members (gone : list string) (w : world) : list pref * world :=
  match gone with
  | [] => ([], w)
  | wid :: gone' =>
      match dict_lookup (w_members w) wid with
      | None => remove_members gone' w
      | Some p =>
          let w := set_members (dict_del (w_members w) wid) w in
          let w := update_proxy (gw_begin_stop true) p w in
          let '(removed, w) := remove_members gone' w in
          (p :: removed, w)
      end
  end.

Fixpoint stop_proxies (retry_pending : bool) (ps : list pref) (w : world) : world :=
  match ps with
  | [] => w
  | p :: ps' => stop_proxies retry_pending ps' (gw_stop_proxy retry_pending p w)
  end.

(** The critical section of [_update_workers]. *)
Definition reconcile (snapshot : list (string * WorkerInfo)) (w : world)
    : list pref * world :=
  let w := add_members snapshot w in
  let gone := filter (λ wid, wid ∉ dict_keys snapshot) (dict_keys (w_members w)) in
  let '(removed, w) := remove_members gone w in
  (removed, set_worker_count (py_len (w_members w)) w).

Definition update_workers (snapshot : list (string * WorkerInfo)) (w : world) : world :=
  let w := pause w in
  if w_stopping w then w
  else
    let '(removed, w) := reconcile snapshot w in
    stop_proxies true removed w.

Fixpoint begin_stop_all (ps : list pref) (w : world) : world :=
  match ps with
  | [] => w
  | p :: ps' => begin_stop_all ps' (update_proxy (gw_begin_stop false) p w)
  end.

(** [GrpcWorkerPool.stop]. *)
Definition pool_stop (w : world) : world :=
  let w := set_stopping (pause w) in
  let workers := dict_values (w_members w) in
  let w := set_worker_count 0 (set_members [] w) in
  let w := begin_stop_all workers w in
  stop_proxies false workers (pause w).

(** ** Construction and start *)

(** The names and addresses of a [STATIC_WORKERS] object, if it is valid. *)
Fixpoint static_entries (d : list (string * pyval)) : option (list (string * string)) :=
  match d with
  | [] => Some []
  | (wid, address) :: d' =>
      match address with
      | PyStr a =>
          if py_blank wid || py_blank a then None
          else rest ← static_entries d'; Some ((wid, a) :: rest)
      | _ => None
      end
  end.

(** The part of [__init__] that reads the static membership: [arg] is the
    constructor's argument, [raw] the environment variable. *)
Definition static_workers (arg : pyval) (raw : option string)
    : option (list (string * string)) + string :=
  let parsed :=
    match arg, raw with
    | PyNone, Some text =>
        match json_loads env text with
        | inl PyNone | inr _ => inr "STATIC_WORKERS must be a JSON object"%string
        | inl v => inl v
        end
    | _, _ => inl arg
    end in
  match parsed with
  | inr e => inr e
  | inl PyNone => inl None
  | inl (PyDict d) =>
      match static_entries d with
      | Some entries => inl (Some entries)
      | None => inr "STATIC_WORKERS must map nonempty worker IDs to addresses"%string
      end
  | inl _ => inr "STATIC_WORKERS must map nonempty worker IDs to addresses"%string
  end.

Definition all_kinds : list string := "simulation"%string :: model_kinds.

Fixpoint known_kinds (kinds : list pyval) : option (list string) :=
  match kinds with
  | [] => Some []
  | PyStr k :: kinds' =>
      if bool_decide (k ∈ all_kinds) then rest ← known_kinds kinds'; Some (k :: rest) else None
  | _ :: _ => None
  end.

Fixpoint capability_entries (d : list (string * pyval)) : option (list (string * list string)) :=
  match d with
  | [] => Some []
  | (wid, PyList (k :: ks)) :: d' =>
      if decide (wid = EmptyString) then None
      else kinds ← known_kinds (k :: ks); rest ← capability_entries d';
           Some ((wid, kinds) :: rest)
  | _ :: _ => None
  end.

(** The part of [__init__] that reads [WORKER_CAPABILITIES]. *)
Definition read_capabilities (raw : option string)
    : option (list (string * list string)) + string :=
  match raw with
  | None => inl None
  | Some text =>
      match json_loads env text with
      | inl (PyDict d) =>
          match capability_entries d with
          | Some caps => inl (Some caps)
          | None => inr "WORKER_CAPABILITIES must map worker IDs to supported task kinds"%string
          end
      | _ => inr "WORKER_CAPABILITIES must map worker IDs to supported task kinds"%string
      end
  end.

(** [GrpcWorkerPool.start] with static membership. *)
Definition pool_start_static (entries : list (string * string)) (w : world) : world :=
  update_workers (map (λ '(wid, a), (wid, mkWorkerInfo a READY)) entries) w.

(** [has_workers]. *)
Definition has_workers (w : world) : bool :=
  if w_stopping w then false
  else existsb (λ pg, gw_is_ready pg.2) (member_proxies w).
End pool.
