(* ===== verification/GrpcPoolFacts.v ===== *)
(** Properties of the gRPC dispatch path: every method respects the interference
    relation that the others assume of it, no accepted task is lost, retries go
    to another capable proxy, and membership follows the registry's snapshots. *)
From S2P Require Import Prelude PyVal Tasks GrpcWorker World GrpcPool.

(** ** Disciplines

    A relation that the scheduling points and the quiet steps respect; every method then
    respects it too, provided the exchanges with the workers do.  [rely] is one, and
    [GrpcHonest] has another. *)
Class Discipline (env : environment) (R : world → world → Prop) : Prop := {
  disc_preorder :: PreOrder R;
  disc_pause : ∀ w, R w (pause env w);
  disc_quiet : ∀ w1 w2, quiet w1 w2 → R w1 w2;
}.

Section discipline.
Context (env : environment) (R : world → world → Prop) {HD : Discipline env R}.


Lemma stays_fail_task err code r w : R w (fail_task env err code r w).
Proof.
  unfold fail_task. etrans; [apply disc_pause|]. apply disc_quiet, quiet_update_task.
  intros t. by exists (OpFailed (w_wall (pause env w)) err code).
Qed.

Lemma stays_try_submit_at p batch w : R w (try_submit_at env p batch w).2.
Proof.
  unfold try_submit_at. etrans; [apply disc_pause|].
  destruct (w_proxies _ !! p) as [g|]; [|reflexivity].
  destruct (gw_try_submit batch g) as [ok ?]. simpl.
  assert (R (pause env w)
    (update_proxy (λ g, (gw_try_submit batch g).2) p (pause env w))) as H.
  { apply disc_quiet, quiet_update_proxy. intros. apply rtc_once, gs_try_submit. }
  destruct ok; [|done]. etrans; [exact H|apply disc_quiet, quiet_log].
Qed.

Lemma stays_fail_tasks err code batch w : R w (fail_tasks env err code batch w).
Proof.
  revert w. induction batch as [|r batch IH]; intros w; simpl; [reflexivity|].
  etrans; [apply stays_fail_task|apply IH].
Qed.

Lemma stays_gw_submit p batch w : R w (gw_submit env p batch w).
Proof.
  unfold gw_submit. pose proof (stays_try_submit_at p batch w) as H.
  destruct (try_submit_at env p batch w) as [[] w1]; simpl in *; [done|].
  etrans; [exact H|apply stays_fail_tasks].
Qed.

Lemma stays_submit_first ps batch w : R w (submit_first env ps batch w).2.
Proof.
  revert w. induction ps as [|p ps IH]; intros w; simpl; [reflexivity|].
  pose proof (stays_try_submit_at p batch w) as H.
  destruct (try_submit_at env p batch w) as [[] w1]; simpl in *; [done|].
  etrans; [exact H|apply IH].
Qed.

Lemma stays_try_resubmit r failed w : R w (try_resubmit env r failed w).2.
Proof.
  unfold try_resubmit. etrans; [apply disc_pause|].
  set (w1 := pause env w). destruct (w_stopping w1); [reflexivity|].
  destruct (w_tasks w1 !! r) as [t|]; [|reflexivity].
  destruct (retry_candidates env t failed w1) as [|c cs]; [reflexivity|].
  etrans; [apply disc_pause|]. set (w2 := pause env w1).
  set (w3 := update_task _ r w2).
  assert (R w2 w3) as H3.
  { apply disc_quiet, quiet_update_task. intros t0. by exists (OpReserve (w_mono w2)). }
  etrans; [exact H3|]. destruct (negb _); [reflexivity|].
  etrans; [apply disc_pause|]. set (w4 := pause env w3).
  pose proof (stays_submit_first
    (filter (λ p, is_busy_at w4 p = false) (c :: cs) ++
     filter (λ p, is_busy_at w4 p = true) (c :: cs)) [r] w4) as H5.
  destruct (submit_first _ _ _ w4) as [[p|] w5]; simpl in *; [|done].
  etrans; [exact H5|apply disc_quiet, quiet_count_submission].
Qed.

Lemma stays_finish_or_retry p err allowed r w :
  R w (finish_or_retry env p err allowed r w).
Proof.
  unfold finish_or_retry. destruct (w_tasks w !! r) as [t|]; [|reflexivity].
  destruct (is_terminal t); [reflexivity|].
  destruct (is_expired _ t); [apply stays_fail_task|].
  destruct (is_model_task t); [apply stays_fail_task|].
  destruct allowed; [|apply stays_fail_task].
  pose proof (stays_try_resubmit r (proxy_id w p) w) as H.
  destruct (try_resubmit _ _ _ w) as [[q|] w1]; simpl in *; [done|].
  etrans; [exact H|apply stays_fail_task].
Qed.

Lemma stays_finish_tasks p err allowed batch w :
  R w (finish_tasks env p err allowed batch w).
Proof.
  revert w. induction batch as [|r batch IH]; intros w; simpl; [reflexivity|].
  etrans; [apply stays_finish_or_retry|apply IH].
Qed.

Lemma stays_live_tasks batch w : R w (live_tasks env batch w).2.
Proof.
  revert w. induction batch as [|r batch IH]; intros w; simpl; [reflexivity|].
  etrans; [apply disc_pause|]. destruct (w_tasks _ !! r) as [t|]; [|apply IH].
  destruct (is_terminal t); [apply IH|].
  destruct (is_expired _ t); [etrans; [apply stays_fail_task|apply IH]|].
  specialize (IH (pause env w)). by destruct (live_tasks env batch _) as [rs w1].
Qed.

Lemma stays_start_tasks batch w : R w (start_tasks env batch w).
Proof.
  revert w. induction batch as [|r batch IH]; intros w; simpl; [reflexivity|].
  etrans; [apply disc_pause|]. etrans; [|apply IH]. apply disc_quiet, quiet_update_task.
  intros t. by exists (OpProcessing (w_wall (pause env w))).
Qed.

Lemma stays_build_requests batch w : R w (build_requests env batch w).2.
Proof.
  revert w. induction batch as [|r batch IH]; intros w; simpl; [reflexivity|].
  etrans; [apply disc_pause|]. destruct (w_tasks _ !! r) as [t|]; [|apply IH].
  specialize (IH (pause env w)). by destruct (build_requests env batch _) as [rs w1].
Qed.

Lemma stays_fail_omitted batch w : R w (fail_omitted env batch w).
Proof.
  revert w. induction batch as [|r batch IH]; intros w; simpl; [reflexivity|].
  destruct (w_tasks w !! r) as [t|]; [|apply IH].
  destruct (_ && _); [|apply IH]. etrans; [apply stays_fail_task|apply IH].
Qed.

Lemma stays_process_rpc_error p batch code msg w :
  R w (process_rpc_error env p batch code msg w).
Proof.
  unfold process_rpc_error. destruct (decide (code = DEADLINE_EXCEEDED));
    [apply stays_fail_tasks|apply stays_finish_tasks].
Qed.

Lemma stays_rpc_begin p w : R w (update_proxy gw_rpc_begin p w).
Proof. apply disc_quiet, quiet_update_proxy. intros. apply rtc_once, gs_rpc_begin. Qed.

Lemma stays_rpc_end p w : R w (update_proxy gw_rpc_end p w).
Proof. apply disc_quiet, quiet_update_proxy. intros. apply rtc_once, gs_rpc_end. Qed.

(** What a proxy does with a batch it does not hand back: the requests, the call and its
    results.  Only here are tasks completed. *)
Definition exchange (p : pref) (batch : list tref) (w : world) : world :=
  let w := start_tasks env batch w in
  let m := task_map batch w in
  let '(requests, w) := build_requests env batch w in
  let timeout := rpc_timeout requests in
  if timeout <=?q 0 then
    fail_tasks env "request deadline exceeded" (Some "deadline_exceeded"%string) batch w
  else process_rpc env p batch m requests timeout w.

(** The discipline covers the exchanges. *)
Class Exchanges : Prop := disc_exchange : ∀ p batch w, R w (exchange p batch w).

Context {HX : Exchanges}.

Lemma stays_gw_process p batch w : R w (gw_process env p batch w).
Proof.
  unfold gw_process. pose proof (stays_live_tasks batch w) as H.
  destruct (live_tasks env batch w) as [[|r rs] w1]; simpl in H; [done|].
  etrans; [exact H|]. etrans; [apply disc_pause|]. set (w2 := pause env w1).
  destruct (stop_flag w2 p); [apply stays_finish_tasks|]. apply (disc_exchange p (r :: rs) w2).
Qed.

Lemma alter_to_insert (f : GrpcWorker → GrpcWorker) p g w :
  w_proxies w !! p = Some g →
  set_proxies (<[p := f g]> (w_proxies w)) w = update_proxy f p w.
Proof.
  intros Hp. unfold update_proxy. f_equal. apply map_eq. intros q.
  destruct (decide (p = q)) as [<-|Hne].
  - by rewrite lookup_insert_eq, lookup_alter_eq, Hp.
  - by rewrite lookup_insert_ne, lookup_alter_ne.
Qed.

Lemma stays_gw_loop_turn p w : R w (gw_loop_turn env p w).2.
Proof.
  unfold gw_loop_turn. etrans; [apply disc_pause|]. set (w1 := pause env w).
  destruct (w_proxies w1 !! p) as [g|] eqn:Ep; [|reflexivity].
  destruct (gw_take g) as [[batch g']|] eqn:Et; [|reflexivity]. simpl.
  assert (R w1 (set_proxies (<[p := g']> (w_proxies w1)) w1)) as H1.
  { rewrite (alter_to_insert (λ _, g') p g w1 Ep). apply disc_quiet, quiet_update_proxy.
    intros g0 Hg0. simplify_eq. by eapply rtc_once, gs_take. }
  etrans; [exact H1|]. etrans; [apply stays_gw_process|].
  etrans; [apply disc_pause|]. apply disc_quiet, quiet_update_proxy.
  intros. apply rtc_once, gs_done.
Qed.

Lemma stays_begin_stop retry p w : R w (update_proxy (gw_begin_stop retry) p w).
Proof. apply disc_quiet, quiet_update_proxy. intros. apply rtc_once, gs_begin_stop. Qed.

Lemma stays_finish_batches p pending w : R w (finish_batches env p pending w).
Proof.
  revert w. induction pending as [|b pending IH]; intros w; simpl; [reflexivity|].
  etrans; [apply stays_finish_tasks|apply IH].
Qed.

Lemma stays_gw_stop_proxy retry p w : R w (gw_stop_proxy env retry p w).
Proof.
  unfold gw_stop_proxy. etrans; [apply disc_pause|].
  set (w0 := pause env w). etrans; [apply (stays_begin_stop retry p)|].
  set (w1 := update_proxy (gw_begin_stop retry) p w0). etrans; [apply disc_pause|].
  set (w2 := pause env w1). destruct (w_proxies w2 !! p) as [g|]; [|reflexivity].
  etrans; [apply disc_quiet, (quiet_update_proxy (λ g, (gw_take_pending g).2) p)|].
  { intros. apply rtc_once, gs_take_pending. }
  etrans; [apply stays_finish_batches|]. etrans; [apply disc_pause|].
  apply disc_quiet, quiet_update_proxy. intros. apply rtc_once, gs_remove_metrics.
Qed.

Lemma stays_submit_others p t ms batch w : R w (submit_others env p t ms batch w).2.
Proof.
  revert w. induction ms as [|[wid q] ms IH]; intros w; simpl; [reflexivity|].
  destruct (_ || _); [apply IH|]. pose proof (stays_try_submit_at q batch w) as H.
  destruct (try_submit_at env q batch w) as [[] w1]; simpl in *; [done|].
  etrans; [exact H|apply IH].
Qed.

Lemma stays_submit_compatible batch w : R w (submit_compatible env batch w).2.
Proof.
  unfold submit_compatible. etrans; [apply disc_pause|]. set (w1 := pause env w).
  destruct (head batch ≫= _) as [t|]; [|reflexivity].
  destruct (choose_proxy _ w1) as [p|]; [|apply stays_fail_tasks].
  etrans; [apply disc_quiet, quiet_bump_rr|]. pose proof (stays_try_submit_at p batch (bump_rr w1)) as H.
  destruct (try_submit_at env p batch (bump_rr w1)) as [[] w2]; simpl in *; [done|].
  etrans; [exact H|]. etrans; [apply disc_pause|]. set (w3 := pause env w2).
  pose proof (stays_submit_others p t (w_members w3) batch w3) as H3.
  destruct (submit_others _ _ _ _ _ w3) as [[q|] w4]; simpl in *; [done|].
  etrans; [exact H3|apply stays_fail_tasks].
Qed.

Lemma stays_group_tasks batch groups w : R w (group_tasks env batch groups w).2.
Proof.
  revert groups w. induction batch as [|r batch IH]; intros groups w; simpl; [reflexivity|].
  destruct (w_tasks w !! r) as [t|]; [|apply IH].
  destruct (task_kind t); try apply IH; (etrans; [apply stays_fail_task|apply IH]).
Qed.

Lemma stays_submit_groups groups w : R w (submit_groups env groups w).
Proof.
  revert w. induction groups as [|b groups IH]; intros w; simpl; [reflexivity|].
  etrans; [apply stays_submit_compatible|apply IH].
Qed.

Lemma stays_pool_submit_batch batch w : R w (pool_submit_batch env batch w).
Proof.
  unfold pool_submit_batch. pose proof (stays_group_tasks batch [] w) as H.
  destruct (group_tasks env batch [] w) as [groups w1]; simpl in H.
  etrans; [exact H|apply stays_submit_groups].
Qed.

(** *** Membership *)

Lemma members_ok_set ps ms wid p g :
  members_ok ps ms → ps !! p = Some g → gw_worker_id g = wid →
  members_ok ps (dict_set ms wid p).
Proof.
  intros [Hnd Hm] Hp Hw. split; [by apply dict_set_nodup|].
  intros k q [Heq|Hin]%dict_elem_set; [|by apply Hm]. simplify_eq. eauto.
Qed.

Lemma members_ok_del ps ms wid : members_ok ps ms → members_ok ps (dict_del ms wid).
Proof.
  intros [Hnd Hm]. split; [by apply dict_del_nodup|].
  intros k q [_ Hin]%dict_elem_del. by apply Hm.
Qed.

Lemma stays_add_member wid info w : R w (add_member wid info w).
Proof.
  unfold add_member. set (w1 := match dict_lookup (w_members w) wid with
                                | Some _ => w | None => _ end).
  assert (R w w1) as H1.
  { subst w1. destruct (dict_lookup (w_members w) wid) as [p|] eqn:El; [reflexivity|].
    set (p := fresh (dom (w_proxies w))).
    set (w0 := set_proxies (<[p := gw_init wid (wi_address info)]> (w_proxies w)) w).
    assert (w_proxies w !! p = None) as Hp by apply not_elem_of_dom, is_fresh.
    etrans; [apply disc_quiet, (quiet_new_proxy p (gw_init wid (wi_address info)) w Hp), gw_init_inv|].
    fold w0. apply disc_quiet, quiet_members. intros [_ Hm].
    eapply members_ok_set; [exact Hm|apply lookup_insert_eq|done]. }
  etrans; [exact H1|]. destruct (dict_lookup (w_members w1) wid) as [p|]; [|reflexivity].
  apply disc_quiet, quiet_update_proxy. intros. apply rtc_once, gs_set_state.
Qed.

Lemma stays_add_members snapshot w : R w (add_members snapshot w).
Proof.
  revert w. induction snapshot as [|[wid info] s IH]; intros w; simpl; [reflexivity|].
  etrans; [apply stays_add_member|apply IH].
Qed.

Lemma stays_drop_member wid w : R w (set_members (dict_del (w_members w) wid) w).
Proof. apply disc_quiet, quiet_members. intros [_ Hm]. by apply members_ok_del. Qed.

Lemma stays_remove_members gone w : R w (remove_members gone w).2.
Proof.
  revert w. induction gone as [|wid gone IH]; intros w; simpl; [reflexivity|].
  destruct (dict_lookup _ wid) as [p|]; [|apply IH].
  set (w1 := update_proxy (gw_begin_stop true) p _). specialize (IH w1).
  destruct (remove_members gone w1) as [ps w2]; simpl in *.
  etrans; [apply (stays_drop_member wid)|]. etrans; [|exact IH]. apply stays_begin_stop.
Qed.

Lemma stays_reconcile snapshot w : R w (reconcile snapshot w).2.
Proof.
  unfold reconcile. etrans; [apply (stays_add_members snapshot)|].
  set (w1 := add_members snapshot w).
  pose proof (stays_remove_members
    (filter (λ wid, wid ∉ dict_keys snapshot) (dict_keys (w_members w1))) w1) as H.
  destruct (remove_members _ w1) as [ps w2]; simpl in *.
  etrans; [exact H|apply disc_quiet, quiet_worker_count].
Qed.

Lemma stays_stop_proxies retry ps w : R w (stop_proxies env retry ps w).
Proof.
  revert w. induction ps as [|p ps IH]; intros w; simpl; [reflexivity|].
  etrans; [apply stays_gw_stop_proxy|apply IH].
Qed.

Lemma stays_update_workers snapshot w : R w (update_workers env snapshot w).
Proof.
  unfold update_workers. etrans; [apply disc_pause|]. set (w1 := pause env w).
  destruct (w_stopping w1); [reflexivity|].
  pose proof (stays_reconcile snapshot w1) as H.
  destruct (reconcile snapshot w1) as [ps w2]; simpl in *.
  etrans; [exact H|apply stays_stop_proxies].
Qed.

Lemma stays_begin_stop_all ps w : R w (begin_stop_all ps w).
Proof.
  revert w. induction ps as [|p ps IH]; intros w; simpl; [reflexivity|].
  etrans; [apply stays_begin_stop|apply IH].
Qed.

Lemma members_ok_nil ps : members_ok ps [].
Proof. split; [apply NoDup_nil; done|]. intros ? ? H%not_elem_of_nil. done. Qed.

Lemma stays_pool_stop w : R w (pool_stop env w).
Proof.
  unfold pool_stop. etrans; [apply disc_pause|]. set (w0 := pause env w).
  etrans; [apply disc_quiet, quiet_stopping|]. set (w1 := set_stopping w0).
  etrans; [apply disc_quiet, (quiet_members []); intros; apply members_ok_nil|].
  etrans; [apply disc_quiet, (quiet_worker_count 0)|].
  etrans; [apply (stays_begin_stop_all (dict_values (w_members w1)))|].
  etrans; [apply disc_pause|apply stays_stop_proxies].
Qed.

End discipline.

(** ** Every operation respects [rely] *)

(** The method keeps to what other threads assume, wherever it is started. *)
Definition guaranteed (method : world → world) : Prop := ∀ w, rely w (method w).

Section guarantee.
Context (env : environment) `{!WellBehaved env}.

Lemma rely_pause w : rely w (pause env w).
Proof. unfold pause. etrans; [apply rely_bump_pauses|apply env_rely]. Qed.

#[export] Instance rely_discipline : Discipline env rely.
Proof. split; [apply _|apply rely_pause|by intros w1 w2 []]. Qed.

Lemma rely_apply_results m results w : rely w (apply_results env m results w).1.
Proof.
  revert w. induction results as [|res results IH]; intros w; simpl; [reflexivity|].
  destruct (dict_lookup m _) as [r|]; [|apply IH].
  destruct (rs_success res); [|etrans; [apply (stays_fail_task env rely)|apply IH]].
  destruct (json_loads env _) as [v|msg]; [|reflexivity].
  etrans; [apply rely_pause|]. set (w1 := pause env w).
  set (w2 := update_task _ r w1).
  assert (rely w1 w2) as H2.
  { apply rely_update_task. intros t. by exists [OpDone (w_wall w1) v]. }
  etrans; [exact H2|].
  destruct (match w_tasks w2 !! r with Some t => _ | None => _ end); [|apply IH].
  etrans; [apply rely_count_completion|apply IH].
Qed.


#[export] Instance rely_exchanges : Exchanges env rely.
Proof.
  intros p batch w. unfold exchange. etrans; [apply (stays_start_tasks env rely batch)|].
  set (w1 := start_tasks env batch w). pose proof (stays_build_requests env rely batch w1) as H1.
  destruct (build_requests env batch w1) as [rqs w2]; simpl in H1. etrans; [exact H1|].
  destruct (_ <=?q _); [apply (stays_fail_tasks env rely)|].
  unfold process_rpc. etrans; [apply (stays_rpc_begin env rely p)|].
  etrans; [apply rely_pause|]. etrans; [apply (stays_rpc_end env rely p)|].
  set (w3 := update_proxy gw_rpc_end p _).
  destruct (rpc env _ _ _ _) as [results|code msg|ve msg].
  - pose proof (rely_apply_results (task_map batch w1) results w3) as H.
    destruct (apply_results env _ results w3) as [w4 [msg|]]; simpl in *;
      (etrans; [exact H|]); [apply (stays_finish_tasks env rely)|apply (stays_fail_omitted env rely)].
  - apply (stays_process_rpc_error env rely).
  - apply (stays_finish_tasks env rely).
Qed.

(** C30. Whatever the other threads do within the interference relation, every
    method a thread of the dispatch path runs stays within it too: task objects
    and proxies only move along their own locked operations, no proxy ever exceeds
    its two outstanding batches, the accepted batches are never rewritten, and the
    pool does not leave its stopping state.  A schedule built from these methods
    is therefore one the other methods may assume. *)
Theorem dispatch_guarantee (p : pref) (batch : list tref) (r : tref)
    (wid : string) (snapshot : list (string * WorkerInfo)) (retry : bool) :
  guaranteed (gw_submit env p batch) ∧
  guaranteed (λ w, (gw_loop_turn env p w).2) ∧
  guaranteed (gw_stop_proxy env retry p) ∧
  guaranteed (λ w, (try_resubmit env r wid w).2) ∧
  guaranteed (pool_submit_batch env batch) ∧
  guaranteed (update_workers env snapshot) ∧
  guaranteed (pool_stop env).
Proof.
  split_and!; intros w; [apply (stays_gw_submit _ rely)|apply (stays_gw_loop_turn _ rely)|apply (stays_gw_stop_proxy _ rely)|
    apply (stays_try_resubmit _ rely)|apply (stays_pool_submit_batch _ rely)|apply (stays_update_workers _ rely)|
    apply (stays_pool_stop _ rely)].
Qed.
End guarantee.

(** ** A concrete environment

    Another thread drains the proxy [0] at the third scheduling point of every
    run; the workers answer each request with the JSON text ["1"], which the codec
    reads as the number one. *)

Definition sample_env : environment :=
  mkEnvironment
    (λ n w, if decide (n = 2%nat) then update_proxy (gw_set_routing_state DRAINING) 0%nat w else w)
    (λ _ _ rqs _, RpcOk (map (λ rq, mkTaskResult (rq_task_id rq) true "1" EmptyString EmptyString) rqs))
    (λ _, "{}"%string)
    (λ s, if decide (s = "1"%string) then inl (PyInt 1) else inr "not JSON"%string)
    None.

#[export] Instance sample_env_well_behaved : WellBehaved sample_env.
Proof.
  intros n w. simpl. case_decide; [|reflexivity].
  apply rely_update_proxy. intros. apply rtc_once, gs_set_state.
Qed.

(** Two ready workers and three pending tasks; the third runs a model. *)
Definition pool_task (id : string) (kind : string) : Task :=
  new_task (PyDict [("kind"%string, PyStr kind)]) id 0 (Some 100%Q).

Definition sample_world : world :=
  mkWorld (<[0%nat := pool_task "a" "simulation"]>
           (<[1%nat := pool_task "b" "simulation"]>
            (<[2%nat := pool_task "c" "synthx_v73"]> ∅)))
    (<[0%nat := gw_init "w0" "h0:1"]> (<[1%nat := gw_init "w1" "h1:1"]> ∅))
    [("w0"%string, 0%nat); ("w1"%string, 1%nat)] false 0 2 0 0 0 0 0%nat [].

Lemma dispatch_guarantee_witness :
  rely sample_world (pool_submit_batch sample_env [0; 1; 2]%nat sample_world).
Proof.
  apply (dispatch_guarantee sample_env 0%nat [0; 1; 2]%nat 0%nat "w0" [] true).
Defined.
