(* ===== verification/GrpcDelivery.v ===== *)
(** Delivery on the gRPC path: no task a method is responsible for is lost, a
    retry reaches another capable worker at most once, and membership follows the
    registry's snapshots — all of it while other threads interfere. *)
From S2P Require Import Prelude PyVal Tasks GrpcWorker World GrpcPool GrpcPoolFacts.

(** ** What a task keeps under interference *)

(** A batch with the task in it was accepted by some proxy after [w0]. *)
Definition accepted_since (w0 w : world) (r : tref) : Prop :=
  ∃ more q batch, w_trace w = w_trace w0 ++ more ∧ (q, batch) ∈ more ∧ r ∈ batch.

(** Responsibility for the task is discharged. *)
Definition handled (w0 w : world) (r : tref) : Prop :=
  settled (w_tasks w) r ∨ accepted_since w0 w r.

Lemma accepted_rely w0 w1 w2 r :
  rely w1 w2 → accepted_since w0 w1 r → accepted_since w0 w2 r.
Proof.
  intros [H _] (more & q & b & E & Hin & Hr). destruct (le_trace _ _ H) as [m2 E2].
  exists (more ++ m2), q, b. rewrite E2, E, app_assoc. set_solver.
Qed.

Lemma accepted_before w0 w1 w2 r :
  rely w0 w1 → accepted_since w1 w2 r → accepted_since w0 w2 r.
Proof.
  intros [H _] (more & q & b & E & Hin & Hr). destruct (le_trace _ _ H) as [m2 E2].
  exists (m2 ++ more), q, b. rewrite E, E2, app_assoc. set_solver.
Qed.

Lemma handled_rely w0 w1 w2 r : rely w1 w2 → handled w0 w1 r → handled w0 w2 r.
Proof. intros H [?|?]; [left; by eapply rely_settled|right; by eapply accepted_rely]. Qed.

Lemma handled_before w0 w1 w2 r : rely w0 w1 → handled w1 w2 r → handled w0 w2 r.
Proof. intros H [?|?]; [by left|right; by eapply accepted_before]. Qed.

Lemma run_ops_count_le t os : retry_count t <= retry_count (run_ops t os).
Proof.
  revert t. induction os as [|o os IH]; intros t; simpl; [lia|].
  change (run_ops t (o :: os)) with (run_ops (apply_op t o) os).
  etrans; [|apply IH]. destruct o; unfold apply_op; simpl;
    unfold mark_processing, mark_done, mark_failed, try_reserve_retry; cases; simpl; lia.
Qed.

(** The identity and input of a task never change. *)
Lemma rely_task_frame w1 w2 r t :
  rely w1 w2 → w_tasks w1 !! r = Some t →
  ∃ t', w_tasks w2 !! r = Some t' ∧ task_id t' = task_id t ∧
        input_data t' = input_data t ∧ (is_terminal t = true → t' = t) ∧
        retry_count t <= retry_count t'.
Proof.
  intros [H _] Ht. destruct (le_tasks _ _ H r t Ht) as [os Ho].
  exists (run_ops t os). destruct (run_ops_frame t os) as (H1 & H2 & ?).
  split_and!; try done; [apply run_ops_terminal|].
  apply run_ops_count_le.
Qed.

Lemma rely_model w1 w2 r t :
  rely w1 w2 → w_tasks w1 !! r = Some t →
  ∃ t', w_tasks w2 !! r = Some t' ∧ is_model_task t' = is_model_task t.
Proof.
  intros H Ht. destruct (rely_task_frame _ _ _ _ H Ht) as (t' & Ht' & _ & Hi & _).
  exists t'. split; [done|]. unfold is_model_task. by rewrite Hi.
Qed.

(** The proxy accepted the batch, and was ready and had room when it did. *)
Definition accepted_by (q : pref) (batch : list tref) (w w' : world) : Prop :=
  ∃ w1 g, rely w w1 ∧ rely w1 w' ∧ w_proxies w1 !! q = Some g ∧ gw_is_ready g = true ∧
    gw_outstanding g < 2 ∧ ∃ more, w_trace w' = w_trace w1 ++ (q, batch) :: more.

Lemma accepted_by_rely q batch w0 w w' w2 :
  rely w0 w → rely w' w2 → accepted_by q batch w w' → accepted_by q batch w0 w2.
Proof.
  intros H0 H2 (w1 & g & Ha & Hb & Hg & Hr & Ho & more & E).
  exists w1, g. destruct (le_trace _ _ (proj1 H2)) as [m2 E2].
  split_and!; try done; [by etrans|by etrans|].
  exists (more ++ m2). by rewrite E2, E, <- app_assoc.
Qed.

Lemma accepted_by_since q batch w w' r :
  accepted_by q batch w w' → r ∈ batch → accepted_since w w' r.
Proof.
  intros (w1 & g & Ha & _ & _ & _ & _ & more & E) Hr.
  destruct (le_trace _ _ (proj1 Ha)) as [m1 E1].
  exists (m1 ++ (q, batch) :: more), q, batch. rewrite E, E1, <- app_assoc.
  split_and!; [done|set_solver|done].
Qed.

Section delivery.
Context (env : environment) `{!WellBehaved env}.

Lemma fail_task_settled err code r w :
  is_Some (w_tasks w !! r) → settled (w_tasks (fail_task env err code r w)) r.
Proof.
  intros Hr. unfold fail_task. apply settled_alter; [apply mark_failed_terminal|].
  eapply rely_task; [by apply rely_pause|done].
Qed.

Lemma fail_tasks_settled err code batch w r :
  r ∈ batch → is_Some (w_tasks w !! r) → settled (w_tasks (fail_tasks env err code batch w)) r.
Proof.
  revert w. induction batch as [|r' batch IH]; intros w; [set_solver|].
  intros [<-|Hin]%elem_of_cons Hr; simpl.
  - eapply rely_settled; [apply (stays_fail_tasks _ rely)|]. by apply fail_task_settled.
  - apply IH; [done|]. eapply rely_task; [|done]. by apply (stays_fail_task _ rely).
Qed.

(** ** A proxy that accepts a batch *)

Lemma try_submit_at_spec p batch w ok w' :
  try_submit_at env p batch w = (ok, w') →
  if ok then
    ∃ w1 g, rely w w1 ∧ rely w1 w' ∧ w_proxies w1 !! p = Some g ∧ gw_is_ready g = true ∧
      gw_outstanding g < 2 ∧ w_trace w' = w_trace w1 ++ [(p, batch)]
  else w_trace w' = w_trace (pause env w) ∧ w_tasks w' = w_tasks (pause env w).
Proof.
  intros E. pose proof (stays_try_submit_at env rely p batch w) as Hr.
  unfold try_submit_at in *.
  destruct (w_proxies (pause env w) !! p) as [g|] eqn:Ep; [|by simplify_eq].
  pose proof (gw_try_submit_spec batch g) as Hs.
  destruct (gw_try_submit batch g) as [b g']. simplify_eq. destruct ok; [|done].
  destruct Hs as (H1 & H2 & _). exists (pause env w), g. split_and!; try done.
  - by apply rely_pause.
  - etrans; [apply rely_update_proxy|apply rely_log]. intros. apply rtc_once, gs_try_submit.
Qed.

Lemma try_submit_accepted p batch w w' :
  try_submit_at env p batch w = (true, w') → accepted_by p batch w w'.
Proof.
  intros E. destruct (try_submit_at_spec _ _ _ _ _ E) as (w1 & g & ? & ? & ? & ? & ? & Ht).
  exists w1, g. split_and!; try done. by exists [].
Qed.

Lemma submit_first_accepted ps batch w q w' :
  submit_first env ps batch w = (Some q, w') → q ∈ ps ∧ accepted_by q batch w w'.
Proof.
  revert w. induction ps as [|p ps IH]; intros w E; simpl in E; [done|].
  pose proof (stays_try_submit_at env rely p batch w) as Hr.
  destruct (try_submit_at env p batch w) as [[] w1] eqn:Et; simplify_eq/=.
  - split; [set_solver|]. by apply try_submit_accepted.
  - destruct (IH _ E) as [Hin Ha]. split; [set_solver|].
    eapply accepted_by_rely; [exact Hr|reflexivity|exact Ha].
Qed.

(** ** Handing a task over *)

Lemma member_proxies_elem w q g :
  (q, g) ∈ member_proxies w → w_proxies w !! q = Some g ∧ ∃ wid, (wid, q) ∈ w_members w.
Proof.
  unfold member_proxies. rewrite list_elem_of_omap. intros ([wid p] & Hin & Hq).
  destruct (w_proxies w !! p) as [g'|] eqn:Eg; simplify_eq/=. eauto.
Qed.

Lemma retry_candidates_elem t failed w q :
  q ∈ retry_candidates env t failed w →
  ∃ g, w_proxies w !! q = Some g ∧ gw_worker_id g ≠ failed ∧ gw_is_ready g = true ∧
    supports env (gw_worker_id g) t = true.
Proof.
  unfold retry_candidates. intros ([q' g] & -> & Hin)%list_elem_of_fmap.
  apply list_elem_of_filter in Hin as [Hf [Hp _]%member_proxies_elem]. simpl in *.
  rewrite !andb_true_iff, negb_true_iff, bool_decide_eq_false in Hf.
  exists g. tauto.
Qed.

Lemma reserve_count mono t :
  (try_reserve_retry mono t).1 = true → 0 <= retry_count t →
  retry_count (try_reserve_retry mono t).2 = retry_count t + 1.
Proof.
  intros Hg Hc. destruct (run_op_count t (OpReserve mono) Hc) as [H _]. simpl in H.
  by rewrite Hg in H.
Qed.

(** What a successful hand-over did, in order: candidates chosen at [w1], the
    retry reserved at [w2], the batch accepted after it. *)
Record handed_over (r : tref) (failed : string) (q : pref) (w w' : world) : Prop := {
  ho_target : ∃ w1 g t, rely w w1 ∧ rely w1 w' ∧ w_stopping w1 = false ∧
    w_tasks w1 !! r = Some t ∧ w_proxies w1 !! q = Some g ∧ gw_worker_id g ≠ failed ∧
    supports env (gw_worker_id g) t = true;
  ho_reserved : ∃ w2 t, rely w w2 ∧ rely w2 w' ∧ w_tasks w2 !! r = Some t ∧
    (try_reserve_retry (w_mono w2) t).1 = true ∧
    ∃ t', w_tasks w' !! r = Some t' ∧ (0 <= retry_count t → 1 <= retry_count t');
  ho_accepted : accepted_by q [r] w w';
}.

Lemma update_task_lookup f r w t :
  w_tasks w !! r = Some t → w_tasks (update_task f r w) !! r = Some (f t).
Proof. intros Ht. simpl. by rewrite lookup_alter_eq, Ht. Qed.

Lemma try_resubmit_handed r failed w q w' :
  try_resubmit env r failed w = (Some q, w') → handed_over r failed q w w'.
Proof.
  unfold try_resubmit. intros E.
  pose proof (rely_pause env w) as H1. set (w1 := pause env w) in *.
  destruct (w_stopping w1) eqn:Es; [done|].
  destruct (w_tasks w1 !! r) as [t|] eqn:Et; [|done].
  destruct (retry_candidates env t failed w1) as [|c cs] eqn:Ec; [done|].
  rewrite <- Ec in E. set (cands := retry_candidates env t failed w1) in *.
  pose proof (rely_pause env w1) as H2. set (w2 := pause env w1) in *.
  destruct (rely_task_frame _ _ _ _ H2 Et) as (t2 & Et2 & _). rewrite Et2 in E.
  set (f := λ t : Task, (try_reserve_retry (w_mono w2) t).2) in *.
  assert (rely w2 (update_task f r w2)) as H3.
  { apply rely_update_task. intros t0. by exists [OpReserve (w_mono w2)]. }
  pose proof (update_task_lookup f r w2 t2 Et2) as Et3.
  set (w3 := update_task f r w2) in *.
  destruct (try_reserve_retry (w_mono w2) t2).1 eqn:Eg; simpl in E; [|done].
  pose proof (rely_pause env w3) as H4. set (w4 := pause env w3) in *.
  pose proof (stays_submit_first env rely
    (filter (λ p, is_busy_at w4 p = false) cands ++ filter (λ p, is_busy_at w4 p = true) cands)
    [r] w4) as H5.
  destruct (submit_first _ _ _ w4) as [[q'|] w5] eqn:Ef; simpl in *; [|done].
  injection E as <- <-. apply submit_first_accepted in Ef as [Hq Ha].
  assert (rely w5 (count_submission w5)) as H6 by apply rely_count_submission.
  assert (rely w4 (count_submission w5)) as H46 by (by etrans).
  assert (rely w3 (count_submission w5)) as H36 by (by etrans).
  assert (rely w2 (count_submission w5)) as H26 by (by etrans).
  split.
  - assert (q' ∈ cands) as Hc.
    { apply elem_of_app in Hq as [Hq|Hq]; by apply list_elem_of_filter in Hq as [_ ?]. }
    destruct (retry_candidates_elem _ _ _ _ Hc) as (g & ? & ? & ? & ?).
    exists w1, g, t. split_and!; try done. by etrans.
  - exists w2, t2. split_and!; try done; [by etrans|].
    destruct (rely_task_frame _ _ _ _ H36 Et3) as (t' & Ht' & _ & _ & _ & Hc).
    exists t'. split; [done|]. intros Hn. unfold f in Hc.
    rewrite (reserve_count _ _ Eg Hn) in Hc. lia.
  - eapply accepted_by_rely; [|exact H6|exact Ha]. etrans; [exact H1|].
    etrans; [exact H2|]. etrans; [exact H3|exact H4].
Qed.

(** Once retried, never again. *)
Lemma try_resubmit_refused r failed w t :
  w_tasks w !! r = Some t → 1 <= retry_count t → (try_resubmit env r failed w).1 = None.
Proof.
  intros Ht Hc. unfold try_resubmit. pose proof (rely_pause env w) as H1.
  set (w1 := pause env w) in *. destruct (w_stopping w1); [done|].
  destruct (rely_task_frame _ _ _ _ H1 Ht) as (t1 & Et1 & _ & _ & _ & Hc1). rewrite Et1.
  destruct (retry_candidates env t1 failed w1) as [|c cs]; [done|].
  pose proof (rely_pause env w1) as H2. set (w2 := pause env w1) in *.
  destruct (rely_task_frame _ _ _ _ H2 Et1) as (t2 & Et2 & _ & _ & _ & Hc2). rewrite Et2.
  destruct (try_reserve_retry (w_mono w2) t2).1 eqn:Eg; [|done].
  apply try_reserve_retry_true in Eg as (_ & _ & ?). lia.
Qed.

(** C5. A task is handed to another worker at most once, and soundly: when
    [try_resubmit] names a target, the target was a ready member with room for the
    batch, is not the failed worker, can execute the task's kind, and the task's
    single retry was granted to this call; from then on, whatever other threads
    do, every further attempt to hand the task over is refused. *)
Theorem handover_sound_and_single (r : tref) (failed failed' : string) (q : pref)
    (w w' w'' : world) (t0 : Task) :
  w_tasks w !! r = Some t0 → 0 <= retry_count t0 →
  try_resubmit env r failed w = (Some q, w') → rely w' w'' →
  handed_over r failed q w w' ∧ (try_resubmit env r failed' w'').1 = None.
Proof.
  intros Ht Hc E Hr. pose proof (try_resubmit_handed _ _ _ _ _ E) as Hh.
  split; [done|]. destruct (ho_reserved _ _ _ _ _ Hh) as (w2 & t & H2 & _ & Et & _ & t' & Et' & Hn).
  destruct (rely_task_frame _ _ _ _ H2 Ht) as (t1 & Et1 & _ & _ & _ & Hc1).
  destruct (rely_task_frame _ _ _ _ Hr Et') as (t'' & Et'' & _ & _ & _ & Hc').
  apply (try_resubmit_refused r failed' w'' t''); [done|].
  simplify_eq. assert (1 <= retry_count t') by (apply Hn; lia). lia.
Qed.
End delivery.

Lemma handover_sound_and_single_witness :
  (try_resubmit sample_env 0%nat "w0" sample_world).1 = Some 1%nat ∧
  (try_resubmit sample_env 0%nat "w0" (try_resubmit sample_env 0%nat "w0" sample_world).2).1
    = None.
Proof.
  split; [reflexivity|].
  apply (handover_sound_and_single sample_env 0%nat "w0" "w0" 1%nat sample_world
    (try_resubmit sample_env 0%nat "w0" sample_world).2 _ (pool_task "a" "simulation"));
    [reflexivity|vm_compute; discriminate|vm_compute; reflexivity|reflexivity].
Defined.
