(* ===== verification/GrpcSettle.v ===== *)
(** Responsibility for accepted batches: processing a batch, and stopping a proxy
    that still holds some, leave every task settled or handed to another worker. *)
From S2P Require Import Prelude PyVal Tasks GrpcWorker World GrpcPool GrpcPoolFacts GrpcDelivery.

(** The task is not one of the model kinds, so it may be repeated. *)
Definition repeatable (w : world) (r : tref) : Prop :=
  ∃ t, w_tasks w !! r = Some t ∧ is_model_task t = false.

(** Settled, or accepted again — which only a repeatable task can be. *)
Definition finished (w0 w : world) (r : tref) : Prop :=
  settled (w_tasks w) r ∨ (accepted_since w0 w r ∧ repeatable w r).

Lemma repeatable_rely w1 w2 r : rely w1 w2 → repeatable w1 r → repeatable w2 r.
Proof.
  intros H (t & Ht & Hm). destruct (rely_model _ _ _ _ H Ht) as (t' & Ht' & Hm').
  exists t'. split; [done|congruence].
Qed.

Lemma finished_rely w0 w1 w2 r : rely w1 w2 → finished w0 w1 r → finished w0 w2 r.
Proof.
  intros H [?|[? ?]]; [left; by eapply rely_settled|right].
  split; [by eapply accepted_rely|by eapply repeatable_rely].
Qed.

Lemma finished_before w0 w1 w2 r : rely w0 w1 → finished w1 w2 r → finished w0 w2 r.
Proof. intros H [?|[? ?]]; [by left|right; split; [by eapply accepted_before|done]]. Qed.

Lemma finished_model w0 w r t :
  w_tasks w !! r = Some t → is_model_task t = true → finished w0 w r → settled (w_tasks w) r.
Proof. intros Ht Hm [?|[_ (t' & Ht' & Hm')]]; [done|]. congruence. Qed.

(** The response of a worker has a result for every request of the call. *)
Definition complete_rpc (env : environment) : Prop :=
  ∀ n wid rqs timeout results, rpc env n wid rqs timeout = RpcOk results →
    ∀ rq, rq ∈ rqs → ∃ res, res ∈ results ∧ rs_task_id res = rq_task_id rq.

(** The tasks of the batch exist and have distinct identifiers. *)
Definition batch_ok (batch : list tref) (w : world) : Prop :=
  (∀ r, r ∈ batch → is_Some (w_tasks w !! r)) ∧
  ∀ r1 r2 t1 t2, r1 ∈ batch → r2 ∈ batch →
    w_tasks w !! r1 = Some t1 → w_tasks w !! r2 = Some t2 → task_id t1 = task_id t2 → r1 = r2.

Lemma batch_ok_rely w1 w2 batch : rely w1 w2 → batch_ok batch w1 → batch_ok batch w2.
Proof.
  intros H [Hs Hid]. split; [intros r Hr; eapply rely_task; eauto|].
  intros r1 r2 t1 t2 Hr1 Hr2 Ht1 Ht2 E.
  destruct (Hs r1 Hr1) as [u1 Hu1], (Hs r2 Hr2) as [u2 Hu2].
  destruct (rely_task_frame _ _ _ _ H Hu1) as (v1 & Hv1 & E1 & _).
  destruct (rely_task_frame _ _ _ _ H Hu2) as (v2 & Hv2 & E2 & _).
  simplify_eq. apply (Hid r1 r2 u1 u2); congruence.
Qed.

Lemma batch_ok_incl w batch batch' :
  (∀ r, r ∈ batch' → r ∈ batch) → batch_ok batch w → batch_ok batch' w.
Proof. intros Hi [Hs Hid]. split; eauto. Qed.

Lemma task_map_lookup batch w r t :
  batch_ok batch w → r ∈ batch → w_tasks w !! r = Some t →
  dict_lookup (task_map batch w) (task_id t) = Some r.
Proof.
  unfold task_map. induction batch as [|x batch IH] using rev_ind; [set_solver|].
  intros Hok Hr Ht. rewrite foldl_snoc.
  destruct (proj1 Hok x) as [tx Htx]; [set_solver|]. rewrite Htx.
  destruct (decide (r = x)) as [->|Hne].
  - simplify_eq. apply dict_lookup_set_eq.
  - rewrite dict_lookup_set_ne.
    + apply IH; [|set_solver|done]. eapply batch_ok_incl; [|exact Hok]. set_solver.
    + intros E. apply Hne. symmetry. eapply (proj2 Hok x r tx t); set_solver.
Qed.

Section settle.
Context (env : environment) `{!WellBehaved env}.

Lemma finish_or_retry_finished p err allowed r w :
  is_Some (w_tasks w !! r) → finished w (finish_or_retry env p err allowed r w) r.
Proof.
  intros [t Ht]. unfold finish_or_retry. rewrite Ht.
  destruct (is_terminal t) eqn:Em; [left; by exists t|].
  destruct (is_expired _ t); [left; by apply fail_task_settled|].
  destruct (is_model_task t) eqn:Ek; [left; by apply fail_task_settled|].
  destruct allowed; [|left; by apply fail_task_settled].
  pose proof (stays_try_resubmit env rely r (proxy_id w p) w) as Hr.
  destruct (try_resubmit env r _ w) as [[q|] w1] eqn:E; simpl in *.
  - right. apply try_resubmit_handed in E; [|done]. split.
    + eapply accepted_by_since; [apply (ho_accepted _ _ _ _ _ _ E)|set_solver].
    + eapply repeatable_rely; [exact Hr|]. by exists t.
  - left. apply fail_task_settled; [done|]. eapply rely_task; eauto.
Qed.

Lemma finish_tasks_finished p err allowed batch w r :
  r ∈ batch → is_Some (w_tasks w !! r) →
  finished w (finish_tasks env p err allowed batch w) r.
Proof.
  revert w. induction batch as [|r' batch IH]; intros w; [set_solver|].
  intros [<-|Hin]%elem_of_cons Hr; simpl.
  - eapply finished_rely; [by apply (stays_finish_tasks _ rely)|]. by apply finish_or_retry_finished.
  - pose proof (stays_finish_or_retry env rely p err (allowed w) r' w) as H1.
    eapply finished_before; [exact H1|]. apply IH; [done|]. by eapply rely_task.
Qed.

Lemma live_tasks_spec batch w :
  let '(rs, w') := live_tasks env batch w in
  (∀ r, r ∈ rs → r ∈ batch) ∧
  ∀ r, r ∈ batch → is_Some (w_tasks w !! r) → r ∈ rs ∨ settled (w_tasks w') r.
Proof.
  revert w. induction batch as [|x batch IH]; intros w; simpl; [set_solver|].
  pose proof (rely_pause env w) as H1. set (w1 := pause env w) in *.
  assert (∀ w2 : world, rely w1 w2 →
    (is_Some (w_tasks w !! x) → settled (w_tasks w2) x) →
    let '(rs, w') := live_tasks env batch w2 in
    (∀ r, r ∈ rs → r ∈ x :: batch) ∧
    ∀ r, r ∈ x :: batch → is_Some (w_tasks w !! r) → r ∈ rs ∨ settled (w_tasks w') r) as Hskip.
  { intros w2 H2 Hx. specialize (IH w2). pose proof (stays_live_tasks env rely batch w2) as H3.
    destruct (live_tasks env batch w2) as [rs w']; simpl in *. destruct IH as [Hi Hs].
    split; [set_solver|]. intros r [->|Hr]%elem_of_cons Hsome.
    - right. eapply rely_settled; [exact H3|auto].
    - apply Hs; [done|]. eapply rely_task; [|exact Hsome]. by etrans. }
  destruct (w_tasks w1 !! x) as [t|] eqn:Et.
  2:{ apply Hskip; [reflexivity|]. intros Hx.
      destruct (rely_task _ _ x H1 Hx) as [? ?]. congruence. }
  destruct (is_terminal t) eqn:Em.
  { apply Hskip; [reflexivity|]. intros _. by exists t. }
  destruct (is_expired _ t).
  { apply Hskip; [by apply (stays_fail_task _ rely)|]. intros _. by apply fail_task_settled. }
  specialize (IH w1). destruct (live_tasks env batch w1) as [rs w']. destruct IH as [Hi Hs].
  split; [set_solver|]. intros r [->|Hr]%elem_of_cons Hsome; [left; set_solver|].
  destruct (Hs r Hr) as [?|?]; [by eapply rely_task|left; set_solver|by right].
Qed.

Lemma build_requests_complete batch w r t :
  r ∈ batch → w_tasks w !! r = Some t →
  ∃ rq, rq ∈ (build_requests env batch w).1 ∧ rq_task_id rq = task_id t.
Proof.
  revert w t. induction batch as [|x batch IH]; intros w t Hr Ht; [set_solver|]. simpl.
  destruct (rely_task_frame _ _ _ _ (rely_pause env w) Ht) as (t' & Ht' & Hid & _).
  apply elem_of_cons in Hr as [->|Hr].
  - rewrite Ht'. destruct (build_requests env batch _) as [rqs w']. simpl.
    eexists. split; [by left|done].
  - destruct (w_tasks (pause env w) !! x) as [tx|].
    + destruct (IH (pause env w) t' Hr Ht') as (rq & Hin & E).
      destruct (build_requests env batch _) as [rqs w']. simpl in *.
      exists rq. split; [by right|congruence].
    + destruct (IH (pause env w) t' Hr Ht') as (rq & Hin & E). exists rq. split; [done|congruence].
Qed.

Lemma apply_results_settles m results w res r :
  (apply_results env m results w).2 = None → res ∈ results →
  dict_lookup m (rs_task_id res) = Some r → is_Some (w_tasks w !! r) →
  settled (w_tasks (apply_results env m results w).1) r.
Proof.
  revert w. induction results as [|x results IH]; intros w; [set_solver|].
  intros E Hin Hm Hsome. simpl in *. apply elem_of_cons in Hin as [<-|Hin].
  - rewrite Hm in *. destruct (rs_success res).
    + destruct (json_loads env _) as [v|msg]; [|done]. simpl in *.
      set (w2 := update_task (mark_done (w_wall (pause env w)) v) r (pause env w)) in *.
      eapply rely_settled; [by apply rely_apply_results|].
      assert (settled (w_tasks w2) r) as H2.
      { apply settled_alter; [apply mark_done_terminal|].
        eapply rely_task; [by apply rely_pause|done]. }
      destruct (match w_tasks w2 !! r with Some t => _ | None => _ end); done.
    + eapply rely_settled; [by apply rely_apply_results|]. by apply fail_task_settled.
  - destruct (dict_lookup m (rs_task_id x)) as [y|]; [|by apply IH].
    destruct (rs_success x).
    + destruct (json_loads env _) as [v|msg]; [|done]. apply IH; try done.
      set (w2 := update_task _ y (pause env w)).
      assert (rely w w2) as H2.
      { etrans; [by apply rely_pause|]. apply rely_update_task.
        intros t. by exists [OpDone (w_wall (pause env w)) v]. }
      destruct (match w_tasks w2 !! y with Some t => _ | None => _ end);
        (eapply rely_task; [etrans; [exact H2|]; (apply rely_count_completion || reflexivity)|done]).
    + apply IH; try done. eapply rely_task; [by apply (stays_fail_task _ rely)|done].
Qed.

Lemma fail_omitted_settles batch w r t :
  r ∈ batch → w_tasks w !! r = Some t → is_model_task t = true →
  settled (w_tasks (fail_omitted env batch w)) r.
Proof.
  revert w t. induction batch as [|x batch IH]; intros w t; [set_solver|].
  intros [<-|Hin]%elem_of_cons Ht Hm; simpl.
  - rewrite Ht, Hm. simpl. destruct (is_terminal t) eqn:Em; simpl.
    + eapply rely_settled; [by apply (stays_fail_omitted _ rely)|]. by exists t.
    + eapply rely_settled; [by apply (stays_fail_omitted _ rely)|]. by apply fail_task_settled.
  - assert (∀ w', rely w w' → settled (w_tasks (fail_omitted env batch w')) r) as Hgo.
    { intros w' H. destruct (rely_model _ _ _ _ H Ht) as (t' & Ht' & E).
      apply (IH w' t'); congruence. }
    destruct (w_tasks w !! x) as [tx|]; [|apply Hgo; reflexivity].
    destruct (_ && _); apply Hgo; [by apply (stays_fail_task _ rely)|reflexivity].
Qed.

(** ** The RPC and its outcomes *)

Lemma process_rpc_error_finished p batch code msg w r :
  r ∈ batch → is_Some (w_tasks w !! r) →
  finished w (process_rpc_error env p batch code msg w) r.
Proof.
  intros Hr Hs. unfold process_rpc_error. destruct (decide (code = DEADLINE_EXCEEDED)).
  - left. by apply fail_tasks_settled.
  - by apply finish_tasks_finished.
Qed.

Lemma process_rpc_finished p batch m rqs timeout w r t :
  r ∈ batch → w_tasks w !! r = Some t →
  (is_model_task t = true ∨
   (complete_rpc env ∧ dict_lookup m (task_id t) = Some r ∧
    ∃ rq, rq ∈ rqs ∧ rq_task_id rq = task_id t)) →
  finished w (process_rpc env p batch m rqs timeout w) r.
Proof.
  intros Hr Ht Hc. unfold process_rpc.
  pose proof ((stays_rpc_begin _ rely) p w) as H1.
  set (w1 := update_proxy gw_rpc_begin p w) in *.
  pose proof (rely_pause env w1) as H2. set (w2 := pause env w1) in *.
  pose proof ((stays_rpc_end _ rely) p w2) as H3.
  set (w3 := update_proxy gw_rpc_end p w2) in *.
  assert (rely w w3) as H by (etrans; [exact H1|]; etrans; [exact H2|exact H3]).
  clearbody w3. clear H2 H3. eapply finished_before; [exact H|].
  destruct (rely_model _ _ _ _ H Ht) as (t3 & Ht3 & Hm3).
  destruct (rpc env _ _ _ _) as [results|code msg|ve msg] eqn:Erpc.
  - pose proof (rely_apply_results env m results w3) as H4.
    pose proof (apply_results_settles m results w3) as Hs.
    destruct (apply_results env m results w3) as [w4 [msg|]]; simpl in *.
    + eapply finished_before; [exact H4|]. apply finish_tasks_finished; [done|].
      by eapply rely_task.
    + destruct (rely_model _ _ _ _ H4 Ht3) as (t4 & Ht4 & Hm4). left.
      destruct Hc as [Hc|(Hc & Hm & rq & Hrq & Eid)].
      * apply (fail_omitted_settles batch w4 r t4); congruence.
      * destruct (Hc _ _ _ _ _ Erpc rq Hrq) as (res & Hres & Eres).
        eapply rely_settled; [by apply (stays_fail_omitted _ rely)|].
        apply (Hs res r); [done|done|congruence|by eexists].
  - apply process_rpc_error_finished; [done|by eexists].
  - apply finish_tasks_finished; [done|by eexists].
Qed.

Lemma gw_process_finished_gen p batch w r t :
  batch_ok batch w → r ∈ batch → w_tasks w !! r = Some t →
  is_model_task t = true ∨ complete_rpc env → finished w (gw_process env p batch w) r.
Proof.
  intros Hok Hr Ht Hc. unfold gw_process.
  pose proof (live_tasks_spec batch w) as Hl. pose proof (stays_live_tasks env rely batch w) as H1.
  destruct (live_tasks env batch w) as [active w1]; simpl in *. destruct Hl as [Hi Hs].
  assert (settled (w_tasks w1) r ∨ r ∈ active) as [Hset|Hact] by (destruct (Hs r); eauto).
  { left. apply (rely_settled w1); [|done]. destruct active as [|x xs]; [reflexivity|].
    etrans; [by apply rely_pause|].
    destruct (stop_flag _ p); [by apply (stays_finish_tasks _ rely)|]. apply (disc_exchange env rely p (x :: xs)). }
  assert (batch_ok active w1) as Hok1.
  { eapply batch_ok_rely; [exact H1|]. by eapply batch_ok_incl. }
  clear Hs Hok Hr. destruct active as [|x xs] eqn:Ea; [set_solver|]. rewrite <- Ea in *.
  clear x xs Ea Hi batch. pose proof (rely_pause env w1) as H2.
  set (w2 := pause env w1) in *. assert (rely w w2) as H by (by etrans).
  clearbody w2. pose proof (batch_ok_rely _ _ _ H2 Hok1) as Hok2. clear w1 H1 H2 Hok1.
  destruct (rely_model _ _ _ _ H Ht) as (t2 & Ht2 & Hm2).
  eapply finished_before; [exact H|]. clear H.
  destruct (stop_flag w2 p); [apply finish_tasks_finished; [done|by eexists]|].
  pose proof (stays_start_tasks env rely active w2) as H3. set (w3 := start_tasks env active w2) in *.
  destruct (rely_task_frame _ _ _ _ H3 Ht2) as (t3 & Ht3 & Hid3 & Hin3 & _).
  pose proof (task_map_lookup active w3 r t3 (batch_ok_rely _ _ _ H3 Hok2) Hact Ht3) as Hm.
  pose proof (build_requests_complete active w3 r t3 Hact Ht3) as Hrq.
  pose proof (stays_build_requests env rely active w3) as H4.
  eapply finished_before; [exact H3|].
  destruct (build_requests env active w3) as [rqs w4]. simpl in *.
  destruct (rely_task_frame _ _ _ _ H4 Ht3) as (t4 & Ht4 & Hid4 & Hin4 & _).
  eapply finished_before; [exact H4|].
  destruct (_ <=?q _); [left; apply fail_tasks_settled; [done|done|by eexists]|].
  apply (process_rpc_finished _ _ _ _ _ _ _ t4); [done|done|].
  destruct Hc as [Hc|Hc]; [left|right].
  - transitivity (is_model_task t2); [|congruence]. unfold is_model_task. by rewrite Hin4, Hin3.
  - split; [done|]. rewrite Hid4. done.
Qed.

(** C7. When a proxy processes a batch, a task of a model kind is settled by this very call
    and never handed to another worker, whatever the RPC does, even if its response omits the
    task, and whatever other threads do meanwhile.  If the workers' responses have a result
    for every request, every other task of the batch is settled too or was accepted by
    another proxy; [omitted_simulation_task_stays] shows what happens to it otherwise. *)
Theorem gw_process_finishes (p : pref) (batch : list tref) (w : world) :
  batch_ok batch w →
  (∀ r t, r ∈ batch → w_tasks w !! r = Some t → is_model_task t = true →
     settled (w_tasks (gw_process env p batch w)) r) ∧
  (complete_rpc env → ∀ r, r ∈ batch → finished w (gw_process env p batch w) r).
Proof.
  intros Hok. split.
  - intros r t Hr Ht Hm.
    destruct (rely_model _ _ _ _ (stays_gw_process env rely p batch w) Ht) as (t' & Ht' & Hm').
    apply (finished_model w _ r t'); [done|congruence|].
    apply (gw_process_finished_gen p batch w r t); auto.
  - intros Hc r Hr. destruct (proj1 Hok r Hr) as [t Ht].
    apply (gw_process_finished_gen p batch w r t); auto.
Qed.

(** ** Stopping a proxy *)

Lemma finish_batches_finished p pending w b r :
  b ∈ pending → r ∈ b → is_Some (w_tasks w !! r) →
  finished w (finish_batches env p pending w) r.
Proof.
  revert w. induction pending as [|b' pending IH]; intros w; [set_solver|].
  intros [<-|Hin]%elem_of_cons Hr Hs; simpl.
  - eapply finished_rely; [by apply (stays_finish_batches _ rely)|]. by apply finish_tasks_finished.
  - eapply finished_before; [by apply (stays_finish_tasks _ rely)|]. apply IH; try done.
    eapply rely_task; [by apply (stays_finish_tasks _ rely)|done].
Qed.

Lemma alter_proxy_eq f p w g :
  w_proxies w !! p = Some g → w_proxies (update_proxy f p w) !! p = Some (f g).
Proof. intros Hp. simpl. by rewrite lookup_alter_eq, Hp. Qed.

Lemma gw_begin_stop_stops retry g : gw_stop (gw_begin_stop retry g) = true.
Proof. unfold gw_begin_stop. by destruct (gw_stop g) eqn:E. Qed.

Lemma gw_stop_proxy_outcome (retry : bool) (p : pref) (w : world) (g : GrpcWorker) :
  w_proxies w !! p = Some g →
  ∃ w1 g1 g2, rely w w1 ∧ w_proxies w1 !! p = Some g1 ∧ gw_stop g1 = true ∧
    (∀ b r, b ∈ gw_batch_queue g1 → r ∈ b → is_Some (w_tasks w1 !! r) →
       finished w1 (gw_stop_proxy env retry p w) r) ∧
    w_proxies (gw_stop_proxy env retry p w) !! p = Some g2 ∧
    gw_stop g2 = true ∧ gw_batch_queue g2 = [] ∧ gw_metrics_removed g2 = true ∧
    ∀ w', rely (gw_stop_proxy env retry p w) w' →
      ∃ g', w_proxies w' !! p = Some g' ∧ gw_stop g' = true ∧ gw_batch_queue g' = [].
Proof.
  intros Hp. unfold gw_stop_proxy.
  destruct (rely_proxy _ _ _ _ (rely_pause env w) Hp) as (ga & Ha & _).
  pose proof (rely_pause env w) as H0. set (w0 := pause env w) in *.
  pose proof ((stays_begin_stop _ rely) retry p w0) as H1.
  pose proof (alter_proxy_eq (gw_begin_stop retry) p w0 ga Ha) as Hb.
  set (wb := update_proxy (gw_begin_stop retry) p w0) in *.
  pose proof (rely_pause env wb) as H2.
  destruct (rely_proxy _ _ _ _ H2 Hb) as (g1 & Hg1 & Hs1).
  destruct (gw_steps_stopped _ _ Hs1 (gw_begin_stop_stops retry ga)) as [Hstop1 _].
  set (w1 := pause env wb) in *. rewrite Hg1.
  exists w1, g1. set (take := λ g : GrpcWorker, (gw_take_pending g).2).
  assert (rely w1 (update_proxy take p w1)) as H3.
  { apply rely_update_proxy. intros. apply rtc_once, gs_take_pending. }
  pose proof (alter_proxy_eq take p w1 g1 Hg1) as Hc. set (wc := update_proxy take p w1) in *.
  pose proof (stays_finish_batches env rely p (gw_batch_queue g1) wc) as H4.
  pose proof (finish_batches_finished p (gw_batch_queue g1) wc) as Hfin.
  set (wd := finish_batches env p (gw_batch_queue g1) wc) in *.
  pose proof (rely_pause env wd) as H5. set (we := pause env wd) in *.
  assert (rely wc we) as Hce by (by etrans).
  destruct (rely_proxy _ _ _ _ Hce Hc) as (g2 & Hg2 & Hs2).
  destruct (gw_steps_stopped _ _ Hs2 Hstop1) as [Hstop2 Hq2].
  assert (rely we (update_proxy gw_remove_metrics p we)) as H6.
  { apply rely_update_proxy. intros. apply rtc_once, gs_remove_metrics. }
  pose proof (alter_proxy_eq gw_remove_metrics p we g2 Hg2) as Hg3.
  exists (gw_remove_metrics g2). split_and!; try done.
  - etrans; [exact H0|]. by etrans.
  - intros b r Hbq Hr Hsome. eapply finished_before; [exact H3|].
    eapply finished_rely; [etrans; [exact H5|exact H6]|].
    eapply Hfin; [done|done|]. by eapply rely_task.
  - simpl. apply Hq2. done.
  - intros w' Hw'. destruct (rely_proxy _ _ _ _ Hw' Hg3) as (g' & Hg' & Hs').
    destruct (gw_steps_stopped _ _ Hs' Hstop2) as [? Hq']. exists g'. split_and!; try done.
    apply Hq'. simpl. by apply Hq2.
Qed.

Lemma gw_stop_proxy_holds retry p w g :
  w_proxies w !! p = Some g →
  ∃ g', w_proxies (gw_stop_proxy env retry p w) !! p = Some g' ∧
        gw_stop g' = true ∧ gw_batch_queue g' = [].
Proof.
  intros Hp. destruct (gw_stop_proxy_outcome retry p w g Hp)
    as (_ & _ & g2 & _ & _ & _ & _ & H & Hs & Hq & _). eauto.
Qed.

(** Stopping a proxy settles or hands over every task it still holds: at the
    moment its queue is taken the proxy is already stopped, all tasks in the queue
    are finished when [stop] returns, and the proxy stays stopped with an empty
    queue for ever. *)
Theorem gw_stop_proxy_finishes (retry : bool) (p : pref) (w : world) (g : GrpcWorker) :
  w_proxies w !! p = Some g →
  ∃ w1 g1 g2, rely w w1 ∧ w_proxies w1 !! p = Some g1 ∧ gw_stop g1 = true ∧
    (∀ b r, b ∈ gw_batch_queue g1 → r ∈ b → is_Some (w_tasks w1 !! r) →
       finished w1 (gw_stop_proxy env retry p w) r) ∧
    w_proxies (gw_stop_proxy env retry p w) !! p = Some g2 ∧
    gw_stop g2 = true ∧ gw_batch_queue g2 = [] ∧ gw_metrics_removed g2 = true ∧
    ∀ w', rely (gw_stop_proxy env retry p w) w' →
      ∃ g', w_proxies w' !! p = Some g' ∧ gw_stop g' = true ∧ gw_batch_queue g' = [].
Proof. apply gw_stop_proxy_outcome. Qed.
End settle.

Lemma sample_batch_ok : batch_ok [0; 1; 2]%nat sample_world.
Proof.
  split.
  - intros r Hr. repeat (apply elem_of_cons in Hr as [->|Hr]; [by eexists|]).
    by apply not_elem_of_nil in Hr.
  - intros r1 r2 t1 t2 H1 H2 E1 E2 E.
    repeat (apply elem_of_cons in H1 as [->|H1]); try by apply not_elem_of_nil in H1.
    all: repeat (apply elem_of_cons in H2 as [->|H2]); try by apply not_elem_of_nil in H2.
    all: try done; vm_compute in E1, E2; simplify_eq.
Qed.

Lemma sample_env_complete : complete_rpc sample_env.
Proof.
  intros n wid rqs to results E rq Hrq. injection E as <-.
  exists (mkTaskResult (rq_task_id rq) true "1" EmptyString EmptyString). split; [|done].
  apply list_elem_of_fmap. by exists rq.
Qed.

Lemma gw_process_finishes_witness :
  complete_rpc sample_env ∧
  settled (w_tasks (gw_process sample_env 0%nat [0; 1; 2]%nat sample_world)) 2%nat.
Proof.
  split; [apply sample_env_complete|].
  apply (proj1 (gw_process_finishes sample_env 0%nat _ _ sample_batch_ok) 2%nat
    (pool_task "c" "synthx_v73")); [apply (bool_decide_unpack _); vm_compute; exact I|
    reflexivity|reflexivity].
Defined.

(** A response that omits everything: the model task of the batch fails, a task of the
    simulation stays PROCESSING, in no queue, and nobody will finish it. *)
Definition silent_env : environment :=
  mkEnvironment (λ _ w, w) (λ _ _ _ _, RpcOk []) (json_dumps sample_env) (json_loads sample_env) None.

Example omitted_simulation_task_stays :
  let w := gw_process silent_env 0%nat [0; 2]%nat sample_world in
  (λ t, (status t, error_code t)) <$> w_tasks w !! 0%nat = Some (PROCESSING, None) ∧
  (λ t, (status t, error_code t)) <$> w_tasks w !! 2%nat = Some (FAILED, Some "transport_error"%string) ∧
  w_trace w = [] ∧ ∀ p g, w_proxies w !! p = Some g → gw_batch_queue g = [].
Proof.
  split_and!; [vm_compute; reflexivity..|]. intros p g Hp.
  assert (map_Forall (λ _ g, gw_batch_queue g = []) (w_proxies (gw_process silent_env 0%nat [0; 2]%nat sample_world))) as H
    by (apply (bool_decide_unpack _); vm_compute; exact I).
  by apply (H p).
Qed.

Lemma gw_stop_proxy_finishes_witness :
  ∃ g, w_proxies (gw_stop_proxy sample_env true 0%nat sample_world) !! 0%nat = Some g ∧
       gw_stop g = true ∧ gw_batch_queue g = [].
Proof.
  destruct (gw_stop_proxy_finishes sample_env true 0%nat sample_world (gw_init "w0" "h0:1"))
    as (w1 & g1 & g2 & _ & _ & _ & _ & H & Hs & Hq & _); [reflexivity|].
  exists g2. split_and!; [exact H|exact Hs|exact Hq].
Defined.
