(* ===== verification/GrpcRouting.v ===== *)
(** Routing and membership: where [GrpcWorkerPool.submit] sends a batch, and how
    registry snapshots and shutdown change the set of proxies. *)
From S2P Require Import Prelude PyVal Tasks GrpcWorker World GrpcPool GrpcPoolFacts GrpcDelivery GrpcSettle.

Section routing.
Context (env : environment) `{!WellBehaved env}.

Lemma submit_others_accepted p t ms batch w q w' :
  submit_others env p t ms batch w = (Some q, w') →
  q ≠ p ∧ accepted_by q batch w w' ∧
  ∃ w1 g, rely w w1 ∧ rely w1 w' ∧ w_proxies w1 !! q = Some g ∧
    supports env (gw_worker_id g) t = true.
Proof.
  revert w. induction ms as [|[wid x] ms IH]; intros w E; simpl in E; [done|].
  destruct (bool_decide (x = p)) eqn:Ex; simpl in E; [by apply IH|].
  apply bool_decide_eq_false in Ex.
  destruct (w_proxies w !! x) as [g|] eqn:Eg; simpl in E; [|by apply IH].
  destruct (gw_is_ready g && supports env (gw_worker_id g) t) eqn:Er; simpl in E;
    [|by apply IH].
  apply andb_true_iff in Er as [_ Hsup].
  pose proof (stays_try_submit_at env rely x batch w) as Hr.
  destruct (try_submit_at env x batch w) as [[] w1] eqn:Et; simpl in Hr.
  - simplify_eq. split; [done|]. split; [by eapply try_submit_accepted|].
    exists w, g. by split_and!.
  - destruct (IH _ E) as (Hne & Ha & w2 & g2 & H2 & H2' & Hg2 & Hs2).
    split; [done|]. split; [eapply accepted_by_rely; [exact Hr|reflexivity|exact Ha]|].
    exists w2, g2. split_and!; try done. by etrans.
Qed.

Lemma choose_proxy_elem ready w p : choose_proxy ready w = Some p → p ∈ ready.
Proof.
  unfold choose_proxy. intros H%list_elem_of_lookup_2.
  destruct (filter _ ready) as [|x xs] eqn:Ef; [done|].
  rewrite <- Ef in H. by apply list_elem_of_filter in H as [_ ?].
Qed.

Lemma ready_members_elem t w p :
  p ∈ ready_members env t w →
  ∃ g, w_proxies w !! p = Some g ∧ gw_is_ready g = true ∧
    supports env (gw_worker_id g) t = true.
Proof.
  unfold ready_members. intros ([q g] & -> & Hin)%list_elem_of_fmap.
  apply list_elem_of_filter in Hin as [Hf [Hp _]%member_proxies_elem]. simpl in *.
  apply andb_true_iff in Hf as [? ?]. eauto.
Qed.

(** The proxy that took the batch was a capable member. *)
Definition routed (q : pref) (t : Task) (batch : list tref) (w w' : world) : Prop :=
  accepted_by q batch w w' ∧
  ∃ w1 g, rely w w1 ∧ rely w1 w' ∧ w_proxies w1 !! q = Some g ∧
    supports env (gw_worker_id g) t = true.

Lemma routed_rely q t batch w0 w w' :
  rely w0 w → routed q t batch w w' → routed q t batch w0 w'.
Proof.
  intros H [Ha (w1 & g & H1 & Hg)]. split; [by eapply accepted_by_rely; [exact H|reflexivity|]|].
  exists w1, g. destruct Hg as (? & ? & ?). split_and!; try done. by etrans.
Qed.

Lemma submit_compatible_outcome batch w r t :
  head batch = Some r → w_tasks w !! r = Some t →
  (∀ r, r ∈ batch → is_Some (w_tasks w !! r)) →
  match submit_compatible env batch w with
  | (Some q, w') => ∃ t', task_kind t' = task_kind t ∧ routed q t' batch w w'
  | (None, w') => ∀ r, r ∈ batch → settled (w_tasks w') r
  end.
Proof.
  intros Hh Ht Hsome. unfold submit_compatible.
  pose proof (rely_pause env w) as H1. set (w1 := pause env w) in *.
  destruct (rely_task_frame _ _ _ _ H1 Ht) as (t1 & Ht1 & _ & Hin1 & _).
  rewrite Hh. simpl. rewrite Ht1.
  assert (task_kind t1 = task_kind t) as Hk by (unfold task_kind; by rewrite Hin1).
  destruct (choose_proxy _ w1) as [p|] eqn:Ep.
  2:{ intros r' Hr'. apply fail_tasks_settled; [done|done|]. eapply rely_task; eauto. }
  apply choose_proxy_elem, ready_members_elem in Ep as (g & Hg & _ & Hsup).
  pose proof (rely_bump_rr w1) as H2. pose proof (stays_try_submit_at env rely p batch (bump_rr w1)) as H3.
  destruct (try_submit_at env p batch (bump_rr w1)) as [[] w2] eqn:Et; simpl in H3.
  - exists t1. split; [done|]. split.
    + eapply accepted_by_rely; [etrans; [exact H1|exact H2]|reflexivity|].
      by eapply try_submit_accepted.
    + exists w1, g. split_and!; try done. etrans; [exact H2|exact H3].
  - pose proof (rely_pause env w2) as H4. set (w3 := pause env w2) in *.
    assert (rely w w3) as H by (etrans; [exact H1|]; etrans; [exact H2|]; by etrans).
    pose proof (stays_submit_others env rely p t1 (w_members w3) batch w3) as H5.
    destruct (submit_others env p t1 (w_members w3) batch w3) as [[q|] w4] eqn:Eo; simpl in H5.
    + apply submit_others_accepted in Eo as (_ & Ha & Hs). exists t1. split; [done|].
      eapply routed_rely; [exact H|]. by split.
    + intros r' Hr'. apply fail_tasks_settled; [done|done|].
      eapply rely_task; [|by apply Hsome]. by etrans.
Qed.

(** The batch of one kind goes to one worker or is settled: if
    [_submit_compatible] returns a proxy, that proxy accepted the whole batch, was
    ready with room when it did, and can execute the kind; otherwise every task of
    the batch has an outcome.  With interference, nothing is left pending
    unowned. *)
Theorem submit_compatible_routes (batch : list tref) (w : world) (r : tref) (t : Task) :
  head batch = Some r → w_tasks w !! r = Some t →
  (∀ r, r ∈ batch → is_Some (w_tasks w !! r)) →
  match submit_compatible env batch w with
  | (Some q, w') => ∃ t', task_kind t' = task_kind t ∧ routed q t' batch w w'
  | (None, w') => ∀ r, r ∈ batch → settled (w_tasks w') r
  end.
Proof. apply submit_compatible_outcome. Qed.

(** ** Splitting a batch *)

Definition grouped (groups : list (string * list tref)) (r : tref) : Prop :=
  ∃ k b, (k, b) ∈ groups ∧ r ∈ b.

Lemma grouped_set groups k b b' r :
  dict_get groups k [] = b → (∀ x, x ∈ b → x ∈ b') →
  NoDup (dict_keys groups) →
  grouped groups r → grouped (dict_set groups k b') r.
Proof.
  intros Hb Hi Hnd (j & c & Hin & Hr). pose proof (dict_elem_lookup _ _ _ Hnd Hin) as Hl.
  destruct (decide (j = k)) as [->|Hne].
  - exists k, b'. split; [apply dict_lookup_elem, dict_lookup_set_eq|].
    apply Hi. unfold dict_get in Hb. rewrite Hl in Hb. simpl in Hb. by subst.
  - exists j, c. split; [|done]. apply dict_lookup_elem. by rewrite dict_lookup_set_ne.
Qed.

Lemma group_tasks_spec batch groups w r :
  NoDup (dict_keys groups) → (∀ x, x ∈ batch → is_Some (w_tasks w !! x)) →
  r ∈ batch ∨ grouped groups r →
  let '(groups', w') := group_tasks env batch groups w in
  grouped groups' r ∨ settled (w_tasks w') r.
Proof.
  revert groups w. induction batch as [|x batch IH]; intros groups w Hnd Hs Hr; simpl.
  { destruct Hr as [Hr|?]; [by apply not_elem_of_nil in Hr|by left]. }
  destruct (Hs x) as [t Ht]; [by left|]. rewrite Ht.
  assert (∀ x, x ∈ batch → is_Some (w_tasks w !! x)) as Hs' by set_solver.
  set (w1 := fail_task env "invalid task kind" (Some "invalid_spec"%string) x w).
  assert (let '(groups', w') := group_tasks env batch groups w1 in
          grouped groups' r ∨ settled (w_tasks w') r) as Hbad.
  { assert (rely w w1) as H1 by by apply (stays_fail_task _ rely).
    pose proof (stays_group_tasks env rely batch groups w1) as H2.
    specialize (IH groups w1 Hnd). destruct (group_tasks env batch groups w1) as [gs w2].
    simpl in H2.
    destruct Hr as [[->|Hr]%elem_of_cons|Hr].
    - right. eapply rely_settled; [exact H2|]. apply fail_task_settled; [done|by eexists].
    - apply IH; [|by left]. intros. eapply rely_task; eauto.
    - apply IH; [|by right]. intros. eapply rely_task; eauto. }
  destruct (task_kind t) as [| | | |k| |]; try exact Hbad.
  apply IH; [by apply dict_set_nodup|done|].
  destruct Hr as [[->|Hr]%elem_of_cons|Hr]; [right|by left|right].
  - exists k, (dict_get groups k [] ++ [x]). split; [|set_solver].
    apply dict_lookup_elem, dict_lookup_set_eq.
  - eapply grouped_set; [reflexivity|set_solver|done|done].
Qed.

Lemma group_tasks_kinds batch groups w :
  (∀ k b, (k, b) ∈ groups → b ≠ [] ∧ ∀ r, r ∈ b → is_Some (w_tasks w !! r)) →
  let '(groups', w') := group_tasks env batch groups w in
  ∀ k b, (k, b) ∈ groups' → b ≠ [] ∧ ∀ r, r ∈ b → is_Some (w_tasks w' !! r).
Proof.
  revert groups w. induction batch as [|x batch IH]; intros groups w Hg; simpl; [done|].
  destruct (w_tasks w !! x) as [t|] eqn:Ht; [|by apply IH].
  assert (∀ w1, rely w w1 →
    ∀ k b, (k, b) ∈ groups → b ≠ [] ∧ ∀ r, r ∈ b → is_Some (w_tasks w1 !! r)) as Hgo.
  { intros w1 H k b Hin. destruct (Hg k b Hin) as [? Hb]. split; [done|].
    intros. eapply rely_task; eauto. }
  destruct (task_kind t) as [| | | |k| |];
    try (apply IH, Hgo; by apply (stays_fail_task _ rely)).
  apply IH. intros j b [Heq|Hin]%dict_elem_set; [|by apply Hgo with j].
  simplify_eq. split; [by destruct (dict_get groups k [])|].
  intros r [Hr|Hr%list_elem_of_singleton]%elem_of_app; [|subst; by eexists].
  unfold dict_get in Hr. destruct (dict_lookup groups k) as [b|] eqn:El; simpl in Hr.
  - by apply (proj2 (Hg k b (dict_lookup_elem _ _ _ El))).
  - by apply not_elem_of_nil in Hr.
Qed.

Lemma submit_groups_handled groups w b r :
  (∀ b, b ∈ groups → b ≠ [] ∧ ∀ r, r ∈ b → is_Some (w_tasks w !! r)) →
  b ∈ groups → r ∈ b → handled w (submit_groups env groups w) r.
Proof.
  revert w. induction groups as [|b' groups IH]; intros w Hok; [set_solver|].
  simpl. pose proof (stays_submit_compatible env rely b' w) as H1.
  set (w1 := (submit_compatible env b' w).2) in *.
  intros [->|Hb]%elem_of_cons Hr.
  - destruct (Hok b') as [Hne Hs]; [by left|].
    destruct b' as [|x b']; [done|]. destruct (Hs x) as [t Ht]; [by left|].
    pose proof (submit_compatible_outcome (x :: b') w x t eq_refl Ht Hs) as Ho.
    eapply handled_rely; [by apply (stays_submit_groups _ rely)|]. unfold w1.
    destruct (submit_compatible env (x :: b') w) as [[q|] w2]; simpl.
    + right. destruct Ho as (t' & _ & Ha & _). by eapply accepted_by_since.
    + left. by apply Ho.
  - eapply handled_before; [exact H1|]. apply IH; [|done|done].
    intros b2 Hb2. destruct (Hok b2) as [? Hs]; [by right|]. split; [done|].
    intros. eapply rely_task; eauto.
Qed.

(** Every task of the batch was taken care of. *)
Definition all_handled (batch : list tref) (w w' : world) : Prop :=
  ∀ r, r ∈ batch → handled w w' r.

Lemma pool_submit_batch_handled (batch : list tref) (w : world) :
  (∀ r, r ∈ batch → is_Some (w_tasks w !! r)) →
  all_handled batch w (pool_submit_batch env batch w).
Proof.
  intros Hs r Hr. unfold pool_submit_batch.
  pose proof (group_tasks_spec batch [] w r (NoDup_nil_2) Hs (or_introl Hr)) as Hg.
  pose proof (group_tasks_kinds batch [] w) as Hk.
  pose proof (stays_group_tasks env rely batch [] w) as H1.
  destruct (group_tasks env batch [] w) as [groups w1]. simpl in H1.
  destruct Hg as [(k & b & Hin & Hb)|Hset].
  - eapply handled_before; [exact H1|].
    apply (submit_groups_handled (dict_values groups) w1 b r); [|by apply list_elem_of_fmap; exists (k, b)|done].
    intros b2 ([k2 b3] & -> & Hin2)%list_elem_of_fmap.
    apply (Hk ltac:(intros ? ? H%not_elem_of_nil; done) k2 b3 Hin2).
  - left. eapply rely_settled; [by apply (stays_submit_groups _ rely)|done].
Qed.

(** Dispatching loses nothing: after [GrpcWorkerPool.submit] every task of the
    batch has an outcome or sits in a batch that a proxy accepted during the call,
    whatever mix of kinds the batch has and whatever other threads do. *)
Theorem pool_submit_batch_loses_nothing (batch : list tref) (w : world) :
  (∀ r, r ∈ batch → is_Some (w_tasks w !! r)) →
  all_handled batch w (pool_submit_batch env batch w).
Proof. apply pool_submit_batch_handled. Qed.
End routing.

(** ** Membership *)

(** The pool's dict as a function from worker identifiers to proxies. *)
Definition member_at (w : world) (wid : string) : option pref :=
  dict_lookup (w_members w) wid.

Lemma member_at_proxy w wid p :
  world_wf w → member_at w wid = Some p →
  ∃ g, w_proxies w !! p = Some g ∧ gw_worker_id g = wid.
Proof. intros [_ [_ Hm]] H%dict_lookup_elem. by apply Hm. Qed.

Lemma add_member_wf wid info w : world_wf w → world_wf (add_member wid info w).
Proof. apply (stays_add_member _ rely). Qed.

(** One entry of the snapshot: its proxy is the old one, or a fresh one at the
    announced address; its state is the announced one; nothing else moves. *)
Lemma add_member_spec wid info w :
  world_wf w →
  let w' := add_member wid info w in
  (∀ k, k ≠ wid → member_at w' k = member_at w k) ∧
  (∃ p g, member_at w' wid = Some p ∧ w_proxies w' !! p = Some g ∧
     gw_worker_id g = wid ∧ gw_routing_state g = wi_state info ∧
     match member_at w wid with
     | Some p0 => p = p0
     | None => w_proxies w !! p = None ∧ gw_address g = wi_address info ∧
               gw_batch_queue g = [] ∧ gw_stop g = false
     end) ∧
  (∀ q g, w_proxies w !! q = Some g → gw_worker_id g ≠ wid → w_proxies w' !! q = Some g).
Proof.
  intros Hwf. unfold add_member, member_at. simpl.
  destruct (dict_lookup (w_members w) wid) as [p|] eqn:El.
  - rewrite El. destruct (member_at_proxy w wid p Hwf El) as (g & Hg & Hid).
    simpl. split_and!.
    + done.
    + exists p, (gw_set_routing_state (wi_state info) g).
      rewrite lookup_alter_eq, Hg. by split_and!.
    + intros q g' Hq Hne. rewrite lookup_alter_ne; [done|]. intros ->. congruence.
  - simpl. rewrite dict_lookup_set_eq. simpl.
    set (p := fresh (dom (w_proxies w))).
    assert (w_proxies w !! p = None) as Hp by apply not_elem_of_dom, is_fresh.
    split_and!.
    + intros k Hk. by rewrite dict_lookup_set_ne.
    + eexists p, _. rewrite dict_lookup_set_eq, lookup_alter_eq, lookup_insert_eq. simpl.
      by split_and!.
    + intros q g' Hq Hne. assert (p ≠ q) by (intros ->; congruence).
      by rewrite lookup_alter_ne, lookup_insert_ne.
Qed.

Lemma add_members_frame snapshot w q g :
  world_wf w → w_proxies w !! q = Some g → gw_worker_id g ∉ dict_keys snapshot →
  w_proxies (add_members snapshot w) !! q = Some g.
Proof.
  revert w. induction snapshot as [|[wid info] s IH]; intros w Hwf Hq Hn; simpl; [done|].
  rewrite dict_keys_cons in Hn.
  destruct (add_member_spec wid info w Hwf) as (_ & _ & Hframe).
  apply IH; [by apply add_member_wf|apply Hframe; [done|tauto]|tauto].
Qed.

Lemma add_members_spec snapshot w k :
  world_wf w → NoDup (dict_keys snapshot) →
  let w' := add_members snapshot w in
  match dict_lookup snapshot k with
  | None => member_at w' k = member_at w k
  | Some info =>
      ∃ p g, member_at w' k = Some p ∧ w_proxies w' !! p = Some g ∧
        gw_worker_id g = k ∧ gw_routing_state g = wi_state info ∧
        match member_at w k with
        | Some p0 => p = p0
        | None => gw_address g = wi_address info ∧ gw_batch_queue g = [] ∧ gw_stop g = false
        end
  end.
Proof.
  revert w. induction snapshot as [|[wid info] s IH]; intros w Hwf Hnd; [done|].
  change (dict_keys ((wid, info) :: s)) with (wid :: dict_keys s) in Hnd.
  apply NoDup_cons in Hnd as [Hn Hnd].
  destruct (add_member_spec wid info w Hwf) as (Hkeys & (p & g & Hp & Hg & Hid & Hst & Hold) & Hfr).
  pose proof (add_member_wf wid info w Hwf) as Hwf1.
  specialize (IH _ Hwf1 Hnd). simpl in *. destruct (decide (k = wid)) as [->|Hne].
  - rewrite (proj2 (dict_lookup_None s wid) Hn) in IH.
    exists p, g. rewrite IH. split_and!; try done.
    + apply add_members_frame; [done|done|by rewrite Hid].
    + destruct (member_at w wid); tauto.
  - destruct (dict_lookup s k) as [info'|].
    + by rewrite <- (Hkeys k Hne).
    + by rewrite IH, Hkeys.
Qed.

Lemma remove_members_spec gone w :
  world_wf w → NoDup gone →
  let '(removed, w') := remove_members gone w in
  (∀ k, member_at w' k = if decide (k ∈ gone) then None else member_at w k) ∧
  (∀ q g, w_proxies w !! q = Some g → gw_worker_id g ∉ gone → w_proxies w' !! q = Some g) ∧
  (∀ q, q ∈ removed ↔ ∃ k, k ∈ gone ∧ member_at w k = Some q) ∧
  (∀ q, q ∈ removed → ∃ g, w_proxies w' !! q = Some g ∧ gw_stop g = true).
Proof.
  revert w. induction gone as [|wid gone IH]; intros w Hwf Hnd; simpl.
  { split_and!; [done|done| |set_solver]. intros q. split; [set_solver|].
    intros (k & Hk & _). by apply not_elem_of_nil in Hk. }
  apply NoDup_cons in Hnd as [Hn Hnd].
  destruct (dict_lookup (w_members w) wid) as [p|] eqn:El.
  - set (w1 := update_proxy (gw_begin_stop true) p
                 (set_members (dict_del (w_members w) wid) w)).
    assert (world_wf w1) as Hwf1.
    { apply ((stays_begin_stop _ rely) true p _), ((stays_drop_member _ rely) wid w), Hwf. }
    specialize (IH w1 Hwf1 Hnd).
    pose proof ((stays_remove_members _ rely) gone w1) as Hr.
    destruct (remove_members gone w1) as [removed w2]. simpl in Hr.
    destruct IH as (Hk & Hfr & Hin & Hst).
    destruct (member_at_proxy w wid p Hwf El) as (g & Hg & Hid).
    assert (∀ k, member_at w1 k = if decide (k = wid) then None else member_at w k) as Hm1.
    { intros k. unfold member_at. simpl. case_decide as E; [subst; apply dict_lookup_del_eq|].
      by rewrite dict_lookup_del_ne. }
    split_and!.
    + intros k. rewrite Hk, Hm1. repeat case_decide; set_solver.
    + intros q g' Hq Hng. apply Hfr; [|set_solver]. simpl.
      rewrite lookup_alter_ne; [done|]. intros ->. simplify_eq. set_solver.
    + intros q. rewrite elem_of_cons, Hin. split.
      * intros [->|(k & Hkg & Hkm)]; [exists wid; split; [by left|done]|].
        exists k. rewrite Hm1 in Hkm. case_decide; [done|]. split; [by right|done].
      * intros (k & [->|Hkg]%elem_of_cons & Hkm); [left; unfold member_at in *; congruence|].
        right. exists k. split; [done|]. rewrite Hm1. case_decide; [|done]. by subst.
    + intros q [->|Hq]%elem_of_cons; [|by apply Hst].
      pose proof (alter_proxy_eq (gw_begin_stop true) p
        (set_members (dict_del (w_members w) wid) w) g Hg) as Hg1.
      destruct (rely_proxy _ _ _ _ Hr Hg1) as (g2 & Hg2 & Hs2). exists g2. split; [done|].
      by apply (gw_steps_stopped _ _ Hs2), gw_begin_stop_stops.
  - specialize (IH w Hwf Hnd). destruct (remove_members gone w) as [removed w2].
    destruct IH as (Hk & Hfr & Hin & Hst). split_and!.
    + intros k. rewrite Hk. destruct (decide (k = wid)) as [->|Hne].
      * unfold member_at. rewrite El. by repeat case_decide.
      * repeat case_decide; set_solver.
    + intros q g' Hq Hng. apply Hfr; [done|set_solver].
    + intros q. rewrite Hin. split; [set_solver|].
      intros (k & [->|Hkg]%elem_of_cons & Hkm); [unfold member_at in *; congruence|eauto].
    + done.
Qed.

Lemma dict_lookup_is_Some {A} (d : list (string * A)) k :
  k ∈ dict_keys d ↔ is_Some (dict_lookup d k).
Proof.
  pose proof (dict_lookup_None d k) as H. destruct (dict_lookup d k) as [v|]; split; intros Hk.
  - done.
  - destruct (decide (k ∈ dict_keys d)) as [?|Hn]; [done|]. by apply H in Hn.
  - by apply H in Hk.
  - by destruct Hk.
Qed.

Lemma dict_keys_member w k : k ∈ dict_keys (w_members w) ↔ is_Some (member_at w k).
Proof. apply dict_lookup_is_Some. Qed.

Lemma world_wf_nodup w : world_wf w → NoDup (dict_keys (w_members w)).
Proof. intros [_ [H _]]. exact H. Qed.

Lemma reconcile_matches (snapshot : list (string * WorkerInfo)) (w : world) :
  world_wf w → NoDup (dict_keys snapshot) →
  let '(removed, w') := reconcile snapshot w in
  (∀ k, match dict_lookup snapshot k with
        | None => member_at w' k = None
        | Some info =>
            ∃ p g, member_at w' k = Some p ∧ w_proxies w' !! p = Some g ∧
              gw_worker_id g = k ∧ gw_routing_state g = wi_state info ∧
              match member_at w k with
              | Some p0 => p = p0
              | None => gw_address g = wi_address info ∧ gw_batch_queue g = [] ∧ gw_stop g = false
              end
        end) ∧
  (∀ q, q ∈ removed ↔ ∃ k, (k ∉ dict_keys snapshot) ∧ member_at w k = Some q) ∧
  (∀ q, q ∈ removed → ∃ g, w_proxies w' !! q = Some g ∧ gw_stop g = true) ∧
  w_worker_count w' = py_len snapshot.
Proof.
  intros Hwf Hnd. unfold reconcile.
  pose proof (λ k, add_members_spec snapshot w k Hwf Hnd) as Hadd.
  pose proof (proj2 ((stays_add_members _ rely) snapshot w) Hwf) as Hwf1.
  set (w1 := add_members snapshot w) in *. simpl in Hadd.
  set (gone := filter (λ wid, wid ∉ dict_keys snapshot) (dict_keys (w_members w1))).
  assert (∀ k, k ∈ gone ↔ (k ∉ dict_keys snapshot) ∧ is_Some (member_at w1 k)) as Hgone.
  { intros k. unfold gone. by rewrite list_elem_of_filter, dict_keys_member. }
  pose proof (remove_members_spec gone w1 Hwf1 (NoDup_filter _ _ (world_wf_nodup _ Hwf1))) as Hrm.
  pose proof (proj2 ((stays_remove_members _ rely) gone w1) Hwf1) as Hwf2.
  destruct (remove_members gone w1) as [removed w2]. simpl in Hwf2.
  destruct Hrm as (Hk & Hfr & Hin & Hst). simpl.
  change (member_at (set_worker_count _ w2)) with (member_at w2).
  assert (∀ k, match dict_lookup snapshot k with
               | None => member_at w2 k = None
               | Some info => (k ∉ gone) ∧ member_at w2 k = member_at w1 k end) as Hm2.
  { intros k. rewrite Hk. destruct (dict_lookup snapshot k) as [info|] eqn:El.
    - assert (k ∉ gone) as Hng.
      { rewrite Hgone, dict_lookup_is_Some, El. intros [Hn _]. by apply Hn. }
      split; [done|]. by rewrite decide_False.
    - case_decide as Hg; [done|]. destruct (member_at w1 k) eqn:Em; [|done].
      exfalso. apply Hg, Hgone. rewrite dict_lookup_is_Some, El, Em.
      split; [by intros []|by eexists]. }
  split_and!.
  - intros k. specialize (Hadd k). specialize (Hm2 k).
    destruct (dict_lookup snapshot k) as [info|]; [|done].
    destruct Hm2 as [Hng Hm2]. destruct Hadd as (p & g & Hp & Hg & Hid & ?).
    exists p, g. rewrite Hm2. split_and!; try tauto. apply Hfr; [done|by rewrite Hid].
  - intros q. rewrite Hin. split; intros (k & Hkg & Hm).
    + exists k. apply Hgone in Hkg as [Hn _]. split; [done|].
      specialize (Hadd k). rewrite (proj2 (dict_lookup_None snapshot k) Hn) in Hadd. congruence.
    + specialize (Hadd k). rewrite (proj2 (dict_lookup_None snapshot k) Hkg) in Hadd.
      exists k. rewrite Hgone, Hadd. by eauto.
  - done.
  - assert (dict_keys (w_members w2) ≡ₚ dict_keys snapshot) as Hp.
    { apply NoDup_Permutation; [by apply world_wf_nodup|done|].
      intros k. rewrite dict_keys_member, dict_lookup_is_Some. specialize (Hadd k).
      specialize (Hm2 k). destruct (dict_lookup snapshot k) as [info|].
      - destruct Hm2 as [_ ->]. destruct Hadd as (p & g & -> & _). split; by eexists.
      - rewrite Hm2. done. }
    apply Permutation_length in Hp. unfold dict_keys in Hp. rewrite !length_fmap in Hp.
    unfold py_len. by rewrite Hp.
Qed.

(** After a membership event the pool is exactly the registry's snapshot: it
    has one proxy per announced worker and no other; each is in the announced
    routing state; a worker that stays keeps its proxy (and the proxy its queue and
    connection), a new one gets a fresh proxy at the announced address; the proxies
    of workers that left are handed out for retirement, already stopped and with
    retry of their pending batches decided; and the worker gauge is the number
    announced. *)
Theorem reconcile_follows_snapshot (snapshot : list (string * WorkerInfo)) (w : world) :
  world_wf w → NoDup (dict_keys snapshot) →
  let '(removed, w') := reconcile snapshot w in
  (∀ k, match dict_lookup snapshot k with
        | None => member_at w' k = None
        | Some info =>
            ∃ p g, member_at w' k = Some p ∧ w_proxies w' !! p = Some g ∧
              gw_worker_id g = k ∧ gw_routing_state g = wi_state info ∧
              match member_at w k with
              | Some p0 => p = p0
              | None => gw_address g = wi_address info ∧ gw_batch_queue g = [] ∧ gw_stop g = false
              end
        end) ∧
  (∀ q, q ∈ removed ↔ ∃ k, (k ∉ dict_keys snapshot) ∧ member_at w k = Some q) ∧
  (∀ q, q ∈ removed → ∃ g, w_proxies w' !! q = Some g ∧ gw_stop g = true) ∧
  w_worker_count w' = py_len snapshot.
Proof. apply reconcile_matches. Qed.

Lemma sample_world_wf : world_wf sample_world.
Proof.
  split.
  - intros p g Hp. simpl in Hp. apply lookup_insert_Some in Hp as [[_ <-]|[_ Hp]]; [apply gw_init_inv|].
    apply lookup_insert_Some in Hp as [[_ <-]|[_ Hp]]; [apply gw_init_inv|].
    by rewrite lookup_empty in Hp.
  - split; [apply (bool_decide_unpack _); vm_compute; exact I|].
    intros wid p [[= -> ->]|[[= -> ->]|Hin%not_elem_of_nil]%elem_of_cons]%elem_of_cons;
      [eexists; by split..|done].
Qed.

Lemma reconcile_follows_snapshot_witness :
  let snapshot := [("w1", mkWorkerInfo "h1:1" DRAINING); ("w7", mkWorkerInfo "h7:1" READY)]%string in
  let '(removed, w') := reconcile snapshot sample_world in
  member_at w' "w0" = None ∧ w_worker_count w' = 2.
Proof.
  pose proof (reconcile_follows_snapshot
    [("w1", mkWorkerInfo "h1:1" DRAINING); ("w7", mkWorkerInfo "h7:1" READY)]%string
    sample_world sample_world_wf ltac:(apply (bool_decide_unpack _); vm_compute; exact I)) as H.
  revert H. cbv zeta. generalize (reconcile
    [("w1", mkWorkerInfo "h1:1" DRAINING); ("w7", mkWorkerInfo "h7:1" READY)]%string
    sample_world).
  intros [removed w'] (Hk & _ & _ & Hc). split; [exact (Hk "w0"%string)|exact Hc].
Defined.

Section shutdown.
Context (env : environment) `{!WellBehaved env}.

(** A stopping pool takes no new work. *)
Definition closed (w : world) : Prop :=
  has_workers w = false ∧
  (∀ r wid, (try_resubmit env r wid w).1 = None) ∧
  (∀ snapshot, w_members (update_workers env snapshot w) = w_members (pause env w)).

Lemma stopping_closed w : w_stopping w = true → closed w.
Proof.
  intros Hs. assert (w_stopping (pause env w) = true) as Hs1.
  { by apply (le_stopping _ _ (proj1 (rely_pause env w))). }
  unfold closed, has_workers, try_resubmit, update_workers. rewrite Hs, Hs1. done.
Qed.

Lemma begin_stop_all_stops ps w p g :
  p ∈ ps → w_proxies w !! p = Some g →
  ∃ g', w_proxies (begin_stop_all ps w) !! p = Some g' ∧ gw_stop g' = true.
Proof.
  revert w g. induction ps as [|q ps IH]; intros w g; [set_solver|].
  intros [<-|Hin]%elem_of_cons Hp; simpl.
  - pose proof (alter_proxy_eq (gw_begin_stop false) p w g Hp) as H.
    destruct (rely_proxy _ _ _ _ ((stays_begin_stop_all _ rely) ps _) H) as (g' & Hg' & Hs).
    exists g'. split; [done|]. by apply (gw_steps_stopped _ _ Hs), gw_begin_stop_stops.
  - destruct (rely_proxy _ _ _ _ ((stays_begin_stop _ rely) false q w) Hp) as (g' & Hg' & _).
    by apply (IH _ g').
Qed.

Lemma stop_proxies_empties retry ps w p g :
  p ∈ ps → w_proxies w !! p = Some g →
  ∃ g', w_proxies (stop_proxies env retry ps w) !! p = Some g' ∧
        gw_stop g' = true ∧ gw_batch_queue g' = [].
Proof.
  revert w g. induction ps as [|q ps IH]; intros w g; [set_solver|].
  intros [<-|Hin]%elem_of_cons Hp; simpl.
  - destruct (gw_stop_proxy_holds env retry p w g Hp) as (g2 & Hg2 & Hs2 & Hq2).
    destruct (rely_proxy _ _ _ _ (stays_stop_proxies env rely retry ps _) Hg2) as (g' & Hg' & Hs).
    destruct (gw_steps_stopped _ _ Hs Hs2) as [? Hq]. exists g'. split_and!; auto.
  - destruct (rely_proxy _ _ _ _ (stays_gw_stop_proxy env rely retry q w) Hp) as (g' & Hg' & _).
    by apply (IH _ g').
Qed.

Lemma begin_stop_all_members ps w : w_members (begin_stop_all ps w) = w_members w.
Proof. revert w. induction ps as [|p ps IH]; intros w; simpl; [done|]. by rewrite IH. Qed.

(** Shutting the pool down: every proxy that was a member when the pool was
    marked as stopping ends stopped, with nothing left in its queue, and from then
    on the pool is closed — it reports no workers, refuses every hand-over and
    ignores further membership events — whatever the other threads still do. *)
Theorem pool_stop_closes (w : world) :
  ∃ w0, rely w w0 ∧
    (world_wf w → ∀ wid p, (wid, p) ∈ w_members w0 →
       ∃ g, w_proxies (pool_stop env w) !! p = Some g ∧ gw_worker_id g = wid ∧
            gw_stop g = true ∧ gw_batch_queue g = []) ∧
    ∀ w', rely (pool_stop env w) w' → closed w'.
Proof.
  unfold pool_stop. pose proof (rely_pause env w) as H0. set (w0 := pause env w) in *.
  exists w0. split; [done|]. set (ps := dict_values (w_members (set_stopping w0))).
  set (w1 := set_worker_count 0 (set_members [] (set_stopping w0))).
  assert (rely w0 w1) as H1.
  { etrans; [apply rely_stopping|]. etrans; [apply (rely_members [])|apply rely_worker_count].
    intros. apply members_ok_nil. }
  pose proof ((stays_begin_stop_all _ rely) ps w1) as H2. set (w2 := begin_stop_all ps w1) in *.
  pose proof (rely_pause env w2) as H3. set (w3 := pause env w2) in *.
  assert (rely w0 w3) as H03 by (etrans; [exact H1|]; etrans; [exact H2|exact H3]).
  pose proof (stays_stop_proxies env rely false ps w3) as H4. split.
  - intros Hwf wid p Hin. destruct (proj2 H0 Hwf) as [_ [_ Hm]].
    destruct (Hm wid p Hin) as (g & Hg & Hid).
    destruct (rely_proxy _ _ _ _ H03 Hg) as (g3 & Hg3 & Hs3).
    assert (p ∈ ps) as Hp by (apply list_elem_of_fmap; by exists (wid, p)).
    destruct (stop_proxies_empties false ps w3 p g3 Hp Hg3) as (g4 & Hg4 & ? & ?).
    exists g4. split_and!; try done. destruct (rely_proxy _ _ _ _ H4 Hg3) as (g5 & Hg5 & Hs5).
    simplify_eq. destruct (gw_steps_identity _ _ Hs5) as [-> _].
    by destruct (gw_steps_identity _ _ Hs3) as [-> _].
  - intros w' Hw'. apply stopping_closed. apply (le_stopping _ _ (proj1 Hw')).
    apply (le_stopping _ _ (proj1 H4)), (le_stopping _ _ (proj1 H3)),
      (le_stopping _ _ (proj1 H2)). done.
Qed.
End shutdown.

Lemma pool_stop_closes_witness :
  (try_resubmit sample_env 0%nat "w9" (pool_stop sample_env sample_world)).1 = None.
Proof.
  destruct (pool_stop_closes sample_env sample_world) as (w0 & _ & _ & H).
  apply (H (pool_stop sample_env sample_world)). reflexivity.
Defined.

Lemma submit_compatible_routes_witness :
  match submit_compatible sample_env [0; 1]%nat sample_world with
  | (Some q, w') => ∃ t', task_kind t' = PyStr "simulation" ∧
                          routed sample_env q t' [0; 1]%nat sample_world w'
  | (None, w') => False
  end.
Proof.
  pose proof (submit_compatible_routes sample_env [0; 1]%nat sample_world 0%nat
    (pool_task "a" "simulation") eq_refl eq_refl) as H.
  assert (∀ r, r ∈ [0; 1]%nat → is_Some (w_tasks sample_world !! r)) as Hs.
  { intros r Hr. apply (proj1 sample_batch_ok). set_solver. }
  specialize (H Hs).
  assert (∃ q w', submit_compatible sample_env [0; 1]%nat sample_world = (Some q, w')) as (q & w' & E).
  { eexists _, _. vm_compute. reflexivity. }
  rewrite E in *. exact H.
Defined.

Lemma pool_submit_batch_loses_nothing_witness :
  handled sample_world (pool_submit_batch sample_env [0; 1; 2]%nat sample_world) 2%nat.
Proof.
  apply (pool_submit_batch_loses_nothing sample_env [0; 1; 2]%nat sample_world
    (proj1 sample_batch_ok) 2%nat). apply (bool_decide_unpack _); vm_compute; exact I.
Defined.

(** ** Static membership *)

Lemma static_entries_spec d entries :
  static_entries d = Some entries →
  dict_keys entries = dict_keys d ∧
  ∀ wid a, (wid, a) ∈ entries → py_blank wid = false ∧ py_blank a = false ∧
    (wid, PyStr a) ∈ d.
Proof.
  revert entries. induction d as [|[wid v] d IH]; intros entries E; simpl in E.
  { simplify_eq. split; [done|]. by intros ? ? ?%not_elem_of_nil. }
  destruct v as [| | | |s| |]; try done.
  destruct (py_blank wid) eqn:E1; [done|]. destruct (py_blank s) eqn:E2; [done|].
  simpl in E. destruct (static_entries d) as [rest|]; simplify_eq/=.
  destruct (IH rest eq_refl) as [Hk Hs]. split; [unfold dict_keys in *; simpl; by rewrite Hk|].
  intros wid' a [Heq|Hin]%elem_of_cons; [simplify_eq; split_and!; try done; by left|].
  destruct (Hs wid' a Hin) as (? & ? & ?). split_and!; try done. by right.
Qed.

(** A pool built from a [STATIC_WORKERS] object starts with exactly the workers
    the object names, all ready, and the object is accepted only if every worker
    name and address in it has a printable character. *)
Theorem static_pool_starts_ready (env : environment) (text : string)
    (d : list (string * pyval)) (entries : list (string * string)) (w : world) :
  WellBehaved env → (∀ n w, sched env n w = w) → world_wf w →
  w_stopping w = false → w_members w = [] → NoDup (dict_keys d) →
  json_loads env text = inl (PyDict d) →
  static_workers env PyNone (Some text) = inl (Some entries) →
  (∀ wid a, (wid, a) ∈ entries → py_blank wid = false ∧ py_blank a = false) ∧
  dict_keys entries = dict_keys d ∧
  ∀ wid a, (wid, a) ∈ entries →
    ∃ p g, member_at (reconcile (map (λ '(wid, a), (wid, mkWorkerInfo a READY)) entries)
                        (pause env w)).2 wid = Some p ∧
      w_proxies (pool_start_static env entries w) !! p = Some g ∧
      gw_worker_id g = wid ∧ gw_address g = a ∧ gw_is_ready g = true.
Proof.
  intros Henv Hq Hwf Hns Hms Hnd Hl Hs. unfold static_workers in Hs. rewrite Hl in Hs.
  destruct (static_entries d) as [entries'|] eqn:Ee; [|done]. injection Hs as ->.
  destruct (static_entries_spec _ _ Ee) as [Hk He].
  split; [intros wid a Hin; destruct (He wid a Hin) as (? & ? & _); auto|].
  split; [done|]. intros wid a Hin.
  set (snapshot := map (λ '(wid, a), (wid, mkWorkerInfo a READY)) entries).
  assert (dict_keys snapshot = dict_keys entries) as Hks.
  { unfold dict_keys, snapshot. rewrite <- list_fmap_compose.
    apply list_fmap_ext. by intros ? [? ?]. }
  assert (NoDup (dict_keys snapshot)) as Hnds by congruence.
  assert (pause env w = bump_pauses w) as Ep by (unfold pause; by rewrite Hq).
  assert (world_wf (pause env w)) as Hwf1 by by apply (rely_pause env w).
  pose proof (reconcile_matches snapshot (pause env w) Hwf1 Hnds) as Hr.
  unfold pool_start_static, update_workers. rewrite Ep in *. simpl. rewrite Hns. fold snapshot.
  destruct (reconcile snapshot (bump_pauses w)) as [removed w'].
  destruct Hr as (Hm & Hrem & _). simpl.
  assert (removed = []) as ->.
  { destruct removed as [|q qs]; [done|].
    destruct (proj1 (Hrem q) ltac:(by left)) as (k & _ & Hk2).
    unfold member_at in Hk2. simpl in Hk2. by rewrite Hms in Hk2. }
  simpl. specialize (Hm wid).
  rewrite (dict_elem_lookup snapshot wid (mkWorkerInfo a READY) Hnds) in Hm.
  2:{ unfold snapshot. apply list_elem_of_fmap. by exists (wid, a). }
  destruct Hm as (p & g & Hp & Hg & Hid & Hst & Hold).
  unfold member_at in Hold at 1. simpl in Hold. rewrite Hms in Hold. simpl in Hold.
  destruct Hold as (Ha & _ & Hstop). exists p, g. split_and!; try done.
  unfold gw_is_ready. rewrite Hstop, Hst. done.
Qed.

(** No other thread runs, and the codec reads every text as one static worker. *)
Definition quiet_env : environment :=
  mkEnvironment (λ _ w, w) (λ _ _ _ _, RpcOk []) (λ _, "{}"%string)
    (λ _, inl (PyDict [("w0"%string, PyStr "h0:1")])) None.

Lemma static_pool_starts_ready_witness :
  ∃ p g, w_proxies (pool_start_static quiet_env [("w0", "h0:1")]%string
           (set_members [] sample_world)) !! p = Some g ∧
    gw_worker_id g = "w0"%string ∧ gw_is_ready g = true.
Proof.
  destruct (static_pool_starts_ready quiet_env "{}" [("w0"%string, PyStr "h0:1")]
    [("w0", "h0:1")]%string (set_members [] sample_world)) as (_ & _ & H).
  - intros n w. reflexivity.
  - reflexivity.
  - destruct sample_world_wf as [H1 _]. split; [exact H1|apply members_ok_nil].
  - reflexivity.
  - reflexivity.
  - apply (bool_decide_unpack _); vm_compute; exact I.
  - reflexivity.
  - reflexivity.
  - destruct (H "w0"%string "h0:1"%string ltac:(by left)) as (p & g & _ & Hg & Hid & _ & Hr).
    exists p, g. split_and!; [exact Hg|exact Hid|exact Hr].
Defined.
