(* ===== verification/GrpcHonest.v ===== *)
(** What a completed task holds.  If the workers answer each request with something its
    payload justifies, then every completed task of the process holds an answer its own
    payload justifies, whatever the interleaving: results are never mixed up.  This is a
    second discipline of the pool's methods, beside [rely]. *)
From S2P Require Import Prelude PyVal Tasks GrpcWorker World GrpcPool GrpcPoolFacts JsonCodec Justified.

Section honesty.
Context (justifies : pyval → pyval → Prop).

Lemma quiet_justified w1 w2 : quiet w1 w2 → justified justifies (w_tasks w1) → justified justifies (w_tasks w2).
Proof.
  intros [_ Hq] [Hu Hj]. split.
  - eapply unique_ids_evolve; [|exact Hu]. intros r t2 Ht. destruct (Hq r t2 Ht) as (t1 & os & Ht1 & -> & _).
    exists t1. split; [done|apply run_ops_frame].
  - intros r t2 Ht Hd. destruct (Hq r t2 Ht) as (t1 & os & Ht1 & -> & Hs). specialize (Hs Hd).
    rewrite run_ops_terminal in * by (apply terminal_status; auto). by apply (Hj r t1).
Qed.

(** ** The discipline *)

Definition honest (w1 w2 : world) : Prop :=
  rely w1 w2 ∧ (justified justifies (w_tasks w1) → justified justifies (w_tasks w2)).

#[export] Instance honest_preorder : PreOrder honest.
Proof.
  split; [intros w; by split|]. intros w1 w2 w3 [H1 J1] [H2 J2]. split; [by etrans|auto].
Qed.

Definition honest_method (method : world → world) : Prop := ∀ w, honest w (method w).

Context (env : environment).

(** The other threads keep to it. *)
Class HonestThreads : Prop := {
  honest_rely :: WellBehaved env;
  honest_sched : ∀ n w, justified justifies (w_tasks w) → justified justifies (w_tasks (sched env n w));
}.

(** The workers answer each successful request with what its payload justifies; results
    are told apart by their identifiers. *)
Class HonestWorkers : Prop :=
  honest_rpc : ∀ n who rqs timeout results res,
    rpc env n who rqs timeout = RpcOk results → res ∈ results → rs_success res = true →
    ∃ rq, rq ∈ rqs ∧ rq_task_id rq = rs_task_id res ∧
      ∀ payload v, json_loads env (rq_input_json rq) = inl payload →
        json_loads env (rs_result_json res) = inl v → justifies payload v.

Context {HT : HonestThreads} {HW : HonestWorkers} {HJ : JsonRoundTrip (json_dumps env) (json_loads env)}.

#[export] Instance honest_discipline : Discipline env honest.
Proof using HT.
  split; [apply _| |].
  - intros w. split; [exact (rely_pause env w)|]. intros H. unfold pause. by apply honest_sched.
  - intros w1 w2 Hq. split; [apply Hq|by apply quiet_justified].
Qed.

(** ** Exchanges *)

(** The task a request was built from. *)
Definition request_of (batch : list tref) (h : store) (rq : TaskRequest) : Prop :=
  ∃ r t, r ∈ batch ∧ h !! r = Some t ∧ task_id t = rq_task_id rq ∧ json_dumps env (input_data t) = rq_input_json rq.

Lemma request_of_rely batch w1 w2 rq : rely w1 w2 → request_of batch (w_tasks w1) rq → request_of batch (w_tasks w2) rq.
Proof.
  intros [H _] (r & t & Hr & Ht & Hi & Hd). destruct (le_tasks _ _ H r t Ht) as [os Ht'].
  destruct (run_ops_frame t os) as (E1 & E2 & _). exists r, (run_ops t os). by rewrite E1, E2.
Qed.

Lemma build_requests_of batch w rq :
  rq ∈ (build_requests env batch w).1 → request_of batch (w_tasks (build_requests env batch w).2) rq.
Proof using HT.
  revert w. induction batch as [|r batch IH]; intros w; simpl; [by intros ?%not_elem_of_nil|].
  set (w1 := pause env w).
  assert (∀ rq, request_of batch (w_tasks (build_requests env batch w1).2) rq →
                request_of (r :: batch) (w_tasks (build_requests env batch w1).2) rq) as Hw.
  { intros rq' (q & t & Hq & Ht). exists q, t. split; [by right|done]. }
  destruct (w_tasks w1 !! r) as [t|] eqn:Et; [|intros H; by apply Hw, IH].
  specialize (IH w1). pose proof (stays_build_requests env rely batch w1) as Hr.
  destruct (build_requests env batch w1) as [rqs w2]. simpl in *. intros [->|Hin]%elem_of_cons; [|by apply Hw, IH].
  destruct (le_tasks _ _ (proj1 Hr) r t Et) as [os Ht']. destruct (run_ops_frame t os) as (E1 & E2 & _).
  exists r, (run_ops t os). rewrite E1, E2. split_and!; [by left|done..].
Qed.

Lemma task_map_id batch w m i r :
  (∀ i r, dict_lookup m i = Some r → ∃ t, w_tasks w !! r = Some t ∧ task_id t = i) →
  dict_lookup (foldl (λ m r, match w_tasks w !! r with Some t => dict_set m (task_id t) r | None => m end) m batch) i
    = Some r → ∃ t, w_tasks w !! r = Some t ∧ task_id t = i.
Proof.
  revert m. induction batch as [|q batch IH]; intros m Hm; simpl; [apply Hm|]. apply IH.
  destruct (w_tasks w !! q) as [t|] eqn:Et; [|done]. intros j s Hj.
  destruct (decide (task_id t = j)) as [<-|Hne].
  - rewrite dict_lookup_set_eq in Hj. injection Hj as <-. eauto.
  - rewrite dict_lookup_set_ne in Hj by done. by apply Hm.
Qed.

(** Applying results completes tasks with what their payloads justify. *)
Definition fitting (m : list (string * tref)) (h : store) (res : TaskResult) : Prop :=
  ∀ v r, rs_success res = true → json_loads env (rs_result_json res) = inl v → dict_lookup m (rs_task_id res) = Some r →
    ∃ t, h !! r = Some t ∧ justifies (input_data t) v.

Lemma fitting_rely m w1 w2 res : rely w1 w2 → fitting m (w_tasks w1) res → fitting m (w_tasks w2) res.
Proof.
  intros [H _] Hf v r Hs Hl Hm. destruct (Hf v r Hs Hl Hm) as (t & Ht & Hv).
  destruct (le_tasks _ _ H r t Ht) as [os Ht']. exists (run_ops t os). split; [done|].
  by rewrite (proj1 (run_ops_frame t os)).
Qed.

Lemma honest_apply_results m results w :
  (∀ res, res ∈ results → fitting m (w_tasks w) res) → honest w (apply_results env m results w).1.
Proof using HT.
  revert w. induction results as [|res results IH]; intros w Hf; simpl; [reflexivity|].
  assert (∀ w', honest w w' → honest w' (apply_results env m results w').1) as Hrest.
  { intros w' [Hr _]. apply IH. intros res' Hin. eapply fitting_rely; [exact Hr|]. apply Hf. by right. }
  destruct (dict_lookup m _) as [r|] eqn:Em; [|by apply Hrest].
  destruct (rs_success res) eqn:Es.
  2:{ etrans; [|apply Hrest]; apply (stays_fail_task env honest). }
  destruct (json_loads env _) as [v|msg] eqn:El; [|reflexivity].
  set (w1 := pause env w). set (w2 := update_task _ r w1).
  assert (honest w w2) as H2.
  { etrans; [apply (disc_pause (R := honest))|]. fold w1. split.
    - apply rely_update_task. intros t. by exists [OpDone (w_wall w1) v].
    - apply complete_justified. intros t Ht.
      assert (fitting m (w_tasks w1) res) as Hf1 by (eapply fitting_rely; [exact (rely_pause env w)|apply Hf; by left]).
      destruct (Hf1 v r Es El Em) as (t' & Ht' & Hv). by simplify_eq. }
  destruct (match w_tasks w2 !! r with Some t => _ | None => _ end); [|etrans; [exact H2|by apply Hrest]].
  assert (honest w (count_completion w2)) as H3 by (etrans; [exact H2|apply disc_quiet, quiet_count_completion]).
  etrans; [exact H3|by apply Hrest].
Qed.

(** The results of an honest worker fit the tasks of the batch. *)
Lemma results_fit batch w1 w2 rqs results m n who timeout :
  justified justifies (w_tasks w2) → rely w1 w2 →
  (∀ rq, rq ∈ rqs → request_of batch (w_tasks w2) rq) →
  (∀ i r, dict_lookup m i = Some r → ∃ t, w_tasks w1 !! r = Some t ∧ task_id t = i) →
  rpc env n who rqs timeout = RpcOk results →
  ∀ res, res ∈ results → fitting m (w_tasks w2) res.
Proof using HW HJ.
  intros [Hu _] H12 Hrq Hm Hrpc res Hres v r Hs Hl Hlk.
  destruct (honest_rpc n who rqs timeout results res Hrpc Hres Hs) as (rq & Hin & Hid & Hj).
  destruct (Hrq rq Hin) as (r' & t' & _ & Ht' & Hid' & Hd). destruct (Hm _ _ Hlk) as (t1 & Ht1 & Hid1).
  destruct (le_tasks _ _ (proj1 H12) r t1 Ht1) as [os Ht]. destruct (run_ops_frame t1 os) as (_ & E & _).
  assert (r' = r) as -> by (apply (Hu r' r t' (run_ops t1 os)); congruence).
  exists t'. split; [done|]. apply (Hj _ v); [|done]. rewrite <- Hd. apply json_round_trip.
Qed.

#[export] Instance honest_exchanges : Exchanges env honest.
Proof using HT HW HJ.
  intros p batch w. unfold exchange. etrans; [apply (stays_start_tasks env honest batch)|].
  set (w1 := start_tasks env batch w). pose proof (stays_build_requests env honest batch w1) as H1.
  pose proof (build_requests_of batch w1) as Hrq.
  destruct (build_requests env batch w1) as [rqs w2]; simpl in H1, Hrq. etrans; [exact H1|].
  destruct (_ <=?q _); [apply (stays_fail_tasks env honest)|].
  unfold process_rpc. set (w0 := update_proxy gw_rpc_begin p w2).
  set (w3 := update_proxy gw_rpc_end p (pause env w0)).
  assert (honest w2 w3) as H3.
  { etrans; [apply (stays_rpc_begin env honest p)|]. etrans; [apply (disc_pause (R := honest))|].
    apply (stays_rpc_end env honest p). }
  etrans; [exact H3|]. split; [|intros J].
  - destruct (rpc env _ _ _ _) as [results|code msg|ve msg];
      [|apply (stays_process_rpc_error env rely)|apply (stays_finish_tasks env rely)].
    pose proof (rely_apply_results env (task_map batch w1) results w3) as H.
    destruct (apply_results env _ results w3) as [w4 [msg|]]; simpl in *;
      (etrans; [exact H|]); [apply (stays_finish_tasks env rely)|apply (stays_fail_omitted env rely)].
  - destruct (rpc env _ _ _ _) as [results|code msg|ve msg] eqn:Erpc;
      [|by apply (stays_process_rpc_error env honest)|by apply (stays_finish_tasks env honest)].
    assert (honest w3 (apply_results env (task_map batch w1) results w3).1) as H.
    { apply honest_apply_results. eapply (results_fit batch w1 w3 rqs); [done|by etrans; [apply H1|apply H3]| | |exact Erpc].
      - intros rq Hin. eapply request_of_rely; [apply H3|by apply Hrq].
      - intros i r. unfold task_map. by apply task_map_id. }
    destruct (apply_results env _ results w3) as [w4 [msg|]]; simpl in *;
      [by apply (stays_finish_tasks env honest), H|by apply (stays_fail_omitted env honest), H].
Qed.

(** Every method of the pool and of its proxies keeps the completed tasks justified. *)
Theorem pool_keeps_answers_justified (p : pref) (batch : list tref) (r : tref) (wid : string)
    (snapshot : list (string * WorkerInfo)) (retry : bool) :
  honest_method (gw_submit env p batch) ∧ honest_method (λ w, (gw_loop_turn env p w).2) ∧
  honest_method (gw_stop_proxy env retry p) ∧ honest_method (λ w, (try_resubmit env r wid w).2) ∧
  honest_method (pool_submit_batch env batch) ∧ honest_method (update_workers env snapshot) ∧
  honest_method (pool_stop env).
Proof using HT HW HJ.
  split_and!; intros w;
    [apply (stays_gw_submit env honest)|apply (stays_gw_loop_turn env honest)|apply (stays_gw_stop_proxy env honest)
    |apply (stays_try_resubmit env honest)|apply (stays_pool_submit_batch env honest)
    |apply (stays_update_workers env honest)|apply (stays_pool_stop env honest)].
Qed.
End honesty.
