(* ===== verification/JobStore.v ===== *)
(** The durable job table: [src/system/job_store.py].  Every method runs one SQL
    statement in its own transaction, so a method is an atomic function on the
    table at the statement's [now()].  Times are integers of microseconds, the
    precision of [timestamptz].  The readings of [now()] are arguments and need
    not increase from one statement to the next: PostgreSQL fixes [now()] when the
    transaction starts, before it waits for row locks. *)
From S2P Require Import Prelude PyVal.

Inductive job_status := Queued | Running | Succeeded | Failed.

#[export] Instance job_status_eq_dec : EqDecision job_status.
Proof. solve_decision. Defined.

(** A row of [synthx.inference_jobs]. *)
Record job := mkJob {
  j_job_id : string;
  j_project_id : string;
  j_user_id : string;
  j_model : string;
  j_spec : pyval;
  j_spec_sha256 : string;
  j_status : job_status;
  j_attempt_id : option string;
  j_attempts : Z;
  j_lease_until : option Z;
  j_next_attempt_at : Z;
  j_deadline_at : Z;
  j_result : option pyval;
  j_error : option pyval;
  j_snapshot_id : option string;
  j_created_at : Z;
  j_updated_at : Z;
}.

(** The table, by primary key. *)
Abbreviation jobs := (gmap string job) (only parsing).

(** [now() + n * interval '1 second']. *)
Definition after_seconds (now n : Z) : Z := now + 1000000 * n.

(** The columns the statements assign; the others keep their values. *)
Definition job_set (j : job) (st : job_status) (attempt : option string) (attempts : Z)
    (lease : option Z) (next : Z) (result error : option pyval) (updated : Z) : job :=
  mkJob (j_job_id j) (j_project_id j) (j_user_id j) (j_model j) (j_spec j)
    (j_spec_sha256 j) st attempt attempts lease next (j_deadline_at j) result error
    (j_snapshot_id j) (j_created_at j) updated.

(** [get]. *)
Definition job_get (job_id : string) (db : jobs) : option job := db !! job_id.

(** ** [claim] *)

(** [lease_until <= now()], which is not true of a NULL lease. *)
Definition lease_expired (now : Z) (j : job) : bool :=
  match j_lease_until j with Some l => l <=? now | None => false end.

(** The candidate's [WHERE] clause. *)
Definition claimable (job_id : option string) (now : Z) (j : job) : bool :=
  match job_id with None => true | Some k => bool_decide (j_job_id j = k) end
  && (now <? j_deadline_at j)
  && ((bool_decide (j_status j = Queued) && (j_next_attempt_at j <=? now))
      || (bool_decide (j_status j = Running) && lease_expired now j)).

(** [ORDER BY next_attempt_at, created_at, job_id]. *)
Definition due_leb (a b : job) : bool :=
  (j_next_attempt_at a <? j_next_attempt_at b)
  || ((j_next_attempt_at a =? j_next_attempt_at b)
      && ((j_created_at a <? j_created_at b)
          || ((j_created_at a =? j_created_at b) && String.leb (j_job_id a) (j_job_id b)))).

Definition due_min (a : job) (b : option job) : option job :=
  match b with
  | None => Some a
  | Some b => Some (if due_leb a b then a else b)
  end.

(** [LIMIT 1] of the sorted rows that no other transaction has locked. *)
Definition candidate (job_id : option string) (locked : gset string) (now : Z) (db : jobs)
    : option job :=
  foldr due_min None
    (filter (λ j, claimable job_id now j && negb (bool_decide (j_job_id j ∈ locked)) = true)
       ((map_to_list db).*2)).

Definition claimed (attempt : string) (lease_seconds now : Z) (j : job) : job :=
  job_set j Running (Some attempt) (j_attempts j + 1)
    (Some (Z.min (after_seconds now lease_seconds) (j_deadline_at j)))
    (j_next_attempt_at j) (j_result j) (j_error j) now.

(** [attempt] is the identifier [uuid4] generated; [locked] are the rows skipped. *)
Definition job_claim (job_id : option string) (lease_seconds : Z) (attempt : string)
    (locked : gset string) (now : Z) (db : jobs) : option job * jobs :=
  match candidate job_id locked now db with
  | None => (None, db)
  | Some j =>
      let j' := claimed attempt lease_seconds now j in
      (Some j', <[j_job_id j := j']> db)
  end.

(** ** [renew], [complete], [defer] *)

(** The fence shared by the three statements. *)
Definition holds_lease (attempt : string) (now : Z) (j : job) : bool :=
  bool_decide (j_attempt_id j = Some attempt) && bool_decide (j_status j = Running)
  && match j_lease_until j with Some l => now <? l | None => false end
  && (now <? j_deadline_at j).

(** [UPDATE ... WHERE job_id=... AND fence], with [rowcount == 1]. *)
Definition fenced_update (job_id attempt : string) (now : Z) (f : job → job) (db : jobs)
    : bool * jobs :=
  match db !! job_id with
  | Some j => if holds_lease attempt now j then (true, <[job_id := f j]> db) else (false, db)
  | None => (false, db)
  end.

Definition job_renew (job_id attempt : string) (lease_seconds now : Z) : jobs → bool * jobs :=
  fenced_update job_id attempt now (λ j,
    job_set j (j_status j) (j_attempt_id j) (j_attempts j)
      (Some (Z.min (after_seconds now lease_seconds) (j_deadline_at j)))
      (j_next_attempt_at j) (j_result j) (j_error j) now).

(** [None] is SQL NULL; [status] depends on [error] alone. *)
Definition json_or_null (v : pyval) : option pyval :=
  match v with PyNone => None | _ => Some v end.

Definition job_complete (job_id attempt : string) (result error : pyval) (now : Z)
    : jobs → bool * jobs :=
  fenced_update job_id attempt now (λ j,
    job_set j (match error with PyNone => Succeeded | _ => Failed end)
      (j_attempt_id j) (j_attempts j) None (j_next_attempt_at j)
      (json_or_null result) (json_or_null error) now).

Definition job_defer (job_id attempt : string) (error : pyval) (retry_seconds now : Z)
    : jobs → bool * jobs :=
  fenced_update job_id attempt now (λ j,
    job_set j Queued (j_attempt_id j) (j_attempts j) None
      (after_seconds now retry_seconds) (j_result j) (Some error) now).

(** ** [expire_deadlines] *)

Definition deadline_passed (now : Z) (j : job) : bool :=
  (bool_decide (j_status j = Queued) || bool_decide (j_status j = Running))
  && (j_deadline_at j <=? now).

Definition deadline_error : pyval :=
  PyDict [("code", PyStr "deadline_exceeded"); ("message", PyStr "job deadline exceeded")]%string.

Definition expire_row (now : Z) (j : job) : job :=
  if deadline_passed now j then
    job_set j Failed (j_attempt_id j) (j_attempts j) None (j_next_attempt_at j)
      (j_result j) (Some deadline_error) now
  else j.

Definition expire_deadlines (now : Z) (db : jobs) : Z * jobs :=
  (py_len (filter (λ j, deadline_passed now j = true) ((map_to_list db).*2)),
   expire_row now <$> db).

(** ** Sequences of statements

    The statements of every gateway process that shares the database, in the order
    they commit. *)

Inductive job_op :=
| Claim (job_id : option string) (lease_seconds : Z) (attempt : string) (locked : gset string)
| Renew (job_id attempt : string) (lease_seconds : Z)
| Complete (job_id attempt : string) (result error : pyval)
| Defer (job_id attempt : string) (error : pyval) (retry_seconds : Z)
| Expire.

(** What the caller is told: the row claimed, the update's success, or a count. *)
Inductive job_reply := Row (j : option job) | Done (ok : bool) | Count (n : Z).

Definition job_stmt (now : Z) (o : job_op) (db : jobs) : job_reply * jobs :=
  match o with
  | Claim k secs a locked => let '(r, db) := job_claim k secs a locked now db in (Row r, db)
  | Renew k a secs => let '(b, db) := job_renew k a secs now db in (Done b, db)
  | Complete k a res err => let '(b, db) := job_complete k a res err now db in (Done b, db)
  | Defer k a err secs => let '(b, db) := job_defer k a err secs now db in (Done b, db)
  | Expire => let '(n, db) := expire_deadlines now db in (Count n, db)
  end.

Fixpoint job_run (os : list (Z * job_op)) (db : jobs) : list job_reply * jobs :=
  match os with
  | [] => ([], db)
  | (now, o) :: os' =>
      let '(r, db) := job_stmt now o db in
      let '(rs, db) := job_run os' db in (r :: rs, db)
  end.
