(* ===== verification/JobStoreFacts.v ===== *)
(** Properties of the job table: claiming picks the due row that waited longest,
    a lease is exclusive while it lives and fenced after it is lost, finished jobs
    are final, and at most one completion of a job is ever accepted — for every
    sequence of statements by any number of processes with any clock readings. *)
From S2P Require Import Prelude PyVal JobStore.

(** ** The row invariant *)

Definition job_wf (j : job) : Prop :=
  match j_status j with
  | Running => is_Some (j_attempt_id j) ∧ ∃ l, j_lease_until j = Some l ∧ l <= j_deadline_at j
  | _ => j_lease_until j = None
  end.

Definition jobs_wf (db : jobs) : Prop :=
  ∀ k j, db !! k = Some j → j_job_id j = k ∧ job_wf j.

(** ** Claim order *)

Lemma due_leb_total a b : due_leb a b = true ∨ due_leb b a = true.
Proof.
  unfold due_leb. destruct (String.leb_total (j_job_id a) (j_job_id b)) as [E|E]; rewrite E;
    destruct (Z.lt_trichotomy (j_next_attempt_at a) (j_next_attempt_at b)) as [?|[?|?]];
    destruct (Z.lt_trichotomy (j_created_at a) (j_created_at b)) as [?|[?|?]];
    rewrite ?orb_true_iff, ?andb_true_iff, ?Z.ltb_lt, ?Z.eqb_eq; intuition (auto; lia).
Qed.

Lemma due_leb_trans a b c : due_leb a b = true → due_leb b c = true → due_leb a c = true.
Proof.
  unfold due_leb. rewrite !orb_true_iff, !andb_true_iff, !orb_true_iff, !andb_true_iff,
    !Z.ltb_lt, !Z.eqb_eq.
  assert (String.leb (j_job_id a) (j_job_id b) = true →
          String.leb (j_job_id b) (j_job_id c) = true →
          String.leb (j_job_id a) (j_job_id c) = true) as Ht.
  { intros H1 H2. apply Is_true_true. change (String.le (j_job_id a) (j_job_id c)).
    etrans; apply Is_true_true; [exact H1|exact H2]. }
  intros [?|[? [?|[? ?]]]] [?|[? [?|[? ?]]]]; try (left; lia); right;
    (split; [lia|]); try (left; lia). right. split; [lia|auto].
Qed.

Lemma due_leb_refl a : due_leb a a = true.
Proof. by destruct (due_leb_total a a). Qed.

Lemma foldr_due_min l j :
  foldr due_min None l = Some j → j ∈ l ∧ ∀ i, i ∈ l → due_leb j i = true.
Proof.
  revert j. induction l as [|x l IH]; intros j; simpl; [done|].
  destruct (foldr due_min None l) as [y|] eqn:E; simpl; intros [= <-].
  - destruct (IH y eq_refl) as [Hy Hmin]. destruct (due_leb x y) eqn:Exy.
    + split; [by left|]. intros i [->|Hi]%elem_of_cons; [apply due_leb_refl|].
      eapply due_leb_trans; [exact Exy|auto].
    + split; [by right|]. intros i [->|Hi]%elem_of_cons; [|auto].
      destruct (due_leb_total x y); congruence.
  - assert (l = []) as ->.
    { destruct l as [|z l]; [done|]. simpl in E. by destruct (foldr due_min None l). }
    split; [by left|]. intros i Hi. apply list_elem_of_singleton in Hi as ->. apply due_leb_refl.
Qed.

Lemma foldr_due_min_None l : foldr due_min None l = None → l = [].
Proof. destruct l as [|x l]; [done|]. simpl. by destruct (foldr due_min None l). Qed.

(** ** Candidates *)

Definition eligible (job_id : option string) (locked : gset string) (now : Z) (db : jobs)
    (k : string) (j : job) : Prop :=
  db !! k = Some j ∧ claimable job_id now j = true ∧ j_job_id j ∉ locked.

Lemma candidate_pool job_id locked now (db : jobs) j :
  j ∈ filter (λ j, claimable job_id now j && negb (bool_decide (j_job_id j ∈ locked)) = true)
        ((map_to_list db).*2) ↔ ∃ k, eligible job_id locked now db k j.
Proof.
  rewrite list_elem_of_filter, list_elem_of_fmap, andb_true_iff, negb_true_iff,
    bool_decide_eq_false. unfold eligible. split.
  - intros [[? ?] ([k j'] & -> & Hin%elem_of_map_to_list)]. eauto.
  - intros (k & Hk & ? & ?). split; [done|]. exists (k, j). split; [done|].
    by apply elem_of_map_to_list.
Qed.

Lemma candidate_spec job_id locked now db :
  match candidate job_id locked now db with
  | Some j => (∃ k, eligible job_id locked now db k j) ∧
      ∀ k' j', eligible job_id locked now db k' j' → due_leb j j' = true
  | None => ∀ k j, ¬ eligible job_id locked now db k j
  end.
Proof.
  unfold candidate. destruct (foldr due_min None _) as [j|] eqn:E.
  - apply foldr_due_min in E as [Hj Hmin]. rewrite candidate_pool in Hj. split; [done|].
    intros k' j' H. apply Hmin, candidate_pool. eauto.
  - apply foldr_due_min_None in E. intros k j H.
    assert (j ∈ @nil job) as Hn; [|by apply not_elem_of_nil in Hn].
    rewrite <- E. apply candidate_pool. eauto.
Qed.

(** [claim] takes exactly one due row and the right one: it answers with no row
    iff no row is eligible; otherwise the row it takes is eligible — before its
    deadline, and queued and due or running with a lease that has run out, never
    one with a live lease — and comes first by (next attempt, creation, id) among
    all eligible rows that are not locked; that row becomes running under the new
    attempt with one more attempt and a lease that ends in the future, at or before
    the deadline; and no other row changes. *)
Theorem claim_takes_first_due (job_id : option string) (secs : Z) (attempt : string)
    (locked : gset string) (now : Z) (db : jobs) :
  jobs_wf db → 0 < secs →
  match job_claim job_id secs attempt locked now db with
  | (None, db') => db' = db ∧ ∀ k j, ¬ eligible job_id locked now db k j
  | (Some j', db') => ∃ k j,
      eligible job_id locked now db k j ∧
      (∀ k2 j2, eligible job_id locked now db k2 j2 → due_leb j j2 = true) ∧
      holds_lease attempt now j' = true ∧ j_attempts j' = j_attempts j + 1 ∧
      (∃ l, j_lease_until j' = Some l ∧ now < l <= j_deadline_at j') ∧
      (j_job_id j', j_spec j', j_spec_sha256 j', j_deadline_at j') =
        (k, j_spec j, j_spec_sha256 j, j_deadline_at j) ∧
      db' = <[k := j']> db
  end.
Proof.
  intros Hwf Hs. unfold job_claim. pose proof (candidate_spec job_id locked now db) as H.
  destruct (candidate job_id locked now db) as [j|]; [|done].
  destruct H as [[k Hk] Hmin]. exists k, j. destruct (Hwf k j (proj1 Hk)) as [Hid _].
  assert (now < j_deadline_at j) as Hd.
  { destruct Hk as (_ & Hc & _). unfold claimable in Hc.
    rewrite !andb_true_iff, Z.ltb_lt in Hc. tauto. }
  assert (now < Z.min (after_seconds now secs) (j_deadline_at j) <= j_deadline_at j) as Hl.
  { unfold after_seconds. lia. }
  split_and!; try done.
  - unfold holds_lease. simpl. rewrite !bool_decide_eq_true_2 by done. simpl.
    apply andb_true_iff. rewrite !Z.ltb_lt. tauto.
  - eexists. split; [done|exact Hl].
  - simpl. by rewrite Hid.
  - by rewrite <- Hid.
Qed.

(** ** What one statement does to one row *)

(** [mine o k a]: the statement presents attempt [a] for row [k]. *)
Definition mine (o : job_op) (k a : string) : bool :=
  match o with
  | Renew k' a' _ | Complete k' a' _ _ | Defer k' a' _ _ =>
      bool_decide (k' = k) && bool_decide (a' = a)
  | _ => false
  end.

Definition claims_as (o : job_op) (a : string) : bool :=
  match o with Claim _ _ a' _ => bool_decide (a' = a) | _ => false end.

(** [result], [error] of a completion. *)
Definition completed (result error : pyval) (j j' : job) : Prop :=
  j_status j' = (match error with PyNone => Succeeded | _ => Failed end) ∧
  j_result j' = json_or_null result ∧ j_error j' = json_or_null error.

(** The row changes of the statements: none, a claim of a claimable row, an
    update by the lease's holder, or the deadline. *)
Inductive row_step (now : Z) (o : job_op) (k : string) (j : job) : job_reply → job → Prop :=
| row_same r : (∀ a, mine o k a = true → r = Done false) → row_step now o k j r j
| row_claim kid secs a locked j' :
    o = Claim kid secs a locked → claimable kid now j = true →
    j' = claimed a secs now j → row_step now o k j (Row (Some j')) j'
| row_fenced a f :
    mine o k a = true → holds_lease a now j = true →
    (∀ result error, o = Complete k a result error → completed result error j (f j)) →
    j_attempt_id (f j) = j_attempt_id j → j_deadline_at (f j) = j_deadline_at j →
    (job_wf (f j)) → j_job_id (f j) = j_job_id j → row_step now o k j (Done true) (f j)
| row_expire n :
    o = Expire → deadline_passed now j = true →
    row_step now o k j (Count n) (expire_row now j).

Lemma fenced_update_spec k a now f db :
  let '(ok, db') := fenced_update k a now f db in
  if ok then ∃ j, db !! k = Some j ∧ holds_lease a now j = true ∧ db' = <[k := f j]> db
  else db' = db ∧ ∀ j, db !! k = Some j → holds_lease a now j = false.
Proof.
  unfold fenced_update. destruct (db !! k) as [j|] eqn:E; [|done].
  destruct (holds_lease a now j) eqn:Eh; [eauto|]. split; [done|]. intros ? [= <-]. done.
Qed.

Lemma holds_lease_true a now j :
  holds_lease a now j = true ↔
  j_attempt_id j = Some a ∧ j_status j = Running ∧
  (∃ l, j_lease_until j = Some l ∧ now < l) ∧ now < j_deadline_at j.
Proof.
  unfold holds_lease. rewrite !andb_true_iff, !bool_decide_eq_true, Z.ltb_lt.
  destruct (j_lease_until j) as [l|]; rewrite ?Z.ltb_lt; naive_solver.
Qed.

(** The three fenced statements at one row. *)
Lemma row_of_fenced now o k0 a f db k j :
  (∀ k' a', mine o k' a' = true → k' = k0 ∧ a' = a) → mine o k0 a = true →
  (∀ j result error, o = Complete k0 a result error → completed result error j (f j)) →
  (∀ j, holds_lease a now j = true → job_wf (f j)) →
  (∀ j, j_attempt_id (f j) = j_attempt_id j ∧ j_deadline_at (f j) = j_deadline_at j ∧
        j_job_id (f j) = j_job_id j) →
  db !! k = Some j →
  let '(ok, db') := fenced_update k0 a now f db in
  ∃ j', db' !! k = Some j' ∧ row_step now o k j (Done ok) j'.
Proof.
  intros Hm Hm0 Hc Hw Hf Hk. pose proof (fenced_update_spec k0 a now f db) as H.
  destruct (fenced_update k0 a now f db) as [[] db'].
  - destruct H as (j0 & Hj0 & Hh & ->). destruct (decide (k0 = k)) as [<-|Hne].
    + rewrite lookup_insert_eq. simplify_eq. eexists. split; [done|].
      destruct (Hf j) as (? & ? & ?). eapply row_fenced; eauto.
    + rewrite lookup_insert_ne by done. exists j. split; [done|].
      apply row_same. intros a' Ha. by destruct (Hm k a' Ha) as [-> _].
  - destruct H as [-> _]. exists j. split; [done|]. by apply row_same.
Qed.

Lemma mine_iff o k a :
  mine o k a = true ↔
  match o with
  | Renew k' a' _ | Complete k' a' _ _ | Defer k' a' _ _ => k' = k ∧ a' = a
  | _ => False
  end.
Proof. destruct o; simpl; rewrite ?andb_true_iff, ?bool_decide_eq_true; done. Qed.

Lemma job_stmt_row now o db k j :
  jobs_wf db → db !! k = Some j →
  let '(r, db') := job_stmt now o db in
  ∃ j', db' !! k = Some j' ∧ row_step now o k j r j'.
Proof.
  intros Hwf Hk. destruct o as [kid secs a locked|k0 a secs|k0 a res err|k0 a err secs|]; simpl.
  - unfold job_claim. pose proof (candidate_spec kid locked now db) as H.
    destruct (candidate kid locked now db) as [jc|].
    + destruct H as [[kc (Hkc & Hcl & _)] _]. destruct (Hwf kc jc Hkc) as [Hid _].
      rewrite Hid. destruct (decide (kc = k)) as [->|Hne].
      * rewrite lookup_insert_eq. simplify_eq. eexists. split; [done|]. by eapply row_claim.
      * rewrite lookup_insert_ne by done. exists j. split; [done|]. by apply row_same.
    + exists j. split; [done|]. by apply row_same.
  - pose proof (row_of_fenced now (Renew k0 a secs) k0 a (λ j,
      job_set j (j_status j) (j_attempt_id j) (j_attempts j)
        (Some (Z.min (after_seconds now secs) (j_deadline_at j)))
        (j_next_attempt_at j) (j_result j) (j_error j) now) db k j) as H.
    change (fenced_update _ _ _ _ db) with (job_renew k0 a secs now db) in H.
    destruct (job_renew k0 a secs now db) as [ok db']. apply H; try done.
    + intros k' a' Hm%mine_iff. naive_solver.
    + by apply mine_iff.
    + intros j0 (Ha & Hs & _)%holds_lease_true. unfold job_wf. simpl. rewrite Hs, Ha.
      split; [by eexists|]. eexists. split; [done|]. lia.
  - pose proof (row_of_fenced now (Complete k0 a res err) k0 a (λ j,
      job_set j (match err with PyNone => Succeeded | _ => Failed end)
        (j_attempt_id j) (j_attempts j) None (j_next_attempt_at j)
        (json_or_null res) (json_or_null err) now) db k j) as H.
    change (fenced_update _ _ _ _ db) with (job_complete k0 a res err now db) in H.
    destruct (job_complete k0 a res err now db) as [ok db']. apply H; try done.
    + intros k' a' Hm%mine_iff. naive_solver.
    + by apply mine_iff.
    + intros j0 r e [= <- <-]. done.
    + intros j0 _. unfold job_wf. simpl. by destruct err.
  - pose proof (row_of_fenced now (Defer k0 a err secs) k0 a (λ j,
      job_set j Queued (j_attempt_id j) (j_attempts j) None
        (after_seconds now secs) (j_result j) (Some err) now) db k j) as H.
    change (fenced_update _ _ _ _ db) with (job_defer k0 a err secs now db) in H.
    destruct (job_defer k0 a err secs now db) as [ok db']. apply H; try done.
    + intros k' a' Hm%mine_iff. naive_solver.
    + by apply mine_iff.
  - rewrite lookup_fmap, Hk. simpl. eexists. split; [done|].
    destruct (deadline_passed now j) eqn:E; [by apply row_expire|].
    unfold expire_row. rewrite E. by apply row_same.
Qed.

Lemma job_stmt_none now o db k :
  jobs_wf db → db !! k = None → (job_stmt now o db).2 !! k = None ∧
  ∀ a, mine o k a = true → (job_stmt now o db).1 = Done false.
Proof.
  intros Hwf Hk. assert (∀ k0 a f, (fenced_update k0 a now f db).2 !! k = None ∧
    (k0 = k → (fenced_update k0 a now f db).1 = false)) as Hf.
  { intros k0 a f. unfold fenced_update. destruct (db !! k0) as [j0|] eqn:E; [|done].
    split; [|congruence]. destruct (holds_lease a now j0); simpl; [|done].
    rewrite lookup_insert_ne; congruence. }
  destruct o as [kid secs a locked|k0 a secs|k0 a res err|k0 a err secs|]; simpl.
  - split; [|done]. unfold job_claim. pose proof (candidate_spec kid locked now db) as H.
    destruct (candidate kid locked now db) as [jc|]; simpl; [|done].
    destruct H as [[kc (Hkc & _)] _]. destruct (Hwf kc jc Hkc) as [-> _].
    rewrite lookup_insert_ne; congruence.
  - unfold job_renew. match goal with |- context [fenced_update k0 a now ?f db] =>
      destruct (Hf k0 a f) as [H1 H2]; destruct (fenced_update k0 a now f db) as [b db'] end.
    simpl in *. split; [done|]. intros a' Hm.
    apply andb_true_iff in Hm as [->%bool_decide_eq_true _]. by rewrite H2.
  - unfold job_complete. match goal with |- context [fenced_update k0 a now ?f db] =>
      destruct (Hf k0 a f) as [H1 H2]; destruct (fenced_update k0 a now f db) as [b db'] end.
    simpl in *. split; [done|]. intros a' Hm.
    apply andb_true_iff in Hm as [->%bool_decide_eq_true _]. by rewrite H2.
  - unfold job_defer. match goal with |- context [fenced_update k0 a now ?f db] =>
      destruct (Hf k0 a f) as [H1 H2]; destruct (fenced_update k0 a now f db) as [b db'] end.
    simpl in *. split; [done|]. intros a' Hm.
    apply andb_true_iff in Hm as [->%bool_decide_eq_true _]. by rewrite H2.
  - by rewrite lookup_fmap, Hk.
Qed.

Lemma row_step_wf now o k j r j' :
  row_step now o k j r j' → job_wf j → job_wf j' ∧ j_job_id j' = j_job_id j.
Proof.
  destruct 1 as [r|kid secs a locked j' -> Hc ->|a f Hm Hh Hcomp Ha Hd Hw Hid|n -> Hd]; intros Hj.
  - done.
  - split; [|done]. unfold job_wf. simpl. split; [by eexists|]. eexists. split; [done|lia].
  - by split.
  - unfold expire_row. rewrite Hd. done.
Qed.

Lemma job_stmt_wf now o db : jobs_wf db → jobs_wf (job_stmt now o db).2.
Proof.
  intros Hwf k j' Hk'. destruct (db !! k) as [j|] eqn:Hk.
  - pose proof (job_stmt_row now o db k j Hwf Hk) as H.
    destruct (job_stmt now o db) as [r db']. destruct H as (j2 & Hj2 & Hstep). simpl in *.
    simplify_eq. destruct (Hwf k j Hk) as [Hid Hj].
    destruct (row_step_wf _ _ _ _ _ _ Hstep Hj) as [? ->]. done.
  - destruct (job_stmt_none now o db k Hwf Hk) as [H _]. congruence.
Qed.

(** ** Runs *)

Lemma job_run_wf os db : jobs_wf db → jobs_wf (job_run os db).2.
Proof.
  revert db. induction os as [|[now o] os IH]; intros db Hwf; simpl; [done|].
  pose proof (job_stmt_wf now o db Hwf) as H. destruct (job_stmt now o db) as [r db1].
  specialize (IH db1 H). by destruct (job_run os db1).
Qed.

(** A row property every statement of the run keeps holds at the end. *)
Lemma job_run_row (P : job → Prop) os db k j :
  (∀ now o j r j', (now, o) ∈ os → row_step now o k j r j' → P j → P j') →
  jobs_wf db → db !! k = Some j → P j →
  ∃ j', (job_run os db).2 !! k = Some j' ∧ P j'.
Proof.
  revert db j. induction os as [|[now o] os IH]; intros db j HP Hwf Hk Hj; simpl; [eauto|].
  pose proof (job_stmt_row now o db k j Hwf Hk) as H.
  pose proof (job_stmt_wf now o db Hwf) as Hwf1.
  destruct (job_stmt now o db) as [r db1]. destruct H as (j1 & Hk1 & Hs).
  destruct (IH db1 j1) as (j' & Hk' & Hj'); [|done|done| |].
  - intros; eapply HP; [by right|done|done].
  - eapply HP; [by left|done|done].
  - exists j'. by destruct (job_run os db1).
Qed.

Definition terminal (j : job) : Prop := j_status j = Succeeded ∨ j_status j = Failed.

Lemma row_step_terminal now o k j r j' : row_step now o k j r j' → terminal j → j' = j.
Proof.
  destruct 1 as [r|kid secs a locked j' -> Hc ->|a f Hm Hh Hcomp Ha Hd Hw Hid|n -> Hd];
    intros Hj; [done| | |].
  - exfalso. unfold claimable in Hc. rewrite !andb_true_iff, orb_true_iff, !andb_true_iff,
      !bool_decide_eq_true in Hc.
    destruct Hc as [_ [[Hs _]|[Hs _]]], Hj; congruence.
  - exfalso. apply holds_lease_true in Hh as (_ & Hs & _). destruct Hj; congruence.
  - exfalso. unfold deadline_passed in Hd. rewrite andb_true_iff, orb_true_iff,
      !bool_decide_eq_true in Hd. destruct Hd as [[Hs|Hs] _], Hj; congruence.
Qed.

(** The completions of the job [k] that were answered with success. *)
Fixpoint completions (k : string) (os : list (Z * job_op)) (rs : list job_reply)
    : list (pyval * pyval) :=
  match os, rs with
  | (_, Complete k' _ result error) :: os', Done true :: rs' =>
      if bool_decide (k' = k) then (result, error) :: completions k os' rs'
      else completions k os' rs'
  | _ :: os', _ :: rs' => completions k os' rs'
  | _, _ => []
  end.

Lemma completions_cons k now o os r rs :
  completions k ((now, o) :: os) (r :: rs) =
  match o, r with
  | Complete k' _ result error, Done true =>
      if bool_decide (k' = k) then (result, error) :: completions k os rs else completions k os rs
  | _, _ => completions k os rs
  end.
Proof. by destruct o, r as [|[]|]. Qed.

Lemma row_step_complete now k a result error j r j' :
  row_step now (Complete k a result error) k j r j' → r = Done true →
  completed result error j j'.
Proof.
  inversion 1 as [r0 Hf|kid secs a0 locked j0 E|a0 f Hm Hh Hcomp|n E]; intros Hr; subst; try done.
  - specialize (Hf a ltac:(apply mine_iff; done)). done.
  - apply Hcomp. apply mine_iff in Hm as [_ ->]. done.
Qed.

Lemma completed_terminal result error j j' : completed result error j j' → terminal j'.
Proof. intros (H & _). unfold terminal. rewrite H. destruct error; auto. Qed.

Lemma no_completion_when_terminal os db k j :
  jobs_wf db → db !! k = Some j → terminal j →
  completions k os (job_run os db).1 = [] ∧ (job_run os db).2 !! k = Some j.
Proof.
  revert db. induction os as [|[now o] os IH]; intros db Hwf Hk Ht; [done|]. simpl job_run.
  pose proof (job_stmt_row now o db k j Hwf Hk) as H.
  pose proof (job_stmt_wf now o db Hwf) as Hwf1.
  destruct (job_stmt now o db) as [r db1]. destruct H as (j1 & Hk1 & Hs). simpl in Hwf1.
  pose proof (row_step_terminal _ _ _ _ _ _ Hs Ht) as ->.
  destruct (IH db1 Hwf1 Hk1 Ht) as [H1 H2].
  destruct (job_run os db1) as [rs db2]; simpl fst in *; simpl snd in *.
  rewrite completions_cons, H1. split; [|done].
  destruct o as [| |k' a res err| |]; try done. destruct r as [|[]|]; try done.
  case_bool_decide as Ek; [|done]. subst. exfalso.
  pose proof (row_step_complete _ _ _ _ _ _ _ _ Hs eq_refl) as Hc.
  inversion Hs as [r0 Hf| |a0 f Hm Hh|]; subst.
  - specialize (Hf a ltac:(apply mine_iff; done)). done.
  - apply holds_lease_true in Hh as (_ & Hst & _). destruct Ht; congruence.
Qed.

(** At most one completion of a job is ever accepted, whichever processes send
    the statements, in whatever order and with whatever clock readings, and an
    accepted completion is the job's final outcome: the row ends succeeded iff it
    carried no error, holding exactly the result and error it carried. *)
Theorem one_completion_wins (os : list (Z * job_op)) (db : jobs) (k : string) :
  jobs_wf db →
  let '(rs, db') := job_run os db in
  (length (completions k os rs) ≤ 1)%nat ∧
  ∀ result error, (result, error) ∈ completions k os rs →
    ∃ j j', db' !! k = Some j' ∧ completed result error j j'.
Proof.
  revert db. induction os as [|[now o] os IH]; intros db Hwf.
  { simpl. split; [lia|]. by intros ? ? ?%not_elem_of_nil. }
  simpl job_run. destruct (db !! k) as [j|] eqn:Hk.
  - pose proof (job_stmt_row now o db k j Hwf Hk) as H.
    pose proof (job_stmt_wf now o db Hwf) as Hwf1.
    destruct (job_stmt now o db) as [r db1]. destruct H as (j1 & Hk1 & Hs). simpl in Hwf1.
    specialize (IH db1 Hwf1). pose proof (no_completion_when_terminal os db1 k j1 Hwf1 Hk1) as Hn.
    destruct (job_run os db1) as [rs db2]. simpl fst in Hn. simpl snd in Hn.
    rewrite completions_cons.
    destruct o as [| |k' a res err| |]; try done. destruct r as [|[]|]; try done.
    case_bool_decide as Ek; [subst|done].
    pose proof (row_step_complete _ _ _ _ _ _ _ _ Hs eq_refl) as Hc.
    destruct (Hn (completed_terminal _ _ _ _ Hc)) as [-> Hk2]. split; [simpl; lia|].
    intros result error Hin%list_elem_of_singleton. simplify_eq. eauto.
  - destruct (job_stmt_none now o db k Hwf Hk) as [Hk1 Hr].
    pose proof (job_stmt_wf now o db Hwf) as Hwf1.
    destruct (job_stmt now o db) as [r db1]. simpl fst in *; simpl snd in *.
    specialize (IH db1 Hwf1). destruct (job_run os db1) as [rs db2]. rewrite completions_cons.
    destruct o as [| |k' a res err| |]; try done. destruct r as [|[]|]; try done.
    case_bool_decide as Ek; [subst|done].
    specialize (Hr a ltac:(apply mine_iff; done)). done.
Qed.

(** A finished job is final: no sequence of statements changes anything in the
    row of a succeeded or failed job, not even its update time. *)
Theorem finished_job_is_final (os : list (Z * job_op)) (db : jobs) (k : string) (j : job) :
  jobs_wf db → db !! k = Some j → terminal j → (job_run os db).2 !! k = Some j.
Proof. intros Hwf Hk Ht. by apply no_completion_when_terminal. Qed.

(** A live lease is exclusive: while the clocks of the statements are before the
    lease's end, nothing but a statement of the attempt that holds it changes the
    row — it is not claimed again, not renewed, completed or deferred by others,
    and not expired. *)
Theorem live_lease_is_exclusive (os : list (Z * job_op)) (db : jobs) (k a : string)
    (j : job) (l : Z) :
  jobs_wf db → db !! k = Some j → j_status j = Running → j_attempt_id j = Some a →
  j_lease_until j = Some l →
  (∀ now o, (now, o) ∈ os → now < l ∧ mine o k a = false) →
  (job_run os db).2 !! k = Some j.
Proof.
  intros Hwf Hk Hr Ha Hl Hos.
  assert (l <= j_deadline_at j) as Hd.
  { destruct (Hwf k j Hk) as [_ Hj]. unfold job_wf in Hj. rewrite Hr, Hl in Hj.
    destruct Hj as (_ & l' & [= ->] & ?). done. }
  destruct (job_run_row (λ j', j' = j) os db k j) as (j' & Hj' & ->); try done.
  intros now o j0 r j' Hin Hs ->. destruct (Hos now o Hin) as [Hnow Hm].
  inversion Hs as [r0 Hf|kid secs a0 locked j1 E Hc E2|a0 f Hm0 Hh|n E Hdl]; subst; try done.
  - exfalso. unfold claimable, lease_expired in Hc. rewrite Hl, Hr in Hc.
    rewrite (bool_decide_eq_false_2 (Running = Queued)) in Hc by done.
    rewrite (proj2 (Z.leb_gt l now)) in Hc by lia. rewrite !andb_false_r in Hc. done.
  - exfalso. apply holds_lease_true in Hh as (Ha0 & _). congruence.
  - exfalso. unfold deadline_passed in Hdl. rewrite (proj2 (Z.leb_gt _ now)) in Hdl by lia.
    by rewrite andb_false_r in Hdl.
Qed.

(** Every answer to a statement of attempt [a] for [k] is a refusal. *)
Fixpoint all_refused (k a : string) (os : list (Z * job_op)) (rs : list job_reply) : Prop :=
  match os, rs with
  | (_, o) :: os', r :: rs' => (mine o k a = true → r = Done false) ∧ all_refused k a os' rs'
  | _, _ => True
  end.

(** A lost lease is fenced for ever: once the row carries another attempt (or
    none), every later renewal, completion or deferral by the old attempt is
    refused, as long as no claim reuses its identifier. *)
Theorem stale_attempt_is_fenced (os : list (Z * job_op)) (db : jobs) (k a : string) (j : job) :
  jobs_wf db → db !! k = Some j → j_attempt_id j ≠ Some a →
  (∀ now o, (now, o) ∈ os → claims_as o a = false) →
  all_refused k a os (job_run os db).1 ∧
  ∃ j', (job_run os db).2 !! k = Some j' ∧ j_attempt_id j' ≠ Some a.
Proof.
  revert db j. induction os as [|[now o] os IH]; intros db j Hwf Hk Ha Hos.
  { split; [done|eauto]. }
  simpl job_run. pose proof (job_stmt_row now o db k j Hwf Hk) as H.
  pose proof (job_stmt_wf now o db Hwf) as Hwf1.
  destruct (job_stmt now o db) as [r db1]. destruct H as (j1 & Hk1 & Hs). simpl in Hwf1.
  assert (j_attempt_id j1 ≠ Some a) as Ha1.
  { inversion Hs as [|kid secs a0 locked j2 E Hc E2|a0 f Hm0 Hh|n E Hdl]; subst; try done.
    - specialize (Hos now (Claim kid secs a0 locked) ltac:(by left)). simpl in *.
      apply bool_decide_eq_false in Hos. congruence.
    - congruence.
    - unfold expire_row. by rewrite Hdl. }
  assert (mine o k a = true → r = Done false) as Href.
  { intros Hm. inversion Hs as [r0 Hf|kid secs a0 locked j2 E Hc E2|a0 f Hm0 Hh|n E Hdl];
      subst; try done; [by apply (Hf a)|].
    exfalso. apply holds_lease_true in Hh as (Ha0 & _).
    apply mine_iff in Hm, Hm0. destruct o; naive_solver. }
  destruct (IH db1 j1 Hwf1 Hk1 Ha1) as [H1 H2]; [intros; eapply Hos; by right|].
  destruct (job_run os db1) as [rs db2]. by split; [split|].
Qed.

(** The table stays well formed through any run: a running row has an attempt
    and a lease that ends no later than its deadline, a row in any other state has
    no lease, and rows keep their key. *)
Theorem job_table_invariant (os : list (Z * job_op)) (db : jobs) :
  jobs_wf db → jobs_wf (job_run os db).2.
Proof. apply job_run_wf. Qed.

(** ** A concrete table: one queued job and one whose lease ran out at 50. *)

Definition sample_job (id : string) (st : job_status) (attempt : option string)
    (lease : option Z) (next : Z) : job :=
  mkJob id "p" "u" "v7_3_full" (PyDict []) "sha" st attempt 0 lease next 1000000000 None None
    None 0 0.

Definition sample_jobs : jobs :=
  <["j1" := sample_job "j1" Queued None None 40]>
    (<["j2" := sample_job "j2" Running (Some "a0") (Some 50) 10]> ∅)%string.

Lemma sample_jobs_wf : jobs_wf sample_jobs.
Proof.
  intros k j Hk. unfold sample_jobs in Hk.
  apply lookup_insert_Some in Hk as [[<- <-]|[_ Hk]]; [done|].
  apply lookup_insert_Some in Hk as [[<- <-]|[_ Hk]]; [|by rewrite lookup_empty in Hk].
  split; [done|]. split; [by eexists|]. exists 50. split; [done|]. simpl. lia.
Qed.

(** Reclaim [j2]; its old attempt completes too late, the new one in time. *)
Definition sample_run : list (Z * job_op) :=
  [(60, Claim None 100 "a1" ∅); (70, Complete "j2" "a0" PyNone PyNone);
   (80, Complete "j2" "a1" (PyInt 7) PyNone); (90, Complete "j2" "a1" (PyInt 8) PyNone)]%string.

Lemma claim_takes_first_due_witness :
  ∃ k j, eligible None ∅ 60 sample_jobs k j ∧
    (job_claim None 100 "a1" ∅ 60 sample_jobs).2
      = <[k := claimed "a1" 100 60 j]> sample_jobs.
Proof.
  pose proof (claim_takes_first_due None 100 "a1" ∅ 60 sample_jobs sample_jobs_wf ltac:(lia)) as H.
  assert (job_claim None 100 "a1" ∅ 60 sample_jobs =
    (Some (claimed "a1" 100 60 (sample_job "j2" Running (Some "a0") (Some 50) 10)),
     <["j2" := claimed "a1" 100 60 (sample_job "j2" Running (Some "a0") (Some 50) 10)]>
       sample_jobs)%string) as E by (vm_compute; reflexivity).
  rewrite E in *. destruct H as (k & j & He & _ & _ & _ & _ & _ & E2).
  exists "j2"%string, (sample_job "j2" Running (Some "a0") (Some 50) 10).
  split; [|reflexivity].
  split; [vm_compute; reflexivity|]. split; [vm_compute; reflexivity|apply not_elem_of_empty].
Defined.

Lemma one_completion_wins_witness :
  completions "j2" sample_run (job_run sample_run sample_jobs).1 = [(PyInt 7, PyNone)] ∧
  (length (completions "j2" sample_run (job_run sample_run sample_jobs).1) ≤ 1)%nat.
Proof.
  split; [vm_compute; reflexivity|].
  pose proof (one_completion_wins sample_run sample_jobs "j2" sample_jobs_wf) as H.
  destruct (job_run sample_run sample_jobs) as [rs db']. exact (proj1 H).
Defined.

Lemma finished_job_is_final_witness :
  (job_run sample_run (<["j3" := sample_job "j3" Failed None None 0]> ∅)).2 !! "j3"
    = Some (sample_job "j3" Failed None None 0).
Proof.
  apply (finished_job_is_final sample_run (<["j3"%string := sample_job "j3" Failed None None 0]> ∅)
    "j3" (sample_job "j3" Failed None None 0)).
  - intros k j Hk. apply lookup_insert_Some in Hk as [[<- <-]|[_ Hk]]; [done|].
    by rewrite lookup_empty in Hk.
  - reflexivity.
  - by right.
Defined.

Lemma live_lease_is_exclusive_witness :
  (job_run [(20, Claim None 100 "a1" ∅); (30, Expire)] sample_jobs).2 !! "j2"%string
    = Some (sample_job "j2" Running (Some "a0"%string) (Some 50) 10).
Proof.
  apply (live_lease_is_exclusive [(20, Claim None 100 "a1" ∅); (30, Expire)] sample_jobs "j2" "a0"
    (sample_job "j2" Running (Some "a0"%string) (Some 50) 10) 50 sample_jobs_wf);
    [reflexivity..|].
  intros now o Hin.
  apply elem_of_cons in Hin as [[= -> ->]|[[= -> ->]|Hin%not_elem_of_nil]%elem_of_cons];
    [split; [lia|reflexivity]..|done].
Defined.

Lemma stale_attempt_is_fenced_witness :
  all_refused "j1" "a9" [(60, Complete "j1" "a9" PyNone PyNone)]%string
    (job_run [(60, Complete "j1" "a9" PyNone PyNone)]%string sample_jobs).1.
Proof.
  apply (stale_attempt_is_fenced [(60, Complete "j1" "a9" PyNone PyNone)]%string sample_jobs
    "j1" "a9" (sample_job "j1" Queued None None 40) sample_jobs_wf); [reflexivity|done|].
  intros now o [= -> ->]%list_elem_of_singleton. reflexivity.
Defined.

Lemma job_table_invariant_witness : jobs_wf (job_run sample_run sample_jobs).2.
Proof. apply (job_table_invariant sample_run sample_jobs sample_jobs_wf). Defined.
