(* ===== verification/JobGateway.v ===== *)
(** The durable-job gateway, [src/system/job_gateway.py]: it leases rows of the job
    table, runs each as a task through the ordinary queue, and reports outcomes
    back.  The job table is reached through an interface ([JobStoreAPI]) whose
    calls may raise; Python keeps what a method did before an exception, so the
    methods run in a state-and-exception monad whose state survives the raise. *)
From S2P Require Import Prelude PyVal Tasks Queue JobStore.

(** ** The interface to the job table

    [None] is a raised database exception.  A call that raised may or may not
    have taken effect. *)
Class JobStoreAPI (St : Type) := {
  api_get : string → St → option (option job) * St;
  api_claim : option string → Z → St → option (option job) * St;
  api_renew : string → string → Z → St → option bool * St;
  api_complete : string → string → pyval → pyval → St → option bool * St;
  api_defer : string → string → pyval → Z → St → option bool * St;
  api_expire : St → option Z * St;
}.

(** What the gateway relies on: a claimed row is running under an attempt, and is
    the row asked for. *)
Class JobStoreLaws (St : Type) `{JobStoreAPI St} : Prop := {
  law_claim : ∀ k secs s row s', api_claim k secs s = (Some (Some row), s') →
    j_status row = Running ∧ is_Some (j_attempt_id row) ∧
    match k with Some id => j_job_id row = id | None => True end;
}.

(** ** Configuration *)

Record gateway_config := mkGatewayConfig {
  lease_seconds : Z;
  renew_interval : Q;
  retry_seconds : Z;
  poll_interval : Q;
  max_inflight : Z;
}.

(** The checks of [__init__]; [Some msg] is the [ValueError] raised. *)
Definition gateway_config_error (c : gateway_config) : option string :=
  if (lease_seconds c <=? 0) || (renew_interval c <?q 0)
     || (inject_Z (lease_seconds c) <=?q renew_interval c)
  then Some "renew_interval must be nonnegative and shorter than lease_seconds"%string
  else if (max_inflight c <? 1) || (retry_seconds c <=? 0) || (poll_interval c <=?q 0)
  then Some "invalid job admission settings"%string
  else None.

Definition RETRYABLE_ERRORS : list string :=
  ["overloaded"; "worker_busy"; "already_running"; "transport_error";
   "in_progress"; "storage_unavailable"; "socket_unavailable";
   "storage_error"; "worker_unavailable"; "worker_error"]%string.

(** ** State *)

(** A call that reports an attempt's fate to the job table. *)
Inductive report :=
| RComplete (job_id attempt : string) (result error : pyval)
| RDefer (job_id attempt : string) (error : pyval)
| RLost (job_id attempt : string).     (* a renewal that was refused *)

(** An entry of [_active]: the task, the attempt, and when the lease was renewed. *)
Abbreviation active_entry := (tref * string * Q)%type (only parsing).

(** [g_log] is history: the reports the job table has answered. *)
Record gstate (St : Type) := mkGstate {
  g_store : St;
  g_tasks : store;
  g_queue : TaskQueue;
  g_active : list (string * (tref * string * Q));
  g_mono : Q;                 (* time.monotonic() *)
  g_wall : Q;                 (* time.time() *)
  g_utc : Z;                  (* datetime.now(timezone.utc), microseconds *)
  g_points : nat;             (* scheduling points passed *)
  g_log : list report;
}.
Arguments mkGstate {St}.
Arguments g_store {St}.
Arguments g_tasks {St}.
Arguments g_queue {St}.
Arguments g_active {St}.
Arguments g_mono {St}.
Arguments g_wall {St}.
Arguments g_utc {St}.
Arguments g_points {St}.
Arguments g_log {St}.

Section gateway.
Context {St : Type} `{JobStoreAPI St}.

(** The other threads of the program between two steps of a method; the canonical
    fingerprint [sha256(json.dumps(spec, sort_keys=True, ...))]; [uuid4], which may depend on the
    tasks that exist. *)
Context (tick : nat → gstate St → gstate St).
Context (fingerprint : pyval → string).
Context (uuid : store → string).
Context (cfg : gateway_config).

(** ** The monad: [None] is a raised exception, the state survives it. *)

Definition G (A : Type) : Type := gstate St → option A * gstate St.
#[global] Instance g_ret : MRet G := λ A a s, (Some a, s).
#[global] Instance g_bind : MBind G := λ A B k m s,
  let '(o, s) := m s in match o with Some a => k a s | None => (None, s) end.

Definition g_update (f : gstate St → gstate St) : G unit := λ s, (Some tt, f s).
Definition g_read {A} (f : gstate St → A) : G A := λ s, (Some (f s), s).

(** A call to the job table. *)
Definition g_call {A} (f : St → option A * St) : G A := λ s,
  let '(o, st) := f (g_store s) in
  (o, mkGstate st (g_tasks s) (g_queue s) (g_active s) (g_mono s) (g_wall s) (g_utc s)
        (g_points s) (g_log s)).

Definition bump_points (s : gstate St) : gstate St :=
  mkGstate (g_store s) (g_tasks s) (g_queue s) (g_active s) (g_mono s) (g_wall s) (g_utc s)
    (S (g_points s)) (g_log s).

Definition g_pause : G unit := g_update (λ s, tick (g_points s) (bump_points s)).

Definition set_active (a : list (string * (tref * string * Q))) (s : gstate St) : gstate St :=
  mkGstate (g_store s) (g_tasks s) (g_queue s) a (g_mono s) (g_wall s) (g_utc s)
    (g_points s) (g_log s).

Definition set_gtasks (h : store) (s : gstate St) : gstate St :=
  mkGstate (g_store s) h (g_queue s) (g_active s) (g_mono s) (g_wall s) (g_utc s)
    (g_points s) (g_log s).

Definition set_gqueue (q : TaskQueue) (s : gstate St) : gstate St :=
  mkGstate (g_store s) (g_tasks s) q (g_active s) (g_mono s) (g_wall s) (g_utc s)
    (g_points s) (g_log s).

Definition g_note (r : report) : G unit := g_update (λ s,
  mkGstate (g_store s) (g_tasks s) (g_queue s) (g_active s) (g_mono s) (g_wall s) (g_utc s)
    (g_points s) (g_log s ++ [r])).

Definition g_task (r : tref) : G (option Task) := g_read (λ s, g_tasks s !! r).

Definition g_fail (err code : string) (r : tref) : G unit := g_update (λ s,
  set_gtasks (alter (mark_failed (g_wall s) err (Some code)) r (g_tasks s)) s).

Definition g_activate (job_id : string) (r : tref) (attempt : string) : G unit :=
  g_update (λ s, set_active (dict_set (g_active s) job_id (r, attempt, g_mono s)) s).

Definition g_drop (job_id : string) : G unit :=
  g_update (λ s, set_active (dict_del (g_active s) job_id) s).

(** ** Reports *)

Definition complete_job (job_id attempt : string) (result error : pyval) : G unit :=
  g_call (api_complete job_id attempt result error) ;;
  g_note (RComplete job_id attempt result error).

Definition defer_job (job_id attempt : string) (error : pyval) : G unit :=
  g_call (api_defer job_id attempt error (retry_seconds cfg)) ;;
  g_note (RDefer job_id attempt error).

(** [{"code": c, "message": m}]. *)
Definition error_value (code message : string) : pyval :=
  PyDict [("code", PyStr code); ("message", PyStr message)]%string.

(** [x or default] for an optional string. *)
Definition or_default (x : option string) (d : string) : string :=
  match x with Some s => if decide (s = EmptyString) then d else s | None => d end.

Definition task_error_code (t : Task) : string := or_default (error_code t) "worker_error".
Definition task_error (t : Task) : pyval :=
  error_value (task_error_code t) (or_default (error t) "inference failed").

(** ** [_enqueue] *)

(** [(row["deadline_at"] - datetime.now(timezone.utc)).total_seconds()]. *)
Definition remaining_budget (deadline_at utc : Z) : Q := (deadline_at - utc) # 1000000.

Definition attempt_of (row : job) : string :=
  match j_attempt_id row with Some a => a | None => EmptyString end.

Definition job_task (row : job) (id : string) (s : gstate St) : Task :=
  new_task (PyDict [("kind", PyStr "synthx_v73"); ("spec", j_spec row);
                    ("attempt_id", PyStr (attempt_of row))]%string)
    id (g_wall s) (Some (g_mono s + py_max0 (remaining_budget (j_deadline_at row) (g_utc s)))%Q).

Definition enqueue (row : job) : G unit :=
  if decide (fingerprint (j_spec row) = j_spec_sha256 row) then
    g_pause ;;
    r ← g_read (λ s, fresh (dom (g_tasks s)));
    g_update (λ s, set_gtasks (<[r := job_task row (uuid (g_tasks s)) s]> (g_tasks s)) s) ;;
    accepted ← g_read (λ s, queue_put r (g_queue s));
    match accepted with
    | None =>
        defer_job (j_job_id row) (attempt_of row) (error_value "overloaded" "task queue is full")
    | Some q =>
        g_update (set_gqueue q) ;; g_activate (j_job_id row) r (attempt_of row)
    end
  else
    complete_job (j_job_id row) (attempt_of row) PyNone
      (error_value "invalid_spec" "spec fingerprint mismatch").

(** ** [submit]

    [inl] is the row, [inr] the missing key of the [KeyError]. *)
Definition jg_submit (stopped : bool) (job_id : string) : G (option job + string) :=
  row ← g_call (api_get job_id);
  match row with
  | None => mret (inr job_id)
  | Some _ =>
      n ← g_read (λ s, py_len (g_active s));
      (if (n <? max_inflight cfg) && negb stopped then
         claimed ← g_call (api_claim (Some job_id) (lease_seconds cfg));
         match claimed with Some row => enqueue row | None => mret tt end
       else mret tt) ;;
      row ← g_call (api_get job_id); mret (inl row)
  end.

(** ** [poll] *)

(** One turn of the loop over the active attempts. *)
Definition poll_entry (job_id : string) (r : tref) (attempt : string) (renewed : Q) : G unit :=
  g_pause ;;
  t ← g_task r;
  mono ← g_read g_mono;
  (if match t with Some t => is_expired mono t | None => false end
   then g_fail "job deadline exceeded" "deadline_exceeded" r else mret tt) ;;
  g_pause ;;
  t ← g_task r;
  if match t with Some t => bool_decide (status t = DONE) | None => false end then
    complete_job job_id attempt (match t with Some t => result t | None => PyNone end) PyNone ;;
    g_drop job_id
  else
    g_pause ;;
    t ← g_task r;
    match t with
    | Some t =>
        if bool_decide (status t = FAILED) then
          (if bool_decide (task_error_code t ∈ RETRYABLE_ERRORS)
           then defer_job job_id attempt (task_error t)
           else complete_job job_id attempt PyNone (task_error t)) ;;
          g_drop job_id
        else
          g_pause ;;
          mono ← g_read g_mono;
          if renew_interval cfg <=?q mono - renewed then
            ok ← g_call (api_renew job_id attempt (lease_seconds cfg));
            if ok : bool then g_activate job_id r attempt
            else
              g_note (RLost job_id attempt) ;;
              g_fail "execution lease lost" "lease_lost" r ;; g_drop job_id
          else mret tt
    | None => mret tt
    end.

Fixpoint poll_entries (entries : list (string * (tref * string * Q))) : G unit :=
  match entries with
  | [] => mret tt
  | (job_id, (r, attempt, renewed)) :: entries' =>
      poll_entry job_id r attempt renewed ;; poll_entries entries'
  end.

(** [for _ in range(n)]: claim and enqueue, until nothing is due. *)
Fixpoint poll_claims (n : nat) : G unit :=
  match n with
  | O => mret tt
  | S n' =>
      row ← g_call (api_claim None (lease_seconds cfg));
      match row with
      | None => mret tt
      | Some row => enqueue row ;; poll_claims n'
      end
  end.

Definition poll : G unit :=
  g_call api_expire ;;
  entries ← g_read g_active;
  poll_entries entries ;;
  n ← g_read (λ s, Z.to_nat (max_inflight cfg - py_len (g_active s)));
  poll_claims n.

(** One turn of [_loop]: the exception is logged and swallowed. *)
Definition loop_turn (s : gstate St) : gstate St := (poll s).2.
End gateway.
