(* ===== verification/JobGatewayFacts.v ===== *)
(** Properties of the durable-job gateway: the number of attempts in flight is
    bounded, an attempt leaves the table of active attempts only with its outcome
    reported (or its lease lost), also when the database raises half way, and a
    claimed row is queued, deferred or rejected by its fingerprint. *)
From S2P Require Import Prelude PyVal Tasks Queue JobStore JobStoreFacts JobGateway.

(** ** Interference

    Other threads run tasks and drain the queue, and other processes use the job
    table; the gateway's lock keeps them away from [_active]. *)
Record g_rely {St} (s1 s2 : gstate St) : Prop := {
  gr_tasks : store_le (g_tasks s1) (g_tasks s2);
  gr_mono : (g_mono s1 <= g_mono s2)%Q;
  gr_active : g_active s2 = g_active s1;
  gr_log : g_log s2 = g_log s1;
}.

Class GatewayEnv {St} (tick : nat → gstate St → gstate St) : Prop :=
  tick_rely : ∀ n s, g_rely s (tick n s).

#[export] Instance g_rely_preorder {St} : PreOrder (@g_rely St).
Proof.
  split.
  - intros s. split; try done. apply Qle_refl.
  - intros s1 s2 s3 [? ? ? ?] [? ? ? ?]. split; [by etrans|lra|congruence|congruence].
Qed.

(** What the gateway tells the job table about a finished task. *)
Definition outcome_report (job_id attempt : string) (t : Task) : report :=
  if bool_decide (status t = DONE) then RComplete job_id attempt (result t) PyNone
  else if bool_decide (task_error_code t ∈ RETRYABLE_ERRORS)
       then RDefer job_id attempt (task_error t)
       else RComplete job_id attempt PyNone (task_error t).

Lemma rely_lookup (h1 h2 : store) r t :
  store_le h1 h2 → h1 !! r = Some t → ∃ t', h2 !! r = Some t'.
Proof. intros Hle Ht. destruct (Hle r t Ht) as [os ?]. eauto. Qed.

Section facts.
Context {St : Type} `{JobStoreAPI St}.
Context (tick : nat → gstate St → gstate St) `{!GatewayEnv tick}.
Context (fingerprint : pyval → string) (uuid : store → string) (cfg : gateway_config).

Lemma pause_rely s : g_rely s (tick (g_points s) (bump_points s)).
Proof. etrans; [|apply tick_rely]. split; try done. apply Qle_refl. Qed.

(** The fate of one active attempt in one turn of [poll]'s loop. *)
Inductive entry_fate (job_id : string) (r : tref) (attempt : string)
    (s s' : gstate St) : option () → Prop :=
| fate_kept o : g_active s' = g_active s → g_log s' = g_log s → entry_fate job_id r attempt s s' o
| fate_renewed m :
    g_active s' = dict_set (g_active s) job_id (r, attempt, m) → g_log s' = g_log s →
    entry_fate job_id r attempt s s' (Some tt)
| fate_reported t :
    g_active s' = dict_del (g_active s) job_id →
    g_tasks s' !! r = Some t → is_terminal t = true →
    g_log s' = g_log s ++ [outcome_report job_id attempt t] →
    entry_fate job_id r attempt s s' (Some tt)
| fate_lost :
    g_active s' = dict_del (g_active s) job_id → settled (g_tasks s') r →
    g_log s' = g_log s ++ [RLost job_id attempt] → entry_fate job_id r attempt s s' (Some tt).

Lemma g_fail_rely err code r (s : gstate St) : g_rely s (g_fail err code r s).2.
Proof. split; try done; [|apply Qle_refl]. apply store_le_mark_failed. Qed.

(** What one turn of the loop does to the attempt, after other threads took the state
    from [s] to [s1]. *)
Definition turn_fate (job_id : string) (r : tref) (attempt : string) (s : gstate St)
    (res : option () * gstate St) : Prop :=
  store_le (g_tasks s) (g_tasks res.2) ∧ entry_fate job_id r attempt s res.2 res.1.

Lemma kept_fate job_id r attempt s s1 o : g_rely s s1 → turn_fate job_id r attempt s (o, s1).
Proof. intros Hs. split; [apply Hs | apply fate_kept; apply Hs]. Qed.

(** A finished task is reported and dropped; the attempt stays when the table raises. *)
Lemma done_fate job_id r attempt s s1 t :
  g_rely s s1 → g_tasks s1 !! r = Some t → status t = DONE →
  turn_fate job_id r attempt s
    ((complete_job job_id attempt (result t) PyNone ;; g_drop job_id) s1).
Proof.
  intros Hs Et Ed. unfold complete_job, g_call, g_note, g_update, g_drop, mbind, g_bind.
  destruct (api_complete _ _ _ _ (g_store s1)) as [[ok|] st]; simpl.
  2:{ split; [apply Hs|]. apply fate_kept; apply Hs. }
  split; [apply Hs|]. apply fate_reported with t; simpl; try done.
  - by rewrite (gr_active _ _ Hs).
  - apply terminal_status. auto.
  - unfold outcome_report. by rewrite bool_decide_eq_true_2, (gr_log _ _ Hs).
Qed.

Lemma failed_fate job_id r attempt s s1 t :
  g_rely s s1 → g_tasks s1 !! r = Some t → status t = FAILED →
  turn_fate job_id r attempt s
    (((if bool_decide (task_error_code t ∈ RETRYABLE_ERRORS)
       then defer_job cfg job_id attempt (task_error t)
       else complete_job job_id attempt PyNone (task_error t)) ;; g_drop job_id) s1).
Proof.
  intros Hs Et Ef. assert (bool_decide (status t = DONE) = false) as Ed by (rewrite Ef; done).
  assert (is_terminal t = true) as Hterm by (apply terminal_status; auto).
  unfold complete_job, defer_job, g_call, g_note, g_update, g_drop, mbind, g_bind.
  destruct (bool_decide (task_error_code t ∈ RETRYABLE_ERRORS)) eqn:Er.
  - destruct (api_defer _ _ _ _ (g_store s1)) as [[ok|] st]; simpl.
    2:{ split; [apply Hs|]. apply fate_kept; apply Hs. }
    split; [apply Hs|]. apply fate_reported with t; simpl; try done; [by rewrite (gr_active _ _ Hs)|].
    unfold outcome_report. by rewrite Ed, Er, (gr_log _ _ Hs).
  - destruct (api_complete _ _ _ _ (g_store s1)) as [[ok|] st]; simpl.
    2:{ split; [apply Hs|]. apply fate_kept; apply Hs. }
    split; [apply Hs|]. apply fate_reported with t; simpl; try done; [by rewrite (gr_active _ _ Hs)|].
    unfold outcome_report. by rewrite Ed, Er, (gr_log _ _ Hs).
Qed.

(** A running task keeps its lease or loses it, and then is failed. *)
Lemma renew_fate job_id r attempt s s1 t :
  g_rely s s1 → g_tasks s1 !! r = Some t →
  turn_fate job_id r attempt s
    ((ok ← g_call (api_renew job_id attempt (lease_seconds cfg));
      if ok : bool then g_activate job_id r attempt
      else g_note (RLost job_id attempt) ;; g_fail "execution lease lost" "lease_lost" r ;; g_drop job_id) s1).
Proof.
  intros Hs Et. unfold g_call, mbind, g_bind.
  destruct (api_renew _ _ _ (g_store s1)) as [[[]|] st]; simpl.
  - split; [apply Hs|]. eapply fate_renewed; simpl; [|apply Hs]. by rewrite (gr_active _ _ Hs).
  - split; [etrans; [apply Hs|apply store_le_mark_failed]|]. apply fate_lost; simpl.
    + by rewrite (gr_active _ _ Hs).
    + apply settled_alter; [apply mark_failed_terminal|by eexists].
    + by rewrite (gr_log _ _ Hs).
  - split; [apply Hs|]. apply fate_kept; apply Hs.
Qed.

Lemma poll_entry_fate job_id r attempt renewed s :
  turn_fate job_id r attempt s (poll_entry tick cfg job_id r attempt renewed s).
Proof.
  unfold poll_entry, g_pause, g_update, g_task, g_read, mbind, g_bind, mret, g_ret.
  pose proof (pause_rely s) as H1. set (s1 := tick _ _) in *. clearbody s1.
  set (b := match g_tasks s1 !! r with Some t => _ | None => _ end).
  assert (∃ s2, (if b then g_fail "job deadline exceeded" "deadline_exceeded" r
                 else λ s, (Some tt, s)) s1 = (Some tt, s2) ∧ g_rely s1 s2) as (s2 & -> & H2).
  { destruct b; [|by exists s1]. eexists. split; [reflexivity|].
    apply (g_fail_rely "job deadline exceeded" "deadline_exceeded" r s1). }
  clearbody b. assert (g_rely s s2) as H12 by by etrans.
  pose proof (pause_rely s2) as H3. set (s3 := tick _ _) in *. clearbody s3.
  assert (g_rely s s3) as H13 by by etrans. clear s1 H1 H2 H12 s2 H3.
  destruct (match g_tasks s3 !! r with Some t => bool_decide (status t = DONE) | None => false end)
    eqn:Ed.
  { destruct (g_tasks s3 !! r) as [t|] eqn:Et; [|done]. apply bool_decide_eq_true in Ed.
    exact (done_fate job_id r attempt s s3 t H13 Et Ed). }
  clear Ed. pose proof (pause_rely s3) as H4. set (s4 := tick _ _) in *. clearbody s4.
  assert (g_rely s s4) as H14 by by etrans. clear s3 H13 H4.
  destruct (g_tasks s4 !! r) as [t|] eqn:Et; [|by apply kept_fate].
  destruct (bool_decide (status t = FAILED)) eqn:Ef.
  { apply bool_decide_eq_true in Ef. exact (failed_fate job_id r attempt s s4 t H14 Et Ef). }
  pose proof (pause_rely s4) as H5. set (s5 := tick _ _) in *.
  destruct (rely_lookup _ _ _ _ (gr_tasks _ _ H5) Et) as (t5 & Et5).
  clearbody s5. assert (g_rely s s5) as H15 by by etrans.
  destruct (renew_interval cfg <=?q _); [|by apply kept_fate].
  exact (renew_fate job_id r attempt s s5 t5 H15 Et5).
Qed.

(** ** The loop over the active attempts *)

(** What became of an attempt: still active, or gone with its outcome reported or
    its lease lost, and then its task has an outcome. *)
Definition accounted (k : string) (r : tref) (a : string) (l : list report)
    (active : list (string * (tref * string * Q))) (h : store) : Prop :=
  (∃ m, dict_lookup active k = Some (r, a, m)) ∨
  (settled h r ∧
   ((∃ t, h !! r = Some t ∧ outcome_report k a t ∈ l) ∨ RLost k a ∈ l)).

Lemma settled_same (h1 h2 : store) r t :
  store_le h1 h2 → h1 !! r = Some t → is_terminal t = true → h2 !! r = Some t.
Proof. intros. by eapply store_le_terminal. Qed.

Lemma accounted_reported k r a l (h1 h2 : store) active l' :
  store_le h1 h2 → settled h1 r →
  (∃ t, h1 !! r = Some t ∧ outcome_report k a t ∈ l) ∨ RLost k a ∈ l →
  accounted k r a (l ++ l') active h2.
Proof.
  intros Hle Hset Hrep. right. split; [by eapply settled_mono|].
  destruct Hrep as [(t & Ht & Hin)|Hin]; [left|right; set_solver].
  destruct Hset as (t' & Ht' & Hterm). simplify_eq.
  exists t'. split; [by eapply settled_same|set_solver].
Qed.

Lemma accounted_later k r a l1 l2 (h1 h2 : store) active1 active2 :
  store_le h1 h2 → dict_lookup active2 k = dict_lookup active1 k →
  accounted k r a l1 active1 h1 → accounted k r a (l1 ++ l2) active2 h2.
Proof.
  intros Hle Hk [Hm|[Hset Hrep]]; [left; by rewrite Hk|].
  by eapply accounted_reported.
Qed.

(** What one turn leaves behind, read off its fate. *)
Lemma fate_summary k r a m s s' o :
  entry_fate k r a s s' o → dict_lookup (g_active s) k = Some (r, a, m) →
  dict_keys (g_active s') `sublist_of` dict_keys (g_active s) ∧
  (∀ j, j ≠ k → dict_lookup (g_active s') j = dict_lookup (g_active s) j) ∧
  ∃ l, g_log s' = g_log s ++ l ∧ accounted k r a l (g_active s') (g_tasks s').
Proof.
  assert (∀ d : list (string * (tref * string * Q)), dict_keys (dict_del d k) `sublist_of` dict_keys d) as Hdel.
  { intros d. rewrite dict_del_keys. apply sublist_filter. }
  intros [o' Ha Hl|m' Ha Hl|t Ha Ht Hterm Hl|Ha Hset Hl] Hk.
  - rewrite Ha. split_and!; [done|done|]. exists []. rewrite app_nil_r. split; [done|].
    left. eauto.
  - rewrite Ha. split_and!.
    + rewrite dict_keys_set, decide_True; [done|].
      destruct (decide (k ∈ dict_keys (g_active s))) as [?|Hn]; [done|].
      apply dict_lookup_None in Hn. congruence.
    + intros j Hj. by rewrite dict_lookup_set_ne.
    + exists []. rewrite app_nil_r. split; [done|]. left. rewrite dict_lookup_set_eq. eauto.
  - rewrite Ha. split_and!; [apply Hdel|intros j Hj; by rewrite dict_lookup_del_ne|].
    eexists. split; [done|]. right. split; [by exists t|]. left. exists t. set_solver.
  - rewrite Ha. split_and!; [apply Hdel|intros j Hj; by rewrite dict_lookup_del_ne|].
    eexists. split; [done|]. right. split; [done|]. right. set_solver.
Qed.

Lemma poll_entries_spec entries s :
  NoDup (dict_keys entries) →
  (∀ k e, (k, e) ∈ entries → dict_lookup (g_active s) k = Some e) →
  let '(o, s') := poll_entries tick cfg entries s in
  store_le (g_tasks s) (g_tasks s') ∧
  dict_keys (g_active s') `sublist_of` dict_keys (g_active s) ∧
  (∀ k, k ∉ dict_keys entries → dict_lookup (g_active s') k = dict_lookup (g_active s) k) ∧
  ∃ l, g_log s' = g_log s ++ l ∧
    ∀ k r a m, (k, (r, a, m)) ∈ entries → accounted k r a l (g_active s') (g_tasks s').
Proof.
  revert s. induction entries as [|[k [[r a] m]] entries IH]; intros s Hnd Hact; simpl.
  { split_and!; try done. exists []. rewrite app_nil_r. split; [done|].
    by intros ? ? ? ? ?%not_elem_of_nil. }
  change (dict_keys ((k, (r, a, m)) :: entries)) with (k :: dict_keys entries) in *.
  apply NoDup_cons in Hnd as [Hn Hnd]. unfold mbind, g_bind.
  pose proof (poll_entry_fate k r a m s) as H1.
  destruct (poll_entry tick cfg k r a m s) as [o s1]. destruct H1 as [Hle1 Hf].
  destruct (fate_summary k r a m s s1 o Hf) as (Hk1 & Ho1 & l1 & Hl1 & Hacc1).
  { apply Hact. by left. }
  assert (∀ k' r' a' m', (k', (r', a', m')) ∈ entries →
    dict_lookup (g_active s1) k' = Some (r', a', m')) as Hact1.
  { intros k' r' a' m' Hin. rewrite Ho1; [apply Hact; by right|].
    intros ->. apply Hn, list_elem_of_fmap. by exists (k, (r', a', m')). }
  destruct o as [[]|].
  2:{ split_and!; [done|done| |].
      - intros j Hj. apply Ho1. set_solver.
      - exists l1. split; [done|]. intros k' r' a' m' [[= -> -> -> ->]|Hin]%elem_of_cons; [done|].
        left. rewrite (Hact1 _ _ _ _ Hin). eauto. }
  specialize (IH s1 Hnd). destruct (poll_entries tick cfg entries s1) as [o2 s2].
  destruct IH as (Hle2 & Hk2 & Ho2 & l2 & Hl2 & Hacc2).
  { intros k' [[r' a'] m'] Hin. by apply Hact1. }
  split_and!; [by etrans|by etrans| |].
  - intros j Hj. rewrite Ho2, Ho1; set_solver.
  - exists (l1 ++ l2). split; [by rewrite Hl2, Hl1, app_assoc|].
    intros k' r' a' m' [[= -> -> -> ->]|Hin]%elem_of_cons.
    + eapply accounted_later; [exact Hle2| |exact Hacc1]. by apply Ho2.
    + destruct (Hacc2 _ _ _ _ Hin) as [?|[Hs Hr]]; [by left|right]. split; [done|].
      destruct Hr as [(t & Ht & ?)|?]; [left; exists t; set_solver|right; set_solver].
Qed.

(** ** Claimed rows *)

(** The three ways a claimed row leaves [_enqueue]; a report that raised is
    missing from the log. *)
Inductive enqueue_fate (row : job) (s s' : gstate St) : option () → Prop :=
| enq_rejected o :
    fingerprint (j_spec row) ≠ j_spec_sha256 row →
    g_active s' = g_active s → g_queue s' = g_queue s →
    (o = None ∧ g_log s' = g_log s ∨
     o = Some tt ∧ g_log s' = g_log s ++ [RComplete (j_job_id row) (attempt_of row) PyNone
        (error_value "invalid_spec" "spec fingerprint mismatch")]) →
    enqueue_fate row s s' o
| enq_deferred o :
    fingerprint (j_spec row) = j_spec_sha256 row →
    g_active s' = g_active s → queue_full (g_queue s') = true →
    (o = None ∧ g_log s' = g_log s ∨
     o = Some tt ∧ g_log s' = g_log s ++ [RDefer (j_job_id row) (attempt_of row)
        (error_value "overloaded" "task queue is full")]) →
    enqueue_fate row s s' o
| enq_queued r t m items :
    fingerprint (j_spec row) = j_spec_sha256 row →
    g_tasks s !! r = None → g_tasks s' !! r = Some t → status t = PENDING →
    input_data t = PyDict [("kind", PyStr "synthx_v73"); ("spec", j_spec row);
                           ("attempt_id", PyStr (attempt_of row))]%string →
    q_items (g_queue s') = items ++ [r] →
    g_active s' = dict_set (g_active s) (j_job_id row) (r, attempt_of row, m) →
    g_log s' = g_log s → enqueue_fate row s s' (Some tt).

Lemma enqueue_spec row s :
  let '(o, s') := enqueue tick fingerprint uuid cfg row s in
  store_le (g_tasks s) (g_tasks s') ∧ enqueue_fate row s s' o.
Proof.
  unfold enqueue. destruct (decide (fingerprint (j_spec row) = j_spec_sha256 row)) as [Ef|Ef].
  2:{ unfold complete_job, g_call, g_note, g_update, mbind, g_bind.
      destruct (api_complete _ _ _ _ (g_store s)) as [[ok|] st]; simpl;
        (split; [done|]); apply enq_rejected; auto. }
  unfold g_pause, g_update, g_read, mbind, g_bind.
  pose proof (pause_rely s) as H1. set (s1 := tick _ _) in *. clearbody s1.
  cbn beta iota zeta. set (r := fresh (dom (g_tasks s1))).
  set (t := job_task row (uuid (g_tasks s1)) s1).
  assert (g_tasks s1 !! r = None) as Hr by apply not_elem_of_dom, is_fresh.
  assert (store_le (g_tasks s1) (<[r := t]> (g_tasks s1))) as Hle.
  { intros q u Hq. exists []. rewrite lookup_insert_ne by congruence. done. }
  assert (store_le (g_tasks s) (<[r := t]> (g_tasks s1))) as Hle' by (etrans; [apply H1|done]).
  unfold set_gtasks at 1. cbn [g_queue]. destruct (queue_put r (g_queue s1)) as [q|] eqn:Eq.
  - simpl. split; [done|]. unfold queue_put, put_commit in Eq.
    destruct (queue_full (g_queue s1)); [done|]. injection Eq as <-.
    apply (enq_queued row s _ r t (g_mono s1) (q_items (g_queue s1))); simpl; try done.
    + destruct (g_tasks s !! r) as [u|] eqn:Eu; [|done].
      destruct (rely_lookup _ _ _ _ (gr_tasks _ _ H1) Eu). congruence.
    + by rewrite lookup_insert_eq.
    + by rewrite (gr_active _ _ H1).
    + apply H1.
  - assert (queue_full (g_queue s1) = true) as Hfull.
    { unfold queue_put, put_commit in Eq. by destruct (queue_full (g_queue s1)). }
    unfold defer_job, g_call, g_note, g_update, mbind, g_bind. simpl.
    destruct (api_defer _ _ _ _ (g_store s1)) as [[ok|] st]; simpl;
      (split; [done|]); apply enq_deferred; simpl; try done; try apply H1.
    + right. by rewrite (gr_log _ _ H1).
    + left. split; [done|apply H1].
Qed.

(** ** Bounds *)

(** The gateway's invariant: one entry per job, no more than the limit. *)
Definition inflight_ok (s : gstate St) : Prop :=
  NoDup (dict_keys (g_active s)) ∧ py_len (g_active s) <= max_inflight cfg.

Lemma py_len_keys {A} (d : list (string * A)) : py_len d = py_len (dict_keys d).
Proof. unfold py_len, dict_keys. by rewrite length_fmap. Qed.

Lemma py_len_set {A} (d : list (string * A)) k v : py_len (dict_set d k v) <= py_len d + 1.
Proof.
  rewrite !py_len_keys, dict_keys_set. case_decide; [lia|]. rewrite py_len_snoc. lia.
Qed.

(** What enqueueing a claimed row does to the active attempts. *)
Definition enqueued (s s' : gstate St) : Prop :=
  store_le (g_tasks s) (g_tasks s') ∧ (∃ l, g_log s' = g_log s ++ l) ∧
  (g_active s' = g_active s ∨
   ∃ k r a m, g_tasks s !! r = None ∧ g_active s' = dict_set (g_active s) k (r, a, m)).

Lemma enqueue_enqueued row s : enqueued s (enqueue tick fingerprint uuid cfg row s).2.
Proof.
  pose proof (enqueue_spec row s) as H1.
  destruct (enqueue tick fingerprint uuid cfg row s) as [o s']. destruct H1 as [Hle Hf].
  simpl. split; [done|]. destruct Hf as [o _ Ha _ Hl|o _ Ha _ Hl|r t m items _ Hr _ _ _ _ Ha Hl].
  1-2: split; [|by left]; destruct Hl as [[_ ->]|[_ ->]]; [exists []; by rewrite app_nil_r|eauto].
  split; [exists []; by rewrite app_nil_r|]. right. eauto 6.
Qed.

Lemma g_call_frame {A} (f : St → option A * St) (s : gstate St) :
  g_tasks (g_call f s).2 = g_tasks s ∧ g_active (g_call f s).2 = g_active s ∧
  g_log (g_call f s).2 = g_log s.
Proof. unfold g_call. by destruct (f (g_store s)). Qed.

(** An entry that was active stays, or is replaced by a later attempt of its job. *)
Definition kept_or_superseded (h : store) (k : string) (e : tref * string * Q)
    (active : list (string * (tref * string * Q))) : Prop :=
  dict_lookup active k = Some e ∨
  ∃ r a m, h !! r = None ∧ dict_lookup active k = Some (r, a, m).

Lemma kept_or_superseded_set (h0 h : store) k e active k' r a m :
  store_le h0 h → h !! r = None → kept_or_superseded h0 k e active →
  kept_or_superseded h0 k e (dict_set active k' (r, a, m)).
Proof.
  intros Hle Hr Hk. destruct (decide (k' = k)) as [->|Hne].
  - right. exists r, a, m. rewrite dict_lookup_set_eq. split; [|done].
    destruct (h0 !! r) as [t|] eqn:E; [|done]. destruct (rely_lookup _ _ _ _ Hle E). congruence.
  - unfold kept_or_superseded. by rewrite dict_lookup_set_ne.
Qed.

Lemma poll_claims_spec n s :
  let s' := (poll_claims tick fingerprint uuid cfg n s).2 in
  store_le (g_tasks s) (g_tasks s') ∧ (∃ l, g_log s' = g_log s ++ l) ∧
  (NoDup (dict_keys (g_active s)) → NoDup (dict_keys (g_active s'))) ∧
  py_len (g_active s') <= py_len (g_active s) + Z.of_nat n ∧
  ∀ h k e, store_le h (g_tasks s) → kept_or_superseded h k e (g_active s) →
    kept_or_superseded h k e (g_active s').
Proof.
  revert s. induction n as [|n IH]; intros s.
  { simpl. split_and!; try done; [exists []; by rewrite app_nil_r|lia]. }
  simpl. unfold mbind, g_bind. 
  destruct (g_call_frame (api_claim None (lease_seconds cfg)) s) as (E1 & E2 & E3).
  destruct (g_call (api_claim None (lease_seconds cfg)) s) as [[[row|]|] s1]; simpl in *.
  2-3: rewrite E1, E2, E3; split_and!; try done; [exists []; by rewrite app_nil_r|lia].
  pose proof (enqueue_enqueued row s1) as (Hle & [l1 Hl1] & Ha).
  assert (∀ s2, s2 = (enqueue tick fingerprint uuid cfg row s1).2 →
    (NoDup (dict_keys (g_active s)) → NoDup (dict_keys (g_active s2))) ∧
    py_len (g_active s2) <= py_len (g_active s) + 1 ∧
    ∀ h k e, store_le h (g_tasks s) → kept_or_superseded h k e (g_active s) →
      kept_or_superseded h k e (g_active s2)) as Hs2.
  { intros s2 ->. rewrite <- E2. destruct Ha as [->|(k & r & a & m & Hr & ->)].
    - split_and!; [done|lia|done].
    - split_and!; [apply dict_set_nodup|apply py_len_set|].
      intros h k' e Hh. rewrite E1 in Hr. by apply (kept_or_superseded_set h (g_tasks s)). }
  destruct (enqueue tick fingerprint uuid cfg row s1) as [[[]|] s2]; simpl in *;
    destruct (Hs2 s2 eq_refl) as (Hnd & Hlen & Hsup); rewrite E1 in Hle; rewrite E3 in Hl1.
  - destruct (IH s2) as (Hle' & [l2 Hl2] & Hnd' & Hlen' & Hsup'). split_and!.
    + by etrans.
    + exists (l1 ++ l2). by rewrite Hl2, Hl1, app_assoc.
    + auto.
    + lia.
    + intros h k e Hh Hk. apply Hsup'; [by etrans|auto].
  - split_and!; try done; [eauto|lia].
Qed.

Lemma poll_entries_self s :
  NoDup (dict_keys (g_active s)) →
  let s' := (poll_entries tick cfg (g_active s) s).2 in
  store_le (g_tasks s) (g_tasks s') ∧ NoDup (dict_keys (g_active s')) ∧
  py_len (g_active s') <= py_len (g_active s) ∧
  ∃ l, g_log s' = g_log s ++ l ∧
    ∀ k r a m, dict_lookup (g_active s) k = Some (r, a, m) →
      accounted k r a l (g_active s') (g_tasks s').
Proof.
  intros Hnd. pose proof (poll_entries_spec (g_active s) s Hnd) as H1.
  destruct (poll_entries tick cfg (g_active s) s) as [o s'].
  destruct H1 as (Hle & Hsub & _ & l & Hl & Hacc).
  { intros k e. by apply dict_elem_lookup. }
  simpl. split_and!; [done|by eapply sublist_NoDup| |].
  - rewrite !py_len_keys. unfold py_len. apply sublist_length in Hsub. lia.
  - exists l. split; [done|]. intros k r a m Hk. apply (Hacc k r a m). by apply dict_lookup_elem.
Qed.

(** C18. At most [max_inflight] attempts are in flight, one per job: [submit] and
    [poll] keep that bound, whether or not a database call raises half way and
    whatever other threads and processes do. *)
Theorem inflight_bounded (s : gstate St) (stopped : bool) (job_id : string) :
  inflight_ok s →
  inflight_ok (jg_submit tick fingerprint uuid cfg stopped job_id s).2 ∧
  inflight_ok (loop_turn tick fingerprint uuid cfg s).
Proof.
  intros [Hnd Hlen]. split.
  - unfold jg_submit, mbind, g_bind, mret, g_ret, g_read.
    destruct (g_call_frame (api_get job_id) s) as (_ & E1 & _).
    destruct (g_call (api_get job_id) s) as [[[row|]|] s1]; simpl in *;
      unfold inflight_ok; rewrite ?E1; try done.
    assert (∀ s2, inflight_ok s2 → inflight_ok
      (let '(o, s3) := g_call (api_get job_id) s2 in
       match o with Some a => (Some (inl a), s3) | None => (None : option (option job + string), s3) end).2)
      as Hget.
    { intros s2 [? ?]. destruct (g_call_frame (api_get job_id) s2) as (_ & E & _).
      destruct (g_call (api_get job_id) s2) as [[r|] s3]; simpl in *; unfold inflight_ok;
        by rewrite E. }
    destruct ((_ <? _) && _) eqn:Ec; [|apply Hget; unfold inflight_ok; by rewrite E1].
    apply andb_true_iff in Ec as [Hlt%Z.ltb_lt _]. rewrite ?E1 in Hlt.
    destruct (g_call_frame (api_claim (Some job_id) (lease_seconds cfg)) s1) as (_ & E2 & _).
    destruct (g_call (api_claim (Some job_id) (lease_seconds cfg)) s1) as [[[crow|]|] s2];
      simpl in *; try (apply Hget); try (unfold inflight_ok; by rewrite E2, E1).
    pose proof (enqueue_enqueued crow s2) as (_ & _ & Ha).
    assert (inflight_ok (enqueue tick fingerprint uuid cfg crow s2).2) as Hok.
    { unfold inflight_ok. rewrite E1 in E2. destruct Ha as [->|(k & r & a & m & _ & ->)];
        rewrite E2; [done|]. split; [by apply dict_set_nodup|].
      pose proof (py_len_set (g_active s) k (r, a, m)). lia. }
    destruct (enqueue tick fingerprint uuid cfg crow s2) as [[[]|] s3]; simpl in *; [by apply Hget|done].
  - unfold loop_turn, poll, mbind, g_bind, g_read.
    destruct (g_call_frame api_expire s) as (_ & E1 & _).
    destruct (g_call api_expire s) as [[n|] s1]; simpl in *; unfold inflight_ok;
      [|by rewrite E1].
    rewrite <- E1 in Hnd. destruct (poll_entries_self s1 Hnd) as (_ & Hnd2 & Hlen2 & _).
    destruct (poll_entries tick cfg (g_active s1) s1) as [[[]|] s2]; simpl in *.
    + destruct (poll_claims_spec (Z.to_nat (max_inflight cfg - py_len (g_active s2))) s2)
        as (_ & _ & Hnd3 & Hlen3 & _). split; [auto|]. rewrite E1 in Hlen2. lia.
    + split; [done|]. rewrite E1 in Hlen2. lia.
Qed.

(** C11. No outcome is discarded.  After a turn of the recovery loop, also one that a
    database exception cut short, every attempt that was active is still active
    under the same task, or its task has an outcome and the job table has answered
    the report of exactly that outcome (completion with the result; deferral for a
    retryable error; completion with the error otherwise) or refused to renew its
    lease, or the table has leased the same job again to a later attempt that took
    its place. *)
Theorem poll_accounts_for_attempts (s : gstate St) (k : string) (r : tref) (a : string) (m : Q) :
  NoDup (dict_keys (g_active s)) → dict_lookup (g_active s) k = Some (r, a, m) →
  let s' := loop_turn tick fingerprint uuid cfg s in
  ∃ l, g_log s' = g_log s ++ l ∧
    (accounted k r a l (g_active s') (g_tasks s') ∨
     ∃ r2 a2 m2, g_tasks s !! r2 = None ∧ dict_lookup (g_active s') k = Some (r2, a2, m2)).
Proof.
  intros Hnd Hk. unfold loop_turn, poll, mbind, g_bind, g_read.
  destruct (g_call_frame api_expire s) as (E1 & E2 & E3).
  destruct (g_call api_expire s) as [[n|] s1]; simpl in *.
  2:{ exists []. rewrite app_nil_r. split; [done|]. left. left. rewrite E2. eauto. }
  rewrite <- E2 in Hnd, Hk. destruct (poll_entries_self s1 Hnd) as (Hle2 & _ & _ & l & Hl & Hacc).
  specialize (Hacc k r a m Hk).
  destruct (poll_entries tick cfg (g_active s1) s1) as [[[]|] s2]; simpl in *.
  2:{ exists l. rewrite Hl, E3. split; [done|by left]. }
  set (s3 := (poll_claims _ _ _ _ _ s2).2).
  destruct (poll_claims_spec (Z.to_nat (max_inflight cfg - py_len (g_active s2))) s2)
    as (Hle3 & [l3 Hl3] & _ & _ & Hsup). fold s3 in Hle3, Hl3, Hsup.
  exists (l ++ l3). split; [by rewrite Hl3, Hl, E3, app_assoc|].
  destruct Hacc as [[m' Hm']|[Hset Hrep]].
  - destruct (Hsup (g_tasks s) k (r, a, m')) as [Hk3|Hk3].
    + by rewrite <- E1.
    + by left.
    + left. left. eauto.
    + right. destruct Hk3 as (r2 & a2 & m2 & ? & ?). eauto.
  - left. by eapply accounted_reported.
Qed.

(** A claimed row is dealt with in one of three ways: if its specification does
    not match its stored fingerprint it is completed as [invalid_spec] and never
    queued; if the queue is full it is deferred as [overloaded]; otherwise a new
    pending task for exactly its specification and attempt is at the tail of the
    queue and the attempt is active. *)
Theorem enqueue_outcome (row : job) (s : gstate St) :
  enqueue_fate row s (enqueue tick fingerprint uuid cfg row s).2
    (enqueue tick fingerprint uuid cfg row s).1.
Proof.
  pose proof (enqueue_spec row s) as H1.
  destruct (enqueue tick fingerprint uuid cfg row s) as [o s']. apply H1.
Qed.

(** [submit] concerns its own job only: against any store that claims the row it
    was asked for, no other attempt is touched; a stopped gateway and one at its
    limit start nothing; and a missing job is reported as such with nothing
    started. *)
Theorem submit_touches_only_its_job `{!JobStoreLaws St} (stopped : bool) (job_id : string)
    (s : gstate St) :
  let '(o, s') := jg_submit tick fingerprint uuid cfg stopped job_id s in
  (∀ k, k ≠ job_id → dict_lookup (g_active s') k = dict_lookup (g_active s) k) ∧
  (stopped = true ∨ max_inflight cfg <= py_len (g_active s) → g_active s' = g_active s) ∧
  ((api_get job_id (g_store s)).1 = Some None → o = Some (inr job_id) ∧ g_active s' = g_active s).
Proof.
  unfold jg_submit, mbind, g_bind, mret, g_ret, g_read.
  destruct (g_call_frame (api_get job_id) s) as (_ & E1 & _).
  assert ((g_call (api_get job_id) s).1 = (api_get job_id (g_store s)).1) as Eget.
  { unfold g_call. by destruct (api_get job_id (g_store s)). }
  destruct (g_call (api_get job_id) s) as [[[row|]|] s1]; simpl in E1, Eget; rewrite <- Eget;
    [|by rewrite E1..].
  assert (∀ s2, let '(o, s') := (let '(o, s3) := g_call (api_get job_id) s2 in
       match o with Some a => (Some (inl a), s3) | None => (None : option (option job + string), s3) end)
     in g_active s' = g_active s2) as Hget.
  { intros s2. destruct (g_call_frame (api_get job_id) s2) as (_ & E & _).
    by destruct (g_call (api_get job_id) s2) as [[r|] s3]. }
  destruct ((_ <? _) && _) eqn:Ec.
  2:{ specialize (Hget s1). destruct (let '(o, s3) := g_call _ s1 in _) as [o s'].
      by rewrite Hget, E1. }
  apply andb_true_iff in Ec as [Hlt%Z.ltb_lt Hst%negb_true_iff]. rewrite E1 in Hlt.
  unfold g_call at 1.
  destruct (api_claim (Some job_id) (lease_seconds cfg) (g_store s1)) as [[[crow|]|] st] eqn:Ecl.
  2:{ simpl. match goal with |- context [g_call (api_get job_id) ?x] =>
        specialize (Hget x); destruct (let '(o, s3) := g_call _ x in _) as [o s'] end.
      rewrite Hget. simpl. by rewrite E1. }
  2:{ simpl. by rewrite E1. }
  apply law_claim in Ecl as (_ & _ & Hid). cbn beta iota.
  match goal with |- context [enqueue _ _ _ _ crow ?x] => set (s2 := x) end.
  assert (g_active s2 = g_active s) as E2 by apply E1.
  pose proof (enqueue_spec crow s2) as He.
  destruct (enqueue tick fingerprint uuid cfg crow s2) as [o s3]. destruct He as [_ Hf].
  assert (∀ k, k ≠ job_id → dict_lookup (g_active s3) k = dict_lookup (g_active s) k) as Hk.
  { intros k Hne. rewrite <- E2. destruct Hf as [o _ Ha _ _|o _ Ha _ _|r t m items _ _ _ _ _ _ Ha _];
      rewrite Ha; [done..|]. rewrite dict_lookup_set_ne; [done|congruence]. }
  assert (stopped = true ∨ max_inflight cfg <= py_len (g_active s) → False) as Hno.
  { intros [?|?]; [congruence|lia]. }
  destruct o as [[]|]; simpl.
  - specialize (Hget s3). destruct (let '(o, s4) := g_call _ s3 in _) as [o s']. rewrite Hget.
    split_and!; [done|by intros ?%Hno|done].
  - split_and!; [done|by intros ?%Hno|done].
Qed.
End facts.
