(* ===== verification/GatewaySql.v ===== *)
(** The gateway over the job table: [JobStore] implements the interface the gateway
    is written against, with lost connections, other processes' statements between
    any two calls and arbitrary clocks, and every gateway method is a sequence of
    job-table statements — so what is proved of all such sequences holds of the
    composed system. *)
From S2P Require Import Prelude PyVal Tasks Queue JobStore JobStoreFacts JobGateway JobGatewayFacts.

(** How a call ends: served, refused before it took effect, or served with the
    acknowledgement lost. *)
Inductive sql_fault := Healthy | Refused | LostAck.

(** The database and the number of calls this process has made. *)
Record sql := mkSql { sql_db : jobs; sql_calls : nat }.

Record sql_world := mkSqlWorld {
  sql_clock : nat → Z;                     (* now() of the n-th call *)
  sql_uuid : nat → string;                 (* uuid4() of the n-th call *)
  sql_locked : nat → gset string;          (* rows locked elsewhere meanwhile *)
  sql_faults : nat → sql_fault;
  sql_others : nat → list (Z * job_op);    (* statements of other processes before it *)
}.

Section instance.
Context (e : sql_world).

Definition sql_exec {A} (f : nat → Z → jobs → A * jobs) (s : sql) : option A * sql :=
  let n := sql_calls s in
  let db := (job_run (sql_others e n) (sql_db s)).2 in
  match sql_faults e n with
  | Healthy => let '(a, db') := f n (sql_clock e n) db in (Some a, mkSql db' (S n))
  | Refused => (None, mkSql db (S n))
  | LostAck => let '(_, db') := f n (sql_clock e n) db in (None, mkSql db' (S n))
  end.

Definition sql_api : JobStoreAPI sql := {|
  api_get k := sql_exec (λ _ _ db, (job_get k db, db));
  api_claim k secs := sql_exec (λ n now, job_claim k secs (sql_uuid e n) (sql_locked e n) now);
  api_renew k a secs := sql_exec (λ _ now, job_renew k a secs now);
  api_complete k a res err := sql_exec (λ _ now, job_complete k a res err now);
  api_defer k a err secs := sql_exec (λ _ now, job_defer k a err secs now);
  api_expire := sql_exec (λ _ now, expire_deadlines now);
|}.

#[local] Existing Instance sql_api.

Lemma candidate_claimable k locked now db j :
  candidate k locked now db = Some j → claimable k now j = true.
Proof.
  intros E. pose proof (candidate_spec k locked now db) as H. rewrite E in H.
  destruct H as [[kk (_ & Hc & _)] _]. done.
Qed.

#[export] Instance sql_laws : JobStoreLaws sql.
Proof.
  constructor. intros k secs s row s' E. simpl in E. unfold sql_exec in E.
  destruct (sql_faults e (sql_calls s)); [|done|].
  2:{ by destruct (job_claim _ _ _ _ _ _). }
  unfold job_claim in E. destruct (candidate _ _ _ _) as [j|] eqn:Ec; [|done].
  injection E as <- <-. split; [done|]. split; [by eexists|].
  apply candidate_claimable in Ec. destruct k as [id|]; [|done].
  unfold claimable in Ec. rewrite !andb_true_iff, bool_decide_eq_true in Ec. simpl. tauto.
Qed.
End instance.

(** ** Every method is a sequence of job-table calls *)

Section evolution.
Context {St : Type} `{JobStoreAPI St} (R : St → St → Prop) `{!PreOrder R}.
Context (tick : nat → gstate St → gstate St).
Context (fp : pyval → string) (uuid : store → string) (cfg : gateway_config).

(** A method moves the job table only along [R]. *)
Definition moves {A} (m : G A) : Prop := ∀ s : gstate St, R (g_store s) (g_store (m s).2).

(** Each call of the interface does, and so do the other threads. *)
Record store_moves : Prop := {
  mv_get k s : R s (api_get k s).2;
  mv_claim k secs s : R s (api_claim k secs s).2;
  mv_renew k a secs s : R s (api_renew k a secs s).2;
  mv_complete k a res err s : R s (api_complete k a res err s).2;
  mv_defer k a err secs s : R s (api_defer k a err secs s).2;
  mv_expire s : R s (api_expire s).2;
  mv_tick n s : R (g_store s) (g_store (tick n s));
}.

Lemma moves_bind {A B} (m : G A) (k : A → G B) :
  moves m → (∀ a, moves (k a)) → moves (m ≫= k).
Proof.
  intros Hm Hk s. unfold mbind, g_bind. specialize (Hm s).
  destruct (m s) as [[a|] s1]; simpl in *; [|done]. etrans; [exact Hm|apply Hk].
Qed.

Lemma moves_update f : (∀ s : gstate St, g_store (f s) = g_store s) → moves (g_update f).
Proof. intros Hf s. simpl. rewrite Hf. reflexivity. Qed.

Lemma moves_read {A} (f : gstate St → A) : moves (g_read f).
Proof. intros s. reflexivity. Qed.

Lemma moves_ret {A} (a : A) : moves (mret a : G A).
Proof. intros s. reflexivity. Qed.

Lemma moves_call {A} (f : St → option A * St) : (∀ s, R s (f s).2) → moves (g_call f).
Proof.
  intros Hf s. unfold g_call. specialize (Hf (g_store s)). by destruct (f (g_store s)).
Qed.

Lemma moves_if {A} (b : bool) (m k : G A) : moves m → moves k → moves (if b then m else k).
Proof. by destruct b. Qed.

Context (Hst : store_moves).

Create HintDb moves discriminated.
#[local] Hint Resolve moves_bind moves_read moves_ret moves_call moves_if mv_get mv_claim
  mv_renew mv_complete mv_defer mv_expire : moves.
#[local] Hint Extern 1 (moves (g_update _)) => by apply moves_update : moves.
#[local] Hint Extern 1 (moves (match ?x with _ => _ end)) => destruct x : moves.

Lemma moves_pause : moves (g_pause tick).
Proof. intros s. simpl. apply (mv_tick Hst (g_points s) (bump_points s)). Qed.

Lemma moves_complete k a res err : moves (complete_job k a res err).
Proof. unfold complete_job, g_note. auto with moves. Qed.

Lemma moves_defer k a err : moves (defer_job cfg k a err).
Proof. unfold defer_job, g_note. auto with moves. Qed.

#[local] Hint Resolve moves_pause moves_complete moves_defer : moves.

Lemma moves_enqueue row : moves (enqueue tick fp uuid cfg row).
Proof. unfold enqueue, g_activate. destruct (decide _); auto 8 with moves. Qed.

#[local] Hint Resolve moves_enqueue : moves.

Lemma moves_submit stopped job_id : moves (jg_submit tick fp uuid cfg stopped job_id).
Proof.
  unfold jg_submit. apply moves_bind; [auto with moves|]. intros [row|]; [|apply moves_ret].
  apply moves_bind; [apply moves_read|]. intros n. apply moves_bind; [|auto 6 with moves].
  apply moves_if; [|apply moves_ret]. apply moves_bind; [auto with moves|].
  intros [?|]; auto with moves.
Qed.

Lemma moves_poll_entry k r a m : moves (poll_entry tick cfg k r a m).
Proof.
  unfold poll_entry, g_task, g_fail, g_drop, g_activate, g_note.
  repeat first [apply moves_if | apply moves_pause | apply moves_complete | apply moves_defer
    | apply moves_read | apply moves_ret | (apply moves_update; done)
    | apply moves_call; intros; apply Hst
    | apply moves_bind; [|intros [?|]] | apply moves_bind; [|intros ?] ].
Qed.

Lemma moves_poll_entries entries : moves (poll_entries tick cfg entries).
Proof.
  induction entries as [|[k [[r a] m]] entries IH]; simpl; [apply moves_ret|].
  apply moves_bind; [apply moves_poll_entry|auto].
Qed.

Lemma moves_poll_claims n : moves (poll_claims tick fp uuid cfg n).
Proof.
  induction n as [|n IH]; simpl; [apply moves_ret|].
  apply moves_bind; [auto with moves|]. intros [row|]; [|apply moves_ret].
  apply moves_bind; [apply moves_enqueue|auto].
Qed.

Lemma moves_poll : moves (poll tick fp uuid cfg).
Proof.
  unfold poll. apply moves_bind; [auto with moves|]. intros _.
  apply moves_bind; [apply moves_read|]. intros entries.
  apply moves_bind; [apply moves_poll_entries|]. intros _.
  apply moves_bind; [apply moves_read|]. apply moves_poll_claims.
Qed.

(** A turn first expires what is overdue. *)
Lemma moves_poll_after s : R (api_expire (g_store s)).2 (g_store (poll tick fp uuid cfg s).2).
Proof.
  unfold poll. unfold mbind at 1, g_bind at 1. unfold g_call at 1.
  destruct (api_expire (g_store s)) as [[z|] st]; cbn -[mbind]; [|reflexivity].
  match goal with |- R _ (g_store (?m ?s1).2) => assert (moves m) as Hm; [|exact (Hm s1)] end.
  apply moves_bind; [apply moves_read|]. intros entries.
  apply moves_bind; [apply moves_poll_entries|]. intros _.
  apply moves_bind; [apply moves_read|]. apply moves_poll_claims.
Qed.
End evolution.

(** ** The composed system *)

(** The table moved by statements. *)
Definition sql_run (s1 s2 : sql) : Prop := ∃ os, sql_db s2 = (job_run os (sql_db s1)).2.

Lemma job_run_app os1 os2 db :
  (job_run (os1 ++ os2) db).2 = (job_run os2 (job_run os1 db).2).2.
Proof.
  revert db. induction os1 as [|[now o] os1 IH]; intros db; simpl; [done|].
  destruct (job_stmt now o db) as [r db1]. specialize (IH db1).
  destruct (job_run (os1 ++ os2) db1), (job_run os1 db1). done.
Qed.

#[export] Instance sql_run_preorder : PreOrder sql_run.
Proof.
  split.
  - intros s. by exists [].
  - intros s1 s2 s3 [os1 E1] [os2 E2]. exists (os1 ++ os2). by rewrite job_run_app, <- E1.
Qed.

(** One call is the other processes' statements, then its own if it took effect. *)
Lemma sql_exec_run e {A} (f : nat → Z → jobs → A * jobs) (s : sql) :
  (∀ n now db, ∃ os, (f n now db).2 = (job_run os db).2) → sql_run s (sql_exec e f s).2.
Proof.
  intros Hf. unfold sql_exec. set (n := sql_calls s).
  set (db := (job_run (sql_others e n) (sql_db s)).2).
  assert (sql_run s (mkSql db (S n))) as H0 by by exists (sql_others e n).
  destruct (Hf n (sql_clock e n) db) as [os Eos].
  assert (sql_run s (mkSql (f n (sql_clock e n) db).2 (S n))) as H1.
  { etrans; [exact H0|]. exists os. exact Eos. }
  destruct (sql_faults e n); [|done|]; by destruct (f n (sql_clock e n) db).
Qed.

Lemma one_stmt now o db : (job_stmt now o db).2 = (job_run [(now, o)] db).2.
Proof. simpl. by destruct (job_stmt now o db). Qed.

Lemma sql_store_moves e tick :
  (∀ n (s : gstate sql), sql_run (g_store s) (g_store (tick n s))) →
  @store_moves sql (sql_api e) sql_run tick.
Proof.
  intros Ht. split; try done; intros; apply sql_exec_run; intros n now db.
  - by exists [].
  - exists [(now, Claim k secs (sql_uuid e n) (sql_locked e n))]. rewrite <- one_stmt. simpl.
    by destruct (job_claim _ _ _ _ _ _).
  - exists [(now, Renew k a secs)]. rewrite <- one_stmt. simpl. by destruct (job_renew _ _ _ _ _).
  - exists [(now, Complete k a res err)]. rewrite <- one_stmt. simpl.
    by destruct (job_complete _ _ _ _ _ _).
  - exists [(now, Defer k a err secs)]. rewrite <- one_stmt. simpl.
    by destruct (job_defer _ _ _ _ _ _).
  - exists [(now, Expire)]. rewrite <- one_stmt. done.
Qed.

(** The gateway's entry points, run one after the other against the job table. *)
Inductive gateway_event := EvSubmit (stopped : bool) (job_id : string) | EvTurn.

Section composed.
Context (e : sql_world) (tick : nat → gstate sql → gstate sql).
Context (fp : pyval → string) (uuid : store → string) (cfg : gateway_config).
#[local] Existing Instance sql_api.

Definition gateway_step (s : gstate sql) (ev : gateway_event) : gstate sql :=
  match ev with
  | EvSubmit stopped job_id => (@jg_submit sql (sql_api e) tick fp uuid cfg stopped job_id s).2
  | EvTurn => @loop_turn sql (sql_api e) tick fp uuid cfg s
  end.

Lemma gateway_moves evs s :
  (∀ n (s : gstate sql), sql_run (g_store s) (g_store (tick n s))) →
  sql_run (g_store s) (g_store (foldl gateway_step s evs)).
Proof.
  intros Ht. pose proof (sql_store_moves e tick Ht) as Hst. revert s.
  induction evs as [|ev evs IH]; intros s; simpl; [reflexivity|].
  etrans; [|apply IH]. destruct ev as [stopped k|]; simpl.
  - apply (@moves_submit sql (sql_api e) sql_run _ tick fp uuid cfg Hst).
  - apply (@moves_poll sql (sql_api e) sql_run _ tick fp uuid cfg Hst).
Qed.

(** The gateway over the job table, with lost connections, lost
    acknowledgements, other processes and any clocks, is nothing but a sequence of
    job-table statements; so through any history of submissions and recovery turns
    the table stays well formed and a job that has succeeded or failed keeps its
    row for ever. *)
Theorem gateway_refines_job_table (evs : list gateway_event) (s : gstate sql) :
  (∀ n (s : gstate sql), sql_run (g_store s) (g_store (tick n s))) →
  jobs_wf (sql_db (g_store s)) →
  let s' := foldl gateway_step s evs in
  sql_run (g_store s) (g_store s') ∧ jobs_wf (sql_db (g_store s')) ∧
  ∀ k j, sql_db (g_store s) !! k = Some j → terminal j → sql_db (g_store s') !! k = Some j.
Proof.
  intros Ht Hwf. simpl. pose proof (gateway_moves evs s Ht) as Hrun.
  split; [done|]. destruct Hrun as [os ->]. split; [by apply job_run_wf|].
  intros k j Hk Hj. by apply no_completion_when_terminal.
Qed.

(** C10. No job is left behind.  A turn of the gateway whose first call reaches the table, even if
    its acknowledgement is lost, fails every job that is not finished at its deadline, whether
    it waits or runs; and the row says so for ever, whatever attempts are still under way and
    whatever this gateway and other processes do later. *)
Theorem overdue_jobs_end (evs : list gateway_event) (s : gstate sql) (k : string) (j : job) :
  (∀ n (s : gstate sql), sql_run (g_store s) (g_store (tick n s))) →
  jobs_wf (sql_db (g_store s)) →
  let n := sql_calls (g_store s) in
  sql_faults e n ≠ Refused →
  (job_run (sql_others e n) (sql_db (g_store s))).2 !! k = Some j →
  j_status j ∈ [Queued; Running] → j_deadline_at j <= sql_clock e n →
  ∃ j', sql_db (g_store (foldl gateway_step s (EvTurn :: evs))) !! k = Some j' ∧
    j_status j' = Failed ∧ j_error j' = Some deadline_error ∧ j_lease_until j' = None.
Proof.
  intros Ht Hwf n Hn Hk Hs Hd. assert (deadline_passed (sql_clock e n) j = true) as Hp.
  { unfold deadline_passed. rewrite (proj2 (Z.leb_le _ _) Hd), andb_true_r. rewrite !elem_of_cons in Hs.
    by destruct Hs as [-> |[-> |?%not_elem_of_nil]]. }
  set (db := (job_run (sql_others e n) (sql_db (g_store s))).2) in *.
  assert (sql_db ((@api_expire sql (sql_api e)) (g_store s)).2 = expire_row (sql_clock e n) <$> db) as E.
  { simpl. unfold sql_exec. fold n. fold db. by destruct (sql_faults e n). }
  assert (sql_run ((@api_expire sql (sql_api e)) (g_store s)).2 (g_store (foldl gateway_step s (EvTurn :: evs)))) as [os Hos].
  { cbn [foldl]. etrans; [|apply gateway_moves, Ht].
    apply (@moves_poll_after sql (sql_api e) sql_run _ tick fp uuid cfg (sql_store_moves e tick Ht)). }
  rewrite Hos, E. exists (expire_row (sql_clock e n) j). split.
  - apply no_completion_when_terminal.
    + change (expire_row (sql_clock e n) <$> db) with (job_stmt (sql_clock e n) Expire db).2. apply job_stmt_wf. by apply job_run_wf.
    + by rewrite lookup_fmap, Hk.
    + right. unfold expire_row. by rewrite Hp.
  - unfold expire_row. by rewrite Hp.
Qed.
End composed.

(** ** A concrete system: the calls after the fifth are refused. *)

Definition sample_sql_world : sql_world :=
  mkSqlWorld (λ n, 60 + Z.of_nat n) (λ n, if decide (n = 2%nat) then "a1"%string else "a2"%string)
    (λ _, ∅) (λ n, if decide (5 < n)%nat then Refused else Healthy) (λ _, []).

Definition sample_cfg : gateway_config := mkGatewayConfig 120 30 5 (1#2) 1.

Definition idle_tick : nat → gstate sql → gstate sql := λ _ s, s.

#[export] Instance idle_tick_env : GatewayEnv idle_tick.
Proof. intros n s. reflexivity. Qed.

(** One attempt is active; its task is done. *)
Definition sample_gstate : gstate sql :=
  mkGstate (mkSql sample_jobs 0)
    {[ 0%nat := mark_done 1 (PyInt 7) (new_task (PyDict []) "t0" 0 (Some 100%Q)) ]}
    (queue_init 10) [("j2", (0%nat, "a0", 0%Q))]%string 1 1 0 0%nat [].

Lemma inflight_bounded_witness :
  inflight_ok sample_cfg
    (@loop_turn sql (sql_api sample_sql_world) idle_tick (λ _, "sha"%string) (λ _, "u"%string)
       sample_cfg sample_gstate).
Proof.
  apply (@inflight_bounded sql (sql_api sample_sql_world) idle_tick _ (λ _, "sha"%string)
    (λ _, "u"%string) sample_cfg sample_gstate false "j1").
  split; [apply (bool_decide_unpack _); vm_compute; exact I|vm_compute; discriminate].
Defined.

Lemma poll_accounts_for_attempts_witness :
  let s' := @loop_turn sql (sql_api sample_sql_world) idle_tick (λ _, "sha"%string)
              (λ _, "u"%string) sample_cfg sample_gstate in
  ∃ l, g_log s' = l ∧
    (accounted "j2" 0%nat "a0" l (g_active s') (g_tasks s') ∨
     ∃ r2 a2 m2, g_tasks sample_gstate !! r2 = None ∧
       dict_lookup (g_active s') "j2" = Some (r2, a2, m2)).
Proof.
  apply (@poll_accounts_for_attempts sql (sql_api sample_sql_world) idle_tick _
    (λ _, "sha"%string) (λ _, "u"%string) sample_cfg sample_gstate "j2" 0%nat "a0" 0%Q);
    [apply (bool_decide_unpack _); vm_compute; exact I|reflexivity].
Defined.

Lemma enqueue_outcome_witness :
  enqueue_fate (λ _, "other"%string) (sample_job "j1" Queued None None 0) sample_gstate
    (@enqueue sql (sql_api sample_sql_world) idle_tick (λ _, "other"%string) (λ _, "u"%string)
       sample_cfg (sample_job "j1" Queued None None 0) sample_gstate).2 (Some tt).
Proof.
  apply (@enqueue_outcome sql (sql_api sample_sql_world) idle_tick _ (λ _, "other"%string)
    (λ _, "u"%string) sample_cfg (sample_job "j1" Queued None None 0) sample_gstate).
Defined.

Lemma gateway_refines_job_table_witness :
  jobs_wf (sql_db (g_store (foldl (gateway_step sample_sql_world idle_tick (λ _, "sha"%string)
    (λ _, "u"%string) sample_cfg) sample_gstate [EvTurn; EvSubmit false "j1"]))).
Proof.
  apply (gateway_refines_job_table sample_sql_world idle_tick (λ _, "sha"%string)
    (λ _, "u"%string) sample_cfg [EvTurn; EvSubmit false "j1"] sample_gstate).
  - intros n s. reflexivity.
  - exact sample_jobs_wf.
Defined.

Lemma submit_touches_only_its_job_witness :
  g_active (@jg_submit sql (sql_api sample_sql_world) idle_tick (λ _, "sha"%string)
    (λ _, "u"%string) sample_cfg true "j1" sample_gstate).2 = g_active sample_gstate.
Proof.
  pose proof (@submit_touches_only_its_job sql (sql_api sample_sql_world) idle_tick _
    (λ _, "sha"%string) (λ _, "u"%string) sample_cfg (sql_laws sample_sql_world) true "j1"
    sample_gstate) as H.
  destruct (jg_submit _ _ _ _ _ _ _) as [o s']. destruct H as (_ & H & _).
  apply H. left. reflexivity.
Defined.

(** The first turn finds the running job overdue; its attempt completes too late. *)
Definition late_world : sql_world :=
  mkSqlWorld (λ n, 2000000000 + Z.of_nat n) (λ _, "a9"%string) (λ _, ∅) (λ _, LostAck)
    (λ n, if decide (n = 1%nat) then [(2000000000, Complete "j2" "a0" (PyInt 7) PyNone)]%string else []).

Lemma overdue_jobs_end_witness :
  ∃ j, sql_db (g_store (foldl (gateway_step late_world idle_tick (λ _, "sha"%string) (λ _, "u"%string) sample_cfg) sample_gstate
         [EvTurn; EvTurn])) !! "j2"%string = Some j ∧
    j_status j = Failed ∧ j_error j = Some deadline_error ∧ j_lease_until j = None.
Proof.
  apply (overdue_jobs_end late_world idle_tick (λ _, "sha"%string) (λ _, "u"%string) sample_cfg [EvTurn] sample_gstate "j2"
    (sample_job "j2" Running (Some "a0"%string) (Some 50) 10)).
  - intros n s. reflexivity.
  - exact sample_jobs_wf.
  - discriminate.
  - vm_compute. reflexivity.
  - right. left.
  - vm_compute. discriminate.
Defined.
