(* ===== verification/Dispatch.v ===== *)
(** The scheduler over the remote pool: the loop of [src/system/scheduler.py] with
    [GrpcWorkerPool.submit] as its handler, as [lifespan] of [src/system/api_server.py]
    wires them.  What [Scheduler] proves for any handler and [GrpcRouting] for one batch
    add up to an account of every task that ever entered the queue. *)
From S2P Require Import Prelude PyVal Tasks Queue Scheduler GrpcWorker World GrpcPool GrpcPoolFacts GrpcDelivery GrpcSettle GrpcRouting.

Section dispatch.
Context (env : environment) `{!WellBehaved env}.

(** The handler the scheduler is given: [_worker_pool.submit]; what it raises is
    logged by the loop. *)
Definition grpc_handler (batch : list tref) (w : world) : world * option string :=
  (pool_submit_batch env batch w, None).

Lemma rely_scheduler_loop turns s w s' w' batches :
  scheduler_loop grpc_handler turns s w = Some (s', w', batches) → rely w w'.
Proof.
  revert s w batches. induction turns as [|tn turns IH]; intros s w batches; simpl.
  { intros [= _ <- _]. reflexivity. }
  destruct (scheduler_iteration _ _ _ _ _ s) as [[batch s1]|]; simpl; [|done].
  destruct batch as [|r batch]; [apply IH|].
  destruct (scheduler_loop _ turns s1 _) as [[[s2 w2] bs]|] eqn:E; simpl; [|done].
  intros [= <- <- <-]. etrans; [apply (stays_pool_submit_batch env rely (r :: batch) w)|by eapply IH].
Qed.

(** Every dispatched task was handled by the call that dispatched it, and stays so. *)
Lemma scheduler_loop_handled turns s w s' w' batches :
  (∀ r, r ∈ mjoin batches → is_Some (w_tasks w !! r)) →
  scheduler_loop grpc_handler turns s w = Some (s', w', batches) →
  all_handled (mjoin batches) w w'.
Proof.
  revert s w batches. induction turns as [|tn turns IH]; intros s w batches Hex; simpl.
  { intros [= _ <- <-] r Hr. by apply not_elem_of_nil in Hr. }
  destruct (scheduler_iteration _ _ _ _ _ s) as [[batch s1]|]; simpl; [|done].
  destruct batch as [|x batch]; [by apply IH|].
  destruct (scheduler_loop _ turns s1 _) as [[[s2 w2] bs]|] eqn:E; simpl; [|done].
  intros [= <- <- <-]. set (b := x :: batch) in *. simpl in Hex.
  pose proof (stays_pool_submit_batch env rely b w : rely w (grpc_handler b w).1) as H1.
  pose proof (rely_scheduler_loop _ _ _ _ _ _ E) as H2.
  intros r Hr. change (r ∈ b ++ mjoin bs) in Hr. apply elem_of_app in Hr as [Hr|Hr].
  - eapply handled_rely; [exact H2|]. apply (pool_submit_batch_handled env b w); [|done].
    intros r' Hr'. apply Hex. change (r' ∈ b ++ mjoin bs). apply elem_of_app. by left.
  - eapply handled_before; [exact H1|]. apply (IH s1 _ bs); [|done|done].
    intros r' Hr'. eapply rely_task; [exact H1|]. apply Hex. change (r' ∈ b ++ mjoin bs). apply elem_of_app. by right.
Qed.

(** The places a task can be in between two turns of the loop. *)
Definition waiting (s : sched_state) (r : tref) : Prop := r ∈ sc_buffer s ∨ r ∈ q_items (sc_queue s).

(** Every task a run started with or accepted is still waiting, or was dispatched and handled. *)
Lemma scheduler_loop_accounts turns s w s' w' batches :
  Forall turn_ok turns →
  NoDup (sc_buffer s ++ q_items (sc_queue s) ++ mjoin (turn_arrivals <$> turns)) →
  (∀ r, r ∈ sc_buffer s ++ q_items (sc_queue s) ++ mjoin (turn_arrivals <$> turns) →
     is_Some (w_tasks w !! r)) →
  scheduler_loop grpc_handler turns s w = Some (s', w', batches) →
  NoDup (mjoin batches) ∧
  ∃ acc, acc `sublist_of` mjoin (turn_arrivals <$> turns) ∧
    ∀ r, r ∈ sc_buffer s ++ q_items (sc_queue s) ++ acc →
      (waiting s' r ∧ r ∉ mjoin batches) ∨
      (r ∈ mjoin batches ∧ ¬ waiting s' r ∧ handled w w' r).
Proof.
  intros Hok Hnd Hex H.
  destruct (scheduler_loop_perm grpc_handler turns s w s' w' batches Hok Hnd H) as (acc & Hs & Hp).
  assert (NoDup (mjoin batches ++ sc_buffer s' ++ q_items (sc_queue s'))) as Hn.
  { rewrite Hp. eapply sublist_NoDup; [exact Hnd|]. auto using sublist_app. }
  apply NoDup_app in Hn as (Hnb & Hdis & _). split; [done|]. exists acc. split; [done|].
  assert (∀ r, r ∈ mjoin batches → is_Some (w_tasks w !! r)) as Hexb.
  { intros r Hr. apply Hex. assert (r ∈ sc_buffer s ++ q_items (sc_queue s) ++ acc) as Hr'.
    { rewrite <- Hp. apply elem_of_app. by left. }
    eapply elem_of_sublist; [exact Hr'|]. auto using sublist_app. }
  intros r Hr. rewrite <- Hp in Hr. apply elem_of_app in Hr as [Hr|Hr].
  - right. split_and!; [done| |by apply (scheduler_loop_handled turns s w s' w' batches)].
    intros Hw. apply (Hdis r Hr), elem_of_app. destruct Hw; [by left|by right].
  - left. split; [by apply elem_of_app in Hr|]. intros Hb. by apply (Hdis r Hb).
Qed.

(** C6. The dispatch path accounts for every task.  The scheduler over the remote pool goes
    through its turns, given ticks enough, under any strategies and any interference of the
    pool's other threads, as long as the wall clock does not step back within a turn; and
    then each task that was waiting at the start or was accepted by the queue meanwhile is
    either still waiting and was never dispatched, or was dispatched exactly once and has an
    outcome or was accepted by a proxy, in a batch that holds it, at some point of the run. *)
Theorem dispatch_accounts_for_every_task turns s w :
  Forall turn_ends turns → Forall turn_ok turns →
  NoDup (sc_buffer s ++ q_items (sc_queue s) ++ mjoin (turn_arrivals <$> turns)) →
  (∀ r, r ∈ sc_buffer s ++ q_items (sc_queue s) ++ mjoin (turn_arrivals <$> turns) →
     is_Some (w_tasks w !! r)) →
  ∃ s' w' batches, scheduler_loop grpc_handler turns s w = Some (s', w', batches) ∧
    NoDup (mjoin batches) ∧
    ∃ acc, acc `sublist_of` mjoin (turn_arrivals <$> turns) ∧
      ∀ r, r ∈ sc_buffer s ++ q_items (sc_queue s) ++ acc →
        (waiting s' r ∧ r ∉ mjoin batches) ∨
        (r ∈ mjoin batches ∧ ¬ waiting s' r ∧ handled w w' r).
Proof.
  intros Hends Hok Hnd Hex. destruct (scheduler_loop_total grpc_handler turns s w Hends) as (s' & w' & batches & E).
  exists s', w', batches. split; [done|]. by apply (scheduler_loop_accounts turns s w s' w' batches).
Qed.
End dispatch.

(** The three tasks of [sample_world] arrive in two turns; the model task finds no worker
    that runs its kind excluded, since a worker without declared kinds runs them all. *)
Definition sample_dispatch_turns : list turn :=
  [mkTurn ∅ "fifo" 0 [mkTick [0; 1]%nat 2 0; mkTick [] 2 0; mkTick [] 2 0] sample_obs;
   mkTurn ∅ "fifo" 0 [mkTick [2%nat] 2 0; mkTick [] 2 0; mkTick [] 2 0] sample_obs].

Lemma dispatch_accounts_for_every_task_witness :
  ∃ s' w' batches,
    scheduler_loop (grpc_handler sample_env) sample_dispatch_turns
      (mkSched (mkQueue [] 0 0 0) []) sample_world = Some (s', w', batches) ∧
    NoDup (mjoin batches).
Proof.
  destruct (dispatch_accounts_for_every_task sample_env sample_dispatch_turns
    (mkSched (mkQueue [] 0 0 0) []) sample_world) as (s' & w' & batches & E & Hn & _).
  - repeat constructor; simpl; try done; intros _; exists 2;
      (split; [unfold py_len; simpl; lia|repeat constructor; simpl; lia]).
  - repeat constructor; simpl; try lia; intros; apply Qle_refl.
  - apply (bool_decide_unpack _). vm_compute. exact I.
  - intros r Hr. vm_compute in Hr. revert Hr. change (r ∈ [0; 1; 2]%nat → is_Some (w_tasks sample_world !! r)).
    rewrite !elem_of_cons. intros [->|[->|[->|H]]]; [eexists; vm_compute; reflexivity..|by apply not_elem_of_nil in H].
  - exists s', w', batches. split; [exact E|exact Hn].
Defined.
