(* ===== verification/Deployment.v ===== *)
(** Admission during rollouts: [src/system/deployment.py].  The gate counts the
    handlers in progress and admits none while the drain marker exists; the
    middleware brackets each request with it. *)
From S2P Require Import Prelude PyVal.

(** What reading the marker file gives: its text, [FileNotFoundError], or another
    failure ([OSError], [UnicodeError]). *)
Inductive marker := MarkerText (text : string) | MarkerMissing | MarkerUnreadable.

(** [marker_state]: draining unless the file is known to be missing. *)
Definition marker_state (m : marker) : bool * option string :=
  match m with
  | MarkerText text => (true, Some (py_strip text))
  | MarkerMissing => (false, None)
  | MarkerUnreadable => (true, None)
  end.

Definition draining (m : marker) : bool := (marker_state m).1.

Record DeploymentGate := mkGate { gate_active : Z }.

Definition gate_init : DeploymentGate := mkGate 0.

Definition gate_enter (m : marker) (g : DeploymentGate) : bool * DeploymentGate :=
  if draining m then (false, g) else (true, mkGate (gate_active g + 1)).

Definition gate_leave (g : DeploymentGate) : DeploymentGate := mkGate (gate_active g - 1).

Definition gate_snapshot (m : marker) (g : DeploymentGate) : list (string * pyval) :=
  let '(d, token) := marker_state m in
  [("protocol", PyInt 1); ("draining", PyBool d);
   ("drain_id", match token with Some s => PyStr s | None => PyNone end);
   ("active", PyInt (gate_active g))]%string.

(** ** The middleware *)

Record http_scope := mkScope { sc_type : string; sc_method : string }.

(** Requests the middleware lets through without the gate. *)
Definition ungated (sc : http_scope) : bool :=
  negb (bool_decide (sc_type sc = "http"%string))
  || bool_decide (sc_method sc ∈ ["GET"; "HEAD"; "OPTIONS"]%string).

(** The response, or the exception that propagates. *)
Inductive http_result := HttpResponse (status : Z) (body : pyval) | HttpRaised (exn : string).

(** [GET /health/deployment] of the API. *)
Definition deployment_status (m : marker) (g : DeploymentGate) : http_result := HttpResponse 200 (PyDict (gate_snapshot m g)).

(** [start_worker_health]: the adapter's listener knows one path. *)
Definition worker_health (path : string) (m : marker) (g : DeploymentGate) : http_result :=
  if negb (bool_decide (path = "/health/deployment"%string)) then HttpResponse 404 PyNone
  else HttpResponse 200 (PyDict (gate_snapshot m g)).

Definition draining_response : http_result :=
  HttpResponse 503
    (PyDict [("code", PyStr "DEPLOYMENT_DRAINING");
             ("message", PyStr "Inference service is updating. Retry shortly.")]%string).

(** [__call__]: [app] runs with the gate as other requests leave it, and may raise;
    [finally] runs on both exits. *)
Definition middleware (app : http_scope → DeploymentGate → http_result * DeploymentGate)
    (m : marker) (sc : http_scope) (g : DeploymentGate) : http_result * DeploymentGate :=
  if ungated sc then app sc g
  else
    let '(ok, g) := gate_enter m g in
    if ok then let '(r, g) := app sc g in (r, gate_leave g)
    else (draining_response, g).

(** ** Concurrent requests

    The gate with the requests between [enter] and [leave]; the marker appears and
    disappears as the rollout decides. *)

Record gate_world := mkGateWorld {
  gw_gate : DeploymentGate;
  gw_marker : marker;
  gw_inside : list nat;       (* the requests admitted and not finished *)
}.

Inductive gate_step : gate_world → gate_world → Prop :=
| gate_admit i m g inside :
    i ∉ inside → (gate_enter m g).1 = true →
    gate_step (mkGateWorld g m inside) (mkGateWorld (gate_enter m g).2 m (i :: inside))
| gate_refuse m g inside :
    (gate_enter m g).1 = false →
    gate_step (mkGateWorld g m inside) (mkGateWorld (gate_enter m g).2 m inside)
| gate_finish i m g inside1 inside2 :
    gate_step (mkGateWorld g m (inside1 ++ i :: inside2))
      (mkGateWorld (gate_leave g) m (inside1 ++ inside2))
| gate_mark m m' g inside : gate_step (mkGateWorld g m inside) (mkGateWorld g m' inside).

(** The same, while the marker exists. *)
Definition drain_step (w w' : gate_world) : Prop :=
  gate_step w w' ∧ draining (gw_marker w) = true ∧ draining (gw_marker w') = true.

Lemma gate_step_count w w' :
  gate_step w w' → gate_active (gw_gate w) = py_len (gw_inside w) →
  gate_active (gw_gate w') = py_len (gw_inside w').
Proof.
  destruct 1 as [i m g l _ He|m g l He|i m g l1 l2|]; simpl; intros Hc; try done.
  - unfold gate_enter in *. destruct (draining m); simpl in *; [done|].
    rewrite Hc. unfold py_len. simpl. lia.
  - unfold gate_enter in *. by destruct (draining m).
  - rewrite Hc, !py_len_app. unfold py_len. simpl. lia.
Qed.

Lemma drain_step_inside w w' : drain_step w w' → gw_inside w' `sublist_of` gw_inside w.
Proof.
  intros (Hs & Hd & _). destruct Hs as [i m g l _ He|m g l He|i m g l1 l2|]; simpl in *; try done.
  - exfalso. unfold gate_enter in He. by rewrite Hd in He.
  - apply sublist_app; [done|]. by apply sublist_cons.
Qed.

Lemma gate_reach_count w w' :
  rtc gate_step w w' → gate_active (gw_gate w) = py_len (gw_inside w) →
  gate_active (gw_gate w') = py_len (gw_inside w').
Proof. induction 1; eauto using gate_step_count. Qed.

Lemma drain_steps w w' :
  rtc drain_step w w' → rtc gate_step w w' ∧ gw_inside w' `sublist_of` gw_inside w.
Proof.
  induction 1 as [|w1 w2 w3 H12 _ [IH1 IH2]]; [done|]. split.
  - eapply rtc_l; [apply H12|done].
  - etrans; [exact IH2|by apply drain_step_inside].
Qed.

(** The gate's count is the number of admitted requests still in progress — it
    is never negative and every admission is returned exactly once, also by
    requests that raise — and a drain is monotone: while the marker exists nothing
    new is admitted, so the requests in progress only finish, and once the count
    has reached zero it stays zero. *)
Theorem drain_is_monotone (w w' : gate_world) (m : marker) :
  rtc gate_step (mkGateWorld gate_init m []) w → rtc drain_step w w' →
  gate_active (gw_gate w) = py_len (gw_inside w) ∧ 0 <= gate_active (gw_gate w) ∧
  gw_inside w' `sublist_of` gw_inside w ∧
  0 <= gate_active (gw_gate w') <= gate_active (gw_gate w) ∧
  (gate_active (gw_gate w) = 0 → gate_active (gw_gate w') = 0).
Proof.
  intros H1 H2. apply drain_steps in H2 as [H2 Hsub].
  pose proof (gate_reach_count _ _ H1 eq_refl) as Hw.
  pose proof (gate_reach_count _ _ H2 Hw) as Hw'.
  pose proof (sublist_length _ _ Hsub). unfold py_len in *. split_and!; try done; lia.
Qed.

Lemma drain_is_monotone_witness :
  gw_inside (mkGateWorld (mkGate 0) (MarkerText "r1") []) `sublist_of` [1%nat].
Proof.
  apply (drain_is_monotone (mkGateWorld (mkGate 1) (MarkerText "r1") [1%nat])
    (mkGateWorld (mkGate 0) (MarkerText "r1") []) MarkerMissing).
  - eapply rtc_l; [apply (gate_admit 1%nat MarkerMissing gate_init []);
      [apply not_elem_of_nil|reflexivity]|].
    eapply rtc_l; [apply (gate_mark _ (MarkerText "r1"))|reflexivity].
  - apply rtc_once. split; [|done].
    apply (gate_finish 1%nat (MarkerText "r1") (mkGate 1) [] []).
Defined.

(** One request through the middleware: requests that only read, and traffic
    that is not HTTP, bypass the gate; a gated request is turned away with 503 and
    the gate untouched exactly while a marker exists or cannot be read; otherwise
    the application runs with itself counted and, whether it answers or raises,
    the count it leaves behind is one less than it ended with. *)
Lemma middleware_brackets (app : http_scope → DeploymentGate → http_result * DeploymentGate)
    (m : marker) (sc : http_scope) (g : DeploymentGate) :
  middleware app m sc g =
    if ungated sc then app sc g
    else match m with
         | MarkerMissing =>
             let '(r, g') := app sc (mkGate (gate_active g + 1)) in
             (r, mkGate (gate_active g' - 1))
         | _ => (draining_response, g)
         end.
Proof. unfold middleware. destruct (ungated sc); [done|]. by destruct m. Qed.
