(* ===== verification/AtomicFile.v ===== *)
(** Writing a state file so that a crash shows the old or the new document, never a part of
    one: [atomic_json] of [src/deploy/ci/deploy_platform.py] and [V73Worker._write_json] of
    [src/system/worker_v73.py], which the models of rollouts and of model jobs take as one
    effect each. *)
From S2P Require Import Prelude.

(** A file: its bytes, whether they have reached the disk, and its permissions. *)
Record inode := mkInode { in_data : string; in_synced : bool; in_mode : Z }.
Abbreviation disk := (gmap string inode).

(** The system calls the two functions make; [FOpen] truncates what is there, and with
    [exclusive] refuses it. *)
Inductive file_op :=
| FOpen (path : string) (exclusive : bool) (mode : Z)
| FWrite (path text : string)
| FSync (path : string)
| FChmod (path : string) (mode : Z)
| FReplace (source path : string).

Definition file_step (o : file_op) (d : disk) : option disk :=
  match o with
  | FOpen p exclusive mode =>
      match d !! p with
      | None => Some (<[p := mkInode EmptyString false mode]> d)
      | Some i => if exclusive then None else Some (<[p := mkInode EmptyString false (in_mode i)]> d)
      end
  | FWrite p text => i ← d !! p; Some (<[p := mkInode (in_data i +:+ text) false (in_mode i)]> d)
  | FSync p => i ← d !! p; Some (<[p := mkInode (in_data i) true (in_mode i)]> d)
  | FChmod p mode => i ← d !! p; Some (<[p := mkInode (in_data i) (in_synced i) mode]> d)
  | FReplace q p => i ← d !! q; Some (<[p := i]> (delete q d))
  end.

Fixpoint file_run (os : list file_op) (d : disk) : option disk :=
  match os with [] => Some d | o :: os' => d' ← file_step o d; file_run os' d' end.

(** [atomic_json]: [chunks] are the writes of [json.dump], the last one the newline. *)
Definition atomic_json (path temporary : string) (umask_mode : Z) (chunks : list string) : list file_op :=
  FOpen temporary false umask_mode :: map (FWrite temporary) chunks ++
  [FSync temporary; FChmod temporary 384; FReplace temporary path].

(** [_write_json]; [temporary] has a fresh random suffix. *)
Definition write_json (path temporary : string) (umask_mode : Z) (text : string) : list file_op :=
  [FOpen temporary true umask_mode; FWrite temporary text; FSync temporary; FReplace temporary path].

(** What a crash leaves: bytes that have not reached the disk may be anything. *)
Definition crash_image (d d' : disk) : Prop :=
  ∀ p, match d !! p, d' !! p with
       | Some i, Some i' => in_mode i' = in_mode i ∧ (in_synced i = true → i' = i)
       | None, None => True
       | _, _ => False
       end.

(** ** Where the path is while it is replaced *)

Definition document (chunks : list string) : string := foldl String.append EmptyString chunks.

(** Every disk the operations pass through shows the path as it was, or with [new]. *)
Definition shows (path : string) (old : option inode) (new : inode) (d : disk) : Prop :=
  d !! path = old ∨ d !! path = Some new.

(** An operation on another file leaves the path. *)
Lemma file_step_other o d d' path :
  match o with FOpen p _ _ | FWrite p _ | FSync p | FChmod p _ => p ≠ path | FReplace q p => q ≠ path ∧ p ≠ path end →
  file_step o d = Some d' → d' !! path = d !! path.
Proof.
  destruct o as [p e m|p t|p|p m|q p]; simpl; intros Hne H.
  - destruct (d !! p) as [i|]; [destruct e; [done|]|]; injection H as <-; by rewrite lookup_insert_ne.
  - destruct (d !! p); [|done]. injection H as <-. by rewrite lookup_insert_ne.
  - destruct (d !! p); [|done]. injection H as <-. by rewrite lookup_insert_ne.
  - destruct (d !! p); [|done]. injection H as <-. by rewrite lookup_insert_ne.
  - destruct Hne as [Hq Hp]. destruct (d !! q); [|done]. injection H as <-. by rewrite lookup_insert_ne, lookup_delete_ne.
Qed.

Lemma file_run_app os1 os2 d : file_run (os1 ++ os2) d = d' ← file_run os1 d; file_run os2 d'.
Proof. revert d. induction os1 as [|o os1 IH]; intros d; simpl; [done|]. destruct (file_step o d); simpl; [apply IH|done]. Qed.

(** The operations on the temporary file alone. *)
Definition touches_only (temporary : string) (o : file_op) : Prop :=
  match o with FOpen p _ _ | FWrite p _ | FSync p | FChmod p _ => p = temporary | FReplace _ _ => False end.

Lemma file_run_other os path temporary d d' :
  Forall (touches_only temporary) os → temporary ≠ path → file_run os d = Some d' → d' !! path = d !! path.
Proof.
  intros Hos Hne. revert d. induction Hos as [|o os Ho _ IH]; intros d; simpl; [by intros [= ->]|].
  destruct (file_step o d) as [d1|] eqn:E; [|done]. intros H. rewrite (IH d1 H).
  eapply file_step_other; [|exact E]. by destruct o; simpl in *; subst.
Qed.

(** Before the last call the path is untouched; after it, it holds the temporary file. *)
Lemma replace_shows os path temporary d k d' i :
  Forall (touches_only temporary) os → temporary ≠ path →
  (∀ d1, file_run os d = Some d1 → d1 !! temporary = Some i) →
  file_run (take k (os ++ [FReplace temporary path])) d = Some d' → shows path (d !! path) i d'.
Proof.
  intros Hos Hne Hi. unfold shows. destruct (decide (k ≤ length os)%nat) as [Hk|Hk].
  - rewrite take_app_le by done. intros H. left. eapply file_run_other; [|exact Hne|exact H]. by apply Forall_take.
  - rewrite take_ge by (rewrite length_app; simpl; lia). rewrite file_run_app.
    destruct (file_run os d) as [d1|] eqn:E; simpl; [|done]. rewrite (Hi d1 eq_refl). simpl. intros [= <-]. right. by rewrite lookup_insert_eq.
Qed.

Lemma writes_temporary chunks temporary d i :
  d !! temporary = Some i →
  file_run (map (FWrite temporary) chunks) d =
    Some (match chunks with [] => d | _ => <[temporary := mkInode (foldl String.append (in_data i) chunks) false (in_mode i)]> d end).
Proof.
  revert d i. induction chunks as [|c chunks IH]; intros d i Hd; [done|]. simpl. rewrite Hd. simpl.
  rewrite (IH _ (mkInode (in_data i +:+ c) false (in_mode i))) by by rewrite lookup_insert_eq.
  destruct chunks as [|c' chunks]; [done|]. by rewrite insert_insert_eq.
Qed.

Lemma open_temporary temporary exclusive mode d d1 :
  file_step (FOpen temporary exclusive mode) d = Some d1 → ∃ m, d1 !! temporary = Some (mkInode EmptyString false m).
Proof.
  simpl. destruct (d !! temporary) as [i|]; [destruct exclusive; [done|]|]; intros [= <-]; rewrite lookup_insert_eq; eauto.
Qed.

(** C39. A state file is replaced whole.  Whenever [atomic_json] is cut short, even by a power
    failure that loses what was not yet on disk, the path shows what was there before or the
    complete new document, readable by its owner only; and when it returns, the new one. *)
Theorem atomic_json_is_atomic (path temporary : string) (umask_mode : Z) (chunks : list string)
    (d d' d'' : disk) (k : nat) :
  temporary ≠ path → (∀ i, d !! path = Some i → in_synced i = true) →
  file_run (take k (atomic_json path temporary umask_mode chunks)) d = Some d' → crash_image d' d'' →
  (d'' !! path = d !! path ∨ d'' !! path = Some (mkInode (document chunks) true 384)) ∧
  ((length (atomic_json path temporary umask_mode chunks) ≤ k)%nat →
     d'' !! path = Some (mkInode (document chunks) true 384)).
Proof.
  intros Hne Hsync H Hc.
  set (os := FOpen temporary false umask_mode :: map (FWrite temporary) chunks ++ [FSync temporary; FChmod temporary 384]).
  assert (atomic_json path temporary umask_mode chunks = os ++ [FReplace temporary path]) as E
    by (unfold atomic_json, os; simpl; by rewrite <- app_assoc).
  assert (Forall (touches_only temporary) os) as Hos.
  { unfold os. constructor; [done|]. apply Forall_app. split; [|by repeat constructor]. apply Forall_map, Forall_forall. done. }
  assert (∀ d1, file_run os d = Some d1 → d1 !! temporary = Some (mkInode (document chunks) true 384)) as Hi.
  { intros d1. unfold os. cbn [file_run]. destruct (file_step (FOpen temporary false umask_mode) d) as [d0|] eqn:E0; [|done].
    apply open_temporary in E0 as [m Hm]. simpl. rewrite file_run_app, (writes_temporary chunks _ _ _ Hm). simpl.
    destruct chunks as [|c chunks']; simpl; rewrite ?Hm, ?lookup_insert_eq; simpl; rewrite lookup_insert_eq; simpl;
      intros [= <-]; by rewrite lookup_insert_eq. }
  rewrite E in H |- *. pose proof (replace_shows os path temporary d k d' _ Hos Hne Hi H) as Hs. specialize (Hc path).
  assert (∀ i, d' !! path = Some i → in_synced i = true → d'' !! path = Some i) as Hkeep.
  { intros i Hp Hs'. rewrite Hp in Hc. destruct (d'' !! path) as [i'|]; [|done]. destruct Hc as [_ Hc]. by rewrite (Hc Hs'). }
  split.
  - destruct Hs as [Hs|Hs]; [left|right; by apply Hkeep]. destruct (d !! path) as [i|] eqn:Ed; [by apply Hkeep, (Hsync i)|].
    rewrite Hs in Hc. by destruct (d'' !! path).
  - intros Hk. apply Hkeep; [|done]. rewrite take_ge, file_run_app in H by done.
    destruct (file_run os d) as [d1|] eqn:E1; [|done]. simpl in H. rewrite (Hi d1 eq_refl) in H. simpl in H.
    injection H as <-. by rewrite lookup_insert_eq.
Qed.

(** The same for the state file of a model job; a temporary name that is taken is refused
    before anything is written. *)
Theorem write_json_is_atomic (path temporary : string) (umask_mode : Z) (text : string) (d d' d'' : disk) (k : nat) :
  temporary ≠ path → (∀ i, d !! path = Some i → in_synced i = true) →
  file_run (take k (write_json path temporary umask_mode text)) d = Some d' → crash_image d' d'' →
  d'' !! path = d !! path ∨ d'' !! path = Some (mkInode text true umask_mode).
Proof.
  intros Hne Hsync H Hc.
  set (os := [FOpen temporary true umask_mode; FWrite temporary text; FSync temporary]).
  assert (Forall (touches_only temporary) os) as Hos by by repeat constructor.
  assert (∀ d1, file_run os d = Some d1 → d1 !! temporary = Some (mkInode text true umask_mode)) as Hi.
  { intros d1. unfold os. cbn [file_run]. destruct (file_step _ d) as [d0|] eqn:E0; [|done]. simpl in E0.
    destruct (d !! temporary); [done|]. injection E0 as <-. simpl. rewrite lookup_insert_eq. simpl. rewrite lookup_insert_eq. simpl.
    intros [= <-]. by rewrite lookup_insert_eq. }
  pose proof (replace_shows os path temporary d k d' _ Hos Hne Hi H) as Hs. specialize (Hc path).
  assert (∀ i, d' !! path = Some i → in_synced i = true → d'' !! path = Some i) as Hkeep.
  { intros i Hp Hs'. rewrite Hp in Hc. destruct (d'' !! path) as [i'|]; [|done]. destruct Hc as [_ Hc]. by rewrite (Hc Hs'). }
  destruct Hs as [Hs|Hs]; [left|right; by apply Hkeep]. destruct (d !! path) as [i|] eqn:Ed; [by apply Hkeep, (Hsync i)|].
  rewrite Hs in Hc. by destruct (d'' !! path).
Qed.

(** A crash after the fourth call: the new document is written, but not yet in place. *)
Definition demo_disk : disk := {["current.json"%string := mkInode "old" true 384]}.
Definition demo_write : list file_op := atomic_json "current.json" "current.new" 420 ["new"; "!"]%string.

Lemma crash_image_refl d : crash_image d d.
Proof. intros p. by destruct (d !! p). Qed.

Definition demo_crash : disk := default ∅ (file_run (take 4 demo_write) demo_disk).

Lemma demo_crash_reached : file_run (take 4 demo_write) demo_disk = Some demo_crash.
Proof. vm_compute. reflexivity. Qed.

Lemma demo_disk_synced i : demo_disk !! "current.json"%string = Some i → in_synced i = true.
Proof. unfold demo_disk. rewrite lookup_singleton_eq. by intros [= <-]. Qed.

Lemma atomic_json_is_atomic_witness :
  demo_crash !! "current.json"%string = demo_disk !! "current.json"%string ∨
  demo_crash !! "current.json"%string = Some (mkInode (document ["new"; "!"]%string) true 384).
Proof.
  apply (atomic_json_is_atomic "current.json" "current.new" 420 ["new"; "!"]%string demo_disk demo_crash demo_crash 4);
    [discriminate|exact demo_disk_synced|exact demo_crash_reached|apply crash_image_refl].
Defined.
