(* ===== verification/WorkerServer.v ===== *)
(** The worker process's request handlers, [src/system/grpc_worker_server.py]:
    batch simulation with deadlines and cancellation, the real-model path, the
    rollout gate around both, and the runtime settings. *)
From S2P Require Import Prelude PyVal Tasks Queue Config LocalWorker GrpcWorker World GrpcPool Deployment.

(** ** Settings and observations *)

(** The module's mutable configuration. *)
Record worker_settings := mkSettings {
  ws_failure_rate : Q;
  ws_inference_latency_ms : Q;
}.

(** What one call observes: the n-th reading of [time.monotonic()], the n-th answer
    of [context.is_active()], and [random.random()].  A reading the code skips is
    an index that is not used. *)
Record call_obs := mkCallObs {
  co_clock : nat → Q;
  co_active : nat → bool;
  co_random : Q;
}.

Section server.
Context (json_dumps : pyval → string) (json_loads : string → pyval + string).
Context (worker_id : Z).

(** ** Deadlines *)

Definition deadlines_of (received : Q) (tasks : list TaskRequest)
    : list (string * option Q) :=
  foldl (λ d t, dict_set d (rq_task_id t)
           (r ← rq_remaining_seconds t; Some (received + r)%Q)) [] tasks.

(** [deadline is not None and now >= deadline]. *)
Definition past_deadline (d : list (string * option Q)) (now : Q) (t : TaskRequest) : bool :=
  match dict_lookup d (rq_task_id t) with
  | Some (Some x) => x <=?q now
  | _ => false
  end.

Definition deadline_result (t : TaskRequest) : TaskResult :=
  mkTaskResult (rq_task_id t) false EmptyString "request deadline exceeded" "deadline_exceeded".

(** One pass over the tasks: those still in time, and results for the others;
    [now i] is the reading for the i-th task. *)
Fixpoint sift (d : list (string * option Q)) (now : nat → Q) (i : nat)
    (tasks : list TaskRequest) : list TaskRequest * list TaskResult :=
  match tasks with
  | [] => ([], [])
  | t :: tasks' =>
      let '(live, late) := sift d now (S i) tasks' in
      if past_deadline d (now i) t then (live, deadline_result t :: late)
      else (t :: live, late)
  end.

(** ** Waiting out the simulated latency *)

Inductive wait_outcome :=
| WaitReturn (results : list TaskResult)
| WaitReady (active : list TaskRequest) (results : list TaskResult) (k : nat)
| WaitOut.   (* the fuel ran out *)

Fixpoint wait_loop (fuel : nat) (ob : call_obs) (d : list (string * option Q)) (finish_at : Q)
    (k p : nat) (active : list TaskRequest) (results : list TaskResult) : wait_outcome :=
  match fuel with
  | O => WaitOut
  | S fuel' =>
      if negb (co_active ob p) then WaitReturn results
      else
        let now := co_clock ob k in
        let '(live, late) := sift d (λ _, now) 0 active in
        let results := results ++ late in
        match live with
        | [] => WaitReturn results
        | _ =>
            if finish_at - co_clock ob (S k) <=?q 0 then WaitReady live results (S (S k))
            else wait_loop fuel' ob d finish_at (S (S k)) (S p) live results
        end
  end.

(** ** Results *)

(** The body of the [try] of the last loop and its handler. *)
Definition predict_result (t : TaskRequest) : TaskResult :=
  match json_loads (rq_input_json t) with
  | inr msg => mkTaskResult (rq_task_id t) false EmptyString msg EmptyString
  | inl data =>
      match py_square (input_x data) with
      | inr msg => mkTaskResult (rq_task_id t) false EmptyString msg EmptyString
      | inl x2 => mkTaskResult (rq_task_id t) true (json_dumps (prediction worker_id x2))
                    EmptyString EmptyString
      end
  end.

(** The last loop. *)
Fixpoint finish_requests (d : list (string * option Q)) (now : nat → Q) (i : nat)
    (tasks : list TaskRequest) : list TaskResult :=
  match tasks with
  | [] => []
  | t :: tasks' =>
      (if past_deadline d (now i) t then deadline_result t else predict_result t)
      :: finish_requests d now (S i) tasks'
  end.

Definition injected_result (t : TaskRequest) : TaskResult :=
  mkTaskResult (rq_task_id t) false EmptyString (injected_failure worker_id) EmptyString.

(** The simulated time of a batch of [n] tasks, in milliseconds. *)
Definition server_total_ms (latency : Q) (n : Z) : Q :=
  (latency + inject_Z n * (latency * (2 # 10)))%Q.

(** [_process_batch] without a backend; [None] only when the fuel runs out. *)
Definition process_batch (fuel : nat) (ws : worker_settings) (ob : call_obs)
    (tasks : list TaskRequest) : option (list TaskResult) :=
  let received := co_clock ob 0 in
  let d := deadlines_of received tasks in
  let n := length tasks in
  let '(active, results) := sift d (co_clock ob) 1 tasks in
  match active with
  | [] => Some results
  | _ =>
      if (0 <?q ws_failure_rate ws) && (co_random ob <?q ws_failure_rate ws)
      then Some (results ++ map injected_result active)
      else
        let total_ms := server_total_ms (ws_inference_latency_ms ws) (py_len active) in
        let finish_at := (co_clock ob (S n) + total_ms / 1000)%Q in
        match wait_loop fuel ob d finish_at (S (S n)) 0 active results with
        | WaitReturn results => Some results
        | WaitReady active results k =>
            Some (results ++ finish_requests d (co_clock ob) k active)
        | WaitOut => None
        end
  end.

(** ** The real-model path *)

(** [backend.process]: a value, a [WorkerError] with its code and text, or another
    exception. *)
Inductive backend_outcome :=
| BackendOk (v : pyval)
| BackendError (code msg : string)
| BackendCrash.

Definition backend_result (process : pyval → option Q → backend_outcome) (received : Q)
    (t : TaskRequest) : TaskResult :=
  let outcome :=
    match json_loads (rq_input_json t) with
    | inr _ => BackendError "invalid_spec" "input_json must be valid JSON"
    | inl payload => process payload (r ← rq_remaining_seconds t; Some (received + r)%Q)
    end in
  match outcome with
  | BackendOk v => mkTaskResult (rq_task_id t) true (json_dumps v) EmptyString EmptyString
  | BackendError code msg => mkTaskResult (rq_task_id t) false EmptyString msg code
  | BackendCrash =>
      mkTaskResult (rq_task_id t) false EmptyString "unexpected worker failure" "worker_error"
  end.

(** [_process_backend]: the i-th task of the call meets the backend as [process i]. *)
Definition process_backend (process : nat → pyval → option Q → backend_outcome)
    (received : Q) (tasks : list TaskRequest) : list TaskResult :=
  imap (λ i t, backend_result (process i) received t) tasks.

(** ** [ProcessBatch]: the gate around either path *)

Definition updating_result (t : TaskRequest) : TaskResult :=
  mkTaskResult (rq_task_id t) false EmptyString "adapter is updating" "worker_busy".

(** [body] is [_process_batch]; [None] is an exception it raised.  The gate may be
    moved by other calls while [body] runs. *)
Definition ProcessBatch (gate : option (marker * DeploymentGate))
    (body : option (list TaskResult)) (others : DeploymentGate → DeploymentGate)
    (tasks : list TaskRequest) : option (list TaskResult) * option DeploymentGate :=
  match gate with
  | None => (body, None)
  | Some (m, g) =>
      let '(ok, g) := gate_enter m g in
      if ok then (body, Some (gate_leave (others g)))
      else (Some (map updating_result tasks), Some g)
  end.

(** [UpdateConfig]. *)
Definition UpdateConfig (failure_rate latency : Q) (ws : worker_settings) : worker_settings :=
  mkSettings failure_rate latency.
End server.
