(* ===== verification/WorkerServerFacts.v ===== *)
(** Properties of the worker's handlers: a call that is not cancelled terminates
    with exactly one result per request, each of them justified, and that is what
    the dispatching side relies on. *)
From S2P Require Import Prelude PyVal Tasks Queue Config LocalWorker GrpcWorker World GrpcPool GrpcPoolFacts GrpcDelivery GrpcSettle Deployment WorkerServer.

Definition request_ids (tasks : list TaskRequest) : list string := rq_task_id <$> tasks.
Definition result_ids (results : list TaskResult) : list string := rs_task_id <$> results.

Lemma result_ids_app r1 r2 : result_ids (r1 ++ r2) = result_ids r1 ++ result_ids r2.
Proof. apply fmap_app. Qed.

Section facts.
Context (dumps : pyval → string) (loads : string → pyval + string) (wid : Z).

(** ** One pass *)

Lemma sift_spec d now i tasks :
  let '(live, late) := sift d now i tasks in
  request_ids live ++ result_ids late ≡ₚ request_ids tasks ∧
  (∀ t, t ∈ live → t ∈ tasks) ∧
  ∀ res, res ∈ late → ∃ t j, t ∈ tasks ∧ res = deadline_result t ∧ past_deadline d (now j) t = true.
Proof.
  revert i. induction tasks as [|t tasks IH]; intros i; simpl.
  { split_and!; [done|done|]. by intros ? ?%not_elem_of_nil. }
  specialize (IH (S i)). destruct (sift d now (S i) tasks) as [live late].
  destruct IH as (Hp & Hl & Hr).
  destruct (past_deadline d (now i) t) eqn:E; simpl; split_and!.
  - change (result_ids (deadline_result t :: late)) with (rq_task_id t :: result_ids late).
    rewrite <- Permutation_middle. by constructor.
  - intros u Hu. right. auto.
  - intros res [->|Hres]%elem_of_cons; [exists t, i; split_and!; [by left|done|done]|].
    destruct (Hr res Hres) as (u & j & ? & ? & ?). exists u, j. split_and!; try done. by right.
  - by constructor.
  - intros u [->|Hu]%elem_of_cons; [by left|right; auto].
  - intros res Hres. destruct (Hr res Hres) as (u & j & ? & ? & ?).
    exists u, j. split_and!; try done. by right.
Qed.

(** A result is justified: the deadline had passed at some reading, the failure was
    injected, or the prediction was made before the deadline. *)
Definition answer_ok (ws : worker_settings) (ob : call_obs) (d : list (string * option Q))
    (tasks : list TaskRequest) (res : TaskResult) : Prop :=
  ∃ t, t ∈ tasks ∧
    ((res = deadline_result t ∧ ∃ i, past_deadline d (co_clock ob i) t = true) ∨
     (res = injected_result wid t ∧ (0 < ws_failure_rate ws)%Q ∧ (co_random ob < ws_failure_rate ws)%Q) ∨
     (res = predict_result dumps loads wid t ∧ ∃ i, past_deadline d (co_clock ob i) t = false)).

Lemma late_ok ws ob d tasks t j :
  t ∈ tasks → past_deadline d (co_clock ob j) t = true →
  answer_ok ws ob d tasks (deadline_result t).
Proof. intros Ht Hp. exists t. split; [done|]. left. eauto. Qed.

(** ** The waiting loop *)

Lemma wait_loop_spec fuel ws ob d finish tasks k p active results :
  (∀ t, t ∈ active → t ∈ tasks) → (∀ res, res ∈ results → answer_ok ws ob d tasks res) →
  match wait_loop fuel ob d finish k p active results with
  | WaitOut => True
  | WaitReady active' results' _ =>
      request_ids active' ++ result_ids results' ≡ₚ request_ids active ++ result_ids results ∧
      (∀ t, t ∈ active' → t ∈ tasks) ∧ ∀ res, res ∈ results' → answer_ok ws ob d tasks res
  | WaitReturn results' =>
      (∃ rest, rest ++ result_ids results' ≡ₚ request_ids active ++ result_ids results ∧
               ((∀ q, co_active ob q = true) → rest = [])) ∧
      ∀ res, res ∈ results' → answer_ok ws ob d tasks res
  end.
Proof.
  revert k p active results. induction fuel as [|fuel IH]; intros k p active results Ha Hr;
    simpl; [done|].
  destruct (co_active ob p) eqn:Ep; simpl.
  2:{ split; [|done]. exists (request_ids active). split; [done|]. intros Hall.
      by rewrite Hall in Ep. }
  pose proof (sift_spec d (λ _, co_clock ob k) 0 active) as Hs.
  destruct (sift d (λ _, co_clock ob k) 0 active) as [live late]. destruct Hs as (Hp & Hl & Hlate).
  assert (∀ res, res ∈ results ++ late → answer_ok ws ob d tasks res) as Hr'.
  { intros res [?|Hres]%elem_of_app; [auto|]. destruct (Hlate res Hres) as (t & j & ? & -> & ?).
    eapply late_ok; eauto. }
  assert (request_ids live ++ result_ids (results ++ late) ≡ₚ
          request_ids active ++ result_ids results) as Hperm.
  { rewrite result_ids_app, <- Hp, <- !app_assoc. f_equiv. apply Permutation_app_comm. }
  destruct live as [|x xs] eqn:El.
  { split; [|done]. exists []. split; [done|done]. }
  rewrite <- El in *. destruct (_ <=?q _); [split_and!; auto|].
  specialize (IH (S (S k)) (S p) live (results ++ late)).
  destruct (wait_loop fuel ob d finish (S (S k)) (S p) live (results ++ late)) as [r|a r k'|];
    [| |done].
  - destruct IH as [(rest & Hrest & Hnil) Hok]; auto. split; [|done]. exists rest.
    split; [by rewrite Hrest|done].
  - destruct IH as (Hp' & Hl' & Hok); auto. split_and!; [by rewrite Hp'|done|done].
Qed.

Lemma wait_loop_fuel fuel n ob d finish k p active results :
  (finish <= co_clock ob (k + 2 * n + 1))%Q → (n < fuel)%nat →
  wait_loop fuel ob d finish k p active results ≠ WaitOut.
Proof.
  revert n k p active results. induction fuel as [|fuel IH]; intros n k p active results Hn Hf;
    [lia|]. simpl. destruct (negb (co_active ob p)); [done|].
  destruct (sift d _ 0 active) as [[|x xs] late]; [done|].
  destruct (finish - co_clock ob (S k) <=?q 0) eqn:Ew; [done|].
  destruct n as [|n].
  - exfalso. replace (k + 2 * 0 + 1)%nat with (S k) in Hn by lia.
    apply Qleb_false in Ew. lra.
  - apply (IH n); [|lia]. by replace (S (S k) + 2 * n + 1)%nat with (k + 2 * S n + 1)%nat by lia.
Qed.

(** ** The last loop *)

Lemma predict_result_id t : rs_task_id (predict_result dumps loads wid t) = rq_task_id t.
Proof. unfold predict_result. destruct (loads _); [|done]. by destruct (py_square _). Qed.

Lemma finish_requests_spec ws ob d tasks k active :
  (∀ t, t ∈ active → t ∈ tasks) →
  result_ids (finish_requests dumps loads wid d (co_clock ob) k active) = request_ids active ∧
  ∀ res, res ∈ finish_requests dumps loads wid d (co_clock ob) k active →
    answer_ok ws ob d tasks res.
Proof.
  revert k. induction active as [|t active IH]; intros k Ha; simpl.
  { split; [done|]. by intros ? ?%not_elem_of_nil. }
  destruct (IH (S k)) as [IH1 IH2]; [intros; apply Ha; by right|]. split.
  - change (request_ids (t :: active)) with (rq_task_id t :: request_ids active).
    rewrite <- IH1. unfold result_ids. simpl. f_equal.
    destruct (past_deadline _ _ t); [done|apply predict_result_id].
  - intros res [->|Hres]%elem_of_cons; [|auto]. assert (t ∈ tasks) as Ht by (apply Ha; by left).
    destruct (past_deadline d (co_clock ob k) t) eqn:E; exists t; (split; [done|]); eauto 6.
Qed.

(** ** The whole call *)

Lemma process_batch_spec fuel ws ob tasks results :
  process_batch dumps loads wid fuel ws ob tasks = Some results →
  (∀ res, res ∈ results →
     answer_ok ws ob (deadlines_of (co_clock ob 0) tasks) tasks res) ∧
  ∃ rest, rest ++ result_ids results ≡ₚ request_ids tasks ∧
    ((∀ p, co_active ob p = true) → rest = []).
Proof.
  unfold process_batch. set (d := deadlines_of (co_clock ob 0) tasks).
  pose proof (sift_spec d (co_clock ob) 1 tasks) as Hs.
  destruct (sift d (co_clock ob) 1 tasks) as [active late]. destruct Hs as (Hp & Hl & Hlate).
  assert (∀ res, res ∈ late → answer_ok ws ob d tasks res) as Hok.
  { intros res Hres. destruct (Hlate res Hres) as (t & j & ? & -> & ?). eapply late_ok; eauto. }
  destruct active as [|x xs] eqn:Ea.
  { intros [= <-]. split; [done|]. by exists []. }
  rewrite <- Ea in *. clear x xs Ea. destruct ((0 <?q ws_failure_rate ws) && _) eqn:Ei.
  - intros [= <-]. apply andb_true_iff in Ei as [E1%Qltb_true E2%Qltb_true]. split.
    + intros res [?|Hres]%elem_of_app; [auto|].
      apply list_elem_of_fmap in Hres as (t & -> & Ht). exists t. split; [auto|]. right. by left.
    + exists []. split; [|done]. simpl. rewrite result_ids_app, <- Hp, Permutation_app_comm.
      f_equiv. unfold result_ids. change (map ?f ?l) with (f <$> l).
      rewrite <- list_fmap_compose. done.
  - match goal with |- context [wait_loop fuel ob d ?fin ?k ?p active late] =>
      pose proof (wait_loop_spec fuel ws ob d fin tasks k p active late Hl Hok) as Hw;
      destruct (wait_loop fuel ob d fin k p active late) as [r|a r k'|] end; intros [= <-].
    + destruct Hw as [(rest & Hr & Hn) Hres]. split; [done|]. exists rest.
      split; [by rewrite Hr|done].
    + destruct Hw as (Hpw & Hlw & Hres).
      destruct (finish_requests_spec ws ob d tasks k' a Hlw) as [Hf1 Hf2]. split.
      * intros res [?|?]%elem_of_app; auto.
      * exists []. split; [|done]. simpl. rewrite result_ids_app, Hf1.
        by rewrite Permutation_app_comm, Hpw.
Qed.

(** C28. A call of the simulated worker terminates once the clock passes the batch's
    finishing time, and unless the caller cancels it answers every request exactly
    once; every result is justified — a deadline result only if the task's deadline
    had passed at some reading of the clock, an injected failure only if the draw
    asked for one, and a prediction only if it was computed while the task was
    still in time. *)
Theorem process_batch_answers_all (ws : worker_settings) (ob : call_obs) (tasks : list TaskRequest) :
  (∀ x : Q, ∃ i, ∀ j, (i ≤ j)%nat → (x <= co_clock ob j)%Q) →
  ∃ fuel results, process_batch dumps loads wid fuel ws ob tasks = Some results ∧
    (∀ res, res ∈ results → answer_ok ws ob (deadlines_of (co_clock ob 0) tasks) tasks res) ∧
    ((∀ p, co_active ob p = true) → result_ids results ≡ₚ request_ids tasks).
Proof.
  intros Hclk.
  assert (∃ fuel results, process_batch dumps loads wid fuel ws ob tasks = Some results)
    as (fuel & results & E).
  { unfold process_batch. destruct (sift _ _ 1 tasks) as [[|x xs] late]; [exists 0%nat; eauto|].
    destruct (_ && _); [exists 0%nat; eauto|].
    match goal with |- context [wait_loop _ ob ?d ?fin ?k ?p ?a ?l] =>
      set (dd := d); set (f := fin); set (kk := k); set (aa := a) end.
    destruct (Hclk f) as [i Hi]. exists (S i).
    pose proof (wait_loop_fuel (S i) i ob dd f kk 0 aa late) as Hw.
    destruct (wait_loop (S i) ob dd f kk 0 aa late); eauto.
    exfalso. apply Hw; [|lia|done]. apply Hi. lia. }
  exists fuel, results. split; [done|]. destruct (process_batch_spec _ _ _ _ _ E) as [H1 H2].
  split; [done|]. intros Hact. destruct H2 as (rest & Hr & Hn). by rewrite (Hn Hact) in Hr.
Qed.

(** The real-model path answers in order. *)
Lemma process_backend_ids process received tasks :
  result_ids (process_backend dumps loads process received tasks) = request_ids tasks.
Proof.
  unfold process_backend, result_ids, request_ids. rewrite fmap_imap.
  revert process. induction tasks as [|t tasks IH]; intros process; [done|]. simpl. f_equal.
  - unfold backend_result. simpl. destruct (loads _); [|done]. by destruct (process _ _ _).
  - apply (IH (λ i, process (S i))).
Qed.

(** An answer a worker gives to a call that is not cancelled. *)
Definition served (tasks : list TaskRequest) (results : list TaskResult) : Prop :=
  (∃ fuel ws ob, process_batch dumps loads wid fuel ws ob tasks = Some results ∧
     ∀ p, co_active ob p = true) ∨
  (∃ process received, results = process_backend dumps loads process received tasks) ∨
  (∃ m g others body, ProcessBatch (Some (m, g)) body others tasks = (Some results, Some g) ∧
     draining m = true).

Lemma served_ids tasks results : served tasks results → result_ids results ≡ₚ request_ids tasks.
Proof.
  intros [(fuel & ws & ob & E & Hact)|[(process & received & ->)|(m & g & others & body & E & Hd)]].
  - destruct (process_batch_spec _ _ _ _ _ E) as [_ (rest & Hr & Hn)]. by rewrite (Hn Hact) in Hr.
  - by rewrite process_backend_ids.
  - unfold ProcessBatch, gate_enter in E. rewrite Hd in E. injection E as <-.
    unfold result_ids, request_ids. change (map ?f ?l) with (f <$> l).
    by rewrite <- list_fmap_compose.
Qed.

(** C27. The worker's side discharges what the dispatching side assumes: if every
    successful response comes from a worker's handler — simulated, real-model, or
    turned away by the rollout gate — then every response is complete, so the
    proxy's theorem that each task of a processed batch is settled or handed over
    applies to the two processes together. *)
Theorem worker_completes_rpc (env : environment) `{!WellBehaved env} (p : pref)
    (batch : list tref) (w : world) :
  (∀ n who rqs timeout results, rpc env n who rqs timeout = RpcOk results → served rqs results) →
  batch_ok batch w →
  complete_rpc env ∧ ∀ r, r ∈ batch → finished w (gw_process env p batch w) r.
Proof.
  intros Hs Hok.
  assert (complete_rpc env) as Hc.
  { intros n who rqs timeout results E rq Hrq. apply Hs in E. apply served_ids in E.
    assert (rq_task_id rq ∈ result_ids results) as Hin.
    { rewrite E. apply list_elem_of_fmap. by exists rq. }
    apply list_elem_of_fmap in Hin as (res & ? & ?). eauto. }
  split; [done|]. intros r Hr. destruct (proj1 Hok r Hr) as [t Ht].
  apply (gw_process_finished_gen env p batch w r t); auto.
Qed.
End facts.

(** ** Concrete calls: the clock advances a second per reading. *)

Definition call_sample : call_obs := mkCallObs (λ i, inject_Z (Z.of_nat i)) (λ _, true) 1.

Definition sample_dumps (v : pyval) : string := "{}"%string.
Definition sample_loads (s : string) : pyval + string :=
  if decide (s = "{}"%string) then inl (PyDict [("x"%string, PyInt 3)]) else inr "bad"%string.

Definition sample_requests : list TaskRequest :=
  [mkTaskRequest "a" "{}" (Some 2%Q); mkTaskRequest "b" "{}" None; mkTaskRequest "c" "[" (Some 90%Q)].

Lemma process_batch_answers_all_witness :
  ∃ fuel results, process_batch sample_dumps sample_loads 1 fuel (mkSettings 0 60) call_sample
      sample_requests = Some results ∧ result_ids results ≡ₚ ["a"; "b"; "c"]%string.
Proof.
  destruct (process_batch_answers_all sample_dumps sample_loads 1 (mkSettings 0 60) call_sample
    sample_requests) as (fuel & results & E & _ & Hp).
  - intros x. exists (Z.to_nat (Qceiling x)). intros j Hj. simpl.
    pose proof (Qle_ceiling x) as Hx. eapply Qle_trans; [exact Hx|].
    rewrite <- Zle_Qle. lia.
  - exists fuel, results. split; [exact E|]. apply Hp. reflexivity.
Defined.

(** The middle task's prediction is made, the others run out of time or fail. *)
Example sample_call :
  (λ r, (rs_task_id r, rs_success r)) <$>
    (default [] (process_batch sample_dumps sample_loads 1 5 (mkSettings 0 60) call_sample
       sample_requests)) = [("a", false); ("b", true); ("c", false)]%string.
Proof. vm_compute. reflexivity. Qed.

(** The remote workers run the real-model handler with a model that always answers. *)
Definition backend_env : environment :=
  mkEnvironment (λ _ w, w)
    (λ _ _ rqs _, RpcOk (process_backend sample_dumps sample_loads
       (λ _ _ _, BackendOk (PyInt 1)) 0 rqs))
    sample_dumps sample_loads None.

#[export] Instance backend_env_well_behaved : WellBehaved backend_env.
Proof. intros n w. reflexivity. Qed.

Lemma worker_completes_rpc_witness :
  finished sample_world (gw_process backend_env 0%nat [0; 1; 2]%nat sample_world) 1%nat.
Proof.
  destruct (worker_completes_rpc sample_dumps sample_loads 1 backend_env 0%nat [0; 1; 2]%nat
    sample_world) as [_ H].
  - intros n who rqs timeout results E. right. left. injection E as <-. eauto.
  - exact sample_batch_ok.
  - apply (H 1%nat). apply (bool_decide_unpack _); vm_compute; exact I.
Defined.
