(* ===== verification/ApiServer.v ===== *)
(** The HTTP endpoints of [src/system/api_server.py]: prediction and text requests
    that wait for their task, the durable-job endpoints behind their token, runtime
    configuration, readiness and the request metrics. *)
From S2P Require Import Prelude PyVal Tasks Queue Config JobStore Deployment.

(** A response with its JSON body, an [HTTPException], or another exception (which
    the server answers with 500). *)
Inductive api_result :=
| ApiOk (status : Z) (body : pyval)
| ApiError (status : Z) (detail : pyval)
| ApiCrash (exn : string).

Definition result_status (r : api_result) : Z :=
  match r with ApiOk s _ | ApiError s _ => s | ApiCrash _ => 500 end.

(** ** The state the handlers share with the scheduler and the workers *)

Record astate (X : Type) := mkAstate {
  a_tasks : store;
  a_queue : TaskQueue;
  a_mono : Q;        (* time.monotonic() *)
  a_wall : Q;        (* time.time() *)
  a_points : nat;    (* scheduling points passed *)
  a_rest : X;        (* what the handlers do not look at: workers, scheduler, ... *)
}.
Arguments mkAstate {X}.
Arguments a_tasks {X}.
Arguments a_queue {X}.
Arguments a_mono {X}.
Arguments a_wall {X}.
Arguments a_points {X}.
Arguments a_rest {X}.

Definition set_atasks {X} (h : store) (s : astate X) : astate X :=
  mkAstate h (a_queue s) (a_mono s) (a_wall s) (a_points s) (a_rest s).

Section handlers.
Context {X : Type}.
(** The other threads and coroutines between two steps of a handler, and
    [request.is_disconnected()] at each question. *)
Context (tick : nat → astate X → astate X).
Context (disconnected : nat → bool).

Definition a_pause (s : astate X) : astate X :=
  tick (a_points s)
    (mkAstate (a_tasks s) (a_queue s) (a_mono s) (a_wall s) (S (a_points s)) (a_rest s)).

Definition a_fail (err code : string) (r : tref) (s : astate X) : astate X :=
  set_atasks (alter (mark_failed (a_wall s) err (Some code)) r (a_tasks s)) s.

(** Creating a task and [_task_queue.put(task, timeout=0)]: the reference, or
    [None] for [Full]. *)
Definition create_and_put (data : pyval) (uuid : string) (budget : Q) (s : astate X)
    : option tref * astate X :=
  let r := fresh (dom (a_tasks s)) in
  let t := new_task data uuid (a_wall s) (Some (a_mono s + budget)%Q) in
  let s := set_atasks (<[r := t]> (a_tasks s)) s in
  match queue_put r (a_queue s) with
  | Some q => (Some r, mkAstate (a_tasks s) q (a_mono s) (a_wall s) (a_points s) (a_rest s))
  | None => (None, s)
  end.

Definition task_terminal (r : tref) (s : astate X) : bool :=
  match a_tasks s !! r with Some t => is_terminal t | None => true end.

Definition task_expired (r : tref) (s : astate X) : bool :=
  match a_tasks s !! r with Some t => is_expired (a_mono s) t | None => true end.

(** ** [predict] *)

(** The polling loop; [None] only when the fuel runs out. *)
Fixpoint predict_wait (fuel : nat) (r : tref) (s : astate X) : option (astate X) :=
  match fuel with
  | O => None
  | S fuel' =>
      let s := a_pause s in
      if task_expired r s then Some s
      else
        let s := a_pause s in
        if task_terminal r s then Some s else predict_wait fuel' r s
  end.

(** [task.error or "inference failed"]. *)
Definition error_detail (t : Task) : pyval :=
  match error t with
  | Some e => if decide (e = EmptyString) then PyStr "inference failed" else PyStr e
  | None => PyStr "inference failed"
  end.

Definition predict_failure_status (t : Task) : Z :=
  if bool_decide (error_code t = Some "deadline_exceeded"%string) then 504
  else if bool_decide (error_code t = Some "overloaded"%string) then 503
  else 500.

(** [round((task.end_time - task.creation_time) * 1000, 2)]. *)
Definition predict_response (t : Task) : api_result :=
  match end_time t with
  | None => ApiCrash "unsupported operand type(s) for -: 'NoneType' and 'float'"
  | Some e =>
      ApiOk 200 (PyDict [("task_id", PyStr (task_id t)); ("result", result t);
        ("latency_ms", PyFloat (py_round2 ((e - creation_time t) * 1000)))]%string)
  end.

(** After the loop: the deadline decides, then the task's status answers. *)
Definition predict_answer (r : tref) (s : astate X) : api_result * astate X :=
  let s := a_pause s in
  let s := if task_expired r s
           then a_fail "request deadline exceeded" "deadline_exceeded" r s else s in
  let s := a_pause s in
  match a_tasks s !! r with
  | None => (ApiCrash "task lost", s)
  | Some t =>
      if bool_decide (status t = FAILED) then
        (ApiError (predict_failure_status t) (error_detail t), s)
      else if negb (bool_decide (status t = DONE)) then
        (ApiError 504 (PyStr "inference timed out"), s)
      else (predict_response t, s)
  end.

Definition predict (fuel : nat) (x : pyval) (uuid : string) (s : astate X)
    : option (api_result * astate X) :=
  let '(o, s) := create_and_put (PyDict [("x"%string, x)]) uuid 30 (a_pause s) in
  match o with
  | None => Some (ApiError 503 (PyStr "task queue is full"), s)
  | Some r =>
      match predict_wait fuel r s with
      | None => None
      | Some s => Some (predict_answer r s)
      end
  end.

(** ** [text_task] *)

Inductive text_model := TextV123 | TextRefinement.
Inductive text_operation := Retrieve | Rerank.

#[export] Instance text_model_eq_dec : EqDecision text_model.
Proof. solve_decision. Defined.
#[export] Instance text_operation_eq_dec : EqDecision text_operation.
Proof. solve_decision. Defined.

Definition text_model_name (m : text_model) : string :=
  match m with TextV123 => "text_v1.2.3" | TextRefinement => "text_v1.2_refinement" end.

Definition text_operation_name (o : text_operation) : string :=
  match o with Retrieve => "retrieve" | Rerank => "rerank" end.

Record TextTaskRequest := mkTextTaskRequest {
  tt_model : text_model;
  tt_operation : text_operation;
  tt_payload : list (string * pyval);
}.

(** [isinstance(payload.get(key), str) and payload[key]]. *)
Definition nonempty_str (d : list (string * pyval)) (key : string) : bool :=
  match dict_get d key PyNone with
  | PyStr s => negb (bool_decide (s = EmptyString))
  | _ => false
  end.

Definition text_kind (m : text_model) : string :=
  match m with TextRefinement => "synthx_text_refinement" | TextV123 => "synthx_text_v123" end.

(** The checks before the task is created; [size] is the length of the payload's
    JSON encoding, [None] when it has none. *)
Definition text_rejection (size : option Z) (b : TextTaskRequest) : option (Z * string) :=
  let retrieve := bool_decide (tt_operation b = Retrieve) in
  match size with
  | None => Some (422, "payload must be finite JSON"%string)
  | Some n =>
      if 256 * 1024 <? n then Some (413, "text payload exceeds 256 KiB"%string)
      else if retrieve && negb (py_eq_str (dict_get (tt_payload b) "pipeline_version" PyNone)
                                  (text_model_name (tt_model b)))
      then Some (422, "retrieval version does not match worker"%string)
      else if retrieve && bool_decide (tt_model b = TextRefinement)
           && (negb (py_eq_str (dict_get (tt_payload b) "operation" PyNone) "retrieve_similar")
               || negb (forallb (nonempty_str (tt_payload b))
                     ["anchor_candidate_id"; "anchor_native_sha256"; "anchor_audio_sha256"]%string))
      then Some (422, "MFCC refinement requires a verified bank anchor"%string)
      else if retrieve && bool_decide (tt_model b = TextV123)
           && py_eq_str (dict_get (tt_payload b) "operation" PyNone) "retrieve_similar"
      then Some (422, "anchor retrieval requires the refinement pipeline"%string)
      else None
  end.

Definition text_budget (b : TextTaskRequest) : Q :=
  if bool_decide (tt_operation b = Retrieve) then 600 else 180.

(** [{"kind": kind, **body.model_dump()}]. *)
Definition text_input (b : TextTaskRequest) : pyval :=
  PyDict [("kind", PyStr (text_kind (tt_model b)));
          ("model", PyStr (text_model_name (tt_model b)));
          ("operation", PyStr (text_operation_name (tt_operation b)));
          ("payload", PyDict (tt_payload b))]%string.

(** The waiting loop: [inl] leaves it, [inr] is the caller's disconnection. *)
Fixpoint text_wait (fuel : nat) (n : nat) (r : tref) (s : astate X)
    : option (astate X * bool) :=
  match fuel with
  | O => None
  | S fuel' =>
      let s := a_pause s in
      if task_terminal r s then Some (s, false)
      else if disconnected n then
        Some (a_fail "text caller disconnected" "cancelled" r (a_pause s), true)
      else
        let s := a_pause s in
        if task_expired r s then
          Some (a_fail "text stage deadline exceeded" "deadline_exceeded" r s, false)
        else text_wait fuel' (S n) r s
  end.

(** The status of a failed text task, by its error code. *)
Definition text_failure_status (code : option string) : Z :=
  match code with
  | Some c => dict_get [("deadline_exceeded", 504); ("overloaded", 503); ("busy", 503);
                        ("transport_error", 503); ("invalid_spec", 422); ("cancelled", 499)]%string
                c 502
  | None => 502
  end.

Definition text_answer (r : tref) (s : astate X) : api_result * astate X :=
  let s := a_pause s in
  match a_tasks s !! r with
  | None => (ApiCrash "task lost", s)
  | Some t =>
      if bool_decide (status t = FAILED) then
        (ApiError (text_failure_status (error_code t))
           (PyDict [("code", opt_val PyStr (error_code t)); ("message", opt_val PyStr (error t))]%string),
         s)
      else (ApiOk 200 (result t), s)
  end.

Definition text_task (fuel : nat) (size : option Z) (b : TextTaskRequest) (uuid : string)
    (s : astate X) : option (api_result * astate X) :=
  match text_rejection size b with
  | Some (code, detail) => Some (ApiError code (PyStr detail), s)
  | None =>
      let '(o, s) := create_and_put (text_input b) uuid (text_budget b) (a_pause s) in
      match o with
      | None => Some (ApiError 503 (PyStr "task queue is full"), s)
      | Some r =>
          match text_wait fuel 0 r s with
          | None => None
          | Some (s, true) => Some (ApiError 499 (PyStr "text caller disconnected"), s)
          | Some (s, false) => Some (text_answer r s)
          end
      end
  end.
End handlers.

(** ** Durable-job endpoints *)

(** [require_jobs_auth]: [None] lets the request through.  The comparison is of the
    whole strings. *)
Definition require_jobs_auth (enabled : bool) (token : option string) (header : option string)
    : option api_result :=
  match token with
  | Some tok =>
      if negb enabled || bool_decide (tok = EmptyString)
      then Some (ApiError 503 (PyStr "durable jobs are not enabled"))
      else if bool_decide (default EmptyString header = ("Bearer " +:+ tok)%string) then None
      else Some (ApiError 401 (PyStr "invalid service authorization"))
  | None => Some (ApiError 503 (PyStr "durable jobs are not enabled"))
  end.

Definition job_status_value (s : job_status) : string :=
  match s with
  | Queued => "queued" | Running => "running" | Succeeded => "succeeded" | Failed => "failed"
  end.

(** [submit_job], given what the gateway's [submit] gave: [None] raised, [inr] the
    [KeyError], [inl] the row. *)
Definition submit_job (auth : option api_result) (outcome : option (option job + string))
    : api_result :=
  match auth with
  | Some e => e
  | None =>
      match outcome with
      | None => ApiError 503 (PyStr "durable job admission unavailable")
      | Some (inr _) => ApiError 404 (PyStr "job not found")
      | Some (inl None) => ApiCrash "'NoneType' object is not subscriptable"
      | Some (inl (Some j)) =>
          ApiOk 202 (PyDict [("job_id", PyStr (j_job_id j));
                             ("status", PyStr (job_status_value (j_status j)))]%string)
      end
  end.

Definition get_job (auth : option api_result) (render : job → pyval)
    (outcome : option (option job)) : api_result :=
  match auth with
  | Some e => e
  | None =>
      match outcome with
      | None => ApiError 503 (PyStr "durable job lookup unavailable")
      | Some None => ApiError 404 (PyStr "job not found")
      | Some (Some j) => ApiOk 200 (render j)
      end
  end.

(** ** Configuration *)

(** The worker pool behind the API, as far as these endpoints see it. *)
Inductive api_pool := PoolNone | PoolLocal | PoolGrpc (ready : bool).

Definition set_batch_size (n : Z) (c : SystemConfig) : api_result * SystemConfig :=
  if (1 <=? n) && (n <=? 512) then
    let '(c, _) := config_update [KwBatchSize n] c in
    (ApiOk 200 (PyDict [("status", PyStr "ok"); ("batch_size", PyInt (batch_size c))]%string), c)
  else (ApiError 422 (PyStr "batch_size"), c).

Definition set_scheduler (s : string) (c : SystemConfig) : api_result * SystemConfig :=
  if bool_decide (s ∈ ["fifo"; "batching"; "latency_aware"]%string) then
    let '(c, _) := config_update [KwStrategy s] c in
    (ApiOk 200 (PyDict [("status", PyStr "ok"); ("scheduler", PyStr (scheduler_strategy c))]%string), c)
  else (ApiError 422 (PyStr "scheduler"), c).

(** [push_config] exists on the gRPC pool only. *)
Definition set_failure_rate (p : api_pool) (x : Q) (c : SystemConfig)
    : api_result * SystemConfig :=
  if (0 <=?q x) && (x <=?q 1) then
    let '(c, _) := config_update [KwFailureRate x] c in
    match p with
    | PoolGrpc _ =>
        (ApiOk 200 (PyDict [("status", PyStr "ok"); ("failure_rate", PyFloat (failure_rate c))]%string), c)
    | PoolLocal => (ApiCrash "'WorkerPool' object has no attribute 'push_config'", c)
    | PoolNone => (ApiCrash "'NoneType' object has no attribute 'push_config'", c)
    end
  else (ApiError 422 (PyStr "failure_rate"), c).

(** [status]. *)
Definition api_status (c : SystemConfig) (q : TaskQueue) : pyval :=
  PyDict [("status", PyStr "running"); ("config", PyDict (config_snapshot c));
          ("queue", PyDict (queue_stats q))]%string.

(** [readiness]. *)
Definition readiness (use_grpc : bool) (p : api_pool) : api_result :=
  match p with
  | PoolNone => ApiError 503 (PyStr "worker pool not initialized")
  | _ =>
      if negb use_grpc then ApiError 503 (PyStr "gRPC worker pool not enabled")
      else match p with
           | PoolGrpc true => ApiOk 200 (PyDict [("status", PyStr "ready")]%string)
           | _ => ApiError 503 (PyStr "no workers available")
           end
  end.

(** ** Metrics *)

(** The counters, with the responses counted by status code. *)
Record predict_metrics := mkPredictMetrics {
  pm_requests : Z;
  pm_failures : Z;
  pm_responses : gmap Z Z;
  pm_observed : Z;            (* observations of the duration histogram *)
}.

(** [record_metrics] around one request: what reached the application's answer, or
    the exception it raised. *)
Definition record_metrics (is_predict : bool) (r : api_result) (m : predict_metrics)
    : predict_metrics :=
  if negb is_predict then m
  else
    let code := match r with ApiCrash _ => 500 | ApiOk s _ | ApiError s _ => s end in
    let failed := match r with ApiCrash _ => true | _ => 400 <=? code end in
    mkPredictMetrics (pm_requests m + 1) (pm_failures m + (if failed then 1 else 0))
      (<[code := default 0 (pm_responses m !! code) + 1]> (pm_responses m))
      (pm_observed m + 1).
