(* ===== verification/ConfigPush.v ===== *)
(** Runtime configuration on its way to the remote workers: [POST /config/failure_rate] of
    [src/system/api_server.py], [push_config] and [update_config] of
    [src/system/grpc_worker_pool.py], and [UpdateConfig] of [src/system/grpc_worker_server.py],
    while workers join, leave and restart. *)
From S2P Require Import Prelude PyVal Tasks Queue Config WorkerServer ApiServer.

(** The settings of the worker processes, the pool's members, and a push under way: the
    members of its snapshot it has not called yet and what it sends. *)
Record fleet_state := mkFleet {
  fl_settings : gmap string worker_settings;
  fl_members : list string;
  fl_todo : list string;
  fl_rate : Q;
  fl_latency : Q;
}.

(** [push_config] takes its snapshot. *)
Definition push_begin (failure_rate latency : Q) (f : fleet_state) : fleet_state :=
  mkFleet (fl_settings f) (fl_members f) (fl_members f) failure_rate latency.

(** [update_config] of the next member; an RPC that fails is logged. *)
Definition update_config (arrives : bool) (f : fleet_state) : fleet_state :=
  match fl_todo f with
  | [] => f
  | who :: todo =>
      mkFleet (if arrives then alter (UpdateConfig (fl_rate f) (fl_latency f)) who (fl_settings f) else fl_settings f)
        (fl_members f) todo (fl_rate f) (fl_latency f)
  end.

(** A worker process starts or restarts with the settings of its own environment, and
    leaves. *)
Inductive fleet_event :=
| FlSend (arrives : bool)
| FlStart (who : string) (ws : worker_settings)
| FlLeave (who : string).

Definition fleet_step (e : fleet_event) (f : fleet_state) : fleet_state :=
  match e with
  | FlSend arrives => update_config arrives f
  | FlStart who ws =>
      mkFleet (<[who := ws]> (fl_settings f)) (if bool_decide (who ∈ fl_members f) then fl_members f else fl_members f ++ [who])
        (fl_todo f) (fl_rate f) (fl_latency f)
  | FlLeave who =>
      mkFleet (delete who (fl_settings f)) (filter (λ w, w ≠ who) (fl_members f)) (fl_todo f) (fl_rate f) (fl_latency f)
  end.

Definition fleet_run (es : list fleet_event) (f : fleet_state) : fleet_state := foldl (λ f e, fleet_step e f) f es.

(** [set_failure_rate] over the remote pool: the configuration first, then the push. *)
Definition set_failure_rate_remote (x : Q) (c : SystemConfig) (f : fleet_state) : api_result * SystemConfig * fleet_state :=
  let '(res, c') := set_failure_rate (PoolGrpc true) x c in
  (res, c', match res with ApiOk _ _ => push_begin (failure_rate c') (inference_latency_ms c') f | _ => f end).

(** Events in which a worker neither restarts nor leaves. *)
Definition keeps_worker (who : string) (e : fleet_event) : Prop :=
  match e with FlSend _ => True | FlStart w _ | FlLeave w => w ≠ who end.

(** The settings of a worker: pushed, or still the ones it had. *)
Lemma fleet_step_settings who ws e f :
  keeps_worker who e → fl_settings f !! who = Some ws →
  fl_settings (fleet_step e f) !! who = Some ws ∨
  (who ∈ fl_todo f ∧ fl_settings (fleet_step e f) !! who = Some (mkSettings (fl_rate f) (fl_latency f))).
Proof.
  intros Hk Hw. destruct e as [arrives|w ws'|w]; simpl in *.
  - unfold update_config. destruct (fl_todo f) as [|w todo] eqn:Et; [by left|]. destruct arrives; [|by left]. simpl.
    destruct (decide (w = who)) as [->|Hne]; [right|left; by rewrite lookup_alter_ne].
    split; [by left|]. by rewrite lookup_alter_eq, Hw.
  - left. by rewrite lookup_insert_ne.
  - left. by rewrite lookup_delete_ne.
Qed.

Lemma fleet_step_push e f :
  fl_rate (fleet_step e f) = fl_rate f ∧ fl_latency (fleet_step e f) = fl_latency f ∧ fl_todo (fleet_step e f) `suffix_of` fl_todo f.
Proof.
  destruct e as [arrives|w ws|w]; simpl; try done. unfold update_config.
  destruct (fl_todo f) as [|w todo] eqn:E; [by rewrite E|]. simpl. split_and!; [done|done|by exists [w]].
Qed.

(** Nobody outside the snapshot is told: a worker the push does not call keeps its own
    settings, whatever the configuration says. *)
Lemma push_misses_others es who ws f :
  Forall (keeps_worker who) es → who ∉ fl_todo f → fl_settings f !! who = Some ws →
  fl_settings (fleet_run es f) !! who = Some ws.
Proof.
  intros Hes. revert f. induction Hes as [|e es He _ IH]; intros f Hn Hw; [done|]. change (fleet_run (e :: es) f) with (fleet_run es (fleet_step e f)).
  destruct (fleet_step_settings who ws e f He Hw) as [H|[H _]]; [|done]. apply IH; [|exact H].
  destruct (fleet_step_push e f) as (_ & _ & [k Hk]). intros Hin. apply Hn. rewrite Hk. apply elem_of_app. by right.
Qed.

(** A push that is told of no failure reaches its snapshot: when it has called everybody,
    each worker that neither restarted nor left meanwhile runs with what was pushed. *)
Lemma push_reaches_snapshot es who ws f :
  Forall (λ e, e ≠ FlSend false) es → Forall (keeps_worker who) es → NoDup (fl_todo f) →
  who ∈ fl_todo f → fl_settings f !! who = Some ws → fl_todo (fleet_run es f) = [] →
  fl_settings (fleet_run es f) !! who = Some (mkSettings (fl_rate f) (fl_latency f)).
Proof.
  intros Hok Hes. revert f ws. induction Hes as [|e es He Hes IH]; intros f ws Hnd Hin Hw Hend; [simpl in Hend; rewrite Hend in Hin; by apply not_elem_of_nil in Hin|].
  apply Forall_cons in Hok as [Hsend Hok]. change (fleet_run (e :: es) f) with (fleet_run es (fleet_step e f)) in *.
  destruct (fleet_step_push e f) as (E1 & E2 & [k Hk]).
  assert (NoDup (fl_todo (fleet_step e f))) as Hnd' by (rewrite Hk in Hnd; by apply NoDup_app in Hnd as (_ & _ & ?)).
  destruct (decide (who ∈ fl_todo (fleet_step e f))) as [Hin'|Hout].
  - rewrite <- E1, <- E2. destruct (fleet_step_settings who ws e f He Hw) as [H|[_ H]]; eapply IH; eauto.
  - apply push_misses_others; [done|exact Hout|]. destruct e as [arrives|w ws'|w]; simpl in *; try done.
    unfold update_config in *. destruct (fl_todo f) as [|w todo] eqn:Et; [by apply not_elem_of_nil in Hin|]. simpl in *.
    destruct arrives; [|done]. apply elem_of_cons in Hin as [->|Hin]; [|done]. by rewrite lookup_alter_eq, Hw.
Qed.

(** [POST /config/failure_rate] over remote workers: an accepted rate is the configured one
    and reaches every worker the pool had then, and no other: a worker that starts
    afterwards runs with the rate of its own environment. *)
Theorem failure_rate_reaches_members (x : Q) (c c' : SystemConfig) (f f0 : fleet_state) (res : api_result)
    (es : list fleet_event) (who : string) (ws : worker_settings) :
  set_failure_rate_remote x c f = (res, c', f0) → result_status res = 200 →
  Forall (λ e, e ≠ FlSend false) es → Forall (keeps_worker who) es → NoDup (fl_members f) →
  fl_todo (fleet_run es f0) = [] → fl_settings f !! who = Some ws →
  failure_rate c' = x ∧
  fl_settings (fleet_run es f0) !! who =
    Some (if bool_decide (who ∈ fl_members f) then mkSettings x (inference_latency_ms c) else ws).
Proof.
  intros E Hst Hok Hes Hnd Hend Hw. unfold set_failure_rate_remote, set_failure_rate in E.
  destruct ((0 <=?q x) && (x <=?q 1)); [|by injection E as <- _ _].
  destruct c as [bs nw lat st fr thr mq ho po]. cbn in E. injection E as <- <- <-. split; [done|]. case_bool_decide as Hm.
  - by eapply push_reaches_snapshot.
  - by apply push_misses_others.
Qed.

(** Two workers, of which one joins while the push is under way. *)
Definition demo_fleet : fleet_state :=
  mkFleet {["w0"%string := mkSettings 0 60]} ["w0"%string] [] 0 0.

Lemma failure_rate_reaches_members_witness :
  let f0 := (set_failure_rate_remote (1#2) default_config demo_fleet).2 in
  fl_settings (fleet_run [FlStart "w1" (mkSettings 0 60); FlSend true] f0) !! "w0"%string = Some (mkSettings (1#2) 60) ∧
  fl_settings (fleet_run [FlStart "w1" (mkSettings 0 60); FlSend true] f0) !! "w1"%string = Some (mkSettings 0 60).
Proof.
  split; [|vm_compute; reflexivity].
  apply (failure_rate_reaches_members (1#2) default_config
    (set_failure_rate_remote (1#2) default_config demo_fleet).1.2 demo_fleet _
    (set_failure_rate_remote (1#2) default_config demo_fleet).1.1 _ "w0" (mkSettings 0 60)); try reflexivity.
  - repeat constructor; done.
  - repeat constructor; done.
  - apply NoDup_singleton.
Defined.
