(* ===== verification/ApiServerFacts.v ===== *)
(** Properties of the HTTP endpoints: every prediction and text request is answered
    with the fate of its own task, the job endpoints are closed without the token,
    configuration requests never leave the declared ranges, and the metrics add
    up. *)
From S2P Require Import Prelude PyVal Tasks Queue Config JobStore ApiServer.

(** ** Interference *)

Record a_rely {X} (s1 s2 : astate X) : Prop := {
  ar_tasks : store_le (a_tasks s1) (a_tasks s2);
  ar_mono : (a_mono s1 <= a_mono s2)%Q;
  ar_points : (a_points s1 ≤ a_points s2)%nat;
}.

Class ApiEnv {X} (tick : nat → astate X → astate X) : Prop := {
  tick_step : ∀ n s, a_rely s (tick n s);
  (* the clock passes every moment *)
  tick_clock : ∀ x : Q, ∃ n, ∀ m s, (n ≤ m)%nat → (x <= a_mono (tick m s))%Q;
}.

#[export] Instance a_rely_preorder {X} : PreOrder (a_rely (X := X)).
Proof.
  split.
  - intros s. split; [done|apply Qle_refl|done].
  - intros s1 s2 s3 [] []. split; [by etrans|lra|lia].
Qed.

Section facts.
Context {X : Type} (tick : nat → astate X → astate X) `{!ApiEnv tick}.
Implicit Types s : astate X.

Lemma a_pause_rely s : a_rely s (a_pause tick s).
Proof.
  unfold a_pause. etrans; [|apply tick_step]. split; [done|apply Qle_refl|simpl; lia].
Qed.

Lemma a_pause_points s : (S (a_points s) ≤ a_points (a_pause tick s))%nat.
Proof.
  unfold a_pause. match goal with |- context [tick ?n ?x] =>
    pose proof (ar_points _ _ (tick_step n x)) as H end. exact H.
Qed.

Lemma a_fail_rely err code r (s : astate X) : a_rely s (a_fail err code r s).
Proof. split; [apply store_le_mark_failed|apply Qle_refl|done]. Qed.

(** The task of a request: well formed, with its input and deadline. *)
Definition own_task (r : tref) (data : pyval) (d : Q) (s : astate X) : Prop :=
  ∃ t, a_tasks s !! r = Some t ∧ task_wf t ∧ input_data t = data ∧ deadline t = Some d.

Lemma run_ops_wf t os : task_wf t → task_wf (run_ops t os).
Proof.
  revert t. induction os as [|o os IH]; intros t Hw; [done|].
  apply (IH (apply_op t o)). by apply apply_op_wf.
Qed.

Lemma own_task_rely r data d s1 s2 : a_rely s1 s2 → own_task r data d s1 → own_task r data d s2.
Proof.
  intros H (t & Ht & Hw & Hi & Hd). destruct (ar_tasks _ _ H r t Ht) as [os Ho].
  exists (run_ops t os). destruct (run_ops_frame t os) as (H1 & _ & _ & H2).
  split_and!; [done|by apply run_ops_wf|congruence|congruence].
Qed.

Lemma terminal_rely r s1 s2 t :
  a_rely s1 s2 → a_tasks s1 !! r = Some t → is_terminal t = true → a_tasks s2 !! r = Some t.
Proof. intros H Ht Hm. by apply (store_le_terminal _ _ _ _ (ar_tasks _ _ H)). Qed.

Lemma task_expired_own r data d s :
  own_task r data d s → task_expired r s = true ↔ (d <= a_mono s)%Q.
Proof.
  intros (t & Ht & _ & _ & Hd). unfold task_expired. rewrite Ht, is_expired_spec, Hd.
  split; [intros (? & [= <-] & ?); done|eauto].
Qed.

(** Over, one way or the other. *)
Definition over (r : tref) (s : astate X) : Prop :=
  task_expired r s = true ∨ task_terminal r s = true.

Lemma over_rely r data d s1 s2 : a_rely s1 s2 → own_task r data d s1 → over r s1 → over r s2.
Proof.
  intros H Ho [He|Hm].
  - left. pose proof (own_task_rely _ _ _ _ _ H Ho) as Ho2.
    apply (task_expired_own _ _ _ _ Ho) in He. apply (task_expired_own _ _ _ _ Ho2).
    destruct H as [_ ? _]. lra.
  - right. destruct Ho as (t & Ht & _). unfold task_terminal in *. rewrite Ht in Hm.
    by rewrite (terminal_rely _ _ _ _ H Ht Hm).
Qed.

(** ** Waiting *)

Lemma predict_wait_over fuel r data d s s' :
  own_task r data d s → predict_wait tick fuel r s = Some s' → a_rely s s' ∧ over r s'.
Proof.
  revert s. induction fuel as [|fuel IH]; intros s Ho; simpl; [done|].
  pose proof (a_pause_rely s) as H1. set (s1 := a_pause tick s) in *.
  destruct (task_expired r s1) eqn:Ee; [intros [= <-]; split; [done|by left]|].
  pose proof (a_pause_rely s1) as H2. set (s2 := a_pause tick s1) in *.
  assert (a_rely s s2) as H12 by by etrans.
  destruct (task_terminal r s2) eqn:Em; [intros [= <-]; split; [done|by right]|].
  intros E. destruct (IH s2) as [H3 ?]; [by eapply own_task_rely|done|].
  split; [by etrans|done].
Qed.

Lemma predict_wait_total r data d s :
  own_task r data d s → ∃ fuel s', predict_wait tick fuel r s = Some s'.
Proof.
  intros Ho. destruct (tick_clock d) as [N HN]. exists (S (N - a_points s)).
  assert (∀ k s, own_task r data d s → (N ≤ a_points s + k)%nat →
    ∃ s', predict_wait tick (S k) r s = Some s') as Hgo.
  { clear s Ho. induction k as [|k IH]; intros s Ho Hk; simpl.
    - pose proof (own_task_rely _ _ _ _ _ (a_pause_rely s) Ho) as Ho1.
      assert (task_expired r (a_pause tick s) = true) as ->; [|eauto].
      apply (task_expired_own _ _ _ _ Ho1). unfold a_pause. apply HN. lia.
    - pose proof (own_task_rely _ _ _ _ _ (a_pause_rely s) Ho) as Ho1.
      destruct (task_expired r (a_pause tick s)); [eauto|].
      destruct (task_terminal r _); [eauto|].
      apply IH; [by eapply own_task_rely; [apply a_pause_rely|]|].
      pose proof (a_pause_points s). pose proof (a_pause_points (a_pause tick s)). lia. }
  apply Hgo; [done|lia].
Qed.

(** ** Answering *)

(** The answer a finished task gives to its caller. *)
Definition predict_verdict (t : Task) (res : api_result) : Prop :=
  (status t = DONE ∧ res = predict_response t ∧ result_status res = 200) ∨
  (status t = FAILED ∧ res = ApiError (predict_failure_status t) (error_detail t)).

Lemma predict_answer_verdict r data d s :
  own_task r data d s → over r s →
  let '(res, s') := predict_answer tick r s in
  a_rely s s' ∧ ∃ t, a_tasks s' !! r = Some t ∧ input_data t = data ∧ is_terminal t = true ∧
    predict_verdict t res.
Proof.
  intros Ho Hov. unfold predict_answer.
  pose proof (a_pause_rely s) as H1. set (s1 := a_pause tick s) in *.
  pose proof (over_rely _ _ _ _ _ H1 Ho Hov) as Hov1.
  pose proof (own_task_rely _ _ _ _ _ H1 Ho) as Ho1. clearbody s1.
  set (s2 := if task_expired r s1 then _ else s1).
  assert (a_rely s1 s2 ∧ ∃ t, a_tasks s2 !! r = Some t ∧ is_terminal t = true)
    as [H2 (t & Ht & Hm)].
  { destruct Ho1 as (t & Ht & _). unfold s2. destruct (task_expired r s1) eqn:Ee.
    - split; [apply a_fail_rely|]. eexists. split; [simpl; by rewrite lookup_alter_eq, Ht|].
      apply mark_failed_terminal.
    - split; [reflexivity|]. exists t. split; [done|]. destruct Hov1 as [?|Hm]; [congruence|].
      unfold task_terminal in Hm. by rewrite Ht in Hm. }
  clearbody s2. assert (a_rely s s2) as H12 by by etrans.
  pose proof (a_pause_rely s2) as H3. set (s3 := a_pause tick s2) in *.
  pose proof (terminal_rely _ _ _ _ H3 Ht Hm) as Ht3.
  destruct (own_task_rely _ _ _ _ _ H12 Ho) as (t' & Ht' & Hw & Hi & _).
  assert (t' = t) as -> by congruence.
  rewrite Ht3. assert (a_rely s s3) as H13 by by etrans.
  apply terminal_status in Hm as Hm'. destruct Hm' as [Hs|Hs]; rewrite Hs; simpl.
  - split; [done|]. exists t. split_and!; try done. left. split_and!; try done.
    destruct Hw as [_ Hw]. rewrite Hs in Hw. destruct Hw as ([e He] & _).
    unfold predict_response. by rewrite He.
  - split; [done|]. exists t. split_and!; try done. by right.
Qed.

Lemma create_and_put_store data uuid budget s :
  let s' := (create_and_put data uuid budget s).2 in
  (∃ r wall dl, a_tasks s !! r = None ∧ a_tasks s' = <[r := new_task data uuid wall dl]> (a_tasks s)) ∧ a_rely s s'.
Proof.
  unfold create_and_put. set (r := fresh (dom (a_tasks s))).
  assert (a_tasks s !! r = None) as Hr by apply not_elem_of_dom, is_fresh.
  set (t := new_task data uuid (a_wall s) (Some (a_mono s + budget)%Q)).
  assert (store_le (a_tasks s) (<[r := t]> (a_tasks s))) as Hle.
  { intros q u Hq. exists []. rewrite lookup_insert_ne by congruence. done. }
  destruct (queue_put r _); simpl; (split; [by exists r, (a_wall s), (Some (a_mono s + budget)%Q)|]);
    (split; [done|apply Qle_refl|done]).
Qed.

Lemma create_and_put_spec data uuid budget s :
  let '(o, s') := create_and_put data uuid budget s in
  store_le (a_tasks s) (a_tasks s') ∧
  match o with
  | Some r => a_tasks s !! r = None ∧ own_task r data (a_mono s + budget)%Q s' ∧
      queue_full (a_queue s) = false ∧ q_items (a_queue s') = q_items (a_queue s) ++ [r] ∧
      ∃ wall dl, a_tasks s' !! r = Some (new_task data uuid wall dl)
  | None => queue_full (a_queue s) = true ∧ a_queue s' = a_queue s
  end.
Proof.
  unfold create_and_put. set (r := fresh (dom (a_tasks s))).
  assert (a_tasks s !! r = None) as Hr by apply not_elem_of_dom, is_fresh.
  set (t := new_task data uuid (a_wall s) (Some (a_mono s + budget)%Q)).
  assert (store_le (a_tasks s) (<[r := t]> (a_tasks s))) as Hle.
  { intros q u Hq. exists []. rewrite lookup_insert_ne by congruence. done. }
  simpl. unfold queue_put, put_commit.
  destruct (queue_full (a_queue s)) eqn:Eq; simpl; [done|]. rewrite lookup_insert_eq. split_and!; try done; [|by eexists _, _].
  exists t. simpl. rewrite lookup_insert_eq. by split_and!.
Qed.

(** A task keeps its identifier and its payload. *)
Lemma task_frame_rely r t s1 s2 t' :
  a_rely s1 s2 → a_tasks s1 !! r = Some t → a_tasks s2 !! r = Some t' → task_id t' = task_id t ∧ input_data t' = input_data t.
Proof.
  intros H Ht Ht'. destruct (ar_tasks _ _ H r t Ht) as [os Ho]. rewrite Ho in Ht'. injection Ht' as <-.
  destruct (run_ops_frame t os) as (? & ? & _). done.
Qed.

(** What a prediction request comes to. *)
Definition predict_fate (x : pyval) (uuid : string) (s : astate X) (res : api_result) (s' : astate X) : Prop :=
  (res = ApiError 503 (PyStr "task queue is full") ∧ queue_full (a_queue (a_pause tick s)) = true) ∨
  ∃ r t, a_tasks (a_pause tick s) !! r = None ∧ a_tasks s' !! r = Some t ∧
    input_data t = PyDict [("x"%string, x)] ∧ task_id t = uuid ∧ is_terminal t = true ∧ predict_verdict t res.

Lemma predict_own_task (x : pyval) (uuid : string) (s : astate X) :
  ∃ fuel res s', predict tick fuel x uuid s = Some (res, s') ∧ predict_fate x uuid s res s'.
Proof.
  unfold predict. set (s1 := a_pause tick s).
  pose proof (create_and_put_spec (PyDict [("x"%string, x)]) uuid 30 s1) as Hc.
  destruct (create_and_put (PyDict [("x"%string, x)]) uuid 30 s1) as [[r|] s2].
  - destruct Hc as (_ & Hr & Ho & _ & _ & wall & dl & Hn). destruct (predict_wait_total _ _ _ _ Ho) as (fuel & s3 & Ew).
    exists fuel. rewrite Ew. destruct (predict_wait_over _ _ _ _ _ _ Ho Ew) as [H3 Hov].
    pose proof (predict_answer_verdict r _ _ s3 (own_task_rely _ _ _ _ _ H3 Ho) Hov) as Hv.
    destruct (predict_answer tick r s3) as [res s4]. destruct Hv as [H4 (t & Ht & Hi & Hm & Hv)].
    destruct (task_frame_rely r _ s2 s4 t (transitivity H3 H4) Hn Ht) as [Hid _].
    exists res, s4. split; [done|]. right. exists r, t. by split_and!.
  - exists 0%nat. eexists _, _. split; [done|]. left. split; [done|apply Hc].
Qed.

(** Every prediction request is answered, and with the fate of its own task:
    the handler terminates whatever the workers do; it refuses with 503 only if
    the queue was full; otherwise the answer is given when the request's own task
    is finished — 200 with its result iff it is done, and 504, 503 or 500 according
    to its error code iff it failed.  The fallback for a task that is neither, and
    any other exception, are unreachable. *)
Theorem predict_answers_own_task (x : pyval) (uuid : string) (s : astate X) :
  ∃ fuel res s', predict tick fuel x uuid s = Some (res, s') ∧
    ((res = ApiError 503 (PyStr "task queue is full") ∧
      queue_full (a_queue (a_pause tick s)) = true) ∨
     ∃ r t, a_tasks (a_pause tick s) !! r = None ∧ a_tasks s' !! r = Some t ∧
       input_data t = PyDict [("x"%string, x)] ∧ is_terminal t = true ∧ predict_verdict t res).
Proof.
  destruct (predict_own_task x uuid s) as (fuel & res & s' & E & Hf). exists fuel, res, s'. split; [done|].
  destruct Hf as [?|(r & t & ? & ? & ? & _ & ? & ?)]; [by left|right]. by exists r, t.
Qed.

(** ** Text stages *)

Context (disconnected : nat → bool).

Lemma text_wait_over fuel n r data d s s' gone :
  own_task r data d s → text_wait tick disconnected fuel n r s = Some (s', gone) →
  a_rely s s' ∧ ∃ t, a_tasks s' !! r = Some t ∧ is_terminal t = true ∧
    (gone = true → ∃ m, disconnected m = true).
Proof.
  revert n s. induction fuel as [|fuel IH]; intros n s Ho; simpl; [done|].
  assert (∀ err code s1, a_rely s s1 → a_rely s (a_fail err code r s1) ∧
    ∃ t, a_tasks (a_fail err code r s1) !! r = Some t ∧ is_terminal t = true) as Hfail.
  { intros err code s1 H1. split; [etrans; [exact H1|apply a_fail_rely]|].
    destruct (own_task_rely _ _ _ _ _ H1 Ho) as (t & Ht & _).
    eexists. split; [simpl; by rewrite lookup_alter_eq, Ht|apply mark_failed_terminal]. }
  pose proof (a_pause_rely s) as H1. set (s1 := a_pause tick s) in *.
  destruct (task_terminal r s1) eqn:Em.
  { intros [= <- <-]. split; [done|]. destruct (own_task_rely _ _ _ _ _ H1 Ho) as (t & Ht & _).
    exists t. unfold task_terminal in Em. rewrite Ht in Em. done. }
  pose proof (a_pause_rely s1) as H2. set (s2 := a_pause tick s1) in *.
  assert (a_rely s s2) as H12 by by etrans.
  destruct (disconnected n) eqn:En.
  { intros [= <- <-].
    destruct (Hfail "text caller disconnected" "cancelled" s2 H12)%string as [? (t & Ht & Hm)].
    split; [done|]. exists t. split_and!; eauto. }
  destruct (task_expired r s2) eqn:Ee.
  { intros [= <- <-].
    destruct (Hfail "text stage deadline exceeded" "deadline_exceeded" s2 H12)%string
      as [? (t & Ht & Hm)].
    split; [done|]. exists t. split_and!; [done|done|done]. }
  intros E. destruct (IH (S n) s2) as [H3 ?]; [by eapply own_task_rely|done|].
  split; [by etrans|done].
Qed.

Lemma text_wait_total n r data d s :
  own_task r data d s → ∃ fuel o, text_wait tick disconnected fuel n r s = Some o.
Proof.
  intros Ho. destruct (tick_clock d) as [N HN]. exists (S (N - a_points s)).
  assert (∀ k n s, own_task r data d s → (N ≤ a_points s + k)%nat →
    ∃ o, text_wait tick disconnected (S k) n r s = Some o) as Hgo.
  { clear n s Ho. induction k as [|k IH]; intros n s Ho Hk; simpl;
      destruct (task_terminal r (a_pause tick s)); eauto;
      destruct (disconnected n); eauto.
    - assert (a_rely s (a_pause tick (a_pause tick s))) as H2.
      { etrans; apply a_pause_rely. }
      assert (task_expired r (a_pause tick (a_pause tick s)) = true) as ->; [|eauto].
      apply (task_expired_own _ _ _ _ (own_task_rely _ _ _ _ _ H2 Ho)).
      unfold a_pause at 1. apply HN. pose proof (a_pause_points s). lia.
    - destruct (task_expired r _); [eauto|].
      apply IH; [eapply own_task_rely; [|exact Ho]; etrans; apply a_pause_rely|].
      pose proof (a_pause_points s). pose proof (a_pause_points (a_pause tick s)). lia. }
  apply Hgo; [done|lia].
Qed.

(** The answer of a text stage that passed its checks and was queued. *)
Definition text_verdict (t : Task) (res : api_result) : Prop :=
  (res = ApiError 499 (PyStr "text caller disconnected") ∧ ∃ m, disconnected m = true) ∨
  (status t = DONE ∧ res = ApiOk 200 (result t)) ∨
  (status t = FAILED ∧ ∃ detail, res = ApiError (text_failure_status (error_code t)) detail).

(** What a text request comes to. *)
Definition text_fate (size : option Z) (b : TextTaskRequest) (uuid : string) (s : astate X)
    (res : api_result) (s' : astate X) : Prop :=
  (∃ code detail, text_rejection size b = Some (code, detail) ∧ res = ApiError code (PyStr detail) ∧ s' = s) ∨
  (text_rejection size b = None ∧ res = ApiError 503 (PyStr "task queue is full") ∧
     queue_full (a_queue (a_pause tick s)) = true) ∨
  (text_rejection size b = None ∧ ∃ r t, a_tasks s' !! r = Some t ∧
     input_data t = text_input b ∧ is_terminal t = true ∧ text_verdict t res).

Lemma text_own_task (size : option Z) (b : TextTaskRequest) (uuid : string) (s : astate X) :
  ∃ fuel res s', text_task tick disconnected fuel size b uuid s = Some (res, s') ∧ text_fate size b uuid s res s'.
Proof.
  unfold text_task, text_fate. destruct (text_rejection size b) as [[code detail]|] eqn:Er.
  { exists 0%nat. eexists _, _. split; [done|]. left. eauto. }
  set (s1 := a_pause tick s).
  pose proof (create_and_put_spec (text_input b) uuid (text_budget b) s1) as Hc.
  destruct (create_and_put (text_input b) uuid (text_budget b) s1) as [[r|] s2].
  2:{ exists 0%nat. eexists _, _. split; [done|]. right. left. split_and!; [done|done|apply Hc]. }
  destruct Hc as (_ & _ & Ho & _). destruct (text_wait_total 0 _ _ _ _ Ho) as (fuel & [s3 gone] & Ew).
  exists fuel. rewrite Ew.
  destruct (text_wait_over _ _ _ _ _ _ _ _ Ho Ew) as [H3 (t & Ht & Hm & Hg)].
  destruct (own_task_rely _ _ _ _ _ H3 Ho) as (t' & Ht' & _ & Hi & _).
  assert (t' = t) as -> by congruence. destruct gone.
  - eexists _, _. split; [done|]. right. right. split; [done|]. exists r, t.
    split_and!; try done. left. auto.
  - unfold text_answer. pose proof (terminal_rely _ _ _ _ (a_pause_rely s3) Ht Hm) as Ht4.
    rewrite Ht4. apply terminal_status in Hm as Hs.
    destruct (bool_decide (status t = FAILED)) eqn:Ef; eexists _, _; (split; [done|]);
      right; right; (split; [done|]); exists r, t; split_and!; try done; right.
    + right. apply bool_decide_eq_true in Ef. eauto.
    + left. apply bool_decide_eq_false in Ef. destruct Hs; done.
Qed.

(** Every text request is answered and leaves no live task behind: it is
    rejected by the payload checks with nothing created, refused with 503 when the
    queue is full, or answered when its own task — carrying the kind of the
    selected model — is finished: 499 only if the caller disconnected, 200 with the
    result iff it is done, and the status of its error code iff it failed. *)
Theorem text_task_answers_own_task (size : option Z) (b : TextTaskRequest) (uuid : string)
    (s : astate X) :
  ∃ fuel res s', text_task tick disconnected fuel size b uuid s = Some (res, s') ∧
    ((∃ code detail, text_rejection size b = Some (code, detail) ∧
        res = ApiError code (PyStr detail) ∧ s' = s) ∨
     (text_rejection size b = None ∧ res = ApiError 503 (PyStr "task queue is full") ∧
        queue_full (a_queue (a_pause tick s)) = true) ∨
     (text_rejection size b = None ∧ ∃ r t, a_tasks s' !! r = Some t ∧
        input_data t = text_input b ∧ is_terminal t = true ∧ text_verdict t res)).
Proof.
  destruct (text_own_task size b uuid s) as (fuel & res & s' & E & Hf). exists fuel, res, s'. by split.
Qed.
End facts.

(** ** Authorization *)

(** The header carries exactly the configured token. *)
Definition bears_token (enabled : bool) (token header : option string) : Prop :=
  enabled = true ∧ ∃ tok, token = Some tok ∧ tok ≠ EmptyString ∧ header = Some ("Bearer " +:+ tok)%string.

(** The durable-job endpoints are closed: a request gets past the check only if
    the gateway runs, a nonempty token is configured, and the Authorization header
    is exactly the bearer form of that token; otherwise neither endpoint looks at
    the job table and the answer is 503 or 401. *)
Theorem jobs_need_the_token (enabled : bool) (token header : option string)
    (outcome : option (option job + string)) (found : option (option job)) (render : job → pyval) :
  let auth := require_jobs_auth enabled token header in
  (auth = None ↔ bears_token enabled token header) ∧
  (auth ≠ None →
   (∀ o, submit_job auth o = submit_job auth outcome) ∧
   (∀ f, get_job auth render f = get_job auth render found) ∧
   (result_status (submit_job auth outcome) = 503 ∨ result_status (submit_job auth outcome) = 401)).
Proof.
  unfold require_jobs_auth, bears_token. destruct token as [tok|]; simpl.
  2:{ split; [split; [done|]; by intros (_ & ? & ? & _)|]. auto. }
  destruct enabled; simpl; [|split; [split; [done|]; by intros [? _]|auto]].
  destruct (bool_decide (tok = EmptyString)) eqn:Et; simpl.
  { apply bool_decide_eq_true in Et as ->. split; [|auto]. split; [done|].
    intros (_ & ? & [= <-] & ? & _). done. }
  apply bool_decide_eq_false in Et.
  destruct (bool_decide (default EmptyString header = _)) eqn:Eh.
  - apply bool_decide_eq_true in Eh. split; [|done]. split; [|done]. intros _. split; [done|].
    exists tok. split_and!; try done. destruct header as [h|]; simpl in Eh; [by subst|done].
  - apply bool_decide_eq_false in Eh. split; [|auto]. split; [done|].
    intros (_ & ? & [= <-] & _ & ->). done.
Qed.

(** ** Configuration requests *)

(** The ranges the request models declare. *)
Definition config_in_range (c : SystemConfig) : Prop :=
  1 <= batch_size c <= 512 ∧ (0 <= failure_rate c <= 1)%Q ∧
  scheduler_strategy c ∈ ["fifo"; "batching"; "latency_aware"]%string.

Inductive config_request := ReqBatch (n : Z) | ReqScheduler (s : string) | ReqFailure (x : Q).

Definition handle_config (p : api_pool) (rq : config_request) (c : SystemConfig)
    : api_result * SystemConfig :=
  match rq with
  | ReqBatch n => set_batch_size n c
  | ReqScheduler s => set_scheduler s c
  | ReqFailure x => set_failure_rate p x c
  end.

Definition handle_configs (p : api_pool) (rqs : list config_request) (c : SystemConfig)
    : SystemConfig := foldl (λ c rq, (handle_config p rq c).2) c rqs.

(** Whatever sequence of configuration requests arrives, the running
    configuration stays within the declared ranges and everything the endpoints do
    not set keeps its value; a refused request changes nothing. *)
Theorem config_requests_stay_in_range (p : api_pool) (rqs : list config_request)
    (c : SystemConfig) :
  config_in_range c →
  let c' := handle_configs p rqs c in
  config_in_range c' ∧
  (num_workers c', inference_latency_ms c', latency_threshold_ms c', max_queue_size c', host c', port c')
    = (num_workers c, inference_latency_ms c, latency_threshold_ms c, max_queue_size c, host c, port c) ∧
  ∀ rq, result_status (handle_config p rq c).1 = 422 → (handle_config p rq c).2 = c.
Proof.
  intros Hc. simpl. assert (∀ c rq, config_in_range c →
    config_in_range (handle_config p rq c).2 ∧
    (num_workers (handle_config p rq c).2, inference_latency_ms (handle_config p rq c).2,
     latency_threshold_ms (handle_config p rq c).2, max_queue_size (handle_config p rq c).2,
     host (handle_config p rq c).2, port (handle_config p rq c).2)
    = (num_workers c, inference_latency_ms c, latency_threshold_ms c, max_queue_size c, host c, port c) ∧
    (result_status (handle_config p rq c).1 = 422 → (handle_config p rq c).2 = c)) as Hstep.
  { clear c rqs Hc. intros c rq (Hb & Hf & Hs). destruct c as [bs nw lat st fr thr mq ho po].
    simpl in *. destruct rq as [n|s|x]; simpl;
      unfold set_batch_size, set_scheduler, set_failure_rate, config_in_range; simpl.
    - destruct ((1 <=? n) && (n <=? 512)) eqn:E; simpl; [|(split_and!; first [tauto|done])].
      apply andb_true_iff in E as [?%Z.leb_le ?%Z.leb_le]. (split_and!; first [tauto|done]).
    - destruct (bool_decide _) eqn:E; simpl; [|(split_and!; first [tauto|done])].
      apply bool_decide_eq_true in E. (split_and!; first [tauto|done]).
    - destruct ((0 <=?q x) && (x <=?q 1)) eqn:E; simpl; [|(split_and!; first [tauto|done])].
      apply andb_true_iff in E as [?%Qleb_true ?%Qleb_true]. destruct p; (split_and!; first [tauto|done]). }
  split_and!; [| |intros rq; by apply Hstep].
  - revert c Hc. unfold handle_configs. induction rqs as [|rq rqs IH]; intros c Hc; [done|].
    simpl. apply IH. by apply Hstep.
  - revert c Hc. unfold handle_configs. induction rqs as [|rq rqs IH]; intros c Hc; [done|].
    simpl. destruct (Hstep c rq Hc) as (H1 & H2 & _). by rewrite IH.
Qed.

(** The failure-rate endpoint crashes with the in-process pool after it has
    already changed the configuration: the pool has no [push_config], so every valid
    request is answered with 500 although the new rate is in force. *)
Theorem local_pool_failure_rate_crashes (x : Q) (c : SystemConfig) :
  (0 <= x <= 1)%Q →
  result_status (set_failure_rate PoolLocal x c).1 = 500 ∧
  failure_rate (set_failure_rate PoolLocal x c).2 = x.
Proof.
  intros [H0 H1]. unfold set_failure_rate.
  rewrite (proj2 (Qleb_true 0 x) H0), (proj2 (Qleb_true x 1) H1). by destruct c.
Qed.

(** ** Metrics *)

Definition responses_total (m : predict_metrics) : Z :=
  map_fold (λ _ n acc, n + acc) 0 (pm_responses m).

Lemma responses_total_insert m code :
  map_fold (λ _ n acc, n + acc) 0 (<[code := default 0 (m !! code) + 1]> m)
  = map_fold (λ (_ : Z) n acc, n + acc) 0 m + 1.
Proof.
  destruct (m !! code) as [n|] eqn:E; simpl.
  - rewrite <- (insert_delete_id m code n E) at 2.
    rewrite <- (insert_delete_eq m code (n + 1)).
    rewrite !map_fold_insert_L; try (intros; lia); try apply lookup_delete_eq.
  - rewrite map_fold_insert_L; [lia|intros; lia|done].
Qed.

(** The prediction metrics add up: over any sequence of requests, each
    prediction request is counted once, answered under exactly one status code and
    observed once in the histogram, and the failures are the answers of 400 and
    above together with the crashes; other requests leave the metrics alone. *)
Theorem predict_metrics_add_up (rs : list (bool * api_result)) (m : predict_metrics) :
  let m' := foldl (λ m '(p, r), record_metrics p r m) m rs in
  let predictions := filter (λ pr, pr.1 = true) rs in
  pm_requests m' = pm_requests m + py_len predictions ∧
  responses_total m' = responses_total m + py_len predictions ∧
  pm_observed m' = pm_observed m + py_len predictions ∧
  pm_failures m' = pm_failures m + py_len (filter (λ pr, 400 <= result_status pr.2) predictions).
Proof.
  simpl. revert m. induction rs as [|[p r] rs IH]; intros m; simpl.
  { unfold py_len. simpl. split_and!; lia. }
  destruct (IH (record_metrics p r m)) as (H1 & H2 & H3 & H4).
  rewrite H1, H2, H3, H4. clear IH H1 H2 H3 H4. rewrite filter_cons. simpl.
  destruct p; [rewrite !decide_True by done|rewrite !decide_False by done].
  2:{ unfold record_metrics. simpl. split_and!; lia. }
  unfold responses_total. unfold record_metrics. simpl. rewrite responses_total_insert.
  rewrite filter_cons. unfold py_len. simpl.
  split_and!; [lia|lia|lia|].
  destruct r as [st b|st dt|e]; simpl; (case_decide || idtac);
    rewrite ?(proj2 (Z.leb_le 400 _)), ?(proj2 (Z.leb_gt 400 _)) by lia; simpl; lia.
Qed.

(** ** A concrete server: the clock is at least the number of scheduling points
    passed, and at the fifth point a worker finishes the task [0]. *)

Definition sample_tick (n : nat) (s : astate ()) : astate () :=
  mkAstate (if decide (n = 5%nat) then alter (mark_done 1 (PyInt 9)) 0%nat (a_tasks s) else a_tasks s)
    (a_queue s) (Qmax (a_mono s) (inject_Z (Z.of_nat n))) (a_wall s) (a_points s) (a_rest s).

#[export] Instance sample_tick_env : ApiEnv sample_tick.
Proof.
  constructor.
  - intros n s. split; [|apply Q.le_max_l|done]. simpl. case_decide; [|done].
    apply store_le_mark_done.
  - intros x. exists (Z.to_nat (Qceiling x)). intros m s Hm. simpl.
    eapply Qle_trans; [apply Qle_ceiling|]. eapply Qle_trans; [|apply Q.le_max_r].
    rewrite <- Zle_Qle. lia.
Qed.

Definition sample_astate : astate () := mkAstate ∅ (queue_init 10) 0 0 0%nat tt.

Lemma predict_answers_own_task_witness :
  ∃ fuel res s', predict sample_tick fuel (PyInt 3) "u" sample_astate = Some (res, s').
Proof.
  destruct (predict_answers_own_task sample_tick (PyInt 3) "u" sample_astate)
    as (fuel & res & s' & E & _).
  exists fuel, res, s'. exact E.
Defined.

Example sample_predict :
  (λ '(res, _), result_status res) <$> predict sample_tick 10 (PyInt 3) "u" sample_astate
  = Some 200.
Proof. vm_compute. reflexivity. Qed.

Lemma text_task_answers_own_task_witness :
  ∃ fuel res s', text_task sample_tick (λ _, false) fuel (Some 10)
    (mkTextTaskRequest TextV123 Rerank []) "u" sample_astate = Some (res, s').
Proof.
  destruct (text_task_answers_own_task sample_tick (λ _, false) (Some 10)
    (mkTextTaskRequest TextV123 Rerank []) "u" sample_astate) as (fuel & res & s' & E & _).
  exists fuel, res, s'. exact E.
Defined.

Lemma config_requests_stay_in_range_witness :
  config_in_range (handle_configs PoolLocal [ReqBatch 7; ReqBatch 0; ReqFailure (1#2)] default_config).
Proof.
  apply (config_requests_stay_in_range PoolLocal [ReqBatch 7; ReqBatch 0; ReqFailure (1#2)]
    default_config).
  split; [vm_compute; split; discriminate|]. split; [split; vm_compute; discriminate|].
  apply (bool_decide_unpack _). vm_compute. exact I.
Defined.

Lemma local_pool_failure_rate_crashes_witness :
  result_status (set_failure_rate PoolLocal (1#2) default_config).1 = 500.
Proof.
  apply (local_pool_failure_rate_crashes (1#2) default_config). split; vm_compute; discriminate.
Defined.
