(* ===== verification/ServingPath.v ===== *)
(** A request on its way through the API process: the handlers of [src/system/api_server.py]
    beside everything else that runs there — other requests, the scheduler thread and the
    threads of the worker pool.  The pool is an interface; [EndToEnd] instantiates it with
    the remote and with the in-process pool. *)
From S2P Require Import Prelude PyVal Tasks Queue Config Scheduler LocalWorker GrpcWorker World GrpcPool JobStore Justified ApiServer ApiServerFacts.

(** ** What the handlers keep

    A property of the task objects that the other threads, giving a task up and creating
    one with a new identifier all keep. *)
Section keep.
Context {X : Type} (tick : nat → astate X → astate X) (disconnected : nat → bool) (P : store → Prop).
Implicit Types s : astate X.
Context (tick_keeps : ∀ n s, P (a_tasks s) → P (a_tasks (tick n s))).
Context (fail_keeps : ∀ h r wall err code, P h → P (alter (mark_failed wall err code) r h)).

Lemma pause_keeps s : P (a_tasks s) → P (a_tasks (a_pause tick s)).
Proof using tick_keeps. intros H. unfold a_pause. by apply tick_keeps. Qed.

Lemma predict_wait_keeps fuel r s s' : predict_wait tick fuel r s = Some s' → P (a_tasks s) → P (a_tasks s').
Proof using tick_keeps.
  revert s. induction fuel as [|fuel IH]; intros s; simpl; [done|].
  destruct (task_expired _ _); [intros [= <-]; apply pause_keeps|].
  destruct (task_terminal _ _); [intros [= <-] H; by apply pause_keeps, pause_keeps|].
  intros E H. eapply IH; [exact E|by apply pause_keeps, pause_keeps].
Qed.

Lemma predict_answer_keeps r s res s' : predict_answer tick r s = (res, s') → P (a_tasks s) → P (a_tasks s').
Proof using tick_keeps fail_keeps.
  unfold predict_answer. intros E H. apply pause_keeps in H. set (s1 := a_pause tick s) in *.
  set (s2 := if task_expired r s1 then _ else s1) in *.
  assert (P (a_tasks s2)) as H2 by (unfold s2; destruct (task_expired r s1); [by apply fail_keeps|done]).
  apply pause_keeps in H2. clearbody s1 s2. destruct (a_tasks (a_pause tick s2) !! r); [|by simplify_eq].
  repeat case_match; by simplify_eq.
Qed.

Lemma text_wait_keeps fuel n r s s' b :
  text_wait tick disconnected fuel n r s = Some (s', b) → P (a_tasks s) → P (a_tasks s').
Proof using tick_keeps fail_keeps.
  revert n s. induction fuel as [|fuel IH]; intros n s; simpl; [done|].
  destruct (task_terminal _ _); [intros [= <- <-]; apply pause_keeps|].
  destruct (disconnected n); [intros [= <- <-] H; by apply fail_keeps, pause_keeps, pause_keeps|].
  destruct (task_expired _ _); [intros [= <- <-] H; by apply fail_keeps, pause_keeps, pause_keeps|].
  intros E H. eapply IH; [exact E|by apply pause_keeps, pause_keeps].
Qed.

(** The creation of the request's own task. *)
Definition creation_keeps (data : pyval) (uuid : string) (budget : Q) (s : astate X) : Prop :=
  P (a_tasks (create_and_put data uuid budget (a_pause tick s)).2).

Lemma predict_keeps fuel x uuid s res s' :
  creation_keeps (PyDict [("x"%string, x)]) uuid 30 s → predict tick fuel x uuid s = Some (res, s') → P (a_tasks s').
Proof using tick_keeps fail_keeps.
  unfold creation_keeps, predict. destruct (create_and_put _ uuid 30 _) as [[r|] s2]; [|by intros ? [= <- <-]].
  simpl. intros H E. destruct (predict_wait tick fuel r s2) as [s3|] eqn:Ew; [|done]. injection E as E.
  eapply predict_answer_keeps; [exact E|by eapply predict_wait_keeps].
Qed.

Lemma text_task_keeps fuel size b uuid s res s' :
  P (a_tasks s) → creation_keeps (text_input b) uuid (text_budget b) s →
  text_task tick disconnected fuel size b uuid s = Some (res, s') → P (a_tasks s').
Proof using tick_keeps fail_keeps.
  unfold creation_keeps, text_task. intros H0. destruct (text_rejection size b) as [[]|]; [by intros ? [= <- <-]|].
  destruct (create_and_put _ uuid _ _) as [[r|] s2]; [|by intros ? [= <- <-]].
  simpl. intros H E. destruct (text_wait _ _ _ _ _ s2) as [[s3 []]|] eqn:Ew; [|clear H0|done].
  { injection E as <- <-. by eapply text_wait_keeps. }
  apply (text_wait_keeps _ _ _ _ _ _ Ew) in H. unfold text_answer in E. apply pause_keeps in H.
  destruct (a_tasks (a_pause tick s3) !! r); [|by simplify_eq]. case_match; by simplify_eq.
Qed.
End keep.

(** ** The pool as the process sees it

    [W] is the pool's state, task objects and clocks included; [A] what its own threads
    do.  [pb_submit] is the handler the scheduler is given. *)
Record pool_backend (W A : Type) := mkBackend {
  pb_tasks : W → store;
  pb_mono : W → Q;
  pb_wall : W → Q;
  pb_load : store → Q → Q → W → W;      (* the same pool over these objects and clocks *)
  pb_submit : list tref → W → W * option string;
  pb_act : A → W → W;
}.
Arguments pb_tasks {W A}.
Arguments pb_mono {W A}.
Arguments pb_wall {W A}.
Arguments pb_load {W A}.
Arguments pb_submit {W A}.
Arguments pb_act {W A}.

Section serving.
Context {W A : Type} (B : pool_backend W A) (justifies : pyval → pyval → Prop).

(** A step of the pool: tasks move along their operations, the clock forwards, and what is
    completed is justified. *)
Record pool_step (x y : W) : Prop := {
  ps_tasks : store_le (pb_tasks B x) (pb_tasks B y);
  ps_mono : (pb_mono B x <= pb_mono B y)%Q;
  ps_justified : justified justifies (pb_tasks B x) → justified justifies (pb_tasks B y);
}.

Class PoolLaws : Prop := {
  pl_load : ∀ h m v x, pb_tasks B (pb_load B h m v x) = h ∧ pb_mono B (pb_load B h m v x) = m ∧
                       pb_wall B (pb_load B h m v x) = v;
  pl_submit : ∀ batch x, pool_step x (pb_submit B batch x).1;
  pl_act : ∀ a x, pool_step x (pb_act B a x);
}.

#[export] Instance pool_step_preorder : PreOrder pool_step.
Proof using.
  split.
  - intros x. split; [done|apply Qle_refl|done].
  - intros x y z [] []. split; [by etrans|lra|auto].
Qed.

(** ** The other activities of the process *)

Inductive activity :=
| ActClock (elapsed wall : Q)
| ActArrive (data : pyval) (uuid : string) (budget : Q)           (* another request, or the job gateway *)
| ActAbandon (r : tref) (err code : string)                       (* its handler gives a task up *)
| ActSchedule (strategy : string) (wall : Q) (ticks : list tick) (ob : latency_obs)
| ActPool (a : A).

(** The pool and the scheduler's private buffer, beside the objects of [astate]. *)
Definition serving_state : Type := astate (W * list tref).

Definition pool_of (s : serving_state) : W := pb_load B (a_tasks s) (a_mono s) (a_wall s) (a_rest s).1.
Definition with_pool (x : W) (q : TaskQueue) (buffer : list tref) (s : serving_state) : serving_state :=
  mkAstate (pb_tasks B x) q (pb_mono B x) (pb_wall B x) (a_points s) (x, buffer).

(** No task object has this identifier. *)
Definition fresh_id (h : store) (uuid : string) : Prop := map_Forall (λ _ t, task_id t ≠ uuid) h.

Definition run_activity (a : activity) (s : serving_state) : serving_state :=
  match a with
  | ActClock elapsed wall =>
      mkAstate (a_tasks s) (a_queue s) (a_mono s + py_max0 elapsed)%Q wall (a_points s) (a_rest s)
  | ActArrive data uuid budget =>
      (* [uuid4] does not repeat itself *)
      if decide (fresh_id (a_tasks s) uuid) then (create_and_put data uuid budget s).2 else s
  | ActAbandon r err code => a_fail err code r s
  | ActSchedule strategy wall ticks ob =>
      match scheduler_loop (pb_submit B) [mkTurn (a_tasks s) strategy wall ticks ob]
              (mkSched (a_queue s) (a_rest s).2) (pool_of s) with
      | Some (sc, x, _) => with_pool x (sc_queue sc) (sc_buffer sc) s
      | None => s
      end
  | ActPool a => with_pool (pb_act B a (pool_of s)) (a_queue s) (a_rest s).2 s
  end.

Fixpoint run_activities (l : list activity) (s : serving_state) : serving_state :=
  match l with [] => s | a :: l' => run_activities l' (run_activity a s) end.

(** What happens at the [n]-th scheduling point of a handler, and the time it is then. *)
Context (plan : nat → list activity) (clock : nat → Q).

Definition handler_tick (n : nat) (s : serving_state) : serving_state :=
  let s := run_activities (plan n) s in
  mkAstate (a_tasks s) (a_queue s) (Qmax (a_mono s) (clock n)) (a_wall s) (a_points s) (a_rest s).

(** Time passes. *)
Class ClockPasses : Prop := clock_passes : ∀ x : Q, ∃ n, ∀ m, (n ≤ m)%nat → (x <= clock m)%Q.

Context {HL : PoolLaws} {HC : ClockPasses}.

Lemma pool_of_views s :
  pb_tasks B (pool_of s) = a_tasks s ∧ pb_mono B (pool_of s) = a_mono s ∧ pb_wall B (pool_of s) = a_wall s.
Proof using HL. apply pl_load. Qed.

Lemma with_pool_rely x q buffer s :
  pool_step (pool_of s) x → a_rely s (with_pool x q buffer s) ∧
  (justified justifies (a_tasks s) → justified justifies (a_tasks (with_pool x q buffer s))).
Proof using HL.
  intros [Ht Hm Hj]. destruct (pool_of_views s) as (Et & Em & _). rewrite Et in Ht, Hj. rewrite Em in Hm. by split.
Qed.

(** One turn of the scheduler is a step of the pool. *)
Lemma turn_step tn sc x sc' x' batches :
  scheduler_loop (pb_submit B) [tn] sc x = Some (sc', x', batches) → pool_step x x'.
Proof using HL.
  simpl. destruct (scheduler_iteration _ _ _ _ _ _) as [[[|r batch] sc1]|]; simpl; [by intros [= _ <- _]| |done].
  pose proof (pl_submit (r :: batch) x) as H. destruct (pb_submit B (r :: batch) x) as [y o]. by intros [= _ <- _].
Qed.

Lemma run_activity_rely a s :
  a_rely s (run_activity a s) ∧ (justified justifies (a_tasks s) → justified justifies (a_tasks (run_activity a s))).
Proof using HL.
  destruct a as [elapsed wall|data uuid budget|r err code|strategy wall ticks ob|a]; cbn [run_activity].
  - split; [|done]. split; [done| |done]. simpl. pose proof (py_max0_nonneg elapsed). lra.
  - case_decide as Hf; [|done]. destruct (create_and_put_store data uuid budget s) as [(r & w & dl & Hr & ->) H].
    split; [exact H|]. apply create_justified; [done|]. intros q u Hq. by apply (map_Forall_lookup_1 _ _ _ _ Hf Hq).
  - split; [apply a_fail_rely|apply fail_justified].
  - destruct (scheduler_loop _ _ _ _) as [[[sc x] batches]|] eqn:E; [|done]. by apply with_pool_rely, (turn_step _ _ _ _ _ _ E).
  - apply with_pool_rely, pl_act.
Qed.

Lemma run_activities_rely l s :
  a_rely s (run_activities l s) ∧
  (justified justifies (a_tasks s) → justified justifies (a_tasks (run_activities l s))).
Proof using HL.
  revert s. induction l as [|a l IH]; intros s; [done|]. simpl. destruct (run_activity_rely a s) as [H1 J1].
  destruct (IH (run_activity a s)) as [H2 J2]. split; [by etrans|auto].
Qed.

Lemma handler_tick_rely n s :
  a_rely s (handler_tick n s) ∧ (justified justifies (a_tasks s) → justified justifies (a_tasks (handler_tick n s))).
Proof using HL.
  destruct (run_activities_rely (plan n) s) as [[H1 H2 H3] J]. unfold handler_tick.
  set (s1 := run_activities (plan n) s) in *. clearbody s1.
  split; [|exact J]. split; [done| |done]. simpl. pose proof (Q.le_max_l (a_mono s1) (clock n)). lra.
Qed.

#[export] Instance handler_tick_env : ApiEnv handler_tick.
Proof using HL HC.
  split; [intros n s; apply handler_tick_rely|]. intros x. destruct (clock_passes x) as [n Hn]. exists n. intros m s Hm.
  unfold handler_tick. simpl. pose proof (Q.le_max_r (a_mono (run_activities (plan m) s)) (clock m)). specialize (Hn m Hm). lra.
Qed.

(** ** The answers of the handlers *)

Definition predict_input (x : pyval) : pyval := PyDict [("x"%string, x)].

(** A prediction request is turned away, answered for its own payload, or refused with the
    status of a failure. *)
Definition predict_served (x : pyval) (uuid : string) (res : api_result) : Prop :=
  res = ApiError 503 (PyStr "task queue is full") ∨
  (∃ v latency, res = ApiOk 200 (PyDict [("task_id", PyStr uuid); ("result", v); ("latency_ms", PyFloat latency)]%string) ∧
     justifies (predict_input x) v) ∨
  ∃ code detail, res = ApiError code detail ∧ code ∈ [500; 503; 504].

Lemma predict_failure_codes t : predict_failure_status t ∈ [500; 503; 504].
Proof using. unfold predict_failure_status. repeat case_match; rewrite !elem_of_cons; auto. Qed.

Lemma creation_justified data uuid budget s :
  justified justifies (a_tasks s) → fresh_id (a_tasks (a_pause handler_tick s)) uuid →
  creation_keeps handler_tick (justified justifies) data uuid budget s.
Proof using HL.
  intros Hj Hid. unfold creation_keeps.
  destruct (create_and_put_store data uuid budget (a_pause handler_tick s)) as [(r & w & dl & Hr & ->) _].
  apply create_justified; [done| |apply (handler_tick_rely _ _), Hj].
  intros q t Hq. by apply (map_Forall_lookup_1 _ _ _ _ Hid Hq).
Qed.

Lemma predict_is_served x uuid s :
  justified justifies (a_tasks s) → fresh_id (a_tasks (a_pause handler_tick s)) uuid →
  ∃ fuel res s', predict handler_tick fuel x uuid s = Some (res, s') ∧ predict_served x uuid res.
Proof using HL HC.
  intros Hj Hid. destruct (predict_own_task handler_tick x uuid s) as (fuel & res & s' & E & Hf).
  exists fuel, res, s'. split; [done|]. destruct Hf as [[-> _]|(r & t & _ & Ht & Hi & Hu & _ & Hv)]; [by left|right].
  assert (justified justifies (a_tasks s')) as [_ Hj'].
  { eapply (predict_keeps handler_tick (justified justifies)); [intros n s0; apply handler_tick_rely| | |exact E].
    - intros h q wall err code. apply fail_justified.
    - by apply creation_justified. }
  destruct Hv as [(Hs & -> & Hst)|[Hs ->]]; [left|right].
  - unfold predict_response in *. destruct (end_time t) as [e|]; [|done]. rewrite Hu.
    eexists _, _. split; [done|]. specialize (Hj' r t Ht Hs). by rewrite Hi in Hj'.
  - eexists _, _. split; [done|apply predict_failure_codes].
Qed.

(** A text request is rejected by the checks on its payload, answered for that payload, or
    refused with the status of a failure. *)
Definition text_served (size : option Z) (b : TextTaskRequest) (res : api_result) : Prop :=
  (∃ code detail, text_rejection size b = Some (code, detail) ∧ res = ApiError code (PyStr detail)) ∨
  (text_rejection size b = None ∧ (∃ v, res = ApiOk 200 v ∧ justifies (text_input b) v)) ∨
  (text_rejection size b = None ∧ ∃ code detail, res = ApiError code detail ∧ code ∈ [422; 499; 502; 503; 504]).

Lemma text_failure_codes code : text_failure_status code ∈ [422; 499; 502; 503; 504].
Proof using.
  destruct code as [c|]; [|by rewrite !elem_of_cons; auto].
  unfold text_failure_status, dict_get. simpl. repeat case_match; rewrite !elem_of_cons; simplify_eq; auto 10.
Qed.

Lemma text_is_served disconnected size b uuid s :
  justified justifies (a_tasks s) → fresh_id (a_tasks (a_pause handler_tick s)) uuid →
  ∃ fuel res s', text_task handler_tick disconnected fuel size b uuid s = Some (res, s') ∧ text_served size b res.
Proof using HL HC.
  intros Hj Hid. destruct (text_own_task handler_tick disconnected size b uuid s) as (fuel & res & s' & E & Hf).
  exists fuel, res, s'. split; [done|].
  destruct Hf as [(code & detail & Hr & -> & _)|[(Hr & -> & _)|(Hr & r & t & Ht & Hi & _ & Hv)]].
  { left. eauto. }
  { right. right. split; [done|]. eexists _, _. split; [done|]. rewrite !elem_of_cons. auto. }
  right. assert (justified justifies (a_tasks s')) as [_ Hj'].
  { eapply (text_task_keeps handler_tick disconnected (justified justifies)); [intros n s0; apply handler_tick_rely| |exact Hj| |exact E].
    - intros h q wall err code. apply fail_justified.
    - by apply creation_justified. }
  destruct Hv as [[-> _]|[[Hs ->]|(_ & detail & ->)]].
  - right. split; [done|]. eexists _, _. split; [done|]. rewrite !elem_of_cons. auto.
  - left. split; [done|]. exists (result t). split; [done|]. specialize (Hj' r t Ht Hs). by rewrite Hi in Hj'.
  - right. split; [done|]. eexists _, _. split; [done|apply text_failure_codes].
Qed.
End serving.
