(* ===== verification/ApiLifespan.v ===== *)
(** Start-up and shutdown of the API process: [lifespan] of [src/system/api_server.py]
    over the settings it reads, the constructors it calls and what can go wrong in them,
    and what it means for the durable-job endpoints. *)
From S2P Require Import Prelude PyVal Tasks Config GrpcWorker World GrpcPool GrpcPoolFacts JobStore JobGateway ApiServer.

(** ** Settings and state *)

(** The environment variables [lifespan] and the constructors it calls read. *)
Record api_settings := mkApiSettings {
  se_jobs_enabled : option string;      (* SYNTHX_JOBS_ENABLED *)
  se_use_grpc : option string;          (* USE_GRPC *)
  se_token : option string;             (* INFERENCE_SERVICE_TOKEN *)
  se_database_url : option string;      (* DATABASE_URL *)
  se_max_inflight : option string;      (* SYNTHX_JOBS_MAX_INFLIGHT *)
  se_static_workers : option string;    (* STATIC_WORKERS *)
  se_capabilities : option string;      (* WORKER_CAPABILITIES *)
}.

Definition JOBS_ENABLED (se : api_settings) : bool :=
  bool_decide (default "0" (se_jobs_enabled se) = "1")%string.
Definition USE_GRPC (se : api_settings) : bool :=
  bool_decide (default "0" (se_use_grpc se) = "1")%string || JOBS_ENABLED se.

(** What the machine does: the database driver imports, discovery connects, the threads
    of the scheduler and of the gateway start, stopping the pool returns. *)
Record start_obs := mkStartObs {
  so_driver : bool;
  so_discovery : bool;
  so_scheduler : bool;
  so_gateway : bool;
  so_pool_stop : bool;
}.

Inductive part_life := Unmade | Made | Up | Down.

#[export] Instance part_life_eq_dec : EqDecision part_life.
Proof. solve_decision. Defined.

(** The module's globals. *)
Record api_app := mkApp {
  ap_config : SystemConfig;
  ap_token : option string;                        (* _jobs_token *)
  ap_queue : option Z;                             (* _task_queue, by its capacity *)
  ap_pool : part_life;                                  (* _worker_pool *)
  ap_static : option (list (string * string));     (* its static members *)
  ap_scheduler : part_life;                             (* _scheduler *)
  ap_gateway : option (gateway_config * part_life);     (* _job_gateway *)
}.

Definition app_imported (c : SystemConfig) : api_app := mkApp c None None Unmade None Unmade None.

Definition with_app_token (t : option string) (a : api_app) : api_app :=
  mkApp (ap_config a) t (ap_queue a) (ap_pool a) (ap_static a) (ap_scheduler a) (ap_gateway a).
Definition with_app_config (c : SystemConfig) (a : api_app) : api_app :=
  mkApp c (ap_token a) (ap_queue a) (ap_pool a) (ap_static a) (ap_scheduler a) (ap_gateway a).
Definition with_app_queue (q : Z) (a : api_app) : api_app :=
  mkApp (ap_config a) (ap_token a) (Some q) (ap_pool a) (ap_static a) (ap_scheduler a) (ap_gateway a).
Definition with_app_pool (p : part_life) (st : option (list (string * string))) (a : api_app) : api_app :=
  mkApp (ap_config a) (ap_token a) (ap_queue a) p st (ap_scheduler a) (ap_gateway a).
Definition with_app_scheduler (l : part_life) (a : api_app) : api_app :=
  mkApp (ap_config a) (ap_token a) (ap_queue a) (ap_pool a) (ap_static a) l (ap_gateway a).
Definition with_app_gateway (g : option (gateway_config * part_life)) (a : api_app) : api_app :=
  mkApp (ap_config a) (ap_token a) (ap_queue a) (ap_pool a) (ap_static a) (ap_scheduler a) g.

(** ** Start-up: an exception leaves the globals as they are by then. *)

Definition Lifespan (A : Type) : Type := api_app → (A + string) * api_app.
#[export] Instance l_ret : MRet Lifespan := λ A a s, (inl a, s).
#[export] Instance l_bind : MBind Lifespan := λ A B k m s,
  let '(r, s) := m s in match r with inl a => k a s | inr e => (inr e, s) end.

Definition l_raise {A} (msg : string) : Lifespan A := λ s, (inr msg, s).
Definition l_set (f : api_app → api_app) : Lifespan unit := λ s, (inl tt, f s).
Definition l_get : Lifespan api_app := λ s, (inl s, s).
Definition l_sum {A} (r : A + string) : Lifespan A := λ s, (r, s).

Definition truthy_env (v : option string) : bool := negb (bool_decide (default EmptyString v = EmptyString)).

Section lifespan.
Context (env : environment) (se : api_settings) (so : start_obs).

(** The durable-job part: the token, the store, batches of one. *)
Definition lifespan_jobs : Lifespan unit :=
  if JOBS_ENABLED se then
    l_set (with_app_token (se_token se)) ;;
    (if truthy_env (se_token se) then mret tt
     else l_raise "INFERENCE_SERVICE_TOKEN is required for durable jobs") ;;
    (if truthy_env (se_database_url se) then mret tt
     else l_raise "DATABASE_URL is required for durable jobs") ;;
    (if so_driver so then mret tt else l_raise "No module named 'psycopg'") ;;
    l_set (λ a, with_app_config (config_update [KwBatchSize 1] (ap_config a)).1 a)
  else mret tt.

(** [JobGateway(job_store, _task_queue, max_inflight=int(...))]. *)
Definition lifespan_gateway : Lifespan (option gateway_config) :=
  if JOBS_ENABLED se then
    match py_int_of (default "1"%string (se_max_inflight se)) with
    | None => l_raise "invalid literal for int() with base 10"
    | Some n =>
        let cfg := mkGatewayConfig 120 30 5 (1#2) n in
        match gateway_config_error cfg with
        | Some msg => l_raise msg
        | None => mret (Some cfg)
        end
    end
  else mret None.

(** [GrpcWorkerPool(...)] or [WorkerPool()], and its [start]. *)
Definition lifespan_pool : Lifespan unit :=
  if USE_GRPC se then
    members ← l_sum (static_workers env PyNone (se_static_workers se));
    _ ← l_sum (read_capabilities env (se_capabilities se));
    l_set (with_app_pool Made members) ;;
    (if match members with Some _ => true | None => so_discovery so end
     then l_set (with_app_pool Up members) else l_raise "discovery failed to start")
  else l_set (with_app_pool Up None).

(** [lifespan] up to its [yield]. *)
Definition lifespan_enter : Lifespan unit :=
  lifespan_jobs ;;
  a ← l_get;
  l_set (with_app_queue (max_queue_size (ap_config a))) ;;
  job_gateway ← lifespan_gateway;
  lifespan_pool ;;
  l_set (with_app_scheduler Made) ;;
  (if so_scheduler so then l_set (with_app_scheduler Up) else l_raise "can't start new thread") ;;
  match job_gateway with
  | None => mret tt
  | Some cfg =>
      l_set (with_app_gateway (Some (cfg, Made))) ;;
      (if so_gateway so then l_set (with_app_gateway (Some (cfg, Up))) else l_raise "can't start new thread")
  end.

(** After the [yield]: the gateway leaves its leases in SQL, then the scheduler and the
    pool stop. *)
Definition lifespan_exit : Lifespan unit :=
  l_set (with_app_gateway None) ;;
  l_set (with_app_token None) ;;
  l_set (with_app_scheduler Down) ;;
  (if so_pool_stop so then l_set (λ a, with_app_pool Down (ap_static a) a)
   else l_raise "stopping the pool failed").

(** ** What start-up guarantees *)

(** The conditions of a successful start. *)
Definition jobs_ready : bool :=
  truthy_env (se_token se) && truthy_env (se_database_url se) && so_driver so &&
  match py_int_of (default "1"%string (se_max_inflight se)) with Some n => 1 <=? n | None => false end &&
  so_gateway so.

Definition pool_ready : bool :=
  negb (USE_GRPC se) ||
  match static_workers env PyNone (se_static_workers se), read_capabilities env (se_capabilities se) with
  | inl (Some _), inl _ => true
  | inl None, inl _ => so_discovery so
  | _, _ => false
  end.

Definition can_start : bool :=
  (negb (JOBS_ENABLED se) || jobs_ready) && pool_ready && so_scheduler so.

(** A process that serves: everything it has runs, and it has a durable-job gateway, with
    a token and one task per batch, exactly when jobs are enabled. *)
Definition serving (c : SystemConfig) (a : api_app) : Prop :=
  ap_pool a = Up ∧ ap_scheduler a = Up ∧ ap_queue a = Some (max_queue_size c) ∧
  if JOBS_ENABLED se then
    ap_token a = se_token se ∧ truthy_env (ap_token a) = true ∧
    ap_config a = (config_update [KwBatchSize 1] c).1 ∧
    ∃ cfg, ap_gateway a = Some (cfg, Up) ∧ gateway_config_error cfg = None
  else ap_token a = None ∧ ap_config a = c ∧ ap_gateway a = None.

Lemma gateway_config_inflight n :
  gateway_config_error (mkGatewayConfig 120 30 5 (1#2) n) = None ↔ 1 <= n.
Proof using.
  unfold gateway_config_error. cbn -[Z.ltb]. destruct (n <? 1) eqn:E; zbool; simpl; split; (done || lia).
Qed.

(** [lifespan_enter] after the part that only durable jobs need. *)
Lemma lifespan_enter_spec c :
  match lifespan_enter (app_imported c) with
  | (inl _, a) => can_start = true ∧ serving c a
  | (inr _, a) => can_start = false ∧ (∀ cfg, ap_gateway a ≠ Some (cfg, Up)) ∧
      (JOBS_ENABLED se = false → ap_token a = None ∧ ap_gateway a = None)
  end.
Proof using.
  unfold can_start, jobs_ready, pool_ready, serving, lifespan_enter, lifespan_jobs, lifespan_gateway, lifespan_pool.
  destruct (JOBS_ENABLED se) eqn:Ej.
  - assert (USE_GRPC se = true) as -> by (unfold USE_GRPC; by rewrite Ej, orb_true_r).
    unfold mbind, l_bind, l_set, l_get, l_sum, l_raise, mret, l_ret.
    destruct (truthy_env (se_token se)) eqn:Et; simpl; [|split_and!; done].
    destruct (truthy_env (se_database_url se)); simpl; [|split_and!; done].
    destruct (so_driver so); simpl; [|split_and!; done].
    destruct (py_int_of _) as [n|]; simpl; [|split_and!; done].
    pose proof (gateway_config_inflight n) as Hn.
    destruct (gateway_config_error _) as [msg|] eqn:Eg; simpl.
    { destruct (1 <=? n) eqn:E1; zbool; [|simpl; split_and!; done]. apply Hn in E1. done. }
    rewrite (proj2 (Z.leb_le 1 n)) by (by apply Hn). simpl.
    destruct (static_workers env PyNone (se_static_workers se)) as [[st|]|e]; simpl;
      [..|rewrite ?andb_false_r; split_and!; done].
    all: destruct (read_capabilities env (se_capabilities se)) as [caps|e]; simpl;
      [|rewrite ?andb_false_r; split_and!; done].
    all: destruct (so_discovery so), (so_scheduler so), (so_gateway so); simpl;
      try (split_and!; done).
    all: destruct c; split_and!; try done; by eexists.
  - unfold mbind, l_bind, l_set, l_get, l_sum, l_raise, mret, l_ret.
    destruct (USE_GRPC se); simpl.
    2:{ destruct (so_scheduler so); simpl; split_and!; done. }
    destruct (static_workers env PyNone (se_static_workers se)) as [[st|]|e]; simpl;
      [..|rewrite ?andb_false_r; split_and!; done].
    all: destruct (read_capabilities env (se_capabilities se)) as [caps|e]; simpl;
      [|rewrite ?andb_false_r; split_and!; done].
    all: destruct (so_discovery so), (so_scheduler so); simpl; split_and!; done.
Qed.

(** Start-up is all or nothing for durable jobs: [lifespan] comes up exactly when the
    settings are complete and well formed and the machine cooperates; then the queue, the
    pool and the scheduler run, and the gateway too, with its token and one task per
    batch, exactly when jobs are enabled; otherwise it raises and no gateway runs. *)
Theorem lifespan_starts_or_refuses c :
  match lifespan_enter (app_imported c) with
  | (inl _, a) => can_start = true ∧ serving c a
  | (inr _, a) => can_start = false ∧ (∀ cfg, ap_gateway a ≠ Some (cfg, Up)) ∧
      (JOBS_ENABLED se = false → ap_token a = None ∧ ap_gateway a = None)
  end.
Proof using. apply lifespan_enter_spec. Qed.

(** ** The durable-job endpoints over the life of the process *)

Definition jobs_auth (a : api_app) (header : option string) : option api_result :=
  require_jobs_auth (match ap_gateway a with Some _ => true | None => false end) (ap_token a) header.

(** The states a process that came up passes through. *)
Inductive reached (c : SystemConfig) : api_app → Prop :=
| reached_import : reached c (app_imported c)
| reached_up a : lifespan_enter (app_imported c) = (inl tt, a) → reached c a
| reached_exit a r a' : reached c a → lifespan_exit a = (r, a') → reached c a'.

(** A durable job is only served by a running gateway: in every state the process
    reaches, before start-up, while it serves and after shutdown, even one that failed, a
    request that passes the check of the job endpoints carries the configured token, and
    the gateway it reaches is up. *)
Theorem jobs_only_while_serving c a header :
  reached c a → jobs_auth a header = None →
  JOBS_ENABLED se = true ∧ serving c a ∧
  ∃ tok, se_token se = Some tok ∧ tok ≠ EmptyString ∧ header = Some ("Bearer " +:+ tok)%string.
Proof using.
  intros Hr Hauth. assert (serving c a ∨ (ap_gateway a = None ∧ ap_token a = None)) as [Hs|[Hg Ht]].
  { destruct Hr as [|a Ha|a r a' _ Hx]; [by right| |right].
    - pose proof (lifespan_enter_spec c) as H. rewrite Ha in H. left. apply H.
    - unfold lifespan_exit, mbind, l_bind, l_set, l_raise in Hx.
      destruct (so_pool_stop so); simplify_eq/=; done. }
  2:{ unfold jobs_auth in Hauth. by rewrite Hg, Ht in Hauth. }
  pose proof Hs as (_ & _ & _ & Hj). unfold jobs_auth, require_jobs_auth in Hauth.
  destruct (JOBS_ENABLED se).
  - destruct Hj as (Ht & _ & _ & cfg & Hg & _). rewrite Hg, Ht in Hauth.
    destruct (se_token se) as [tok|]; [|done]. simpl in Hauth.
    destruct (bool_decide (tok = EmptyString)) eqn:Ee; [done|]. zbool.
    destruct (bool_decide (default EmptyString header = _)) eqn:Eh; [|done]. zbool.
    split_and!; [done|done|]. exists tok. split_and!; try done.
    destruct header as [h|]; simpl in Eh; [by subst|]. done.
  - destruct Hj as (Ht & _ & _). by rewrite Ht in Hauth.
Qed.
End lifespan.

(** ** A process with durable jobs, up and shut down *)
Definition sample_settings : api_settings :=
  mkApiSettings (Some "1") None (Some "secret") (Some "postgres://db") (Some " 4 ") None None.
Definition sample_start_obs : start_obs := mkStartObs true true true true true.

Definition sample_up : api_app := (lifespan_enter sample_env sample_settings sample_start_obs (app_imported default_config)).2.
Definition sample_down : api_app := (lifespan_exit sample_start_obs sample_up).2.

Lemma jobs_only_while_serving_witness :
  jobs_auth sample_up (Some "Bearer secret"%string) = None ∧
  serving sample_settings default_config sample_up ∧
  jobs_auth sample_down (Some "Bearer secret"%string) ≠ None.
Proof.
  assert (lifespan_enter sample_env sample_settings sample_start_obs (app_imported default_config) = (inl tt, sample_up)) as Hup
    by (vm_compute; reflexivity).
  assert (jobs_auth sample_up (Some "Bearer secret"%string) = None) as Ha by (vm_compute; reflexivity).
  split; [exact Ha|]. split; [|vm_compute; discriminate].
  apply (jobs_only_while_serving sample_env sample_settings sample_start_obs default_config sample_up
    (Some "Bearer secret"%string)); [|exact Ha].
  by apply reached_up.
Defined.
