(* ===== verification/Registry.v ===== *)
(** Worker registration and discovery over ZooKeeper,
    [src/system/zookeeper_registry.py].  The client library is reached through an
    interface with the documented behaviour of its calls as laws; the registry's
    and the discovery's methods are functions on their own state and the client's. *)
From stdpp Require Import pretty.
From S2P Require Import Prelude PyVal Tasks GrpcWorker World GrpcPool.

(** ** The ZooKeeper client *)

(** How a call ends. [ZFail] is any other [KazooException]. *)
Inductive zk_result (A : Type) := ZOk (a : A) | ZNodeExists | ZNoNode | ZFail.
Arguments ZOk {A} a.
Arguments ZNodeExists {A}.
Arguments ZNoNode {A}.
Arguments ZFail {A}.

(** [zk_node] observes a node: its data and the session that owns it (zero for a
    node that is not ephemeral). *)
Class ZooKeeper (Zk : Type) := {
  zk_session : Zk → Z;
  zk_connected : Zk → bool;
  zk_node : string → Zk → option (string * Z);
  zk_ensure_path : string → Zk → zk_result () * Zk;
  zk_create : string → string → Zk → zk_result () * Zk;
  zk_get : string → Zk → zk_result (string * Z) * Zk;
  zk_set : string → string → Zk → zk_result () * Zk;
  zk_children : string → Zk → zk_result (list string) * Zk;
  zk_stop : Zk → Zk;
}.

(** What the client documents.  [zk_frame p] : the call leaves every node but [p]
    alone, and the session. *)
Definition zk_frame `{ZooKeeper Zk} (p : string) (z z' : Zk) : Prop :=
  zk_session z' = zk_session z ∧ ∀ q, q ≠ p → zk_node q z' = zk_node q z.

Class ZooKeeperLaws (Zk : Type) `{ZooKeeper Zk} (workers : string) : Prop := {
  (* the parent of the worker nodes is not itself one of them *)
  law_ensure : ∀ z, let '(r, z') := zk_ensure_path workers z in
    zk_session z' = zk_session z ∧ ∀ q, q ≠ workers → zk_node q z' = zk_node q z;
  law_create : ∀ p d z, let '(r, z') := zk_create p d z in
    zk_frame p z z' ∧
    match r with
    | ZOk _ => zk_node p z = None ∧ zk_node p z' = Some (d, zk_session z)
    | ZNodeExists => is_Some (zk_node p z) ∧ zk_node p z' = zk_node p z
    | _ => zk_node p z' = zk_node p z ∨
           (zk_node p z = None ∧ zk_node p z' = Some (d, zk_session z))
    end;
  law_get : ∀ p z, let '(r, z') := zk_get p z in
    zk_session z' = zk_session z ∧ (∀ q, zk_node q z' = zk_node q z) ∧
    match r with
    | ZOk v => zk_node p z = Some v
    | ZNoNode => zk_node p z = None
    | _ => True
    end;
  law_set : ∀ p d z, let '(r, z') := zk_set p d z in
    zk_frame p z z' ∧
    match r with
    | ZOk _ => ∃ d0 o, zk_node p z = Some (d0, o) ∧ zk_node p z' = Some (d, o)
    | _ => zk_node p z' = zk_node p z ∨
           ∃ d0 o, zk_node p z = Some (d0, o) ∧ zk_node p z' = Some (d, o)
    end;
  law_stop : ∀ z q, zk_node q (zk_stop z) =
    match zk_node q z with
    | Some (d, o) => if decide (o = zk_session z) then None else Some (d, o)
    | None => None
    end;
}.

Definition WORKERS_PATH : string := "/inference/workers".

Definition worker_path (worker_id : Z) : string :=
  (WORKERS_PATH +:+ "/worker-" +:+ pretty worker_id)%string.

Definition state_name (s : worker_state) : string :=
  match s with READY => "READY" | DRAINING => "DRAINING" end.

(** ** [WorkerRegistry] *)

Record registry := mkRegistry {
  reg_worker_id : option Z;
  reg_address : option string;
  reg_session : option Z;            (* _registered_session *)
  reg_stop : bool;
  reg_state : worker_state;
}.

Definition registry_init : registry := mkRegistry None None None false READY.

Section registry.
Context {Zk : Type} `{ZooKeeper Zk}.
Context (json_dumps : pyval → string).

(** [json.dumps({"address": ..., "state": ...})]. *)
Definition registration_value (r : registry) : pyval :=
  PyDict [("address", opt_val PyStr (reg_address r));
          ("state", PyStr (state_name (reg_state r)))]%string.

Definition registration_data (r : registry) : string := json_dumps (registration_value r).

Definition with_session (s : option Z) (r : registry) : registry :=
  mkRegistry (reg_worker_id r) (reg_address r) s (reg_stop r) (reg_state r).

(** [_ensure_registered]: [true], or [false] for the [KazooException] it raises. *)
Definition ensure_registered (r : registry) (z : Zk) : bool * registry * Zk :=
  let path := worker_path (default 0 (reg_worker_id r)) in
  let session := zk_session z in
  let data := registration_data r in
  let '(e, z) := zk_ensure_path WORKERS_PATH z in
  match e with
  | ZOk _ =>
      let '(c, z) := zk_create path data z in
      match c with
      | ZOk _ => (true, with_session (Some session) r, z)
      | ZNodeExists =>
          let '(g, z) := zk_get path z in
          match g with
          | ZOk (current, owner) =>
              if bool_decide (owner = session) then
                if bool_decide (current = data) then (true, with_session (Some session) r, z)
                else
                  let '(s, z) := zk_set path data z in
                  match s with
                  | ZOk _ => (true, with_session (Some session) r, z)
                  | _ => (false, r, z)
                  end
              else (false, r, z)
          | _ => (false, r, z)
          end
      | _ => (false, r, z)
      end
  | _ => (false, r, z)
  end.

(** [register]; [None] is the [RuntimeError] of a closed registry.  A conflict or
    failure is left to the recovery loop. *)
Definition register (worker_id : Z) (address : string) (r : registry) (z : Zk)
    : option (registry * Zk) :=
  if reg_stop r then None
  else
    let r := mkRegistry (Some worker_id) (Some address) (reg_session r) (reg_stop r) (reg_state r) in
    let '(ok, r, z) := ensure_registered r z in
    Some (if ok then r else with_session None r, z).

(** [set_state]; [inr] is an exception, with the state already changed unless the
    registry was closed. *)
Definition set_state (s : worker_state) (r : registry) (z : Zk) : bool * registry * Zk :=
  if reg_stop r then (false, r, z)
  else
    ensure_registered
      (mkRegistry (reg_worker_id r) (reg_address r) (reg_session r) (reg_stop r) s) z.

(** One turn of [_registration_loop], after the wait returned [changed]. *)
Definition registration_turn (changed : bool) (r : registry) (z : Zk) : registry * Zk :=
  if reg_stop r || negb (zk_connected z) then (r, z)
  else
    match reg_worker_id r with
    | None => (r, z)
    | Some _ =>
        if negb changed && bool_decide (reg_session r = Some (zk_session z)) then (r, z)
        else
          let '(ok, r, z) := ensure_registered r z in
          (if ok then r else with_session None r, z)
    end.

(** [deregister]. *)
Definition deregister (r : registry) (z : Zk) : registry * Zk :=
  if reg_stop r then (r, z)
  else (mkRegistry (reg_worker_id r) (reg_address r) (reg_session r) true (reg_state r), zk_stop z).
End registry.

(** ** [WorkerDiscovery] *)

(** The last complete snapshot, the last one published, the paths watched. *)
Record discovery := mkDiscovery {
  disc_workers : list (string * WorkerInfo);
  disc_published : option (list (string * WorkerInfo));
  disc_watched : list string;
  disc_stop : bool;
}.

Definition discovery_init : discovery := mkDiscovery [] None [] false.

Definition parse_state (v : pyval) : option worker_state :=
  match v with
  | PyStr s => if bool_decide (s = "READY"%string) then Some READY
               else if bool_decide (s = "DRAINING"%string) then Some DRAINING else None
  | _ => None
  end.

(** Equality of dicts: the same keys with the same values, in any order. *)
Definition dict_eqb (d1 d2 : list (string * WorkerInfo)) : bool :=
  bool_decide (length d1 = length d2) &&
  forallb (λ '(k, i), match dict_lookup d2 k with
                      | Some j => bool_decide (wi_address i = wi_address j)
                                  && bool_decide (wi_state i = wi_state j)
                      | None => false end) d1.

Section discovery.
Context {Zk : Type} `{ZooKeeper Zk}.
Context (json_loads : string → pyval + string).

(** [_parse_worker]; [None] is any exception it raises. *)
Definition parse_worker (data : string) : option WorkerInfo :=
  let text := py_strip data in
  let fields :=
    if String.prefix "{" text then
      match json_loads text with
      | inl (PyDict d) => a ← dict_lookup d "address"; s ← dict_lookup d "state"; Some (a, s)
      | _ => None
      end
    else Some (PyStr text, PyStr "READY") in
  '(address, state) ← fields;
  match address with
  | PyStr a =>
      if decide (a = EmptyString) then None
      else s ← parse_state state; Some (mkWorkerInfo a s)
  | _ => None
  end.

(** [_read_workers]: [None] when a read fails or a node cannot be parsed. *)
Fixpoint read_workers (children : list string) (z : Zk)
    : option (list (string * WorkerInfo)) * Zk :=
  match children with
  | [] => (Some [], z)
  | c :: children' =>
      let '(g, z) := zk_get (WORKERS_PATH +:+ "/" +:+ c)%string z in
      match g with
      | ZNoNode => read_workers children' z
      | ZOk (data, _) =>
          match parse_worker data with
          | None => (None, z)
          | Some info =>
              let '(rest, z) := read_workers children' z in
              (ws ← rest; Some ((c, info) :: ws), z)
          end
      | _ => (None, z)
      end
  end.

(** [_refresh_workers], with [on_change] as a function that may raise ([false]).
    The result: whether it returned normally, and the snapshot it handed over. *)
Definition refresh_workers (on_change : list (string * WorkerInfo) → bool) (d : discovery) (z : Zk)
    : bool * option (list (string * WorkerInfo)) * discovery * Zk :=
  let '(cs, z) := zk_children WORKERS_PATH z in
  match cs with
  | ZOk children =>
      let watched := disc_watched d ++ filter (λ c, c ∉ disc_watched d) children in
      let d := mkDiscovery (disc_workers d) (disc_published d) watched (disc_stop d) in
      let '(ws, z) := read_workers children z in
      match ws with
      | None => (false, None, d, z)
      | Some workers =>
          let d := mkDiscovery workers (disc_published d) watched (disc_stop d) in
          if match disc_published d with Some p => dict_eqb workers p | None => false end
          then (true, None, d, z)
          else if on_change workers
               then (true, Some workers, mkDiscovery workers (Some workers) watched (disc_stop d), z)
               else (false, Some workers, d, z)
      end
  | _ => (false, None, d, z)
  end.

(** One turn of [_refresh_loop]: an exception is logged and the turn repeated. *)
Definition refresh_turn (on_change : list (string * WorkerInfo) → bool) (d : discovery) (z : Zk)
    : option (list (string * WorkerInfo)) * discovery * Zk :=
  if disc_stop d then (None, d, z)
  else
    let '(_, handed, d, z) := refresh_workers on_change d z in (handed, d, z).
End discovery.
