(* ===== verification/RegistryFacts.v ===== *)
(** Properties of registration and discovery: a worker never touches a node of
    another session, a registration that succeeds is in force, what a worker
    registers is what the gateway reads, and the gateway publishes complete,
    changed snapshots only. *)
From stdpp Require Import pretty.
From S2P Require Import Prelude PyVal Tasks GrpcWorker World GrpcPool Registry.

Section facts.
Context {Zk : Type} `{ZooKeeper Zk, !ZooKeeperLaws Zk WORKERS_PATH}.
Context (dumps : pyval → string) (loads : string → pyval + string).

(** ** Registration *)

(** Nodes of other sessions are as they were. *)
Definition foreign_kept (z z' : Zk) : Prop :=
  ∀ q d o, q ≠ WORKERS_PATH → o ≠ zk_session z → zk_node q z = Some (d, o) →
    zk_node q z' = Some (d, o).

Lemma foreign_refl z : foreign_kept z z.
Proof. intros q d o _ _ Hn. exact Hn. Qed.

Lemma worker_path_not_root n : worker_path n ≠ WORKERS_PATH.
Proof.
  unfold worker_path, WORKERS_PATH. intros E. simpl in E. discriminate E.
Qed.

(** What [_ensure_registered] may do to the nodes: nothing to a foreign one, and on
    success its own node holds the registration under this session. *)
Lemma ensure_registered_spec r z :
  let '(ok, r', z') := ensure_registered dumps r z in
  let path := worker_path (default 0 (reg_worker_id r)) in
  zk_session z' = zk_session z ∧ foreign_kept z z' ∧
  (reg_worker_id r', reg_address r', reg_state r', reg_stop r')
    = (reg_worker_id r, reg_address r, reg_state r, reg_stop r) ∧
  (ok = true → reg_session r' = Some (zk_session z) ∧
     zk_node path z' = Some (registration_data dumps r, zk_session z)).
Proof.
  unfold ensure_registered. set (path := worker_path _). set (data := registration_data dumps r).
  assert (path ≠ WORKERS_PATH) as Hpath by apply worker_path_not_root.
  pose proof (law_ensure z) as L1. destruct (zk_ensure_path WORKERS_PATH z) as [e z1].
  destruct L1 as [Es1 En1].
  assert (foreign_kept z z1) as F1.
  { intros q d o Hq Ho Hn. by rewrite En1. }
  destruct e; [|done..].
  pose proof (law_create path data z1) as L2. destruct (zk_create path data z1) as [c z2].
  destruct L2 as [[Es2 En2] Lc].
  assert (zk_session z2 = zk_session z) as Es12 by congruence.
  assert (zk_node path z2 = zk_node path z1 ∨ zk_node path z1 = None → foreign_kept z z2) as F2.
  { intros Hp q d o Hq Ho Hn. destruct (decide (q = path)) as [->|Hne].
    - rewrite <- En1 in Hn by done. destruct Hp as [->| ?]; [done|congruence].
    - rewrite En2, En1; done. }
  destruct c.
  - destruct Lc as [Hn1 Hn2]. split_and!; [done|by apply F2; right|done|].
    intros _. simpl. by rewrite Hn2, Es1.
  - destruct Lc as [Hsome Hn2].
    pose proof (law_get path z2) as L3. destruct (zk_get path z2) as [g z3].
    destruct L3 as (Es3 & En3 & Lg).
    assert (foreign_kept z z3) as F3.
    { intros q d o Hq Ho Hn. rewrite En3. apply F2; auto. }
    destruct g as [[current owner]| | |]; [|split_and!; (done || congruence)..].
    destruct (bool_decide (owner = zk_session z)) eqn:Eo.
    2:{ split_and!; (done || congruence). }
    apply bool_decide_eq_true in Eo as ->.
    destruct (bool_decide (current = data)) eqn:Ed.
    + apply bool_decide_eq_true in Ed as ->. split_and!; [congruence|done|done|].
      intros _. simpl. by rewrite En3, Lg.
    + pose proof (law_set path data z3) as L4. destruct (zk_set path data z3) as [s z4].
      destruct L4 as [[Es4 En4] Ls].
      assert (foreign_kept z z4) as F4.
      { intros q d o Hq Ho Hn. destruct (decide (q = path)) as [->|Hne].
        - pose proof (F3 path d o Hq Ho Hn) as Hp. rewrite En3, Lg in Hp. congruence.
        - rewrite En4 by done. by apply F3. }
      destruct s; (split_and!; [congruence|done|done|]); try done.
      intros _. simpl. split; [done|]. destruct Ls as (d0 & o & Hn3 & ->).
      rewrite En3, Lg in Hn3. by simplify_eq.
  - split_and!; [done| |done|done]. apply F2. destruct Lc as [?|[? _]]; auto.
  - split_and!; [done| |done|done]. apply F2. destruct Lc as [?|[? _]]; auto.
Qed.

(** The methods of a registry, as one step. *)
Inductive registry_call := CRegister (worker_id : Z) (address : string)
  | CSetState (s : worker_state) | CTurn (changed : bool) | CDeregister.

Definition registry_step (c : registry_call) (r : registry) (z : Zk) : registry * Zk :=
  match c with
  | CRegister n a => match register dumps n a r z with Some rz => rz | None => (r, z) end
  | CSetState s => let '(_, r, z) := set_state dumps s r z in (r, z)
  | CTurn changed => registration_turn dumps changed r z
  | CDeregister => deregister r z
  end.

(** A worker process never takes over another's identity: whatever method is
    called, every node that belongs to another session is left exactly as it was;
    once closed, the registry does nothing at all; and if the registry records a
    registration for the present session after a step that had none, its node is in
    ZooKeeper under this session with the present address and state. *)
Theorem registration_respects_ownership (c : registry_call) (r : registry) (z : Zk) :
  let '(r', z') := registry_step c r z in
  foreign_kept z z' ∧
  (reg_stop r = true → (r', z') = (r, z)) ∧
  (reg_session r ≠ Some (zk_session z) → reg_session r' = Some (zk_session z) →
   zk_node (worker_path (default 0 (reg_worker_id r'))) z'
     = Some (registration_data dumps r', zk_session z)).
Proof.
  assert (∀ r0 : registry, reg_session r0 ≠ Some (zk_session z) →
    let '(ok, r', z') := ensure_registered dumps r0 z in
    reg_session r' = Some (zk_session z) → ok = true) as Hok.
  { intros r0 Hr0. unfold ensure_registered. repeat (case_match; simplify_eq/=; try done). }
  assert (∀ r0, let '(ok, r', z') := ensure_registered dumps r0 z in
    registration_data dumps r' = registration_data dumps r0 ∧ reg_worker_id r' = reg_worker_id r0) as Hd.
  { intros r0. pose proof (ensure_registered_spec r0 z) as H1.
    destruct (ensure_registered dumps r0 z) as [[ok r'] z']. destruct H1 as (_ & _ & E & _).
    injection E as -> Ea Est _. unfold registration_data, registration_value. by rewrite Ea, Est. }
  destruct c as [n a|s|changed|]; simpl.
  - unfold register. destruct (reg_stop r) eqn:Estop; [by split_and!; [apply foreign_refl|..]|].
    set (r0 := mkRegistry _ _ _ _ _). pose proof (ensure_registered_spec r0 z) as H1.
    specialize (Hok r0). specialize (Hd r0).
    destruct (ensure_registered dumps r0 z) as [[ok r'] z']. destruct H1 as (_ & HF & _ & Hs).
    split_and!; [done|done|]. intros Hne Hses. destruct ok; [|done].
    destruct (Hs eq_refl) as [_ Hn]. destruct Hd as [-> ->]. done.
  - unfold set_state. destruct (reg_stop r) eqn:Estop; [by split_and!; [apply foreign_refl|..]|].
    set (r0 := mkRegistry _ _ _ _ _). pose proof (ensure_registered_spec r0 z) as H1.
    specialize (Hok r0). specialize (Hd r0).
    destruct (ensure_registered dumps r0 z) as [[ok r'] z']. destruct H1 as (_ & HF & _ & Hs).
    split_and!; [done|done|]. intros Hne Hses. destruct (Hs (Hok Hne Hses)) as [_ Hn].
    destruct Hd as [-> ->]. done.
  - unfold registration_turn. destruct (reg_stop r) eqn:Estop; simpl; [by split_and!; [apply foreign_refl|..]|].
    destruct (zk_connected z); simpl; [|by split_and!; [apply foreign_refl|..]].
    destruct (reg_worker_id r) as [n|] eqn:En; [|by split_and!; [apply foreign_refl|..]].
    destruct (negb changed && _); [by split_and!; [apply foreign_refl|..]|].
    pose proof (ensure_registered_spec r z) as H1. specialize (Hd r).
    destruct (ensure_registered dumps r z) as [[ok r'] z']. destruct H1 as (_ & HF & _ & Hs).
    split_and!; [done|done|]. intros Hne Hses. destruct ok; [|done].
    destruct (Hs eq_refl) as [_ Hn]. destruct Hd as [-> ->]. done.
  - unfold deregister. destruct (reg_stop r) eqn:Estop; [by split_and!; [apply foreign_refl|..]|].
    split_and!; [|done|done]. intros q d o Hq Ho Hn. rewrite law_stop, Hn.
    by rewrite decide_False.
Qed.

(** ** Discovery *)

(** The nodes under the workers' path as the gateway should see them. *)
Definition child_node (c : string) (z : Zk) : option (string * Z) :=
  zk_node (WORKERS_PATH +:+ "/" +:+ c)%string z.

Lemma read_workers_spec children z :
  let '(ws, z') := read_workers loads children z in
  (∀ q, zk_node q z' = zk_node q z) ∧
  match ws with
  | Some W =>
      dict_keys W = filter (λ c, is_Some (child_node c z)) children ∧
      ∀ c info, (c, info) ∈ W →
        ∃ data o, child_node c z = Some (data, o) ∧ parse_worker loads data = Some info
  | None => True
  end.
Proof.
  revert z. induction children as [|c children IH]; intros z; simpl.
  { split_and!; [done|done|]. by intros ? ? ?%not_elem_of_nil. }
  pose proof (law_get (WORKERS_PATH +:+ "/" +:+ c)%string z) as L.
  destruct (zk_get (WORKERS_PATH +:+ "/" +:+ c)%string z) as [g z1].
  destruct L as (_ & En & Lg). fold (child_node c z) in Lg.
  specialize (IH z1). assert (∀ c, child_node c z1 = child_node c z) as Ec.
  { intros x. apply En. }
  assert (filter (λ c, is_Some (child_node c z1)) children
          = filter (λ c, is_Some (child_node c z)) children) as Ef.
  { apply list_filter_iff. intros x. by rewrite Ec. }
  destruct g as [[data o]| | |]; [|done|..].
  - destruct (parse_worker loads data) as [info|] eqn:Ep; [|done].
    destruct (read_workers loads children z1) as [[W|] z2]; simpl;
      destruct IH as [En2 IH]; (split; [intros q; by rewrite En2|]); [|done].
    destruct IH as [Hk Hw]. rewrite filter_cons, decide_True by (rewrite Lg; by eexists).
    split; [unfold dict_keys in *; simpl; by rewrite Hk, Ef|].
    intros c' info' [[= -> ->]|Hin]%elem_of_cons; [eauto|].
    destruct (Hw c' info' Hin) as (d' & o' & Hn & ?). rewrite Ec in Hn. eauto.
  - destruct (read_workers loads children z1) as [[W|] z2];
      destruct IH as [En2 IH]; (split; [intros q; by rewrite En2|]); [|done].
    destruct IH as [Hk Hw]. rewrite filter_cons, decide_False by (rewrite Lg; by intros []).
    split; [by rewrite Hk, Ef|]. intros c' info' Hin.
    destruct (Hw c' info' Hin) as (d' & o' & Hn & ?). rewrite Ec in Hn. eauto.
  - done.
Qed.

(** Discovery hands over complete, changed snapshots only.  A refresh that cannot
    list, read or parse every node hands nothing over and retains the last snapshot;
    otherwise the snapshot has exactly the listed workers whose nodes still exist,
    each with the address and state its node announces; it is handed to the pool
    exactly when it differs from the last one the pool accepted, and a pool that
    raised will be offered the snapshot again. *)
Theorem refresh_publishes_complete_snapshots (on_change : list (string * WorkerInfo) → bool)
    (d : discovery) (z : Zk) :
  let '(ok, handed, d', z') := refresh_workers loads on_change d z in
  let '(cs, z1) := zk_children WORKERS_PATH z in
  (handed = None → ok = false →
     disc_workers d' = disc_workers d ∧ disc_published d' = disc_published d) ∧
  (ok = true ∨ handed ≠ None → ∃ children, cs = ZOk children ∧
     dict_keys (disc_workers d') = filter (λ c, is_Some (child_node c z1)) children ∧
     (∀ c info, (c, info) ∈ disc_workers d' → ∃ data o, child_node c z1 = Some (data, o) ∧
        parse_worker loads data = Some info)) ∧
  (∀ W, handed = Some W → W = disc_workers d' ∧ ok = on_change W ∧
     (∀ p, disc_published d = Some p → dict_eqb W p = false) ∧
     disc_published d' = if ok then Some W else disc_published d) ∧
  (handed = None → ok = true → ∃ p, disc_published d' = disc_published d ∧
     disc_published d = Some p ∧ dict_eqb (disc_workers d') p = true).
Proof.
  unfold refresh_workers. destruct (zk_children WORKERS_PATH z) as [cs z1].
  destruct cs as [children| | |]; simpl.
  2-4: split_and!; [done|by intros [?|?]|done|done].
  pose proof (read_workers_spec children z1) as Hr.
  destruct (read_workers loads children z1) as [[W|] z2]; simpl.
  2:{ split_and!; [done|by intros [?|?]|done|done]. }
  destruct Hr as (_ & Hk & Hw).
  destruct (match disc_published d with Some p => dict_eqb W p | None => false end) eqn:Ep; simpl.
  - destruct (disc_published d) as [p|]; [|done]. split_and!; try done; eauto.
  - destruct (on_change W) eqn:Eo; simpl; (split_and!; [done|eauto| |done]);
      intros W' [= <-]; split_and!; try done; intros p Hp; by rewrite Hp in Ep.
Qed.

(** What a worker registers is what the gateway learns: if the codec reads back
    the object it wrote, and wrote it as text without outer white space that starts
    with a brace, then parsing the registration gives the worker's address and
    state. *)
Theorem registration_roundtrip (r : registry) (a : string) :
  let text := dumps (registration_value r) in
  loads text = inl (registration_value r) → String.prefix "{" text = true →
  py_strip text = text → reg_address r = Some a → a ≠ EmptyString →
  parse_worker loads (registration_data dumps r) = Some (mkWorkerInfo a (reg_state r)).
Proof.
  intros text Hinv Hp Hs Ha Hne. unfold parse_worker, registration_data. fold text.
  rewrite Hs, Hp, Hinv. simpl. rewrite Ha. simpl. rewrite decide_False by done.
  by destruct (reg_state r).
Qed.
End facts.

(** ** A concrete ZooKeeper: a map of nodes and this client's session. *)

Record zk_model := mkZk { zm_session : Z; zm_nodes : gmap string (string * Z) }.

#[export] Instance zk_model_api : ZooKeeper zk_model := {|
  zk_session := zm_session;
  zk_connected _ := true;
  zk_node p z := zm_nodes z !! p;
  zk_ensure_path p z := (ZOk tt, z);
  zk_create p d z :=
    match zm_nodes z !! p with
    | Some _ => (ZNodeExists, z)
    | None => (ZOk tt, mkZk (zm_session z) (<[p := (d, zm_session z)]> (zm_nodes z)))
    end;
  zk_get p z := (match zm_nodes z !! p with Some v => ZOk v | None => ZNoNode end, z);
  zk_set p d z :=
    match zm_nodes z !! p with
    | Some (_, o) => (ZOk tt, mkZk (zm_session z) (<[p := (d, o)]> (zm_nodes z)))
    | None => (ZNoNode, z)
    end;
  zk_children p z := (ZOk ["worker-1"%string], z);
  zk_stop z := mkZk (zm_session z) (filter (λ '(_, (_, o)), o ≠ zm_session z) (zm_nodes z));
|}.

#[export] Instance zk_model_laws : ZooKeeperLaws zk_model WORKERS_PATH.
Proof.
  constructor.
  - done.
  - intros p d z. simpl. destruct (zm_nodes z !! p) as [v|] eqn:E.
    + split; [done|]. split; [by eexists|done].
    + simpl. split; [|by rewrite lookup_insert_eq]. split; [done|]. intros q Hq. simpl.
      by rewrite lookup_insert_ne.
  - intros p z. simpl. split_and!; try done. by destruct (zm_nodes z !! p).
  - intros p d z. simpl. destruct (zm_nodes z !! p) as [[d0 o]|] eqn:E.
    + simpl. split.
      * split; [done|]. intros q Hq. simpl. by rewrite lookup_insert_ne.
      * exists d0, o. by rewrite lookup_insert_eq.
    + split; [done|]. by left.
  - intros z q. simpl. rewrite map_lookup_filter. destruct (zm_nodes z !! q) as [[d o]|]; simpl; [|done].
    destruct (decide (o = zm_session z)) as [->|Hne].
    + by rewrite option_guard_False by (intros Hn; by apply Hn).
    + by rewrite option_guard_True.
Qed.

Definition sample_zk : zk_model := mkZk 7 {[ "/inference/workers/worker-1"%string := ("h1:1"%string, 9) ]}.

Lemma registration_respects_ownership_witness :
  zk_node "/inference/workers/worker-1"%string
    (registry_step (λ _, "{}"%string) (CRegister 1 "h2:2") registry_init sample_zk).2
  = Some ("h1:1"%string, 9).
Proof.
  pose proof (registration_respects_ownership (λ _, "{}"%string) (CRegister 1 "h2:2") registry_init
    sample_zk) as H.
  destruct (registry_step _ _ _ _) as [r' z']. destruct H as [HF _].
  apply HF; [done|simpl; lia|reflexivity].
Defined.

Lemma refresh_publishes_complete_snapshots_witness :
  let '(ok, handed, d', z') := refresh_workers (λ _, inr "x"%string) (λ _, true) discovery_init sample_zk in
  ∀ W, handed = Some W → W = disc_workers d'.
Proof.
  pose proof (refresh_publishes_complete_snapshots (λ _, inr "x"%string) (λ _, true) discovery_init
    sample_zk) as H.
  destruct (refresh_workers _ _ _ _) as [[[ok handed] d'] z'].
  destruct (zk_children _ _) as [cs z1]. destruct H as (_ & _ & H & _).
  intros W HW. apply (H W HW).
Defined.

(** A codec that is right on one registration. *)
Definition sample_text : string := "{address: h1:1, state: DRAINING}".
Definition sample_registry : registry :=
  mkRegistry (Some 1) (Some "h1:1"%string) None false DRAINING.

Lemma registration_roundtrip_witness :
  parse_worker (λ _, inl (registration_value sample_registry))
    (registration_data (λ _, sample_text) sample_registry)
  = Some (mkWorkerInfo "h1:1" DRAINING).
Proof.
  apply (registration_roundtrip (λ _, sample_text) (λ _, inl (registration_value sample_registry))
    sample_registry "h1:1"); [reflexivity..|discriminate].
Defined.

(** Legacy nodes hold the bare address. *)
Example legacy_parse : parse_worker (λ _, inr "x"%string) " h1:1 " = Some (mkWorkerInfo "h1:1" READY).
Proof. vm_compute. reflexivity. Qed.
