(* ===== verification/DiscoveryLoop.v ===== *)
(** The refresh thread of [WorkerDiscovery] in [src/system/zookeeper_registry.py], one
    ZooKeeper call at a time, while nodes change, notifications arrive late and calls fail.
    [Registry] has the same refresh as one function; here the registry may change between
    its reads, and what is proved is that no change is lost. *)
From S2P Require Import Prelude PyVal Tasks GrpcWorker World GrpcPool GrpcPoolFacts GrpcRouting Registry.

(** ** State *)

(** Where the thread is: waiting for [_wakeup], about to list the children, installing
    watches (the children, those left), reading (the children, those left, what was read),
    about to publish, waiting to retry after a failure, ended. *)
Inductive disc_pc :=
| DWait
| DList
| DWatch (children todo : list string)
| DRead (children todo : list string) (acc : list (string * WorkerInfo))
| DPublish (acc : list (string * WorkerInfo))
| DRetry
| DEnded.

(** [dl_nodes] are the worker nodes in ZooKeeper; [dl_notes] says that a watch has fired
    and its callback has not run yet. *)
Record disc_state := mkDisc {
  dl_nodes : gmap string string;
  dl_notes : bool;
  dl_wakeup : bool;
  dl_stop : bool;
  dl_watched : list string;
  dl_workers : list (string * WorkerInfo);
  dl_published : option (list (string * WorkerInfo));
  dl_pc : disc_pc;
}.

(** The constructor has installed the children watch and starts its first refresh. *)
Definition disc_loop_init (nodes : gmap string string) : disc_state :=
  mkDisc nodes false false false [] [] None DList.

Definition at_pc (pc : disc_pc) (s : disc_state) : disc_state :=
  mkDisc (dl_nodes s) (dl_notes s) (dl_wakeup s) (dl_stop s) (dl_watched s) (dl_workers s) (dl_published s) pc.

Definition set_signals (notes wakeup : bool) (s : disc_state) : disc_state :=
  mkDisc (dl_nodes s) notes wakeup (dl_stop s) (dl_watched s) (dl_workers s) (dl_published s) (dl_pc s).

(** What the thread observes in a step: the order in which [get_children] lists the nodes,
    whether the call succeeds, whether [on_change] returns. *)
Record disc_obs := mkDiscObs { ob_order : list string; ob_ok : bool; ob_accepts : bool }.

(** A node is written, created or deleted; a callback runs ([more]: others are still to
    come); a reconnection or the first call of a new watch wakes the thread; [stop]; the
    thread moves. *)
Inductive disc_event :=
| DEChange (name : string) (data : option string)
| DENotify (more : bool)
| DEWake
| DEStop
| DEThread (o : disc_obs).

Section loop.
Context (json_loads : string → pyval + string).

(** The watch on the children fires when the set of nodes changes; the watch on a path
    when its data changes, deletion included. *)
Definition watch_fires (name : string) (data : option string) (s : disc_state) : bool :=
  let old := dl_nodes s !! name in
  negb (bool_decide (old = data)) &&
  (negb (bool_decide (is_Some old ↔ is_Some data)) || bool_decide (name ∈ dl_watched s)).

Definition node_change (name : string) (data : option string) (s : disc_state) : disc_state :=
  mkDisc (partial_alter (λ _, data) name (dl_nodes s)) (dl_notes s || watch_fires name data s)
    (dl_wakeup s) (dl_stop s) (dl_watched s) (dl_workers s) (dl_published s) (dl_pc s).

(** ** One step of [_refresh_loop] and [_refresh_workers] *)
Definition disc_thread_step (o : disc_obs) (s : disc_state) : option disc_state :=
  match dl_pc s with
  | DWait =>
      if dl_wakeup s then
        Some (at_pc (if dl_stop s then DEnded else DList) (set_signals (dl_notes s) false s))
      else None
  | DList =>
      if ob_ok o then
        if bool_decide (NoDup (ob_order o)) && bool_decide (list_to_set (ob_order o) = dom (dl_nodes s))
        then Some (at_pc (DWatch (ob_order o) (ob_order o)) s) else None
      else Some (at_pc DRetry s)
  | DWatch children [] => Some (at_pc (DRead children children []) s)
  | DWatch children (c :: todo) =>
      if dl_stop s then Some (at_pc DWait s)
      else if bool_decide (c ∈ dl_watched s) then Some (at_pc (DWatch children todo) s)
      else if ob_ok o then
        Some (mkDisc (dl_nodes s) (dl_notes s) (dl_wakeup s) (dl_stop s) (c :: dl_watched s)
                (dl_workers s) (dl_published s) (DWatch children todo))
      else Some (at_pc DRetry s)
  | DRead children [] acc => Some (at_pc (DPublish acc) s)
  | DRead children (c :: todo) acc =>
      if ob_ok o then
        match dl_nodes s !! c with
        | None => Some (at_pc (DRead children todo acc) s)
        | Some data =>
            match parse_worker json_loads data with
            | None => Some (at_pc DRetry s)
            | Some info => Some (at_pc (DRead children todo (acc ++ [(c, info)])) s)
            end
        end
      else Some (at_pc DRetry s)
  | DPublish acc =>
      if dl_stop s then Some (at_pc DWait s)
      else
        let s := mkDisc (dl_nodes s) (dl_notes s) (dl_wakeup s) (dl_stop s) (dl_watched s) acc
                   (dl_published s) (dl_pc s) in
        if match dl_published s with Some p => dict_eqb acc p | None => false end
        then Some (at_pc DWait s)
        else if ob_accepts o then
          Some (mkDisc (dl_nodes s) (dl_notes s) (dl_wakeup s) (dl_stop s) (dl_watched s) acc
                  (Some acc) DWait)
        else Some (at_pc DRetry s)
  | DRetry => Some (at_pc DWait (if dl_stop s then s else set_signals (dl_notes s) true s))
  | DEnded => None
  end.

(** [stop]. *)
Definition disc_stop_loop (s : disc_state) : disc_state :=
  if dl_stop s then s
  else mkDisc (dl_nodes s) (dl_notes s) true true (dl_watched s) (dl_workers s) (dl_published s) (dl_pc s).

(** [get_workers]. *)
Definition get_workers (s : disc_state) : list (string * WorkerInfo) := dl_workers s.

Definition disc_step (e : disc_event) (s : disc_state) : option disc_state :=
  match e with
  | DEChange name data => Some (node_change name data s)
  | DENotify more => if dl_notes s then Some (set_signals more (dl_wakeup s || negb (dl_stop s)) s) else None
  | DEWake => Some (if dl_stop s then s else set_signals (dl_notes s) true s)
  | DEStop => Some (disc_stop_loop s)
  | DEThread o => disc_thread_step o s
  end.

Fixpoint disc_run (es : list disc_event) (s : disc_state) : option disc_state :=
  match es with
  | [] => Some s
  | e :: es' => s' ← disc_step e s; disc_run es' s'
  end.

(** ** No change is lost *)

(** The metadata the registry holds for a node now. *)
Definition node_info (nodes : gmap string string) (c : string) : option WorkerInfo :=
  nodes !! c ≫= parse_worker json_loads.

(** Something will start another refresh. *)
Definition signalled (s : disc_state) : Prop :=
  dl_notes s = true ∨ dl_wakeup s = true ∨ dl_pc s = DList ∨ dl_pc s = DRetry.

(** [d] is a complete and current reading of the nodes [cs]. *)
Definition reads_nodes (nodes : gmap string string) (cs : list string) (d : list (string * WorkerInfo)) : Prop :=
  (∀ c, c ∈ cs → is_Some (node_info nodes c) ∧ dict_lookup d c = node_info nodes c) ∧
  (∀ c, c ∉ cs → dict_lookup d c = None).

Definition lists_nodes (nodes : gmap string string) (cs : list string) : Prop :=
  ∀ c, c ∈ cs ↔ is_Some (nodes !! c).

Definition pc_ok (s : disc_state) : Prop :=
  match dl_pc s with
  | DWait => ∃ cs, lists_nodes (dl_nodes s) cs ∧ cs ⊆ dl_watched s ∧
      reads_nodes (dl_nodes s) cs (dl_workers s) ∧
      ∃ p, dl_published s = Some p ∧ ∀ c, dict_lookup p c = dict_lookup (dl_workers s) c
  | DWatch children todo => lists_nodes (dl_nodes s) children ∧ NoDup children ∧
      ∃ done, children = done ++ todo ∧ done ⊆ dl_watched s
  | DRead children todo acc => lists_nodes (dl_nodes s) children ∧ NoDup children ∧
      children ⊆ dl_watched s ∧ ∃ done, children = done ++ todo ∧ reads_nodes (dl_nodes s) done acc
  | DPublish acc => ∃ cs, lists_nodes (dl_nodes s) cs ∧ cs ⊆ dl_watched s ∧ reads_nodes (dl_nodes s) cs acc
  | _ => True
  end.

(** Either a refresh is due, or what the thread has read so far is current. *)
Definition disc_inv (s : disc_state) : Prop := dl_stop s = false → signalled s ∨ pc_ok s.

(** Snapshots have one entry per node, whatever happens. *)
Definition disc_wf (s : disc_state) : Prop :=
  NoDup (dict_keys (dl_workers s)) ∧
  (∀ p, dl_published s = Some p → NoDup (dict_keys p)) ∧
  match dl_pc s with
  | DWatch children _ => NoDup children
  | DRead children todo acc => NoDup children ∧
      ∃ done, children = done ++ todo ∧ dict_keys acc `sublist_of` done
  | DPublish acc => NoDup (dict_keys acc)
  | _ => True
  end.

Lemma dict_lookup_snoc (d : list (string * WorkerInfo)) c i k :
  dict_lookup (d ++ [(c, i)]) k =
  match dict_lookup d k with Some v => Some v | None => if decide (k = c) then Some i else None end.
Proof using. induction d as [|[j w] d IH]; simpl; [done|]. by destruct (decide (k = j)). Qed.

(** Dicts that compare equal hold the same. *)
Lemma dict_eqb_lookup d1 d2 :
  NoDup (dict_keys d1) → NoDup (dict_keys d2) → dict_eqb d1 d2 = true →
  ∀ k, dict_lookup d2 k = dict_lookup d1 k.
Proof using.
  intros H1 H2. unfold dict_eqb. rewrite andb_true_iff, bool_decide_eq_true, forallb_forall.
  intros [Hlen Hall] k.
  assert (∀ k i, dict_lookup d1 k = Some i → dict_lookup d2 k = Some i) as Hsub.
  { intros k' i Hk. apply dict_lookup_elem in Hk. specialize (Hall (k', i)). rewrite <- list_elem_of_In in Hall.
    specialize (Hall Hk). simpl in Hall. destruct (dict_lookup d2 k') as [[a st]|]; [|done].
    rewrite andb_true_iff, !bool_decide_eq_true in Hall. destruct i, Hall; simpl in *; by subst. }
  destruct (dict_lookup d1 k) as [i|] eqn:E1; [by apply Hsub|].
  apply dict_lookup_None in E1. apply dict_lookup_None. intros Hk. apply E1.
  assert (dict_keys d1 ⊆+ dict_keys d2) as Hs.
  { apply NoDup_submseteq; [done|]. intros x Hx. destruct (dict_lookup d1 x) as [i|] eqn:Ex.
    - apply Hsub, dict_lookup_elem in Ex. apply list_elem_of_fmap. by exists (x, i).
    - by apply dict_lookup_None in Ex. }
  assert (dict_keys d1 ≡ₚ dict_keys d2) as Hp.
  { apply submseteq_length_Permutation; [done|]. unfold dict_keys. rewrite !length_fmap. lia. }
  by rewrite Hp.
Qed.

Lemma node_change_keeps name data s :
  watch_fires name data s = false →
  (∀ c, is_Some (dl_nodes (node_change name data s) !! c) ↔ is_Some (dl_nodes s !! c)) ∧
  (∀ c, c ∈ dl_watched s → dl_nodes (node_change name data s) !! c = dl_nodes s !! c).
Proof using.
  unfold watch_fires. simpl. intros [H|[H1 H2]%orb_false_iff]%andb_false_iff; zbool.
  - assert (∀ c, partial_alter (λ _, data) name (dl_nodes s) !! c = dl_nodes s !! c) as Heq.
    { intros c. destruct (decide (c = name)) as [->|Hc];
        [by rewrite lookup_partial_alter_eq|by rewrite lookup_partial_alter_ne]. }
    split; intros c; [by rewrite Heq|intros _; apply Heq].
  - split; intros c; [|intros Hc]; destruct (decide (c = name)) as [->|Hne];
      rewrite ?lookup_partial_alter_eq, ?lookup_partial_alter_ne by done; try done.
Qed.

Lemma pc_ok_nodes s nodes' :
  (∀ c, is_Some (nodes' !! c) ↔ is_Some (dl_nodes s !! c)) →
  (∀ c, c ∈ dl_watched s → nodes' !! c = dl_nodes s !! c) →
  pc_ok s → ∀ notes wakeup,
  pc_ok (mkDisc nodes' notes wakeup (dl_stop s) (dl_watched s) (dl_workers s) (dl_published s) (dl_pc s)).
Proof using.
  intros Hdom Hw Hok notes wakeup.
  assert (∀ cs, lists_nodes (dl_nodes s) cs → lists_nodes nodes' cs) as Hl.
  { intros cs H c. by rewrite (H c), (Hdom c). }
  assert (∀ cs d, cs ⊆ dl_watched s → reads_nodes (dl_nodes s) cs d → reads_nodes nodes' cs d) as Hr.
  { intros cs d Hsub [H1 H2]. split; [|done]. intros c Hc. unfold node_info.
    rewrite Hw by (by apply Hsub). by apply H1. }
  unfold pc_ok in *. simpl. destruct (dl_pc s); try done.
  - destruct Hok as (cs & H1 & H2 & H3 & H4). exists cs. auto.
  - destruct Hok as (H1 & H2 & H3). auto.
  - destruct Hok as (H1 & H2 & H3 & done & -> & H4). split_and!; auto. exists done. split; [done|].
    apply Hr; [|done]. intros c Hc. apply H3, elem_of_app. by left.
  - destruct Hok as (cs & H1 & H2 & H3). exists cs. auto.
Qed.

Lemma disc_thread_wf o s s' : disc_thread_step o s = Some s' → disc_wf s → disc_wf s'.
Proof using.
  unfold disc_thread_step, disc_wf. intros H (Hw & Hp & Hpc).
  destruct (dl_pc s) as [| |children [|c todo]|children [|c todo] acc|acc| |] eqn:Epc; simplify_eq/=.
  - destruct (dl_wakeup s); [|done]. simplify_eq/=. split_and!; [done..|]. by destruct (dl_stop s).
  - destruct (ob_ok o); [|by simplify_eq/=]. destruct (bool_decide (NoDup _)) eqn:E; simpl in H; [|done].
    case_bool_decide; simplify_eq/=. by zbool.
  - split_and!; try done. exists []. split; [done|]. apply sublist_nil_l.
  - repeat case_match; simplify_eq/=; done.
  - destruct Hpc as (Hnd & done & -> & Hsub). rewrite app_nil_r in Hnd.
    split_and!; try done. by eapply sublist_NoDup.
  - destruct Hpc as (Hnd & done & -> & Hsub).
    destruct (ob_ok o); simplify_eq/=; [|done]. destruct (dl_nodes s !! c) as [data|].
    + destruct (parse_worker json_loads data); simplify_eq/=; [|done]. split_and!; try done.
      exists (done ++ [c]). rewrite <- app_assoc. split; [done|].
      unfold dict_keys. rewrite fmap_app. by apply sublist_app.
    + simplify_eq/=. split_and!; try done. exists (done ++ [c]). rewrite <- app_assoc.
      split; [done|]. by apply sublist_inserts_r.
  - repeat case_match; simplify_eq/=; split_and!; try done; intros ? [= <-]; done.
  - by destruct (dl_stop s).
Qed.

Lemma reads_nodes_snoc nodes cs d c info :
  c ∉ cs → node_info nodes c = Some info → reads_nodes nodes cs d →
  reads_nodes nodes (cs ++ [c]) (d ++ [(c, info)]).
Proof using.
  intros Hc Hi [H1 H2]. split; intros k Hk; rewrite dict_lookup_snoc.
  - apply elem_of_app in Hk as [Hk| ->%list_elem_of_singleton].
    + destruct (H1 k Hk) as [[v Hv] ->]. rewrite Hv. by split.
    + rewrite (H2 c Hc), decide_True by done. rewrite Hi. eauto.
  - rewrite (H2 k), decide_False by set_solver. done.
Qed.

(** The thread moved and a refresh is still due. *)
Ltac still_signalled Hi := left; destruct Hi as [Hi|[Hi|[Hi|Hi]]]; simpl; auto; discriminate Hi.

Lemma disc_thread_inv o s s' :
  disc_thread_step o s = Some s' → disc_wf s → disc_inv s → disc_inv s'.
Proof using.
  intros H Hwf Hinv Hstop. assert (dl_stop s = false) as Hs.
  { revert H Hstop. unfold disc_thread_step. destruct (dl_stop s) eqn:Es; [|done].
    repeat case_match; intros; simplify_eq/=; congruence. }
  specialize (Hinv Hs). unfold disc_thread_step in H. rewrite Hs in H. unfold signalled, pc_ok in *.
  destruct Hwf as (Hw & Hp & Hpc).
  destruct (dl_pc s) as [| |children [|c todo]|children [|c todo] acc|acc| |] eqn:Epc; simplify_eq/=.
  - destruct (dl_wakeup s); simplify_eq/=. auto.
  - destruct (ob_ok o); simplify_eq/=; [|auto]. destruct (bool_decide (NoDup _)) eqn:E1; simpl in H; [|done].
    case_bool_decide as E2; simplify_eq/=. zbool. right. split_and!; [|done|exists []; split; [done|set_solver]].
    intros k. rewrite <- elem_of_dom, <- E2. set_solver.
  - destruct Hinv as [Hi|(H1 & H2 & done & -> & H3)]; [still_signalled Hi|right].
    rewrite app_nil_r in *. split_and!; try done. exists []. split; [done|]. split; [set_solver|done].
  - destruct Hinv as [Hi|(H1 & H2 & done & -> & H3)]; [repeat case_match; simplify_eq/=; still_signalled Hi|].
    repeat case_match; simplify_eq/=; auto; zbool; right; (split_and!; [done..|]);
      exists (done ++ [c]); rewrite <- app_assoc; set_solver.
  - destruct Hinv as [Hi|(H1 & H2 & H3 & done & -> & H4)]; [still_signalled Hi|right].
    rewrite app_nil_r in *. eauto.
  - destruct Hinv as [Hi|(H1 & H2 & H3 & done & -> & H4)]; [repeat case_match; simplify_eq/=; still_signalled Hi|].
    destruct (ob_ok o); simplify_eq/=; [|auto].
    destruct (dl_nodes s !! c) as [data|] eqn:Ec.
    + destruct (parse_worker json_loads data) as [info|] eqn:Ei; simplify_eq/=; [|auto].
      right. split_and!; try done. exists (done ++ [c]). rewrite <- app_assoc. split; [done|].
      apply reads_nodes_snoc; [|unfold node_info; by rewrite Ec|done].
      apply NoDup_app in H2 as (_ & Hd & _). intros Hc. apply (Hd c Hc). by left.
    + exfalso. destruct (proj1 (H1 c)) as [x Hx]; [set_solver|]. congruence.
  - destruct (match dl_published s with Some p => dict_eqb acc p | None => false end) eqn:Ep.
    + destruct (dl_published s) as [p|] eqn:Epub; [|done]. simplify_eq/=.
      destruct Hinv as [Hi|(cs & H1 & H2 & H3)]; [still_signalled Hi|right].
      exists cs. split_and!; try done. exists p. split; [done|]. apply dict_eqb_lookup; auto.
    + destruct (ob_accepts o); simplify_eq/=; [|auto].
      destruct Hinv as [Hi|(cs & H1 & H2 & H3)]; [still_signalled Hi|right]. exists cs. split_and!; eauto.
  - auto.
Qed.

Lemma disc_step_ok e s s' :
  disc_step e s = Some s' → disc_wf s ∧ disc_inv s → disc_wf s' ∧ disc_inv s'.
Proof using.
  intros H [Hwf Hinv]. destruct e as [name data|more| | |o]; simplify_eq/=.
  - split; [exact Hwf|]. intros Hs. destruct (Hinv Hs) as [Hi|Hok].
    { left. unfold signalled in *. simpl. destruct Hi as [->|Hi]; auto. }
    destruct (watch_fires name data s) eqn:Ef.
    { left. left. simpl. by rewrite Ef, orb_true_r. }
    right. destruct (node_change_keeps _ _ _ Ef) as [H1 H2].
    unfold node_change. by apply (pc_ok_nodes s).
  - destruct (dl_notes s) eqn:En; simplify_eq. split; [exact Hwf|]. intros Hs. simpl in Hs. left.
    unfold signalled. simpl. rewrite Hs, orb_true_r. auto.
  - destruct (dl_stop s) eqn:Es; [done|]. split; [exact Hwf|]. intros _. left. right. by left.
  - unfold disc_stop_loop. destruct (dl_stop s) eqn:Es; [done|]. by split.
  - split; [by eapply disc_thread_wf|by eapply disc_thread_inv].
Qed.

Lemma disc_run_ok es s s' : disc_run es s = Some s' → disc_wf s ∧ disc_inv s → disc_wf s' ∧ disc_inv s'.
Proof using.
  revert s. induction es as [|e es IH]; intros s; simpl; [by intros [= <-]|].
  destruct (disc_step e s) as [s1|] eqn:E; simpl; [|done]. eauto using disc_step_ok.
Qed.

Lemma disc_loop_init_ok nodes : disc_wf (disc_loop_init nodes) ∧ disc_inv (disc_loop_init nodes).
Proof using.
  split; [split_and!; [constructor|done|done]|]. intros _. left. right. right. by left.
Qed.

(** The thread waits, nothing wakes it, and every watch callback has run. *)
Definition at_rest (s : disc_state) : Prop :=
  dl_stop s = false ∧ dl_pc s = DWait ∧ dl_wakeup s = false ∧ dl_notes s = false.

Lemma quiet_current nodes es s :
  disc_run es (disc_loop_init nodes) = Some s → at_rest s →
  (∀ c, dict_lookup (get_workers s) c = node_info (dl_nodes s) c) ∧
  (∀ c, is_Some (dl_nodes s !! c) → is_Some (node_info (dl_nodes s) c)) ∧
  ∃ p, dl_published s = Some p ∧ NoDup (dict_keys p) ∧ ∀ c, dict_lookup p c = node_info (dl_nodes s) c.
Proof using.
  intros H (Hs & Hpc & Hwk & Hn).
  destruct (disc_run_ok _ _ _ H (disc_loop_init_ok nodes)) as [(_ & Hp & _) Hinv].
  destruct (Hinv Hs) as [Hi|Hok].
  { unfold signalled in Hi. rewrite Hpc, Hwk, Hn in Hi. naive_solver. }
  unfold pc_ok in Hok. rewrite Hpc in Hok. destruct Hok as (cs & H1 & _ & [H3 H4] & p & Hpub & Heq).
  assert (∀ c, dict_lookup (dl_workers s) c = node_info (dl_nodes s) c) as Hall.
  { intros c. destruct (decide (c ∈ cs)) as [Hc|Hc]; [by apply H3|].
    rewrite (H4 c Hc). unfold node_info. destruct (dl_nodes s !! c) eqn:E; [|done].
    destruct Hc. apply H1. eauto. }
  split_and!; [done| |].
  - intros c Hc. apply H3, H1, Hc.
  - exists p. split_and!; [done|by apply Hp|]. intros c. by rewrite Heq, Hall.
Qed.

(** Discovery loses no change: however registrations, changes and removals interleave
    with the calls of a refresh, whatever calls fail and however late the watches are
    delivered, once the thread waits with no notification outstanding, the snapshot it
    holds and the one it last handed to the pool are exactly the registry's workers. *)
Theorem quiet_discovery_is_current nodes es s :
  disc_run es (disc_loop_init nodes) = Some s → at_rest s →
  (∀ c, dict_lookup (get_workers s) c = node_info (dl_nodes s) c) ∧
  (∀ c, is_Some (dl_nodes s !! c) → is_Some (node_info (dl_nodes s) c)) ∧
  ∃ p, dl_published s = Some p ∧ NoDup (dict_keys p) ∧ ∀ c, dict_lookup p c = node_info (dl_nodes s) c.
Proof using. apply quiet_current. Qed.

(** ** The loop catches up *)

(** When ZooKeeper answers, the pool accepts and nothing changes, the outstanding
    notifications are delivered and the thread moves. *)
Definition calm_obs (s : disc_state) : disc_obs := mkDiscObs (elements (dom (dl_nodes s))) true true.

Definition calm_step (s : disc_state) : disc_state :=
  default s (disc_step (if dl_notes s then DENotify false else DEThread (calm_obs s)) s).

Definition pc_rank (n : nat) (pc : disc_pc) : nat :=
  match pc with
  | DWait | DEnded => 0
  | DList => 2 * n + 4
  | DWatch children todo => length todo + length children + 3
  | DRead _ todo _ => length todo + 2
  | DPublish _ | DRetry => 1
  end.

Definition refresh_due (s : disc_state) : bool :=
  dl_notes s || dl_wakeup s || match dl_pc s with DRetry => true | _ => false end.

Definition disc_rank (s : disc_state) : nat :=
  let n := size (dom (dl_nodes s)) in
  (if dl_notes s then 1 else 0) + (if refresh_due s then 2 * n + 6 else 0) + pc_rank n (dl_pc s).

Definition calm (s : disc_state) : Prop :=
  dl_stop s = false ∧ dl_pc s ≠ DEnded ∧
  ∀ c, is_Some (dl_nodes s !! c) → is_Some (node_info (dl_nodes s) c).

(** A calm step that neither wakes the thread nor changes a node: only the position moves. *)
Ltac rank_step En Epc :=
  simpl; (split_and!; [done|done|]); unfold disc_rank, refresh_due; simpl; rewrite En, Epc; simpl;
  rewrite ?orb_true_r; simpl; repeat match goal with |- context [dl_wakeup ?s] => destruct (dl_wakeup s) end;
  simpl; lia.

Lemma calm_step_rank s :
  calm s → ¬ at_rest s → calm (calm_step s) ∧ dl_nodes (calm_step s) = dl_nodes s ∧
    (disc_rank (calm_step s) < disc_rank s)%nat.
Proof using.
  intros (Hs & Hne & Hp) Hq. unfold calm_step. destruct (dl_notes s) eqn:En.
  { simpl. rewrite En, Hs. simpl. split_and!; [done|done|]. unfold disc_rank, refresh_due. simpl.
    rewrite En, orb_true_r. simpl. lia. }
  simpl. unfold disc_thread_step. rewrite Hs.
  destruct (dl_pc s) as [| |children [|c todo]|children [|c todo] acc|acc| |] eqn:Epc; try done.
  - destruct (dl_wakeup s) eqn:Ew; [|by destruct Hq]. simpl. split_and!; [done|done|].
    unfold disc_rank, refresh_due. simpl. rewrite En, Ew, Epc. simpl. lia.
  - simpl. rewrite bool_decide_true by apply NoDup_elements.
    rewrite bool_decide_true by apply list_to_set_elements_L.
    assert (length (elements (dom (dl_nodes s))) = size (dom (dl_nodes s))) as Hsize by done.
    rank_step En Epc.
  - rank_step En Epc.
  - case_bool_decide; rank_step En Epc.
  - rank_step En Epc.
  - simpl. destruct (dl_nodes s !! c) as [data|] eqn:Ec; [|rank_step En Epc].
    destruct (Hp c) as [info Hi]; [eauto|]. unfold node_info in Hi. rewrite Ec in Hi. simpl in Hi.
    rewrite Hi. rank_step En Epc.
  - simpl. destruct (match dl_published s with Some p => dict_eqb acc p | None => false end);
      rank_step En Epc.
  - rank_step En Epc.
Qed.

Lemma quiet_calm_step s : at_rest s → calm_step s = s.
Proof using.
  intros (Hs & Hpc & Hw & Hn). unfold calm_step. rewrite Hn. simpl. unfold disc_thread_step. by rewrite Hpc, Hw.
Qed.

Lemma quiet_iter s j : at_rest s → Nat.iter j calm_step s = s.
Proof using. intros Hq. induction j as [|j IH]; [done|]. simpl. by rewrite IH, quiet_calm_step. Qed.

#[local] Instance quiet_dec s : Decision (at_rest s).
Proof using.
  unfold at_rest. destruct (dl_pc s); try (right; naive_solver).
  destruct (dl_stop s), (dl_wakeup s), (dl_notes s); (left; done) || (right; naive_solver).
Defined.

(** Discovery catches up: from wherever the refresh thread is, once ZooKeeper answers,
    its nodes are well formed and the pool accepts, a bounded number of steps without
    further changes delivers what is outstanding and leaves the thread at_rest, hence
    current. *)
Theorem discovery_catches_up k s :
  calm s → (disc_rank s <= k)%nat →
  at_rest (Nat.iter k calm_step s) ∧ dl_nodes (Nat.iter k calm_step s) = dl_nodes s.
Proof using.
  revert s. induction k as [|k IH]; intros s Hc Hr.
  - simpl. split; [|done]. destruct Hc as (Hs & Hne & _). unfold disc_rank, refresh_due, at_rest in *.
    destruct (dl_notes s), (dl_wakeup s), (dl_pc s); simpl in *; try lia; done.
  - destruct (decide (at_rest s)) as [Hq|Hq]; [by rewrite quiet_iter|].
    destruct (calm_step_rank s Hc Hq) as (Hc' & Hn & Hlt). rewrite Nat.iter_succ_r, <- Hn.
    apply IH; [done|lia].
Qed.
End loop.

(** ** Discovery and the pool

    [on_change] is the pool's [_update_workers], whose effect on the membership is
    [reconcile]. *)
Section membership.
Context (json_loads : string → pyval + string).

Lemma quiet_pool_holds_registry nodes es s p w :
  disc_run json_loads es (disc_loop_init nodes) = Some s → at_rest s →
  dl_published s = Some p → world_wf w →
  let w' := (reconcile p w).2 in
  ∀ k, match dl_nodes s !! k with
       | None => member_at w' k = None
       | Some data => ∃ info q g, parse_worker json_loads data = Some info ∧
           member_at w' k = Some q ∧ w_proxies w' !! q = Some g ∧
           gw_worker_id g = k ∧ gw_routing_state g = wi_state info
       end.
Proof using.
  intros H Hq Hpub Hw w' k. destruct (quiet_current _ _ _ _ H Hq) as (_ & Hsome & p' & Hp' & Hnd & Heq).
  rewrite Hpub in Hp'. injection Hp' as <-. specialize (Heq k). specialize (Hsome k).
  pose proof (reconcile_matches p w Hw Hnd) as Hr. unfold w'. destruct (reconcile p w) as [removed w2].
  destruct Hr as (Hr & _). specialize (Hr k). rewrite Heq in Hr. unfold node_info in *.
  destruct (dl_nodes s !! k) as [data|]; simpl in *; [|done].
  destruct Hsome as [info Hi]; [eauto|]. rewrite Hi in *.
  destruct Hr as (q & g & ? & ? & ? & ? & _). eauto 8.
Qed.

(** C12. The pool follows the registry: when discovery is at rest, the pool that reconciled
    itself with the snapshot it was last handed has one proxy for each worker registered
    in ZooKeeper now, in the state its node announces, and none for any other. *)
Theorem quiet_pool_matches_registry nodes es s p w :
  disc_run json_loads es (disc_loop_init nodes) = Some s → at_rest s →
  dl_published s = Some p → world_wf w →
  let w' := (reconcile p w).2 in
  ∀ k, match dl_nodes s !! k with
       | None => member_at w' k = None
       | Some data => ∃ info q g, parse_worker json_loads data = Some info ∧
           member_at w' k = Some q ∧ w_proxies w' !! q = Some g ∧
           gw_worker_id g = k ∧ gw_routing_state g = wi_state info
       end.
Proof using. exact (quiet_pool_holds_registry nodes es s p w). Qed.
End membership.

(** ** A run: a worker appears after the nodes were listed, a read fails, the retry sees it. *)
Definition sample_no_json : string → pyval + string := λ _, inr "no JSON"%string.
Definition disc_ok_obs (order : list string) : disc_event := DEThread (mkDiscObs order true true).
Definition disc_bad_obs : disc_event := DEThread (mkDiscObs [] false true).

Definition sample_disc_nodes : gmap string string := {[ "worker-0"%string := "h0:1"%string ]}.

Definition sample_disc_events : list disc_event :=
  [disc_ok_obs ["worker-0"%string]; DEChange "worker-1" (Some "h1:1"%string); disc_ok_obs []; disc_ok_obs [];
   disc_bad_obs; disc_bad_obs; DENotify false; disc_ok_obs []] ++
  [disc_ok_obs ["worker-0"; "worker-1"]%string; disc_ok_obs []; disc_ok_obs []; disc_ok_obs [];
   disc_ok_obs []; disc_ok_obs []; disc_ok_obs []; disc_ok_obs []].

Definition sample_disc : disc_state :=
  default (disc_loop_init ∅) (disc_run sample_no_json sample_disc_events (disc_loop_init sample_disc_nodes)).

Definition sample_snapshot : list (string * WorkerInfo) :=
  [("worker-0", mkWorkerInfo "h0:1" READY); ("worker-1", mkWorkerInfo "h1:1" READY)]%string.

Lemma quiet_discovery_is_current_witness :
  disc_run sample_no_json sample_disc_events (disc_loop_init sample_disc_nodes) = Some sample_disc ∧
  dl_published sample_disc = Some sample_snapshot ∧
  dict_lookup (get_workers sample_disc) "worker-1" = node_info sample_no_json (dl_nodes sample_disc) "worker-1".
Proof.
  assert (disc_run sample_no_json sample_disc_events (disc_loop_init sample_disc_nodes) = Some sample_disc) as H
    by (vm_compute; reflexivity).
  split; [exact H|]. split; [vm_compute; reflexivity|].
  apply (quiet_discovery_is_current sample_no_json sample_disc_nodes sample_disc_events sample_disc H).
  vm_compute. repeat split.
Defined.

Lemma discovery_catches_up_witness :
  calm sample_no_json (disc_loop_init sample_disc_nodes) ∧
  at_rest (Nat.iter 6 (calm_step sample_no_json) (disc_loop_init sample_disc_nodes)).
Proof.
  assert (calm sample_no_json (disc_loop_init sample_disc_nodes)) as Hc.
  { split; [done|]. split; [done|]. intros c [data Hc]. unfold node_info. rewrite Hc.
    change (sample_disc_nodes !! c = Some data) in Hc. unfold sample_disc_nodes in Hc.
    apply lookup_singleton_Some in Hc as [<- <-]. vm_compute. eauto. }
  split; [exact Hc|]. apply (discovery_catches_up sample_no_json 6 _ Hc). vm_compute. lia.
Defined.

Lemma quiet_pool_matches_registry_witness :
  dl_published sample_disc = Some sample_snapshot ∧
  ∃ info q g, parse_worker sample_no_json "h1:1" = Some info ∧
    member_at (reconcile sample_snapshot sample_world).2 "worker-1" = Some q ∧
    w_proxies (reconcile sample_snapshot sample_world).2 !! q = Some g ∧
    gw_worker_id g = "worker-1"%string ∧ gw_routing_state g = wi_state info.
Proof.
  assert (disc_run sample_no_json sample_disc_events (disc_loop_init sample_disc_nodes) = Some sample_disc) as H
    by (vm_compute; reflexivity).
  assert (dl_published sample_disc = Some sample_snapshot) as Hp by (vm_compute; reflexivity).
  split; [exact Hp|].
  assert (at_rest sample_disc) as Hq by (vm_compute; repeat split).
  pose proof (quiet_pool_matches_registry sample_no_json _ _ _ _ sample_world H Hq Hp sample_world_wf "worker-1"%string) as Hm.
  assert (dl_nodes sample_disc !! "worker-1"%string = Some "h1:1"%string) as Hn by (vm_compute; reflexivity).
  cbv zeta in Hm. rewrite Hn in Hm. exact Hm.
Defined.
