(* ===== verification/WorkerLifecycle.v ===== *)
(** The worker process from its first socket to its last, [serve] of
    [src/system/grpc_worker_server.py], with the threads it runs beside: the registration
    recovery loop, the publisher of the draining state, and the requests in flight.
    Registration itself is [Registry]; the client of ZooKeeper is reached through its laws. *)
From stdpp Require Import pretty.
From S2P Require Import Prelude PyVal Tasks GrpcWorker World GrpcPool Registry.

(** ** The client after [stop] *)

(** One call of the client. *)
Inductive zk_call `{ZooKeeper Zk} (z : Zk) : Zk → Prop :=
| call_ensure p : zk_call z (zk_ensure_path p z).2
| call_create p d : zk_call z (zk_create p d z).2
| call_get p : zk_call z (zk_get p z).2
| call_set p d : zk_call z (zk_set p d z).2.

(** A client that was stopped stays stopped, and its calls change no node. *)
Class ZooKeeperClosed (Zk : Type) `{ZooKeeper Zk} := {
  zk_closed : Zk → bool;
  closed_stop : ∀ z, zk_closed (zk_stop z) = true;
  closed_call : ∀ z z', zk_closed z = true → zk_call z z' →
    zk_closed z' = true ∧ ∀ q, zk_node q z' = zk_node q z;
}.

(** ** Settings *)

(** The environment variables, and the arguments of the command line. *)
Record serve_settings := mkServeSettings {
  sv_worker_id : Z;
  sv_port : Z;
  sv_register : bool;                     (* register *)
  sv_bind : option string;                (* bind *)
  sv_bind_env : option string;            (* WORKER_BIND_ADDR *)
  sv_backend : option string;             (* INFERENCE_BACKEND *)
  sv_health_port : option string;         (* PLATFORM_WORKER_HEALTH_PORT *)
  sv_advertise : option string;           (* WORKER_ADVERTISE_ADDR *)
}.

Definition truthy_str (s : option string) : option string :=
  match s with Some t => if bool_decide (t = EmptyString) then None else Some t | None => None end.

(** [host]. *)
Definition serve_host (c : serve_settings) : string :=
  match truthy_str (sv_bind c), truthy_str (sv_bind_env c) with
  | Some h, _ => h
  | None, Some h => h
  | None, None =>
      if bool_decide (sv_backend c ∈ [Some "v7_3_full"; Some "text_v1.2.3"]%string) then "127.0.0.1" else "[::]"
  end.

Definition listen_address (c : serve_settings) : string := (serve_host c +:+ ":" +:+ pretty (sv_port c))%string.

(** [worker_address]. *)
Definition worker_address (c : serve_settings) : string :=
  default ("localhost:" +:+ pretty (sv_port c))%string (sv_advertise c).

(** ** State *)

Inductive server_life := SrvNew | SrvBound | SrvServing | SrvStopping | SrvStopped.

(** The thread of [publish_draining]: not made, started, inside [_ensure_registered] with
    the registry's lock, ended. *)
Inductive publisher := PubNone | PubStarted | PubEnsuring | PubEnded (ok : bool).

(** Who holds the registry's lock. *)
Inductive holder := HPublisher | HLoop.

#[export] Instance holder_eq_dec : EqDecision holder.
Proof. solve_decision. Defined.

(** The times of a shutdown: the deadline, when the server had stopped, and what the
    [finally] clause has taken since, in the calls that have no timeout and in the join of
    the recovery loop. *)
Record shutdown_times := mkTimes {
  st_deadline : Q;
  st_ended : Q;
  st_calls : Q;
  st_joined : Q;
}.

Definition spend (d : Q) (t : shutdown_times) : shutdown_times :=
  mkTimes (st_deadline t) (st_ended t) (st_calls t + d)%Q (st_joined t).
Definition joined (d : Q) (t : shutdown_times) : shutdown_times :=
  mkTimes (st_deadline t) (st_ended t) (st_calls t) (st_joined t + d)%Q.

(** Where the main thread of [serve] is. *)
Inductive serve_pc :=
| SvBind | SvHealth | SvStart | SvRegister
| SvWait                                  (* shutdown_event.wait() *)
| SvJoin (deadline : Q)                   (* publisher.join(timeout=2) *)
| SvStop (deadline : Q)                   (* server.stop(grace=remaining) *)
| SvDrain (deadline grace : Q)            (* stopped.wait() *)
| SvFinally (t : shutdown_times)          (* health.shutdown(), server_close() *)
| SvDeregister (t : shutdown_times)       (* registry.deregister(), to self._zk.stop() *)
| SvJoinLoop (t : shutdown_times)         (* self._thread.join(timeout=3) *)
| SvCloseZk (t : shutdown_times)          (* self._zk.close() *)
| SvDone (t : shutdown_times)
| SvRaised (msg : string).

(** [sv_closed] is the session that [deregister] closed. *)
Record serve_state (Zk : Type) := mkServe {
  sv_pc : serve_pc;
  sv_server : server_life;
  sv_health : bool;
  sv_zk : Zk;
  sv_reg : option registry;
  sv_lock : option holder;
  sv_pub : publisher;
  sv_signal : bool;
  sv_clock : Q;
  sv_inflight : nat;
  sv_cancelled : nat;
  sv_closed : option Z;
}.
Arguments mkServe {Zk}.
Arguments sv_pc {Zk}.
Arguments sv_server {Zk}.
Arguments sv_health {Zk}.
Arguments sv_zk {Zk}.
Arguments sv_reg {Zk}.
Arguments sv_lock {Zk}.
Arguments sv_pub {Zk}.
Arguments sv_signal {Zk}.
Arguments sv_clock {Zk}.
Arguments sv_inflight {Zk}.
Arguments sv_cancelled {Zk}.
Arguments sv_closed {Zk}.

(** The main thread moves: the time the call took, and whether the client of ZooKeeper
    connected.  The other
    events are a signal, a step of the publisher, of the recovery loop (what its wait
    returned), a request that arrives or ends. *)
Inductive serve_event :=
| EvMain (elapsed : Q) (ok : bool)
| EvSignal
| EvPublisher
| EvLoop (changed : bool)
| EvRequest
| EvReply.

Section serve.
Context {Zk : Type} `{ZooKeeper Zk}.
Context (json_dumps : pyval → string) (can_bind : string → bool) (c : serve_settings).

Definition serve_start (z : Zk) : serve_state Zk :=
  mkServe SvBind SrvNew false z None None PubNone false 0%Q 0 0 None.

Definition goto (pc : serve_pc) (s : serve_state Zk) : serve_state Zk :=
  mkServe pc (sv_server s) (sv_health s) (sv_zk s) (sv_reg s) (sv_lock s) (sv_pub s) (sv_signal s)
    (sv_clock s) (sv_inflight s) (sv_cancelled s) (sv_closed s).
Definition serve_tick (d : Q) (s : serve_state Zk) : serve_state Zk :=
  mkServe (sv_pc s) (sv_server s) (sv_health s) (sv_zk s) (sv_reg s) (sv_lock s) (sv_pub s) (sv_signal s)
    (sv_clock s + d)%Q (sv_inflight s) (sv_cancelled s) (sv_closed s).
Definition set_server (l : server_life) (s : serve_state Zk) : serve_state Zk :=
  mkServe (sv_pc s) l (sv_health s) (sv_zk s) (sv_reg s) (sv_lock s) (sv_pub s) (sv_signal s)
    (sv_clock s) (sv_inflight s) (sv_cancelled s) (sv_closed s).
Definition set_requests (inflight cancelled : nat) (s : serve_state Zk) : serve_state Zk :=
  mkServe (sv_pc s) (sv_server s) (sv_health s) (sv_zk s) (sv_reg s) (sv_lock s) (sv_pub s) (sv_signal s)
    (sv_clock s) inflight cancelled (sv_closed s).
Definition set_health (h : bool) (s : serve_state Zk) : serve_state Zk :=
  mkServe (sv_pc s) (sv_server s) h (sv_zk s) (sv_reg s) (sv_lock s) (sv_pub s) (sv_signal s)
    (sv_clock s) (sv_inflight s) (sv_cancelled s) (sv_closed s).
Definition set_registry (r : option registry) (z : Zk) (s : serve_state Zk) : serve_state Zk :=
  mkServe (sv_pc s) (sv_server s) (sv_health s) z r (sv_lock s) (sv_pub s) (sv_signal s)
    (sv_clock s) (sv_inflight s) (sv_cancelled s) (sv_closed s).
Definition set_lock (h : option holder) (s : serve_state Zk) : serve_state Zk :=
  mkServe (sv_pc s) (sv_server s) (sv_health s) (sv_zk s) (sv_reg s) h (sv_pub s) (sv_signal s)
    (sv_clock s) (sv_inflight s) (sv_cancelled s) (sv_closed s).
Definition set_pub (p : publisher) (s : serve_state Zk) : serve_state Zk :=
  mkServe (sv_pc s) (sv_server s) (sv_health s) (sv_zk s) (sv_reg s) (sv_lock s) p (sv_signal s)
    (sv_clock s) (sv_inflight s) (sv_cancelled s) (sv_closed s).
Definition set_shutdown (s : serve_state Zk) : serve_state Zk :=
  mkServe (sv_pc s) (sv_server s) (sv_health s) (sv_zk s) (sv_reg s) (sv_lock s) (sv_pub s) true
    (sv_clock s) (sv_inflight s) (sv_cancelled s) (sv_closed s).
Definition set_closed (o : option Z) (s : serve_state Zk) : serve_state Zk :=
  mkServe (sv_pc s) (sv_server s) (sv_health s) (sv_zk s) (sv_reg s) (sv_lock s) (sv_pub s) (sv_signal s)
    (sv_clock s) (sv_inflight s) (sv_cancelled s) o.

Definition pub_ended (p : publisher) : bool := match p with PubEnded _ => true | _ => false end.

(** ** The main thread of [serve] *)
Definition serve_main_step (d : Q) (ok : bool) (s : serve_state Zk) : option (serve_state Zk) :=
  match sv_pc s with
  | SvBind =>
      Some (if can_bind (listen_address c) then goto SvHealth (set_server SrvBound s)
            else goto (SvRaised "worker failed to bind its gRPC listener") s)
  | SvHealth =>
      match sv_health_port c with
      | None => Some (goto SvStart s)
      | Some port =>
          Some (match py_int_of port with
                | None => goto (SvRaised "invalid literal for int() with base 10") s
                | Some n => if can_bind ("127.0.0.1:" +:+ pretty n)%string then goto SvStart (set_health true s)
                            else goto (SvRaised "the health listener failed to bind") s
                end)
      end
  | SvStart => Some (goto SvRegister (set_server SrvServing s))
  | SvRegister =>
      if sv_register c then
        if ok then
          '(r, z) ← register json_dumps (sv_worker_id c) (worker_address c) registry_init (sv_zk s);
          Some (goto SvWait (set_registry (Some r) z s))
        else Some (goto (SvRaised "ZooKeeper is not reachable") s)
      else Some (goto SvWait s)
  | SvWait =>
      if sv_signal s then Some (goto (SvJoin (sv_clock s + 30)%Q) (set_pub PubStarted s)) else None
  | SvJoin deadline =>
      if (0 <=?q d) && (d <=?q 2) && (pub_ended (sv_pub s) || (2 <=?q d))
      then Some (goto (SvStop deadline) (serve_tick d s)) else None
  | SvStop deadline =>
      Some (goto (SvDrain deadline (py_max0 (deadline - sv_clock s))) (set_server SrvStopping s))
  | SvDrain deadline grace =>
      if (0 <=?q d) && (d <=?q grace) && (bool_decide (sv_inflight s = 0%nat) || (grace <=?q d))
      then Some (goto (SvFinally (mkTimes deadline (sv_clock s + d)%Q 0 0))
                   (set_server SrvStopped (set_requests 0 (sv_cancelled s + sv_inflight s) (serve_tick d s))))
      else None
  | SvFinally t =>
      if (0 <=?q d) && (sv_health s || (d <=?q 0))
      then Some (goto (SvDeregister (spend d t)) (set_health false (serve_tick d s))) else None
  | SvDeregister t =>
      match sv_reg s with
      | None => Some (goto (SvDone t) s)
      | Some r =>
          if 0 <=?q d then
            let '(r', z') := deregister r (sv_zk s) in
            Some (goto (SvJoinLoop (spend d t))
                    (set_closed (Some (zk_session (sv_zk s))) (set_registry (Some r') z' (serve_tick d s))))
          else None
      end
  | SvJoinLoop t =>
      if (0 <=?q d) && (d <=?q 3) && (negb (bool_decide (sv_lock s = Some HLoop)) || (3 <=?q d))
      then Some (goto (SvCloseZk (joined d t)) (serve_tick d s)) else None
  | SvCloseZk t =>
      if 0 <=?q d then Some (goto (SvDone (spend d t)) (serve_tick d s)) else None
  | SvDone _ | SvRaised _ => None
  end.

(** ** The threads beside it *)

(** [set_state("DRAINING")]: the lock, the check of a closed registry and the new state;
    then [_ensure_registered], which may find the client stopped meanwhile. *)
Definition publisher_step (s : serve_state Zk) : option (serve_state Zk) :=
  match sv_pub s, sv_reg s with
  | PubStarted, None => Some (set_pub (PubEnded false) s)
  | PubStarted, Some r =>
      match sv_lock s with
      | Some _ => None
      | None =>
          if reg_stop r then Some (set_pub (PubEnded false) s)
          else Some (set_pub PubEnsuring (set_lock (Some HPublisher) (set_registry
                 (Some (mkRegistry (reg_worker_id r) (reg_address r) (reg_session r) (reg_stop r) DRAINING))
                 (sv_zk s) s)))
      end
  | PubEnsuring, Some r =>
      let '(ok, r', z') := ensure_registered json_dumps r (sv_zk s) in
      Some (set_pub (PubEnded ok) (set_lock None (set_registry (Some r') z' s)))
  | _, _ => None
  end.

(** [_registration_loop]: the checks under the lock, then the registration. *)
Definition loop_step (changed : bool) (s : serve_state Zk) : option (serve_state Zk) :=
  match sv_reg s with
  | None => None
  | Some r =>
      match sv_lock s with
      | Some HPublisher => None
      | Some HLoop =>
          let '(ok, r', z') := ensure_registered json_dumps r (sv_zk s) in
          Some (set_lock None (set_registry (Some (if ok then r' else with_session None r')) z' s))
      | None =>
          if reg_stop r || negb (zk_connected (sv_zk s)) || bool_decide (reg_worker_id r = None)
             || (negb changed && bool_decide (reg_session r = Some (zk_session (sv_zk s))))
          then Some s else Some (set_lock (Some HLoop) s)
      end
  end.

(** The handlers of SIGTERM and SIGINT, once they are installed. *)
Definition handlers_installed (pc : serve_pc) : bool :=
  match pc with SvBind | SvHealth | SvStart | SvRegister | SvRaised _ => false | _ => true end.

Definition serve_step (e : serve_event) (s : serve_state Zk) : option (serve_state Zk) :=
  match e with
  | EvMain d ok => serve_main_step d ok s
  | EvSignal => if handlers_installed (sv_pc s) then Some (set_shutdown s) else None
  | EvPublisher => publisher_step s
  | EvLoop changed => loop_step changed s
  | EvRequest =>
      match sv_server s with
      | SrvServing => Some (set_requests (S (sv_inflight s)) (sv_cancelled s) s)
      | _ => None
      end
  | EvReply =>
      match sv_inflight s with
      | S n => Some (set_requests n (sv_cancelled s) s)
      | O => None
      end
  end.

Fixpoint serve_run (es : list serve_event) (s : serve_state Zk) : option (serve_state Zk) :=
  match es with
  | [] => Some s
  | e :: es' => s' ← serve_step e s; serve_run es' s'
  end.
End serve.
