(* ===== verification/WorkerLifecycleFacts.v ===== *)
(** Properties of the life of a worker process: what its registration says of it and when,
    how it comes down, and what the gateway then makes of it. *)
From stdpp Require Import pretty.
From S2P Require Import Prelude PyVal Tasks GrpcWorker World GrpcPool GrpcPoolFacts GrpcRouting Registry RegistryFacts DiscoveryLoop WorkerLifecycle.

(** ** What the others may do *)

(** Other clients and ZooKeeper itself: nodes come, go and change, and the client may get
    a new session, which owns nothing yet; but nobody else makes or writes a node of the
    session this process has, or of the one it closed. *)
Definition others_act `{ZooKeeper Zk, !ZooKeeperClosed Zk} (closed : option Z) (z z' : Zk) : Prop :=
  (zk_closed z = true → zk_closed z' = true) ∧
  (∀ q d o, o = zk_session z ∨ closed = Some o → zk_node q z' = Some (d, o) → zk_node q z = Some (d, o)) ∧
  (zk_session z' ≠ zk_session z → ∀ q d, zk_node q z' ≠ Some (d, zk_session z')).

Section lifecycle.
Context {Zk : Type} `{ZooKeeper Zk, !ZooKeeperLaws Zk WORKERS_PATH, !ZooKeeperClosed Zk}.
Context (json_dumps : pyval → string) (c : serve_settings).

(** What the worker may have written under its name. *)
Definition announcement (st : worker_state) : string :=
  registration_data json_dumps (mkRegistry (Some (sv_worker_id c)) (Some (worker_address c)) None false st).

Definition accepts_requests (l : server_life) : bool := match l with SrvNew | SrvBound => false | _ => true end.

(** Every node of the process's session is its own, written after the server started. *)
Definition node_announced (s : serve_state Zk) : Prop :=
  ∀ q d, q ≠ WORKERS_PATH → zk_node q (sv_zk s) = Some (d, zk_session (sv_zk s)) →
    q = worker_path (sv_worker_id c) ∧ accepts_requests (sv_server s) = true ∧ is_Some (sv_reg s) ∧
    ∃ st, d = announcement st ∧ (sv_pub s = PubEnded true → st = DRAINING).

Definition nothing_left (s : serve_state Zk) : Prop :=
  ∀ o q d, sv_closed s = Some o → q ≠ WORKERS_PATH → zk_node q (sv_zk s) ≠ Some (d, o).

(** *** One call of [_ensure_registered] *)

Lemma ensure_registered_own r z :
  let '(ok, r', z') := ensure_registered json_dumps r z in
  ∀ q d, q ≠ WORKERS_PATH → zk_node q z' = Some (d, zk_session z) →
    zk_node q z = Some (d, zk_session z) ∨
    (q = worker_path (default 0 (reg_worker_id r)) ∧ d = registration_data json_dumps r).
Proof using Type*.
  unfold ensure_registered. set (path := worker_path _). set (data := registration_data json_dumps r).
  pose proof (law_ensure z) as L1. destruct (zk_ensure_path WORKERS_PATH z) as [e z1].
  destruct L1 as [Es1 En1].
  destruct e; [|intros q d Hq; rewrite En1 by done; auto..].
  pose proof (law_create path data z1) as L2. destruct (zk_create path data z1) as [k z2].
  destruct L2 as [[Es2 En2] Lc].
  assert (∀ q d, q ≠ WORKERS_PATH → zk_node q z2 = Some (d, zk_session z) →
    zk_node q z = Some (d, zk_session z) ∨ (q = path ∧ d = data)) as O2.
  { intros q d Hq Hn. destruct (decide (q = path)) as [->|Hne]; [|rewrite En2, En1 in Hn by done; auto].
    destruct k as [u| | |]; [destruct Lc as [_ Lc]|destruct Lc as [_ Lc]|destruct Lc as [Lc|[_ Lc]]..];
      rewrite Lc in Hn; try (rewrite En1 in Hn by done); simplify_eq; auto. }
  destruct k; [done| |done..].
  pose proof (law_get path z2) as L3. destruct (zk_get path z2) as [g z3].
  destruct L3 as (Es3 & En3 & _).
  assert (∀ q d, q ≠ WORKERS_PATH → zk_node q z3 = Some (d, zk_session z) →
    zk_node q z = Some (d, zk_session z) ∨ (q = path ∧ d = data)) as O3.
  { intros q d Hq Hn. rewrite En3 in Hn. by apply O2. }
  destruct g as [[current owner]| | |]; [|done..].
  destruct (bool_decide (owner = _)); [|done]. destruct (bool_decide (current = data)); [done|].
  pose proof (law_set path data z3) as L4. destruct (zk_set path data z3) as [s z4].
  destruct L4 as [[Es4 En4] Ls].
  assert (∀ q d, q ≠ WORKERS_PATH → zk_node q z4 = Some (d, zk_session z) →
    zk_node q z = Some (d, zk_session z) ∨ (q = path ∧ d = data)) as O4.
  { intros q d Hq Hn. destruct (decide (q = path)) as [->|Hne]; [|rewrite En4 in Hn by done; auto].
    destruct s as [u| | |]; [destruct Ls as (d0 & o & _ & Ls)|destruct Ls as [Ls|(d0 & o & _ & Ls)]..];
      rewrite Ls in Hn; simplify_eq; auto. }
  by destruct s.
Qed.

Lemma ensure_registered_closed r z :
  zk_closed z = true →
  let '(ok, r', z') := ensure_registered json_dumps r z in
  zk_closed z' = true ∧ ∀ q, zk_node q z' = zk_node q z.
Proof using Type*.
  intros Hz. unfold ensure_registered.
  pose proof (closed_call z _ Hz (call_ensure _ WORKERS_PATH)) as [H1 E1].
  destruct (zk_ensure_path WORKERS_PATH z) as [[] z1]; simpl in *; try done.
  set (path := worker_path _). set (data := registration_data json_dumps r).
  pose proof (closed_call z1 _ H1 (call_create _ path data)) as [H2 E2].
  assert (∀ q, zk_node q (zk_create path data z1).2 = zk_node q z) as E2' by (intros q; by rewrite E2).
  destruct (zk_create path data z1) as [[] z2]; simpl in *; try done.
  pose proof (closed_call z2 _ H2 (call_get _ path)) as [H3 E3].
  assert (∀ q, zk_node q (zk_get path z2).2 = zk_node q z) as E3' by (intros q; by rewrite E3).
  destruct (zk_get path z2) as [[[current owner]| | |] z3]; simpl in *; try done.
  destruct (bool_decide (owner = _)); [|done]. destruct (bool_decide (current = data)); [done|].
  pose proof (closed_call z3 _ H3 (call_set _ path data)) as [H4 E4].
  assert (∀ q, zk_node q (zk_set path data z3).2 = zk_node q z) as E4' by (intros q; by rewrite E4).
  by destruct (zk_set path data z3) as [[] z4].
Qed.

(** *** The invariant *)

Definition early (s : serve_state Zk) : Prop :=
  sv_reg s = None ∧ sv_pub s = PubNone ∧ sv_closed s = None ∧ sv_cancelled s = 0%nat.
Definition registered_as_asked (s : serve_state Zk) : Prop := is_Some (sv_reg s) ↔ sv_register c = true.
Definition running (s : serve_state Zk) : Prop :=
  sv_closed s = None ∧ sv_cancelled s = 0%nat ∧ registered_as_asked s.
(** The server stopped in time, a request was cut off only at the deadline, and the clock
    has moved by what the [finally] clause took. *)
Definition drained_by (t : shutdown_times) (s : serve_state Zk) : Prop :=
  sv_server s = SrvStopped ∧ sv_inflight s = 0%nat ∧ (st_ended t <= st_deadline t)%Q ∧
  (sv_cancelled s ≠ 0%nat → st_ended t == st_deadline t)%Q ∧
  (0 <= st_calls t)%Q ∧ (0 <= st_joined t <= 3)%Q ∧ (sv_clock s == st_ended t + st_calls t + st_joined t)%Q.
(** The registration, if there was one, is given up. *)
Definition given_up (s : serve_state Zk) : Prop :=
  registered_as_asked s ∧ (sv_register c = true → is_Some (sv_closed s)) ∧ sv_health s = false.
Definition in_time (deadline : Q) (s : serve_state Zk) : Prop :=
  (deadline - 30 <= sv_clock s <= deadline - 28)%Q.

(** What holds at each point of [serve]. *)
Definition shape (s : serve_state Zk) : Prop :=
  match sv_pc s with
  | SvBind => early s ∧ sv_server s = SrvNew
  | SvHealth | SvStart => early s ∧ sv_server s = SrvBound
  | SvRegister => early s ∧ sv_server s = SrvServing
  | SvRaised _ => early s
  | SvWait => running s ∧ sv_server s = SrvServing ∧ sv_pub s = PubNone
  | SvJoin dl => running s ∧ sv_server s = SrvServing ∧ (dl == sv_clock s + 30)%Q
  | SvStop dl => running s ∧ sv_server s = SrvServing ∧ in_time dl s
  | SvDrain dl grace => running s ∧ sv_server s = SrvStopping ∧ in_time dl s ∧ (grace == dl - sv_clock s)%Q
  | SvFinally t => sv_closed s = None ∧ registered_as_asked s ∧ drained_by t s ∧ (st_joined t == 0)%Q
  | SvDeregister t => sv_closed s = None ∧ registered_as_asked s ∧ sv_health s = false ∧ drained_by t s ∧ (st_joined t == 0)%Q
  | SvJoinLoop t => given_up s ∧ drained_by t s ∧ (st_joined t == 0)%Q
  | SvCloseZk t | SvDone t => given_up s ∧ drained_by t s
  end.

Definition registry_ok (s : serve_state Zk) (r : registry) : Prop :=
  reg_worker_id r = Some (sv_worker_id c) ∧ reg_address r = Some (worker_address c) ∧
  reg_stop r = bool_decide (is_Some (sv_closed s)) ∧ accepts_requests (sv_server s) = true ∧
  (sv_pub s = PubEnsuring ∨ sv_pub s = PubEnded true → reg_state r = DRAINING).

Record serve_inv (s : serve_state Zk) : Prop := {
  vi_announced : sv_closed s = None → node_announced s;
  vi_left : is_Some (sv_closed s) → zk_closed (sv_zk s) = true ∧ nothing_left s;
  vi_reg : ∀ r, sv_reg s = Some r → registry_ok s r;
  vi_lock : sv_lock s = Some HPublisher ↔ sv_pub s = PubEnsuring;
  vi_shape : shape s;
}.

Lemma serve_start_inv z : (∀ q d, zk_node q z ≠ Some (d, zk_session z)) → serve_inv (serve_start z).
Proof using Type*.
  intros Hz. split; simpl; try done.
  intros _ q d _ Hn. by destruct (Hz q d).
Qed.

Lemma registration_of r s : registry_ok s r → registration_data json_dumps r = announcement (reg_state r).
Proof using Type*. intros (_ & Ha & _). unfold announcement, registration_data, registration_value. by rewrite Ha. Qed.

(** A registration, by whichever thread, keeps what is announced and what is closed. *)
Lemma ensure_keeps s r ok r' z' s' :
  serve_inv s → sv_reg s = Some r → ensure_registered json_dumps r (sv_zk s) = (ok, r', z') →
  sv_zk s' = z' → is_Some (sv_reg s') → sv_server s' = sv_server s → sv_closed s' = sv_closed s →
  (sv_pub s' = PubEnded true → reg_state r = DRAINING ∧ (ok = true ∨ sv_pub s = PubEnded true)) →
  (sv_closed s' = None → node_announced s') ∧
  (is_Some (sv_closed s') → zk_closed (sv_zk s') = true ∧ nothing_left s').
Proof using Type*.
  intros [Hann Hleft Hreg _ _] Hr He Hz Hr' Hsrv Hcl Hpub.
  destruct (Hreg r Hr) as (Hw & Ha & _ & Hacc & _).
  pose proof (ensure_registered_own r (sv_zk s)) as Hown.
  pose proof (ensure_registered_spec json_dumps r (sv_zk s)) as Hspec.
  pose proof (ensure_registered_closed r (sv_zk s)) as Hclosed.
  rewrite He in *. destruct Hspec as (Hses & _ & _ & Hok). rewrite Hw in *. simpl in *.
  pose proof (registration_of r s (Hreg r Hr)) as Hdata. rewrite Hcl. split.
  - intros Hc q d Hq Hn. rewrite Hz, Hses in Hn. rewrite Hsrv.
    destruct (decide (ok = true)) as [->|Hnok].
    + destruct (Hok eq_refl) as [_ Hpath].
      destruct (Hown q d Hq Hn) as [Hn0|[-> ->]]; [|split_and!; try done; eexists; split; [done|apply Hpub]].
      destruct (Hann Hc q d Hq Hn0) as (-> & Hs & _ & _).
      rewrite Hpath in Hn. simplify_eq. split_and!; try done. eexists; split; [done|apply Hpub].
    + destruct (Hown q d Hq Hn) as [Hn0|[-> ->]].
      * destruct (Hann Hc q d Hq Hn0) as (-> & Hs & _ & st & -> & Hst). split_and!; try done.
        exists st. split; [done|]. intros Hp. apply Hst. by destruct (Hpub Hp) as [_ [|]].
      * split_and!; try done. eexists; split; [done|apply Hpub].
  - intros Hc. destruct (Hleft Hc) as [Hz0 Hnl]. destruct (Hclosed Hz0) as [Hz1 Hnodes].
    rewrite Hz. split; [done|]. intros o q d Ho Hq. rewrite Hz, Hnodes. rewrite Hcl in Ho. by apply Hnl.
Qed.

(** *** Each event *)

Lemma ensure_registered_fields r z ok r' z' :
  ensure_registered json_dumps r z = (ok, r', z') →
  (reg_worker_id r', reg_address r', reg_state r', reg_stop r')
    = (reg_worker_id r, reg_address r, reg_state r, reg_stop r).
Proof using Type*.
  intros He. pose proof (ensure_registered_spec json_dumps r z) as Hs. rewrite He in Hs. apply Hs.
Qed.

(** An event that leaves the client, the registry's presence and the server alone. *)
Lemma announced_frame s s' :
  node_announced s → sv_zk s' = sv_zk s → (is_Some (sv_reg s) → is_Some (sv_reg s')) →
  (accepts_requests (sv_server s) = true → accepts_requests (sv_server s') = true) →
  (sv_pub s' = PubEnded true → sv_pub s = PubEnded true) → node_announced s'.
Proof using Type*.
  intros Ha Hz Hr Hs Hp q d Hq Hn. rewrite Hz in Hn.
  destruct (Ha q d Hq Hn) as (-> & ? & ? & st & -> & Hst). split_and!; eauto.
Qed.

Lemma left_frame s s' :
  (is_Some (sv_closed s) → zk_closed (sv_zk s) = true ∧ nothing_left s) → sv_zk s' = sv_zk s →
  sv_closed s' = sv_closed s → is_Some (sv_closed s') → zk_closed (sv_zk s') = true ∧ nothing_left s'.
Proof using Type*.
  intros Hl Hz Hc Hs. unfold nothing_left. rewrite Hz, Hc. apply Hl. by rewrite <- Hc.
Qed.

Lemma shape_frame s s' :
  shape s → sv_pc s' = sv_pc s → sv_server s' = sv_server s → sv_health s' = sv_health s →
  (is_Some (sv_reg s') ↔ is_Some (sv_reg s)) → sv_cancelled s' = sv_cancelled s → sv_clock s' = sv_clock s →
  sv_closed s' = sv_closed s → (sv_pub s = PubNone → sv_pub s' = PubNone) →
  (sv_inflight s = 0%nat → sv_server s = SrvStopped → sv_inflight s' = 0%nat) → shape s'.
Proof using Type*.
  intros Hs E1 E2 E3 E4 E5 E6 E7 E8 E9.
  assert (sv_reg s = None → sv_reg s' = None) as E4'.
  { intros Hn. destruct (sv_reg s') as [r|]; [|done]. rewrite Hn in E4. destruct (proj1 E4); [by eexists|done]. }
  unfold shape, early, running, given_up, registered_as_asked, drained_by, in_time in *.
  rewrite E1, E2, E3, E5, E6, E7. destruct (sv_pc s); rewrite ?E4; naive_solver.
Qed.

Lemma publisher_step_inv s s' : publisher_step json_dumps s = Some s' → serve_inv s → serve_inv s'.
Proof using Type*.
  intros Hs HI. pose proof HI as [Hann Hleft Hreg Hlock Hshape]. unfold publisher_step in Hs.
  destruct (sv_pub s) eqn:Ep; [done| | |done].
  - destruct (sv_reg s) as [r|] eqn:Er; simplify_eq/=.
    2:{ split.
        - intros Hc. by apply (announced_frame s); simpl; auto.
        - by apply (left_frame s).
        - simpl. by rewrite Er.
        - simpl. rewrite Hlock. by split.
        - by apply (shape_frame s); simpl; rewrite ?Er, ?Ep. }
    destruct (sv_lock s) eqn:El; [done|]. destruct (Hreg r eq_refl) as (? & ? & ? & ? & _).
    destruct (reg_stop r) eqn:Est; simplify_eq/=.
    + split.
      * intros Hc. by apply (announced_frame s); simpl; auto.
      * by apply (left_frame s).
      * simpl. rewrite Er. intros r' [= <-]. split_and!; simpl; try congruence. by intros [|].
      * simpl. rewrite El. by split.
      * by apply (shape_frame s); simpl; rewrite ?Er, ?Ep.
    + split.
      * intros Hc. by apply (announced_frame s); simpl; eauto.
      * by apply (left_frame s).
      * simpl. intros r' [= <-]. split_and!; simpl; congruence.
      * done.
      * apply (shape_frame s); simpl; rewrite ?Er, ?Ep; try done; by split; eexists.
  - destruct (sv_reg s) as [r|] eqn:Er; [|done]. simpl in Hs.
    destruct (ensure_registered json_dumps r (sv_zk s)) as [[ok r'] z'] eqn:He. simplify_eq/=.
    destruct (Hreg r eq_refl) as (? & ? & ? & ? & Hdr).
    pose proof (ensure_registered_fields _ _ _ _ _ He) as [= Ew Ea Est Esp].
    destruct (ensure_keeps s r ok r' z' (set_pub (PubEnded ok) (set_lock None (set_registry (Some r') z' s))) HI Er He)
      as [Ha Hl]; simpl; try done.
    { intros [= ->]. split; [|by left]. apply Hdr. by left. }
    split; [exact Ha|exact Hl|..]; simpl.
    + intros r0 [= <-]. split_and!; simpl; try congruence. intros _. rewrite Est. apply Hdr. by left.
    + by split.
    + apply (shape_frame s); simpl; rewrite ?Er, ?Ep; try done; by split; eexists.
Qed.

Lemma loop_step_inv changed s s' : loop_step json_dumps changed s = Some s' → serve_inv s → serve_inv s'.
Proof using Type*.
  intros Hs HI. pose proof HI as [Hann Hleft Hreg Hlock Hshape]. unfold loop_step in Hs.
  destruct (sv_reg s) as [r|] eqn:Er; [|done]. destruct (Hreg r eq_refl) as (? & ? & ? & ? & Hdr).
  destruct (sv_lock s) as [[]|] eqn:El; [done| |].
  - destruct (ensure_registered json_dumps r (sv_zk s)) as [[ok r'] z'] eqn:He. simplify_eq/=.
    pose proof (ensure_registered_fields _ _ _ _ _ He) as [= Ew Ea Est Esp].
    destruct (ensure_keeps s r ok r' z' (set_lock None (set_registry (Some (if ok then r' else with_session None r')) z' s)) HI Er He)
      as [Ha Hl]; simpl; try done.
    { intros Hp. split; [|by right]. apply Hdr. by right. }
    split; [exact Ha|exact Hl|..]; simpl.
    + intros r0 [= <-]. destruct ok; split_and!; simpl; try congruence; intros Hp; rewrite Est; by apply Hdr.
    + split; [done|]. intros Hp. by apply Hlock in Hp.
    + apply (shape_frame s); simpl; rewrite ?Er; try done; by split; eexists.
  - destruct (_ || _); simplify_eq/=; [done|]. split.
    + intros Hc. by apply (announced_frame s); simpl; auto.
    + by apply (left_frame s).
    + simpl. rewrite Er. by intros r' [= <-].
    + simpl. split; [done|]. intros Hp. by apply Hlock in Hp.
    + by apply (shape_frame s).
Qed.

Lemma others_inv s z' :
  others_act (sv_closed s) (sv_zk s) z' → serve_inv s → serve_inv (set_registry (sv_reg s) z' s).
Proof using Type*.
  intros (Hcl & Hn & Hnew) [Hann Hleft Hreg Hlock Hshape]. split; simpl; try done.
  - intros Hc q d Hq Hd. simpl in *.
    destruct (decide (zk_session z' = zk_session (sv_zk s))) as [E|Hne]; [|by destruct (Hnew Hne q d)].
    rewrite E in Hd. apply (Hann Hc q d Hq), Hn; auto.
  - intros Hc. destruct (Hleft Hc) as [H1 H2]. split; [by apply Hcl|].
    intros o q d Ho Hq Hd. apply (H2 o q d Ho Hq). apply Hn; auto.
Qed.

Context (can_bind : string → bool).

(** The process moves, or the others do. *)
Definition serve_move (s s' : serve_state Zk) : Prop :=
  (∃ e, serve_step json_dumps can_bind c e s = Some s') ∨
  (∃ z', others_act (sv_closed s) (sv_zk s) z' ∧ s' = set_registry (sv_reg s) z' s).

(** It starts with a session that owns nothing. *)
Definition serve_reach (s : serve_state Zk) : Prop :=
  ∃ z, (∀ q d, zk_node q z ≠ Some (d, zk_session z)) ∧ rtc serve_move (serve_start z) s.

(** A step of the main thread that leaves the client and the registry alone. *)
Lemma serve_main_frame s s' :
  serve_inv s → sv_zk s' = sv_zk s → sv_reg s' = sv_reg s → sv_lock s' = sv_lock s → sv_closed s' = sv_closed s →
  (accepts_requests (sv_server s) = true → accepts_requests (sv_server s') = true) →
  sv_pub s' = sv_pub s ∨ (sv_pub s = PubNone ∧ sv_pub s' = PubStarted) → shape s' → serve_inv s'.
Proof using Type*.
  intros [Hann Hleft Hreg Hlock _] Ez Er El Ec Hs Hp Hshape.
  assert (sv_pub s' = PubEnded true → sv_pub s = PubEnded true) as Hp1 by (destruct Hp as [->|[_ ->]]; done).
  assert (sv_pub s' = PubEnsuring ↔ sv_pub s = PubEnsuring) as Hp2 by (destruct Hp as [->|[-> ->]]; done).
  split; [| |..|done].
  - rewrite Ec. intros Hc. apply (announced_frame s); auto. by rewrite Er.
  - by apply (left_frame s).
  - intros r. rewrite Er. intros Hr. destruct (Hreg r Hr) as (? & ? & ? & ? & Hd).
    split_and!; [done|done|by rewrite Ec|auto|]. intros [Hq|Hq]; apply Hd; [left; by apply Hp2|right; by apply Hp1].
  - by rewrite El, Hp2.
Qed.

Lemma register_inv s r z' :
  serve_inv s → sv_pc s = SvRegister → sv_register c = true →
  register json_dumps (sv_worker_id c) (worker_address c) registry_init (sv_zk s) = Some (r, z') →
  serve_inv (goto SvWait (set_registry (Some r) z' s)).
Proof using Type*.
  intros HI Epc Hc Hr. pose proof HI as [Hann Hleft Hreg Hlock Hshape]. unfold shape in Hshape. rewrite Epc in Hshape.
  destruct Hshape as [(Er & Ep & Ec & Ek) Es]. unfold register in Hr. simpl in Hr.
  set (r0 := mkRegistry _ _ _ _ _) in Hr.
  destruct (ensure_registered json_dumps r0 (sv_zk s)) as [[ok r'] z''] eqn:He. simplify_eq/=.
  pose proof (ensure_registered_fields _ _ _ _ _ He) as [= Ew Ea Est Esp].
  set (s0 := goto SvWait (set_registry (Some r0) (sv_zk s) s)).
  assert (∀ r1 z1, shape (goto SvWait (set_registry (Some r1) z1 s))) as Hsh.
  { intros r1 z1. split_and!; simpl; try done; split_and!; try done. }
  assert (serve_inv s0) as H0.
  { split; [| | | |apply Hsh]; simpl.
    - intros _. apply (announced_frame s); simpl; eauto.
    - by rewrite Ec.
    - intros r1 [= <-]. split_and!; simpl; try done; [by rewrite Ec|by rewrite Es|rewrite Ep; by intros [|]].
    - done. }
  destruct (ensure_keeps s0 r0 ok r' z' (goto SvWait (set_registry (Some (if ok then r' else with_session None r')) z' s)) H0 eq_refl He)
    as [Ha Hl]; simpl; try done.
  { by rewrite Ep. }
  split; [exact Ha|exact Hl| | |apply Hsh]; simpl; [|done].
  intros r1 [= <-]. destruct ok; split_and!; simpl; rewrite ?Ew, ?Ea, ?Esp; try done;
    (by rewrite Ec) || (by rewrite Es) || (rewrite Ep; by intros [|]).
Qed.

Lemma deregister_inv s t d r :
  serve_inv s → sv_pc s = SvDeregister t → (0 <= d)%Q → sv_reg s = Some r →
  let '(r', z') := deregister r (sv_zk s) in
  serve_inv (goto (SvJoinLoop (spend d t))
    (set_closed (Some (zk_session (sv_zk s))) (set_registry (Some r') z' (serve_tick d s)))).
Proof using Type*.
  intros HI Epc Hd Er. pose proof HI as [Hann Hleft Hreg Hlock Hshape]. unfold shape in Hshape. rewrite Epc in Hshape.
  destruct Hshape as (Ec & Hrc & Hh & (Hs & Hi & Hend & Hcut & Hcalls & Hj & Hclock) & Hj0).
  destruct (Hreg r Er) as (Hw & Ha & Hst & Hacc & Hdr). rewrite Ec in Hst. unfold deregister. rewrite Hst. simpl.
  split; simpl; [done| | |done|].
  - intros _. split; [apply closed_stop|]. intros o q d0 [= <-] Hq. simpl. rewrite law_stop.
    destruct (zk_node q (sv_zk s)) as [[d1 o0]|]; [|done]. case_decide; [done|]. by intros [= _ ->].
  - by intros r1 [= <-].
  - unfold registered_as_asked in Hrc. rewrite Er in Hrc.
    assert (is_Some (Some (mkRegistry (reg_worker_id r) (reg_address r) (reg_session r) true (reg_state r)))
            ↔ sv_register c = true) as Hrc' by (rewrite <- Hrc; split; intros _; by eexists).
    split_and!; simpl; try done. unfold drained_by. simpl. split_and!; try done; lra.
Qed.

(** A step of the [finally] clause that only takes time. *)
Lemma finally_tick s d t t' health pc' :
  serve_inv s → drained_by t s → (0 <= d)%Q →
  (st_ended t', st_deadline t') = (st_ended t, st_deadline t) → (0 <= st_calls t')%Q → (0 <= st_joined t' <= 3)%Q →
  (st_calls t' + st_joined t' == st_calls t + st_joined t + d)%Q →
  let s' := goto pc' (set_health health (serve_tick d s)) in
  (drained_by t' s' → shape s') → serve_inv s'.
Proof using Type*.
  intros HI (Hs & Hi & Hend & Hcut & Hcalls & Hj & Hclock) Hd [= E1 E2] H1 H2 H3 s' Hshape.
  apply (serve_main_frame s); simpl; auto. apply Hshape. unfold drained_by. simpl. rewrite E1, E2.
  split_and!; try done; try lra.
Qed.

(** The steps of the [finally] clause. *)
Definition finishing (pc : serve_pc) (t : shutdown_times) : Prop :=
  pc = SvFinally t ∨ pc = SvDeregister t ∨ pc = SvJoinLoop t ∨ pc = SvCloseZk t.

Lemma finally_inv d ok s s' t :
  serve_main_step json_dumps can_bind c d ok s = Some s' → finishing (sv_pc s) t → serve_inv s → serve_inv s'.
Proof using Type*.
  intros Hs Hpc HI. pose proof (vi_shape s HI) as Hshape. unfold serve_main_step in Hs. unfold shape in Hshape.
  destruct Hpc as [Epc|[Epc|[Epc|Epc]]]; rewrite Epc in Hs, Hshape.
  - destruct Hshape as (Hc & Hrc & Hd & Hj). destruct (_ && _) eqn:E; simplify_eq/=.
    apply andb_true_iff in E as [E1 _]. pose proof Hd as (_ & _ & _ & _ & ? & ? & _).
    apply (finally_tick s d t (spend d t) false); simpl; try done; qlra.
  - destruct Hshape as (Hc & Hrc & Hh & Hd & Hj). destruct (sv_reg s) as [r|] eqn:Er.
    + destruct (0 <=?q d) eqn:E; simplify_eq/=. pose proof (deregister_inv s t d r HI Epc ltac:(qlra) Er) as H0.
      destruct (deregister r (sv_zk s)). by simplify_eq.
    + simplify_eq/=. apply (serve_main_frame s); simpl; auto. split; [|exact Hd]. split; [done|]. split; [|done].
      simpl. intros Hreg. unfold registered_as_asked in Hrc. rewrite Er in Hrc. by apply Hrc in Hreg as [].
  - destruct Hshape as (Hg & Hd & Hj). destruct (_ && _) eqn:E; simplify_eq/=.
    apply andb_true_iff in E as [[E1 E2]%andb_true_iff _]. pose proof Hd as (_ & _ & _ & _ & ? & ? & _).
    apply (finally_tick s d t (joined d t) (sv_health s)); simpl; try done; qlra.
  - destruct Hshape as (Hg & Hd). destruct (0 <=?q d) eqn:E; simplify_eq/=. pose proof Hd as (_ & _ & _ & _ & ? & ? & _).
    apply (finally_tick s d t (spend d t) (sv_health s)); simpl; try done; qlra.
Qed.

Lemma serve_main_inv d ok s s' : serve_main_step json_dumps can_bind c d ok s = Some s' → serve_inv s → serve_inv s'.
Proof using Type*.
  intros Hs HI. pose proof (vi_shape s HI) as Hshape. unfold serve_main_step in Hs. unfold shape in Hshape.
  destruct (sv_pc s) eqn:Epc.
  - destruct Hshape as [He Hsrv]. destruct (can_bind _); simplify_eq/=; apply (serve_main_frame s); simpl; rewrite ?Hsrv; auto; done.
  - destruct Hshape as [He Hsrv]. destruct (sv_health_port c) as [port|]; [destruct (py_int_of port); [destruct (can_bind _)|]|];
      simplify_eq/=; apply (serve_main_frame s); simpl; auto; done.
  - destruct Hshape as [He Hsrv]. simplify_eq/=. apply (serve_main_frame s); simpl; auto; done.
  - destruct Hshape as [He Hsrv]. destruct (sv_register c) eqn:Ec; [destruct ok|]; simplify_eq/=.
    + destruct (register _ _ _ _ _) as [[r z]|] eqn:Hr; simplify_eq/=. by apply register_inv.
    + apply (serve_main_frame s); simpl; auto; done.
    + apply (serve_main_frame s); simpl; auto. destruct He as (Er & ? & ? & ?). split_and!; simpl; try done.
      unfold running, registered_as_asked. simpl. rewrite Er, Ec. split_and!; try done.
  - destruct Hshape as (Hr & Hsrv & Hp). destruct (sv_signal s); simplify_eq/=.
    apply (serve_main_frame s); simpl; auto. split_and!; simpl; done || reflexivity.
  - destruct Hshape as (Hr & Hsrv & Hp). destruct (_ && _) eqn:E; simplify_eq/=.
    apply andb_true_iff in E as [[E1 E2]%andb_true_iff _].
    apply (serve_main_frame s); simpl; auto. split_and!; try done; unfold in_time; simpl; qbool; lra.
  - destruct Hshape as (Hr & Hsrv & Ht). simplify_eq/=. apply (serve_main_frame s); simpl; auto.
    split_and!; simpl; try done; try apply Ht. unfold py_max0. destruct (_ <?q _) eqn:E; [|reflexivity].
    unfold in_time in Ht. qlra.
  - destruct Hshape as (Hr & Hsrv & Ht & Hg). destruct (_ && _) eqn:E; simplify_eq/=.
    apply andb_true_iff in E as [[E1 E2]%andb_true_iff E3]. destruct Hr as (Hcl & Hcan & Hreg).
    apply (serve_main_frame s); simpl; auto. split_and!; simpl; try done. unfold drained_by. simpl.
    split_and!; try done; try qlra. intros Hk.
    apply orb_true_iff in E3 as [E3|E3]; [|qlra]. zbool. rewrite Hcan, E3 in Hk. by destruct Hk.
  - apply (finally_inv d ok s s' t); [|unfold finishing; rewrite Epc; auto|done]. unfold serve_main_step. by rewrite Epc.
  - apply (finally_inv d ok s s' t); [|unfold finishing; rewrite Epc; auto|done]. unfold serve_main_step. by rewrite Epc.
  - apply (finally_inv d ok s s' t); [|unfold finishing; rewrite Epc; auto|done]. unfold serve_main_step. by rewrite Epc.
  - apply (finally_inv d ok s s' t); [|unfold finishing; rewrite Epc; auto|done]. unfold serve_main_step. by rewrite Epc.
  - done.
  - done.
Qed.

Lemma serve_step_inv e s s' : serve_step json_dumps can_bind c e s = Some s' → serve_inv s → serve_inv s'.
Proof using Type*.
  intros Hs HI. pose proof HI as [Hann Hleft Hreg Hlock Hshape]. destruct e as [d ok| | |changed| |]; simpl in Hs.
  - by apply (serve_main_inv d ok s).
  - destruct (handlers_installed _); simplify_eq/=. apply (serve_main_frame s); simpl; auto.
  - by apply (publisher_step_inv s).
  - by apply (loop_step_inv changed s).
  - destruct (sv_server s) eqn:Es; simplify_eq/=. apply (serve_main_frame s); simpl; auto.
    apply (shape_frame s); simpl; try done. by rewrite Es.
  - destruct (sv_inflight s) eqn:Ei; simplify_eq/=. apply (serve_main_frame s); simpl; auto.
    apply (shape_frame s); simpl; try done. by rewrite Ei.
Qed.

Lemma serve_moves_inv s s' : rtc serve_move s s' → serve_inv s → serve_inv s'.
Proof using Type*.
  induction 1 as [|s1 s2 s3 [[e Hs]|(z' & Ho & ->)] _ IH]; [done| |]; intros HI; apply IH.
  - by eapply serve_step_inv.
  - by apply others_inv.
Qed.

Lemma serve_reach_inv s : serve_reach s → serve_inv s.
Proof using Type*. intros (z & Hz & Hr). by eapply serve_moves_inv, serve_start_inv. Qed.

(** C13. A worker is announced only while it serves.  Whatever the recovery loop, the
    publisher, the requests, ZooKeeper and its other clients do and in whatever order,
    every node the process's session owns is its own name's, was written after the server
    started, and holds its address and state, the draining state once that was published;
    and once the process has deregistered, no node of its session is left, even if a
    registration was under way. *)
Theorem worker_announced_only_while_serving s q d :
  serve_reach s → q ≠ WORKERS_PATH →
  match sv_closed s with
  | None => zk_node q (sv_zk s) = Some (d, zk_session (sv_zk s)) →
      q = worker_path (sv_worker_id c) ∧ accepts_requests (sv_server s) = true ∧
      ∃ st, d = announcement st ∧ (sv_pub s = PubEnded true → st = DRAINING)
  | Some o => zk_node q (sv_zk s) ≠ Some (d, o)
  end.
Proof using Type*.
  intros Hr Hq. destruct (serve_reach_inv s Hr) as [Hann Hleft _ _ _].
  destruct (sv_closed s) as [o|] eqn:E.
  - apply Hleft; [by eexists|done|done].
  - intros Hn. destruct (Hann eq_refl q d Hq Hn) as (? & ? & _ & ?). done.
Qed.

(** ** Shutdown *)

Definition deadline_of (pc : serve_pc) : option Q :=
  match pc with
  | SvJoin dl | SvStop dl | SvDrain dl _ => Some dl
  | SvFinally t | SvDeregister t | SvJoinLoop t | SvCloseZk t | SvDone t => Some (st_deadline t)
  | _ => None
  end.

Lemma other_steps_pc e s s' :
  serve_step json_dumps can_bind c e s = Some s' → (∀ d ok, e ≠ EvMain d ok) →
  sv_pc s' = sv_pc s ∧ (sv_signal s = true → sv_signal s' = true).
Proof using Type*.
  intros Hs He. destruct e as [d ok| | |changed| |]; simpl in Hs; [by destruct (He d ok)|..].
  - destruct (handlers_installed _); by simplify_eq/=.
  - unfold publisher_step in Hs. repeat (case_match; simplify_eq/=; try done).
  - unfold loop_step in Hs. repeat (case_match; simplify_eq/=; try done).
  - destruct (sv_server s); by simplify_eq/=.
  - destruct (sv_inflight s); by simplify_eq/=.
Qed.

Lemma deadline_kept s s' dl : serve_move s s' → deadline_of (sv_pc s) = Some dl → deadline_of (sv_pc s') = Some dl.
Proof using Type*.
  intros [[e Hs]|(z' & _ & ->)]; [|done]. destruct e as [d ok| | | | |].
  2-6: by destruct (other_steps_pc _ _ _ Hs) as [-> _].
  simpl in Hs. unfold serve_main_step in Hs. destruct (sv_pc s); simpl; intros [= <-]; simplify_eq/=; try done.
  all: repeat (case_match; simplify_eq/=; try done).
Qed.

Lemma deadline_kept_rtc s s' dl : rtc serve_move s s' → deadline_of (sv_pc s) = Some dl → deadline_of (sv_pc s') = Some dl.
Proof using Type*. induction 1; [done|]. intros Hd. by eapply IHrtc, deadline_kept. Qed.

Definition serve_rank (pc : serve_pc) : nat :=
  match pc with
  | SvBind => 12 | SvHealth => 11 | SvStart => 10 | SvRegister => 9 | SvWait => 8 | SvJoin _ => 7 | SvStop _ => 6
  | SvDrain _ _ => 5 | SvFinally _ => 4 | SvDeregister _ => 3 | SvJoinLoop _ => 2 | SvCloseZk _ => 1
  | SvDone _ | SvRaised _ => 0
  end.

(** C29. Shutdown is orderly and bounded.  Once a signal is seen, the server has stopped
    within thirty seconds of it whatever else happens; a request is cut off only when the
    thirty seconds are used up.  The process then ends after what its [finally] clause
    takes: at most three seconds in the join of the recovery loop, and the time of the calls
    that have no timeout, [health.shutdown], [zk.stop] and [zk.close].  At the end no
    request is in flight, the health listener is closed and the registration, if there was
    one, is given up; and at no point before that can the threads beside it block the main
    thread. *)
Theorem shutdown_is_bounded s s1 s2 d ok :
  serve_reach s → sv_pc s = SvWait → serve_main_step json_dumps can_bind c d ok s = Some s1 → rtc serve_move s1 s2 →
  match sv_pc s2 with
  | SvDone t =>
      sv_server s2 = SrvStopped ∧ sv_inflight s2 = 0%nat ∧ sv_health s2 = false ∧
      (sv_register c = true → is_Some (sv_closed s2)) ∧
      (st_ended t <= sv_clock s + 30)%Q ∧ (sv_cancelled s2 ≠ 0%nat → st_ended t == sv_clock s + 30)%Q ∧
      (st_joined t <= 3)%Q ∧ (sv_clock s2 == st_ended t + st_joined t + st_calls t)%Q
  | pc => ∃ t s3, (0 <= t <= 30)%Q ∧ serve_main_step json_dumps can_bind c t true s2 = Some s3 ∧
            (serve_rank (sv_pc s3) < serve_rank pc)%nat
  end.
Proof using Type*.
  intros Hr Hpc Hs H12. pose proof (serve_reach_inv s Hr) as HI.
  pose proof (serve_moves_inv s1 s2 H12 (serve_main_inv _ _ _ _ Hs HI)) as HI2.
  assert (deadline_of (sv_pc s2) = Some (sv_clock s + 30)%Q) as Hd.
  { apply (deadline_kept_rtc s1); [done|]. unfold serve_main_step in Hs. rewrite Hpc in Hs.
    destruct (sv_signal s); by simplify_eq/=. }
  pose proof (vi_shape s2 HI2) as Hsh. unfold shape in Hsh. unfold serve_main_step.
  destruct (sv_pc s2) as [| | | | |dl|dl|dl g|t|t|t|t|t|msg]; simplify_eq/=.
  - exists 2%Q. eexists. split; [lra|]. rewrite orb_true_r. simpl. split; [done|]. simpl. lia.
  - exists 0%Q. eexists. split; [lra|]. split; [done|]. simpl. lia.
  - destruct Hsh as (_ & _ & Ht & Hg). unfold in_time in Ht. exists g. eexists.
    split; [lra|]. rewrite !(proj2 (Qleb_true _ _)) by lra. rewrite orb_true_r. simpl. split; [done|]. simpl. lia.
  - exists 0%Q. eexists. split; [lra|]. rewrite orb_true_r. simpl. split; [done|]. simpl. lia.
  - exists 0%Q. destruct (sv_reg s2) as [r|]; [destruct (deregister r (sv_zk s2)) as [r' z'] eqn:E|];
      eexists; (split; [lra|]); simpl; (split; [done|]); simpl; lia.
  - exists 3%Q. eexists. split; [lra|]. rewrite orb_true_r. simpl. split; [done|]. simpl. lia.
  - exists 0%Q. eexists. split; [lra|]. split; [done|]. simpl. lia.
  - destruct Hsh as ((_ & Hc & Hh) & Hsrv & Hi & Hle & Hcut & _ & Hj & Hclock). rewrite Hd in *.
    split_and!; try done; [apply Hj|]. rewrite Hclock. ring.
Qed.

(** ** What the gateway makes of it *)

Definition node_name : string := ("worker-" +:+ pretty (sv_worker_id c))%string.

(** C17. A worker that drains gets no new work.  Once the draining state is published, if
    the gateway's discovery has read this ZooKeeper and has nothing left to do, then the
    pool's proxy for the worker is draining and refuses every batch. *)
Theorem draining_worker_is_out_of_rotation (json_loads : string → pyval + string) s d ds nodes es p w :
  serve_reach s → sv_pub s = PubEnded true → sv_closed s = None →
  zk_node (worker_path (sv_worker_id c)) (sv_zk s) = Some (d, zk_session (sv_zk s)) →
  (* the codec reads back the object it wrote *)
  let text := announcement DRAINING in
  json_loads text = inl (registration_value (mkRegistry None (Some (worker_address c)) None false DRAINING)) →
  String.prefix "{" text = true → py_strip text = text → worker_address c ≠ EmptyString →
  (* the gateway sees the node, and is up to date *)
  disc_run json_loads es (disc_loop_init nodes) = Some ds → at_rest ds →
  dl_nodes ds !! node_name = Some d → dl_published ds = Some p → world_wf w →
  let w' := (reconcile p w).2 in
  ∃ q g, member_at w' node_name = Some q ∧ w_proxies w' !! q = Some g ∧
    gw_worker_id g = node_name ∧ gw_is_ready g = false ∧ ∀ batch, gw_try_submit batch g = (false, g).
Proof using Type*.
  intros Hr Hp Hc Hn text Hl Hpre Hst Hne Hrun Hq Hds Hpub Hw w'.
  destruct (vi_announced s (serve_reach_inv s Hr) Hc _ d (worker_path_not_root _) Hn) as (_ & _ & _ & st & -> & Hdr).
  rewrite (Hdr Hp) in *.
  pose proof (quiet_pool_holds_registry json_loads nodes es ds p w Hrun Hq Hpub Hw node_name) as H0.
  cbv zeta in H0. rewrite Hds in H0. destruct H0 as (info & q & g & Hi & Hm & Hg & Hid & Hrs).
  assert (parse_worker json_loads (announcement DRAINING) = Some (mkWorkerInfo (worker_address c) DRAINING)) as Hi'.
  { apply (registration_roundtrip json_dumps json_loads
      (mkRegistry (Some (sv_worker_id c)) (Some (worker_address c)) None false DRAINING)); done. }
  rewrite Hi' in Hi. simplify_eq/=. exists q, g. unfold gw_is_ready, gw_try_submit. rewrite Hrs.
  split_and!; try done; [|intros batch]; by rewrite ?andb_false_r, ?orb_true_r.
Qed.
End lifecycle.

(** ** A client that can be stopped *)

Record zk_client := mkZkClient { zc_open : bool; zc_zk : zk_model }.

Definition when_open {A} (f : zk_model → zk_result A * zk_model) (z : zk_client) : zk_result A * zk_client :=
  if zc_open z then let '(r, z') := f (zc_zk z) in (r, mkZkClient true z') else (ZFail, z).

#[export] Instance zk_client_api : ZooKeeper zk_client := {|
  zk_session z := zk_session (zc_zk z);
  zk_connected z := zc_open z;
  zk_node p z := zk_node p (zc_zk z);
  zk_ensure_path p := when_open (zk_ensure_path p);
  zk_create p d := when_open (zk_create p d);
  zk_get p := when_open (zk_get p);
  zk_set p d := when_open (zk_set p d);
  zk_children p := when_open (zk_children p);
  zk_stop z := mkZkClient false (zk_stop (zc_zk z));
|}.

#[export] Instance zk_client_laws : ZooKeeperLaws zk_client WORKERS_PATH.
Proof.
  constructor.
  - intros [[] z]; cbn -[zk_model_api]; [|done]. pose proof (law_ensure z) as L. by destruct (zk_ensure_path _ z).
  - intros p d [[] z]; cbn -[zk_model_api]; [|split; [done|by left]].
    pose proof (law_create p d z) as L. by destruct (zk_create p d z) as [[] z'].
  - intros p [[] z]; cbn -[zk_model_api]; [|done]. pose proof (law_get p z) as L. by destruct (zk_get p z) as [[] z'].
  - intros p d [[] z]; cbn -[zk_model_api]; [|split; [done|by left]].
    pose proof (law_set p d z) as L. by destruct (zk_set p d z) as [[] z'].
  - intros [o z] q. cbn -[zk_model_api]. apply law_stop.
Qed.

#[export, refine] Instance zk_client_closed : ZooKeeperClosed zk_client :=
  {| zk_closed z := negb (zc_open z); closed_stop := _; closed_call := _ |}.
Proof.
  - done.
  - intros [[] z] z' Hz Hc; [done|]. by destruct Hc.
Defined.

(** ** A worker that starts, serves one request and is told to stop *)

Definition sample_serve_settings : serve_settings :=
  mkServeSettings 1 50051 true None None None (Some "8081"%string) (Some "h1:1"%string).

(** A codec for this worker's two registrations. *)
Definition sample_ready_text : string := "{address: h1:1, state: READY}".
Definition sample_serve_dumps (v : pyval) : string :=
  match v with
  | PyDict [_; (_, PyStr s)] => if bool_decide (s = "DRAINING"%string) then sample_text else sample_ready_text
  | _ => sample_ready_text
  end.
Definition sample_serve_loads (s : string) : pyval + string :=
  inl (PyDict [("address", PyStr "h1:1");
               ("state", PyStr (if bool_decide (s = sample_text) then "DRAINING" else "READY"))]%string).

Definition sample_serve_zk : zk_client := mkZkClient true (mkZk 7 ∅).

Definition sample_serve_events : list serve_event :=
  [EvMain 0 true; EvMain 0 true; EvMain 0 true; EvMain 0 true; EvLoop true; EvLoop true; EvRequest; EvSignal].
Definition sample_stop_events : list serve_event :=
  [EvMain 0 true; EvLoop true; EvLoop true; EvPublisher; EvPublisher].
Definition sample_end_events : list serve_event :=
  [EvMain 1 true; EvMain 0 true; EvMain 29 true; EvMain (1 # 2) true; EvMain 1 true; EvMain 0 true; EvMain (1 # 4) true; EvLoop true].

Definition sample_runs (es : list serve_event) (s : serve_state zk_client) : serve_state zk_client :=
  default s (serve_run sample_serve_dumps (λ _, true) sample_serve_settings es s).

Definition sample_waiting : serve_state zk_client := sample_runs sample_serve_events (serve_start sample_serve_zk).
Definition sample_draining : serve_state zk_client := sample_runs sample_stop_events sample_waiting.
Definition sample_ended : serve_state zk_client := sample_runs sample_end_events sample_draining.

Lemma serve_run_moves `{ZooKeeper Zk, !ZooKeeperLaws Zk WORKERS_PATH, !ZooKeeperClosed Zk} dumps can_bind c es :
  ∀ s s' : serve_state Zk, serve_run dumps can_bind c es s = Some s' → rtc (serve_move dumps c can_bind) s s'.
Proof.
  induction es as [|e es IH]; simpl; intros s s' Hs; [by simplify_eq|].
  destruct (serve_step dumps can_bind c e s) as [s1|] eqn:E; simplify_eq/=.
  eapply rtc_l; [left; by exists e|by apply IH].
Qed.

Definition sample_times : shutdown_times := mkTimes 30 30 (14 # 8) 0.

Example sample_ended_ok :
  sv_pc sample_ended = SvDone sample_times ∧ sv_cancelled sample_ended = 1%nat ∧ sv_closed sample_ended = Some 7.
Proof. vm_compute. done. Qed.

Lemma sample_reach : serve_reach sample_serve_dumps sample_serve_settings (λ _, true) sample_waiting.
Proof.
  exists sample_serve_zk. split; [done|]. apply (serve_run_moves _ _ _ sample_serve_events). vm_compute. reflexivity.
Qed.

Lemma sample_draining_reach : serve_reach sample_serve_dumps sample_serve_settings (λ _, true) sample_draining.
Proof.
  destruct sample_reach as (z & Hz & Hr). exists z. split; [done|]. etrans; [exact Hr|].
  apply (serve_run_moves _ _ _ sample_stop_events). vm_compute. reflexivity.
Qed.

Lemma worker_announced_only_while_serving_witness :
  zk_node "/inference/workers/worker-1"%string (sv_zk sample_draining) = Some (sample_text, 7) ∧
  accepts_requests (sv_server sample_draining) = true.
Proof.
  assert (zk_node "/inference/workers/worker-1"%string (sv_zk sample_draining) = Some (sample_text, 7)) as Hn
    by (vm_compute; reflexivity).
  split; [exact Hn|].
  pose proof (worker_announced_only_while_serving sample_serve_dumps sample_serve_settings (λ _, true) sample_draining
    "/inference/workers/worker-1"%string sample_text sample_draining_reach ltac:(discriminate)) as H.
  change (sv_closed sample_draining) with (@None Z) in H. by apply H.
Defined.

Lemma shutdown_is_bounded_witness :
  sv_pc sample_ended = SvDone sample_times ∧ (st_ended sample_times <= sv_clock sample_waiting + 30)%Q ∧
  sv_server sample_ended = SrvStopped ∧ (sv_clock sample_ended == 30 + (7 # 4))%Q.
Proof.
  pose (s1 := sample_runs [EvMain 0 true] sample_waiting).
  assert (serve_main_step sample_serve_dumps (λ _, true) sample_serve_settings 0 true sample_waiting = Some s1) as Hm
    by (vm_compute; reflexivity).
  assert (rtc (serve_move sample_serve_dumps sample_serve_settings (λ _, true)) s1 sample_ended) as Hr.
  { apply (serve_run_moves _ _ _ (drop 1 sample_stop_events ++ sample_end_events)). vm_compute. reflexivity. }
  pose proof (shutdown_is_bounded sample_serve_dumps sample_serve_settings (λ _, true) sample_waiting s1 sample_ended
    0 true sample_reach ltac:(vm_compute; reflexivity) Hm Hr) as H.
  assert (sv_pc sample_ended = SvDone sample_times) as Epc by (vm_compute; reflexivity).
  rewrite Epc in H. destruct H as (H1 & _ & _ & _ & H2 & _ & _ & H3).
  split_and!; [exact Epc|exact H2|exact H1|]. rewrite H3. vm_compute. reflexivity.
Defined.

(** The gateway's discovery, told of this worker's node. *)
Definition sample_gateway_nodes : gmap string string := {[ "worker-1"%string := sample_text ]}.
Definition sample_gateway_events : list disc_event :=
  disc_ok_obs ["worker-1"%string] :: replicate 5 (disc_ok_obs []).
Definition sample_discovery : disc_state :=
  default (disc_loop_init ∅) (disc_run sample_serve_loads sample_gateway_events (disc_loop_init sample_gateway_nodes)).
Definition sample_gateway_snapshot : list (string * WorkerInfo) := [("worker-1", mkWorkerInfo "h1:1" DRAINING)]%string.

Lemma draining_worker_is_out_of_rotation_witness :
  sv_pub sample_draining = PubEnded true ∧
  ∃ q g, member_at (reconcile sample_gateway_snapshot sample_world).2 "worker-1"%string = Some q ∧
    w_proxies (reconcile sample_gateway_snapshot sample_world).2 !! q = Some g ∧
    gw_worker_id g = "worker-1"%string ∧ gw_is_ready g = false ∧ ∀ batch, gw_try_submit batch g = (false, g).
Proof.
  assert (disc_run sample_serve_loads sample_gateway_events (disc_loop_init sample_gateway_nodes) = Some sample_discovery) as Hrun
    by (vm_compute; reflexivity).
  assert (dl_published sample_discovery = Some sample_gateway_snapshot) as Hpub by (vm_compute; reflexivity).
  assert (dl_nodes sample_discovery !! "worker-1"%string = Some sample_text) as Hds by (vm_compute; reflexivity).
  assert (at_rest sample_discovery) as Hq by (vm_compute; repeat split).
  assert (zk_node (worker_path 1) (sv_zk sample_draining) = Some (sample_text, 7)) as Hn by (vm_compute; reflexivity).
  assert (sv_pub sample_draining = PubEnded true) as Hp by (vm_compute; reflexivity).
  split; [exact Hp|].
  apply (draining_worker_is_out_of_rotation sample_serve_dumps sample_serve_settings (λ _, true) sample_serve_loads
    sample_draining sample_text sample_discovery sample_gateway_nodes sample_gateway_events
    sample_gateway_snapshot sample_world sample_draining_reach Hp); try assumption;
    try (vm_compute; reflexivity); [discriminate|exact sample_world_wf].
Defined.
