(* ===== verification/TextWorker.v ===== *)
(** The adapter of the text service, [TextWorker] of [src/system/worker_text.py]: what it
    accepts, what it sends, and what it takes back; and its agreement with the checks
    of the API endpoint that produces its tasks. *)
From stdpp Require Import pretty.
From S2P Require Import Prelude PyVal Tasks Queue Config JobStore Deployment ApiServer.

Definition MODEL : string := "text_v1.2.3".
Definition REFINEMENT : string := "text_v1.2_refinement".

(** [MODEL_KINDS]. *)
Definition MODEL_KINDS : list (string * string) :=
  [(MODEL, "synthx_text_v123"); (REFINEMENT, "synthx_text_refinement")]%string.

(** [ROUTES]. *)
Definition ROUTES : list (string * string) :=
  [("retrieve", "/text-v1/retrieve"); ("rerank", "/text-v1/rerank")]%string.

Definition MAX_RESULT : Z := 8 * 1024 * 1024.

(** A [WorkerError]: its code and text. *)
Abbreviation worker_error := (string * string)%type (only parsing).

(** [set(d) == {...}] for a dict and distinct names. *)
Definition has_exactly (d : list (string * pyval)) (names : list string) : bool :=
  bool_decide (length d = length names) && forallb (λ k, bool_decide (k ∈ dict_keys d)) names.

Definition invalid (msg : string) : worker_error := ("invalid_spec"%string, msg).

Record text_config := mkTextConfig { base_url : string; refinement_url : string }.

Definition service_url (c : text_config) (model : string) : string :=
  if bool_decide (model = REFINEMENT) then refinement_url c else base_url c.

(** The three anchors a refinement must carry. *)
Definition anchors_present (payload : list (string * pyval)) : bool :=
  forallb (nonempty_str payload)
    ["anchor_candidate_id"; "anchor_native_sha256"; "anchor_audio_sha256"]%string.

(** The part of [process] before the slot: the model, operation, payload and target
    URL, or the error.  [size] is the length of the payload's encoding, [None] when it
    has none. *)
Definition text_spec (c : text_config) (data : pyval) (size : pyval → option Z)
    : (string * string * list (string * pyval) * string) + worker_error :=
  match data with
  | PyDict d =>
      if negb (has_exactly d ["kind"; "model"; "operation"; "payload"]%string)
      then inr (invalid "text task must pin a supported text model")
      else
        match dict_get d "model" PyNone with
        | PyStr model =>
            match dict_lookup MODEL_KINDS model with
            | None => inr (invalid "text task must pin a supported text model")
            | Some kind =>
                if negb (py_eq_str (dict_get d "kind" PyNone) kind)
                then inr (invalid "text task capability does not match model")
                else if bool_decide (service_url c model = EmptyString)
                then inr (invalid "MFCC refinement service is not configured")
                else
                  match dict_get d "operation" PyNone, dict_get d "payload" PyNone with
                  | PyStr op, PyDict payload =>
                      match dict_lookup ROUTES op with
                      | None => inr (invalid "only text retrieve/rerank operations are allowed")
                      | Some route =>
                          let retrieve := bool_decide (op = "retrieve"%string) in
                          let similar := py_eq_str (dict_get payload "operation" PyNone) "retrieve_similar" in
                          if retrieve && negb (py_eq_str (dict_get payload "pipeline_version" PyNone) model)
                          then inr (invalid "retrieval pipeline does not match text worker")
                          else if retrieve
                               && negb (py_eq_str (dict_get payload "target_engine" PyNone) "vital"
                                        || py_eq_str (dict_get payload "target_engine" PyNone) "serum2")
                          then inr (invalid "text_v1.2.3 requires target_engine")
                          else if retrieve && bool_decide (model = REFINEMENT)
                               && (negb similar || negb (anchors_present payload))
                          then inr (invalid "MFCC refinement requires a verified bank anchor")
                          else if retrieve && bool_decide (model = MODEL) && similar
                          then inr (invalid "anchor retrieval must use the separate refinement pipeline")
                          else
                            match size (PyDict payload) with
                            | None => inr (invalid "text payload must be finite JSON")
                            | Some n =>
                                if 256 * 1024 <? n then inr (invalid "text payload exceeds 256 KiB")
                                else inl (model, op, payload, (service_url c model +:+ route)%string)
                            end
                      end
                  | _, _ => inr (invalid "only text retrieve/rerank operations are allowed")
                  end
            end
        | _ => inr (invalid "text task must pin a supported text model")
        end
  | _ => inr (invalid "text task must pin a supported text model")
  end.

(** ** The call *)

(** What the service answers: a body (its length, and its JSON value unless it is not
    finite JSON), an HTTP error, or a failed request (whether it timed out). *)
Inductive service_outcome :=
| ServiceBody (length : Z) (value : option pyval)
| ServiceHttpError (code : Z)
| ServiceFailure (timed_out : bool).

(** The i-th check observes a clock reading and whether the caller is connected. *)
Record text_obs := mkTextObs {
  to_clock : nat → Q;
  to_active : nat → bool;
}.

(** [_check]. *)
Definition text_check (ob : text_obs) (deadline : option Q) (i : nat) : option worker_error :=
  if match deadline with Some d => d <=?q to_clock ob i | None => false end
  then Some ("deadline_exceeded", "text task deadline exceeded")%string
  else if negb (to_active ob i) then Some ("cancelled", "text task caller disconnected")%string
  else None.

Definition http_error_code (code : Z) : string :=
  if bool_decide (code ∈ [400; 404; 422]) then "invalid_spec"
  else if bool_decide (code ∈ [429; 503]) then "overloaded"
  else "worker_error".

(** The checks of the answer. *)
Definition text_result (model op : string) (payload : list (string * pyval)) (length : Z)
    (value : option pyval) : pyval + worker_error :=
  if MAX_RESULT <? length then inr ("invalid_result", "text result exceeds 8 MiB")%string
  else
    match value with
    | None => inr ("invalid_result", "text result must be finite JSON")%string
    | Some (PyDict r) =>
        let model_of := dict_get r "model" PyNone in
        let wrong := ("invalid_result", "Vast text service returned a different model version")%string in
        if bool_decide (op = "retrieve"%string)
           && negb (match dict_get payload "pipeline_version" PyNone with
                    | PyStr v => py_eq_str model_of v | _ => false end)
        then inr wrong
        else if bool_decide (model = MODEL) && negb (py_eq_str model_of MODEL) then inr wrong
        else inl (PyDict [("model", PyStr model); ("operation", PyStr op); ("result", PyDict r)]%string)
    | Some _ => inr ("invalid_result", "text result must be an object")%string
    end.

(** The request sent: its URL and its time-out. *)
Definition text_timeout (ob : text_obs) (deadline : option Q) (op : string) : Q :=
  let base := if bool_decide (op = "retrieve"%string) then 600%Q else 180%Q in
  match deadline with
  | Some d => Qmin base (Qmax (1 # 1000) (d - to_clock ob 2))
  | None => base
  end.

(** [process]: the outcome, the requests sent, and the slot afterwards. [service] is
    the text service's answer to a URL, payload and time-out. *)
Definition text_process (c : text_config) (size : pyval → option Z)
    (service : string → list (string * pyval) → Q → service_outcome)
    (ob : text_obs) (deadline : option Q) (slot_free : bool) (data : pyval)
    : (pyval + worker_error) * list (string * Q) * bool :=
  match text_check ob deadline 0 with
  | Some e => (inr e, [], slot_free)
  | None =>
      match text_spec c data size with
      | inr e => (inr e, [], slot_free)
      | inl (model, op, payload, url) =>
          if negb slot_free then (inr ("busy", "text worker is busy")%string, [], slot_free)
          else
            (* the slot is held from here and released by [finally] *)
            match text_check ob deadline 1 with
            | Some e => (inr e, [], true)
            | None =>
                let timeout := text_timeout ob deadline op in
                let sent := [(url, timeout)] in
                match service url payload timeout with
                | ServiceHttpError code =>
                    (inr (http_error_code code, ("Vast text service returned HTTP " +:+ pretty code)%string), sent, true)
                | ServiceFailure timed_out =>
                    (inr ((if timed_out then "deadline_exceeded" else "transport_error")%string,
                          "Vast text service request failed"%string), sent, true)
                | ServiceBody length value =>
                    match text_check ob deadline 3 with
                    | Some e => (inr e, sent, true)
                    | None => (text_result model op payload length value, sent, true)
                    end
                end
            end
      end
  end.

(** ** Properties *)

(** The text worker calls the service at most once, and only when it may: for a
    task that pins a supported model and its kind, names a known operation, stays
    within the size limit, while the caller is connected, the deadline has not passed
    and no other call is running; the request goes to the URL of the pinned model and
    is never given more time than the deadline leaves (a millisecond at least); and the
    slot is free afterwards exactly if it was before. *)
Theorem text_process_sends_only_valid (c : text_config) (size : pyval → option Z)
    (service : string → list (string * pyval) → Q → service_outcome)
    (ob : text_obs) (deadline : option Q) (slot : bool) (data : pyval) :
  let '(out, sent, slot') := text_process c size service ob deadline slot data in
  slot' = slot ∧
  (sent = [] ∨ ∃ model op payload route timeout,
     sent = [(service_url c model +:+ route, timeout)%string] ∧
     text_spec c data size = inl (model, op, payload, (service_url c model +:+ route)%string) ∧
     slot = true ∧ to_active ob 1 = true ∧
     (∀ d, deadline = Some d → (to_clock ob 1 < d)%Q ∧
        (timeout <= Qmax (1 # 1000) (d - to_clock ob 2))%Q)).
Proof.
  unfold text_process. destruct (text_check ob deadline 0); [by split; [|left]|].
  destruct (text_spec c data size) as [[[[model op] payload] url]|e] eqn:Es;
    [|by split; [|left]].
  assert (∃ route, url = (service_url c model +:+ route)%string) as [route ->].
  { unfold text_spec in Es. repeat case_match; try discriminate; injection Es as <- <- <- <-; eauto. }
  destruct slot; simpl; [|by split; [|left]].
  destruct (text_check ob deadline 1) eqn:E1; [by split; [|left]|].
  assert (to_active ob 1 = true ∧ ∀ d, deadline = Some d → (to_clock ob 1 < d)%Q) as [Hact Hd].
  { unfold text_check in E1. destruct deadline as [d|]; simpl in E1.
    - destruct (d <=?q to_clock ob 1) eqn:E; [done|]. apply Qleb_false in E.
      destruct (to_active ob 1); [|done]. split; [done|]. by intros ? [= <-].
    - destruct (to_active ob 1); [|done]. by split. }
  assert (∀ d, deadline = Some d →
    (text_timeout ob deadline op <= Qmax (1 # 1000) (d - to_clock ob 2))%Q) as Ht.
  { intros d ->. apply Q.le_min_r. }
  destruct (service _ payload _) as [len v|code|to]; [destruct (text_check ob deadline 3)|..];
    (split; [done|]); right; exists model, op, payload, route, (text_timeout ob deadline op);
    split_and!; try done; intros d Hdd; auto.
Qed.

Lemma text_spec_input c b size :
  text_spec c (text_input b) size =
  let model := text_model_name (tt_model b) in
  let retrieve := bool_decide (tt_operation b = Retrieve) in
  let similar := py_eq_str (dict_get (tt_payload b) "operation" PyNone) "retrieve_similar" in
  if bool_decide (service_url c model = EmptyString)
  then inr (invalid "MFCC refinement service is not configured")
  else if retrieve && negb (py_eq_str (dict_get (tt_payload b) "pipeline_version" PyNone) model)
  then inr (invalid "retrieval pipeline does not match text worker")
  else if retrieve && negb (py_eq_str (dict_get (tt_payload b) "target_engine" PyNone) "vital"
                            || py_eq_str (dict_get (tt_payload b) "target_engine" PyNone) "serum2")
  then inr (invalid "text_v1.2.3 requires target_engine")
  else if retrieve && bool_decide (tt_model b = TextRefinement)
          && (negb similar || negb (anchors_present (tt_payload b)))
  then inr (invalid "MFCC refinement requires a verified bank anchor")
  else if retrieve && bool_decide (tt_model b = TextV123) && similar
  then inr (invalid "anchor retrieval must use the separate refinement pipeline")
  else
    match size (PyDict (tt_payload b)) with
    | None => inr (invalid "text payload must be finite JSON")
    | Some n =>
        if 256 * 1024 <? n then inr (invalid "text payload exceeds 256 KiB")
        else inl (model, text_operation_name (tt_operation b), tt_payload b,
                  (service_url c model +:+ match tt_operation b with
                     | Retrieve => "/text-v1/retrieve" | Rerank => "/text-v1/rerank" end)%string)
    end.
Proof. destruct b as [[] [] payload]; reflexivity. Qed.

(** The endpoint and the worker agree: a task the API creates passes the worker's
    checks exactly if it passed the API's own, the service of its model is configured,
    and a retrieval names one of the two target engines — the one requirement the API
    does not check. *)
Theorem text_worker_accepts_api_tasks (c : text_config) (b : TextTaskRequest)
    (size : pyval → option Z) :
  (∃ spec, text_spec c (text_input b) size = inl spec) ↔
  text_rejection (size (PyDict (tt_payload b))) b = None ∧
  service_url c (text_model_name (tt_model b)) ≠ EmptyString ∧
  (tt_operation b = Retrieve →
   dict_get (tt_payload b) "target_engine" PyNone = PyStr "vital" ∨
   dict_get (tt_payload b) "target_engine" PyNone = PyStr "serum2").
Proof.
  rewrite text_spec_input. unfold text_rejection. fold (anchors_present (tt_payload b)).
  cbv zeta. rewrite <- !py_eq_str_true.
  destruct (bool_decide (service_url c _ = EmptyString)) eqn:Eu.
  { apply bool_decide_eq_true in Eu. split; [by intros [? ?]|]. by intros (_ & ? & _). }
  apply bool_decide_eq_false in Eu.
  destruct (tt_operation b); [rewrite (bool_decide_eq_true_2 (Retrieve = Retrieve)) by done
                             |rewrite (bool_decide_eq_false_2 (Rerank = Retrieve)) by done];
    cbn [andb].
  - destruct (py_eq_str (dict_get _ "target_engine" _) "vital"),
      (py_eq_str (dict_get _ "target_engine" _) "serum2"); cbn [orb negb];
      repeat case_match; naive_solver.
  - destruct (size _) as [n|]; [destruct (256 * 1024 <? n)|]; naive_solver.
Qed.

(** A reranking that succeeds. *)
Example sample_rerank :
  (text_process (mkTextConfig "http://t" EmptyString) (λ _, Some 2)
     (λ _ _ _, ServiceBody 30 (Some (PyDict [("model", PyStr "text_v1.2.3")]%string)))
     (mkTextObs (λ _, 0%Q) (λ _, true)) (Some 10%Q) true
     (text_input (mkTextTaskRequest TextV123 Rerank []))).1.2
  = [("http://t/text-v1/rerank"%string, 10%Q)].
Proof. vm_compute. reflexivity. Qed.
