(* ===== verification/V73Worker.v ===== *)
(** The bridge to the calibrated model, [src/system/worker_v73.py]: validation of the
    task envelope, the per-job state file that survives crashes, the single request to
    the model daemon, and the verification of what it left behind.

    A run of the collector is a sequence of persistent effects; the process may die
    before any of them.  The monad [V] carries the number of effects left before it
    does, so that every prefix of a run is covered. *)
From S2P Require Import Prelude PyVal Tasks TextWorker.

Definition CHECKPOINT_SHA256 : string :=
  "ba67d1234be517da77f9a4fdfe26b6c5831bda461ee44d2c4bf400d9367a0d86".
Definition MAX_INPUT_BYTES : Z := 50 * 1024 * 1024.
Definition REQUIRED : list string :=
  ["final.vital"; "final.unified.json"; "final.wav"; "result.json"]%string.
Definition OPTIONAL : list string :=
  ["selected.wav"; "mono_preview.wav"; "predicted.mid"; "performance.json"]%string.

(** ** Validation *)

Definition is_hex (c : Ascii.ascii) : bool :=
  let n := Ascii.nat_of_ascii c in
  (((48 <=? n) && (n <=? 57)) || ((97 <=? n) && (n <=? 102)))%nat.

(** [str(uuid.UUID(value)) == value]: the canonical lower-case form. *)
Fixpoint uuid_shape (groups : list nat) (l : list Ascii.ascii) : bool :=
  match groups with
  | [] => false
  | [n] => bool_decide (length l = n) && forallb is_hex l
  | n :: groups' =>
      bool_decide (length (take n l) = n) && forallb is_hex (take n l)
      && match drop n l with
         | c :: l' => bool_decide (Ascii.nat_of_ascii c = 45%nat) && uuid_shape groups' l'
         | [] => false
         end
  end.

Definition is_uuid (v : pyval) : bool :=
  match v with
  | PyStr s => uuid_shape [8; 4; 4; 4; 12]%nat (String.list_ascii_of_string s)
  | _ => false
  end.

(** [re.fullmatch('[0-9a-f]{64}', s)]. *)
Definition is_sha256 (v : pyval) : bool :=
  match v with
  | PyStr s => let l := String.list_ascii_of_string s in
               bool_decide (length l = 64%nat) && forallb is_hex l
  | _ => false
  end.

(** The fields of an accepted specification. *)
Record v73_spec := mkV73Spec {
  vs_job_id : string;
  vs_project_id : string;
  vs_user_id : string;
  vs_mode : string;
  vs_key : string;
  vs_sha256 : string;
  vs_size : Z;
  vs_output_prefix : string;
}.

Definition get_str (d : list (string * pyval)) (k : string) : string :=
  match dict_get d k PyNone with PyStr s => s | _ => EmptyString end.

(** [f"projects/{project}/jobs/{job}/"]. *)
Definition job_base (project job : string) : string :=
  ("projects/" +:+ project +:+ "/jobs/" +:+ job +:+ "/")%string.

Definition valid_input (base : string) (inp : pyval) : bool :=
  match inp with
  | PyDict i =>
      has_exactly i ["bucket"; "key"; "sha256"; "size_bytes"]%string
      && py_eq_str (dict_get i "bucket" PyNone) "synthx-jobs"
      && py_eq_str (dict_get i "key" PyNone) (base +:+ "input.wav")%string
      && match dict_get i "size_bytes" PyNone with
         | PyInt n => (0 <? n) && (n <=? MAX_INPUT_BYTES)
         | _ => false
         end
      && is_sha256 (dict_get i "sha256" PyNone)
  | _ => false
  end.

Definition valid_spec (spec : pyval) : bool :=
  match spec with
  | PyDict s =>
      has_exactly s ["job_id"; "project_id"; "user_id"; "model"; "checkpoint_sha256";
                     "mode"; "input"; "output_prefix"]%string
      && is_uuid (dict_get s "job_id" PyNone) && is_uuid (dict_get s "project_id" PyNone)
      && match dict_get s "user_id" PyNone with PyStr u => negb (bool_decide (u = EmptyString)) | _ => false end
      && py_eq_str (dict_get s "model" PyNone) "v7_3_full"
      && py_eq_str (dict_get s "checkpoint_sha256" PyNone) CHECKPOINT_SHA256
      && (py_eq_str (dict_get s "mode" PyNone) "poly" || py_eq_str (dict_get s "mode" PyNone) "mono")
      && valid_input (job_base (get_str s "project_id") (get_str s "job_id")) (dict_get s "input" PyNone)
      && py_eq_str (dict_get s "output_prefix" PyNone)
           (job_base (get_str s "project_id") (get_str s "job_id") +:+ "results/")%string
  | _ => false
  end.

(** [validate_payload]: the specification, or [None] for its [WorkerError] with code
    [invalid_spec]. *)
Definition validate_payload (payload : pyval) : option (pyval * v73_spec) :=
  match payload with
  | PyDict p =>
      if has_exactly p ["kind"; "spec"; "attempt_id"]%string
         && py_eq_str (dict_get p "kind" PyNone) "synthx_v73"
         && is_uuid (dict_get p "attempt_id" PyNone)
         && valid_spec (dict_get p "spec" PyNone)
      then
        match dict_get p "spec" PyNone with
        | PyDict s =>
            let i := match dict_get s "input" PyNone with PyDict i => i | _ => [] end in
            Some (PyDict s,
              mkV73Spec (get_str s "job_id") (get_str s "project_id") (get_str s "user_id")
                (get_str s "mode") (get_str i "key") (get_str i "sha256")
                (match dict_get i "size_bytes" PyNone with PyInt n => n | _ => 0 end)
                (get_str s "output_prefix"))
        | _ => None
        end
      else None
  | _ => None
  end.

(** ** The job's persistent state *)

(** [state.json]. *)
Record job_file := mkJobFile {
  jf_fingerprint : string;
  jf_output : string;
  jf_running : bool;
  jf_response : option pyval;
  jf_result : option pyval;
  jf_error : option (string * string);
}.

(** The state file ([None]: absent), the verified input, and what reached the outside:
    requests whose bytes were sent to the daemon, and artifacts uploaded. *)
Record v73_world := mkV73World {
  vw_file : option job_file;
  vw_input : option (string * Z);          (* digest and size of input.wav *)
  vw_sends : Z;
  vw_uploads : list (string * string);     (* key and digest *)
}.

Definition vw_init : v73_world := mkV73World None None 0 [].

(** A result, a [WorkerError] (code, text, retryable), or the death of the process. *)
Inductive v_out (A : Type) := VRet (a : A) | VErr (code msg : string) (retryable : bool) | VCrash.
Arguments VRet {A}.
Arguments VErr {A}.
Arguments VCrash {A}.

(** [fst] is the number of effects before the crash. *)
Definition V (A : Type) : Type := nat * v73_world → v_out A * (nat * v73_world).

#[export] Instance v_ret : MRet V := λ A a s, (VRet a, s).
#[export] Instance v_bind : MBind V := λ A B k m s,
  let '(o, s) := m s in
  match o with VRet a => k a s | VErr c g r => (VErr c g r, s) | VCrash => (VCrash, s) end.

Definition v_raise {A} (code msg : string) (retryable : bool) : V A := λ s, (VErr code msg retryable, s).

(** A persistent effect. *)
Definition v_effect (f : v73_world → v73_world) : V () := λ s,
  match s with
  | (O, w) => (VCrash, (O, w))
  | (S n, w) => (VRet tt, (n, f w))
  end.

(** [try: m except WorkerError as exc: handler; raise]. *)
Definition v_on_error {A} (m : V A) (handler : string → string → bool → V ()) : V A := λ s,
  let '(o, s) := m s in
  match o with
  | VErr c g r =>
      let '(o2, s) := handler c g r s in
      match o2 with VRet _ => (VErr c g r, s) | VErr c2 g2 r2 => (VErr c2 g2 r2, s) | VCrash => (VCrash, s) end
  | _ => (o, s)
  end.

(** [_write_json(state_path, state)]: atomic replacement of the file. *)
Definition save (st : job_file) : V () :=
  v_effect (λ w, mkV73World (Some st) (vw_input w) (vw_sends w) (vw_uploads w)).

Definition v_file : V (option job_file) := λ s, (VRet (vw_file s.2), s).

(** ** Observations of one run *)

(** A file of the output directory: its digest, its size, and its JSON value if it is
    a JSON document. *)
Record artifact := mkArtifact { ar_sha256 : string; ar_size : Z; ar_json : option pyval }.

(** What a fixed name of the output directory denotes. *)
Inductive entry := Absent | Linked | Directory | Regular (a : artifact).

Record v73_obs := mkV73Obs {
  vo_finite : bool;                      (* the deadline is absent or finite *)
  vo_active : nat → bool;                (* the i-th _check_active passes *)
  vo_job_safe : bool;                    (* the job's directory is no symbolic link *)
  vo_job_lock : bool;                    (* the job's lock is free *)
  vo_model_lock : bool;                  (* the execution lock is free *)
  vo_out_safe : bool;                    (* the output directory is no symbolic link *)
  vo_out_exists : bool;                  (* the output directory exists *)
  vo_entry : string → entry;             (* its entries *)
  vo_endpoint : bool;                    (* the storage client exists or is configured *)
  vo_download : option (option Z * list string);  (* announced length and chunks; None: storage failed *)
  vo_connect : bool;                     (* the daemon's socket accepts *)
  vo_daemon : option pyval;              (* its reply, if a valid frame arrived *)
  vo_put : string → bool;                (* the upload of an artifact completed *)
  vo_cancelled : bool;                   (* the caller stopped waiting for the collector *)
}.

(** Where a path given by the model leads. *)
Inductive located := Unsafe | Outside | Below (name : string).

Section worker.
(** [sha256] of the concatenated chunks; the fingerprint of a specification; the
    output directory of a job; where a path leads, resolved against an output
    directory: outside the deployment or through a symbolic link, outside the output
    directory, or to a name below it. *)
Context (sha256 : list string → string).
Context (fingerprint : pyval → string).
Context (out_dir : string → string).
Context (locate : string → string → located).

(** ** [_download] *)

(** The reading loop: what was read and its length, or the error.  An empty chunk ends
    the body. *)
Fixpoint read_chunks (size total : Z) (chunks : list string) : option (list string * Z) :=
  match chunks with
  | [] | EmptyString :: _ => Some ([], total)
  | c :: chunks' =>
      let total := total + Z.of_nat (String.length c) in
      if (MAX_INPUT_BYTES <? total) || (size <? total) then None
      else '(read, total) ← read_chunks size total chunks'; Some (c :: read, total)
  end.

Definition download (spec : v73_spec) (ob : v73_obs) : V () :=
  if negb (vo_endpoint ob)
  then v_raise "worker_configuration" "SUPABASE_S3_ENDPOINT is required" false
  else
  match vo_download ob with
  | None => v_raise "storage_error" "input download failed" true
  | Some (announced, chunks) =>
      if negb (default (vs_size spec) announced =? vs_size spec)
      then v_raise "input_integrity_error" "download size differs from spec" false
      else
        match read_chunks (vs_size spec) 0 chunks with
        | None => v_raise "input_integrity_error" "download exceeds declared input size" false
        | Some (read, total) =>
            if negb (total =? vs_size spec) || negb (bool_decide (sha256 read = vs_sha256 spec))
            then v_raise "input_integrity_error" "download SHA256 or size differs from spec" false
            else v_effect (λ w, mkV73World (vw_file w) (Some (sha256 read, total)) (vw_sends w) (vw_uploads w))
        end
  end.

Definition check_active (ob : v73_obs) (i : nat) : V () :=
  if vo_active ob i then mret tt
  else v_raise "deadline_exceeded" "request deadline exceeded" false.

(** ** [_call_daemon] *)

Definition with_running (b : bool) (st : job_file) : job_file :=
  mkJobFile (jf_fingerprint st) (jf_output st) b (jf_response st) (jf_result st) (jf_error st).

(** [isinstance(response, dict) and type(response.get('ok')) is bool]. *)
Definition valid_response (v : pyval) : bool :=
  match v with
  | PyDict d => match dict_get d "ok" PyNone with PyBool _ => true | _ => false end
  | _ => false
  end.

Definition call_daemon (ob : v73_obs) (st : job_file) : V pyval :=
  if negb (vo_connect ob) then v_raise "worker_unavailable" "model socket is unavailable" true
  else
    save (with_running true st) ;;
    v_effect (λ w, mkV73World (vw_file w) (vw_input w) (vw_sends w + 1) (vw_uploads w)) ;;
    match vo_daemon ob with
    | Some v => if valid_response v then mret v
                else v_raise "already_running" "daemon result is unresolved" true
    | None => v_raise "already_running" "daemon result is unresolved" true
    end.

(** ** [_upload_result] *)

Definition bad (msg : string) : string * string := ("invalid_artifacts"%string, msg).

Definition symlink_text : string := "local path is outside deployment or contains a symlink".

(** [_verify_path]: the name of the file below the output directory that a reference
    denotes. *)
Definition verify_path (out : string) (reference : pyval) : string + (string * string) :=
  match reference with
  | PyStr r => match locate out r with
               | Unsafe => inr (bad symlink_text)
               | Outside => inr (bad "artifact escapes job output")
               | Below name => inl name
               end
  | _ => inr (bad "artifact path must be a string")
  end.

(** One entry of [_verify_manifest]. *)
Definition verify_entry (out : string) (required : bool) (files : list (string * artifact))
    (name : string) (reference : pyval) : option (string * string) :=
  let descriptor := match reference with PyDict d => d | _ => [] end in
  let path := match descriptor with [] => reference | _ => dict_get descriptor "path" PyNone end in
  match verify_path out path with
  | inr e => Some e
  | inl candidate =>
      match dict_lookup files name with
      | None => None
      | Some a =>
          if negb (bool_decide (candidate = name))
          then Some (bad "artifact path does not match its fixed filename")
          else if required && negb (py_eq_str (dict_get descriptor "sha256" PyNone) (ar_sha256 a))
          then Some (bad "model artifact SHA256 does not match file")
          else match dict_lookup descriptor "sha256" with
               | Some v => if py_eq_str v (ar_sha256 a) then None
                           else Some (bad "model artifact SHA256 does not match file")
               | None => None
               end
      end
  end.

Fixpoint verify_entries (out : string) (required : bool) (files : list (string * artifact))
    (manifest : list (string * pyval)) : option (string * string) :=
  match manifest with
  | [] => None
  | (name, reference) :: manifest' =>
      match verify_entry out required files name reference with
      | Some e => Some e
      | None => verify_entries out required files manifest'
      end
  end.

Definition verify_manifest (out : string) (required : bool) (files : list (string * artifact))
    (manifest : pyval) : option (string * string) :=
  match manifest with
  | PyDict m =>
      if required && negb (forallb (λ n, bool_decide (n ∈ dict_keys m))
                             ["final.vital"; "final.unified.json"; "final.wav"]%string)
      then Some (bad "required artifact is missing from model report")
      else verify_entries out required files m
  | _ => Some (bad "invalid model artifact manifest")
  end.

(** The files considered, in the order of the names. *)
Fixpoint collect_files (entry_of : string → entry) (names : list string)
    : list (string * artifact) + (string * string) :=
  match names with
  | [] => inl []
  | n :: names' =>
      match entry_of n with
      | Linked => inr (bad symlink_text)
      | Regular a => match collect_files entry_of names' with
                     | inl files => inl ((n, a) :: files)
                     | inr e => inr e
                     end
      | Absent => if bool_decide (n ∈ OPTIONAL) then collect_files entry_of names'
                  else inr (bad ("required artifact is missing: " +:+ n))
      | Directory => inr (bad ("required artifact is missing: " +:+ n))
      end
  end.

(** Everything [_upload_result] checks before it uploads: the files and the parameter
    document, or the error. *)
Definition verify_result (spec : v73_spec) (ob : v73_obs) (response : pyval)
    : (list (string * artifact) * pyval) + (string * string) :=
  let out := out_dir (vs_job_id spec) in
  if negb (py_truthy (pyval_get response "ok" PyNone))
  then inr ("model_error", "model daemon reported an execution failure")%string
  else
    match pyval_get response "result" PyNone with
    | PyDict report =>
        if py_eq_str (dict_get report "status" PyNone) "no_usable_note"
        then inr ("no_usable_note", "model found no usable note")%string
        else if negb (py_eq_str (dict_get report "status" PyNone) "completed")
        then inr ("model_error", "model did not complete inference")%string
        else if negb (py_eq_str (dict_get report "output" PyNone) out)
        then inr (bad "model output directory does not match job")
        else if negb (vo_out_safe ob) then inr (bad symlink_text)
        else
          match collect_files (vo_entry ob) (REQUIRED ++ OPTIONAL) with
          | inr e => inr e
          | inl files =>
              match (a ← dict_lookup files "final.unified.json"; ar_json a),
                    (a ← dict_lookup files "result.json"; ar_json a) with
              | Some (PyDict parameters), Some (PyDict detail) =>
                  if negb (py_eq_str (dict_get detail "status" PyNone) "completed")
                  then inr (bad "invalid Unified parameter document")
                  else if negb (py_eq_str (dict_get detail "checkpoint_sha256" PyNone) CHECKPOINT_SHA256)
                  then inr ("checkpoint_mismatch", "model report checkpoint differs from pinned release")%string
                  else if negb (py_eq_str (dict_get detail "mode" PyNone) (vs_mode spec))
                  then inr (bad "model report mode differs from job spec")
                  else
                    match verify_manifest out false files (dict_get report "artifacts" (PyDict [])) with
                    | Some e => inr e
                    | None =>
                        match verify_manifest out true files (dict_get detail "artifacts" (PyDict [])) with
                        | Some e => inr e
                        | None =>
                            match verify_path out (dict_get report "report" PyNone) with
                            | inr e => inr e
                            | inl name =>
                                if bool_decide (name = "result.json"%string)
                                then inl (files, PyDict parameters)
                                else inr (bad "model report must be this job result.json")
                            end
                        end
                    end
              | _, _ => inr (bad "invalid Unified parameter document")
              end
          end
    | _ => inr ("model_error", "invalid model result")%string
    end.

Definition metadata_of (spec : v73_spec) (name : string) (a : artifact) : pyval :=
  PyDict [("bucket", PyStr "synthx-jobs"); ("key", PyStr (vs_output_prefix spec +:+ name));
          ("sha256", PyStr (ar_sha256 a)); ("size_bytes", PyInt (ar_size a))]%string.

(** The uploads run in threads: one that fails stops none that is under way. *)
Fixpoint upload_files (spec : v73_spec) (ob : v73_obs) (files : list (string * artifact)) : V () :=
  match files with
  | [] => mret tt
  | (name, a) :: files' =>
      if vo_put ob name then
        v_effect (λ w, mkV73World (vw_file w) (vw_input w) (vw_sends w)
                         (vw_uploads w ++ [((vs_output_prefix spec +:+ name)%string, ar_sha256 a)])) ;;
        upload_files spec ob files'
      else
        upload_files spec ob files' ;;
        v_raise "storage_error" "artifact upload failed" true
  end.

Definition published (spec : v73_spec) (files : list (string * artifact)) (parameters : pyval) : pyval :=
  PyDict [("job_id", PyStr (vs_job_id spec)); ("model", PyStr "v7_3_full");
          ("checkpoint_sha256", PyStr CHECKPOINT_SHA256);
          ("artifacts", PyDict (map (λ '(n, a), (n, metadata_of spec n a)) files));
          ("parameter_json", parameters)]%string.

Definition upload_result (spec : v73_spec) (ob : v73_obs) (response : pyval) : V pyval :=
  match verify_result spec ob response with
  | inr (code, msg) => v_raise code msg false
  | inl (files, parameters) =>
      if negb (vo_endpoint ob) then v_raise "storage_error" "artifact upload failed" true
      else upload_files spec ob files ;; mret (published spec files parameters)
  end.

(** ** [_execute] *)

Definition with_response (r : pyval) (st : job_file) : job_file :=
  mkJobFile (jf_fingerprint st) (jf_output st) false (Some r) (jf_result st) (jf_error st).
Definition with_result (r : pyval) (st : job_file) : job_file :=
  mkJobFile (jf_fingerprint st) (jf_output st) (jf_running st) (jf_response st) (Some r) (jf_error st).
Definition with_error (c g : string) (st : job_file) : job_file :=
  mkJobFile (jf_fingerprint st) (jf_output st) (jf_running st) (jf_response st) (jf_result st) (Some (c, g)).

(** The response the job already has, or the daemon's. *)
Definition obtain_response (spec : v73_spec) (ob : v73_obs) (st : job_file) : V (job_file * pyval) :=
  match jf_response st with
  | Some r => mret (st, r)
  | None =>
      download spec ob ;;
      check_active ob 1 ;;
      r ← call_daemon ob st;
      save (with_response r st) ;;
      mret (with_response r st, r)
  end.

(** The body of the [try]. *)
Definition run_job (spec : v73_spec) (ob : v73_obs) (st : job_file) : V pyval :=
  sr ← obtain_response spec ob st;
  result ← upload_result spec ob (sr.2);
  save (with_result result (sr.1)) ;;
  mret result.

(** The handler records an error that no retry can mend; the state file holds the state
    in memory whenever such an error is raised. *)
Definition record_error (code msg : string) (retryable : bool) : V () :=
  if negb retryable && negb (bool_decide (code = "deadline_exceeded"%string)) then
    f ← v_file;
    match f with Some st => save (with_error code msg st) | None => mret tt end
  else mret tt.

Definition execute (spec : v73_spec) (fp : string) (ob : v73_obs) (st : job_file) : V pyval :=
  let st := mkJobFile fp (out_dir (vs_job_id spec)) (jf_running st) (jf_response st)
              (jf_result st) (jf_error st) in
  save st ;; v_on_error (run_job spec ob st) record_error.

(** ** [process] *)

(** [_recover_response]: the response, none, or the error of an unsafe path. *)
Definition recover_response (spec : v73_spec) (ob : v73_obs) (st : job_file)
    : option pyval + (string * string) :=
  let out := out_dir (vs_job_id spec) in
  if negb (jf_running st) || negb (bool_decide (jf_output st = out)) then inl None
  else
    match vo_entry ob "result.json" with
    | Linked => inr (bad symlink_text)
    | Absent | Directory => inl None
    | Regular a =>
        match ar_json a with
        | Some (PyDict report) =>
            if py_eq_str (dict_get report "status" PyNone) "completed"
               || py_eq_str (dict_get report "status" PyNone) "no_usable_note"
            then inl (Some (PyDict [("ok", PyBool true);
                   ("result", PyDict [("status", dict_get report "status" PyNone); ("output", PyStr out);
                                      ("report", PyStr (out +:+ "/result.json"));
                                      ("artifacts", dict_get report "artifacts" (PyDict []))])]%string))
            else inl None
        | _ => inl None
        end
    end.

Definition empty_file : job_file := mkJobFile EmptyString EmptyString false None None None.

(** What [process] decides about the job's state before it starts a collector: the
    answer it has, or the state to execute from. *)
Definition decide_job (spec : v73_spec) (fp : string) (ob : v73_obs) (f : option job_file)
    : V (pyval + job_file) :=
  let st := default empty_file f in
  if bool_decide (f ≠ None) && negb (bool_decide (jf_fingerprint st = fp))
  then v_raise "spec_conflict" "job spec differs from its immutable fingerprint" false
  else
    match jf_result st, jf_error st with
    | Some r, _ => mret (inl r)
    | None, Some (c, g) => v_raise c g false
    | None, None =>
        if negb (vo_out_safe ob) then v_raise "invalid_artifacts" symlink_text false
        else if bool_decide (jf_response st = None) && (jf_running st || vo_out_exists ob) then
          match recover_response spec ob st with
          | inr (c, g) => v_raise c g false
          | inl None => v_raise "already_running" "existing model execution is unresolved" true
          | inl (Some r) => mret (inr (with_response r st))
          end
        else mret (inr st)
    end.

(** The caller waits for the collector; one that stops waiting is told so, whatever the
    collector does. *)
Definition wait_collector {A} (ob : v73_obs) (m : V A) : V A := λ s,
  let '(o, s) := m s in
  (if vo_cancelled ob then VErr "deadline_exceeded" "request deadline exceeded" false else o, s).

(** [process]. *)
Definition v73_process (payload : pyval) (ob : v73_obs) : V pyval :=
  match validate_payload payload with
  | None => v_raise "invalid_spec" "invalid specification" false
  | Some (raw, spec) =>
      if negb (vo_finite ob) then v_raise "invalid_spec" "deadline must be finite" false
      else
        check_active ob 0 ;;
        if negb (vo_job_safe ob) then v_raise "invalid_artifacts" symlink_text false
        else if negb (vo_job_lock ob) then v_raise "already_running" "job is already running" true
        else
          f ← v_file;
          d ← decide_job spec (fingerprint raw) ob f;
          match d with
          | inl r => mret r
          | inr st =>
              if negb (vo_model_lock ob) then v_raise "worker_busy" "model worker is busy" true
              else wait_collector ob (execute spec (fingerprint raw) ob st)
          end
  end.
End worker.
