(* ===== verification/V73WorkerFacts.v ===== *)
(** Theorems on the bridge to the calibrated model, by a small crash Hoare logic for the
    monad [V]: over any sequence of attempts, crashes included, the daemon receives one
    request at most, on an input whose digest was checked; the answers given for a job
    are all the same, and an answer names only artifacts that were verified and uploaded. *)
From S2P Require Import Prelude PyVal Tasks TextWorker V73Worker.

(** ** A logic with crashes *)

(** [Q] holds of the value and world of a run that returns, [E] of the world an error or
    a crash leaves. *)
Definition vtriple {A} (P : v73_world → Prop) (m : V A) (Q : A → v73_world → Prop)
    (E : v73_world → Prop) : Prop :=
  ∀ n w, P w →
    match m (n, w) with
    | (VRet a, (_, w')) => Q a w'
    | (VErr _ _ _, (_, w')) => E w'
    | (VCrash, (_, w')) => E w'
    end.

Section logic.
Context {A : Type}.
Implicit Types (P E : v73_world → Prop) (Q : A → v73_world → Prop).

Lemma vt_ret P Q E (a : A) : (∀ w, P w → Q a w) → vtriple P (mret a) Q E.
Proof. intros H n w HP. cbn. auto. Qed.

Lemma vt_raise P Q E c g r : (∀ w, P w → E w) → vtriple P (v_raise (A := A) c g r) Q E.
Proof. intros H n w HP. cbn. auto. Qed.

Lemma vt_bind {B} P (R : B → v73_world → Prop) Q E (m : V B) (k : B → V A) :
  vtriple P m R E → (∀ b, vtriple (R b) (k b) Q E) → vtriple P (m ≫= k) Q E.
Proof.
  intros Hm Hk n w HP. specialize (Hm n w HP). unfold mbind, v_bind.
  destruct (m (n, w)) as [[b | c g r |] [n' w']]; [apply Hk, Hm | exact Hm | exact Hm].
Qed.

Lemma vt_on_error P Q E (m : V A) h :
  vtriple P m Q E → (∀ c g r, vtriple E (h c g r) (λ _, E) E) → vtriple P (v_on_error m h) Q E.
Proof.
  intros Hm Hh n w HP. specialize (Hm n w HP). unfold v_on_error.
  destruct (m (n, w)) as [[a | c g r |] [n' w']]; [exact Hm | | exact Hm].
  specialize (Hh c g r n' w' Hm).
  destruct (h c g r (n', w')) as [[a | c' g' r' |] [n'' w'']]; exact Hh.
Qed.

Lemma vt_weaken P P' Q Q' E E' (m : V A) :
  vtriple P m Q E → (∀ w, P' w → P w) → (∀ a w, Q a w → Q' a w) → (∀ w, E w → E' w) →
  vtriple P' m Q' E'.
Proof.
  intros Hm HP HQ HE n w Hw. specialize (Hm n w (HP w Hw)).
  destruct (m (n, w)) as [[a | c g r |] [n' w']]; auto.
Qed.

Lemma vt_pure P Q E (m : V A) (φ : Prop) :
  (φ → vtriple P m Q E) → vtriple (λ w, φ ∧ P w) m Q E.
Proof. intros H n w [Hφ HP]. apply H; assumption. Qed.
End logic.

Lemma vt_effect (P E : v73_world → Prop) (Q : () → v73_world → Prop) f :
  (∀ w, P w → E w) → (∀ w, P w → Q tt (f w)) → vtriple P (v_effect f) Q E.
Proof. intros HE HQ [|n] w HP; cbn; auto. Qed.

Section facts.
Context (sha256 : list string → string).
Context (fingerprint : pyval → string).
Context (out_dir : string → string).
Context (locate : string → string → located).

(** The attempts that were made: the payload of each and what it observed. *)
Context (made : pyval → v73_obs → Prop).

Abbreviation process := (v73_process sha256 fingerprint out_dir locate).
Abbreviation verify := (verify_result out_dir locate).

(** ** What the state of a job means *)

(** The input on disk is the one an accepted specification with this fingerprint
    declares. *)
Definition input_checked (fp : string) (w : v73_world) : Prop :=
  ∃ payload raw spec, validate_payload payload = Some (raw, spec) ∧ fingerprint raw = fp ∧
    vw_input w = Some (vs_sha256 spec, vs_size spec).

(** The answer describes files that an attempt found in the output directory, that passed
    every check for the accepted specification of that attempt, which has this fingerprint,
    and that were all uploaded. *)
Definition verified_answer (fp : string) (uploads : list (string * string)) (r : pyval) : Prop :=
  ∃ payload raw spec ob response files parameters,
    made payload ob ∧ validate_payload payload = Some (raw, spec) ∧ fingerprint raw = fp ∧
    verify spec ob response = inl (files, parameters) ∧ r = published spec files parameters ∧
    Forall (λ f, ((vs_output_prefix spec +:+ f.1)%string, ar_sha256 f.2) ∈ uploads) files.

(** The request may have been sent only when the file says so. *)
Definition job_ok (st : job_file) (w : v73_world) : Prop :=
  (vw_sends w = 0 ∨
   vw_sends w = 1 ∧ (jf_running st = true ∨ jf_response st ≠ None) ∧ input_checked (jf_fingerprint st) w) ∧
  (∀ r, jf_result st = Some r → verified_answer (jf_fingerprint st) (vw_uploads w) r).

Definition job_inv (w : v73_world) : Prop :=
  match vw_file w with None => vw_sends w = 0 | Some st => job_ok st w end.

Lemma job_inv_init : job_inv vw_init.
Proof. reflexivity. Qed.

(** The state in memory is the one on file. *)
Definition on_file (st : job_file) (w : v73_world) : Prop := vw_file w = Some st ∧ job_ok st w.

Lemma on_file_inv st w : on_file st w → job_inv w.
Proof. intros [Hf Hok]. unfold job_inv. rewrite Hf. exact Hok. Qed.

Lemma verified_answer_mono fp u u' r : verified_answer fp u r → verified_answer fp (u ++ u') r.
Proof.
  intros (payload & raw & spec & ob & resp & files & ps & Hm & Hp & Hfp & Hv & Hr & HF). exists payload, raw, spec, ob, resp, files, ps.
  split_and!; [exact Hm | exact Hp | exact Hfp | exact Hv | exact Hr |]. eapply Forall_impl; [exact HF |]. intros f Hf.
  apply elem_of_app. left. exact Hf.
Qed.

(** ** What an accepted specification and a verified result guarantee *)

(** The storage locations lie below the job's own prefix, and the size is bounded. *)
Lemma validate_payload_sound payload raw spec :
  validate_payload payload = Some (raw, spec) →
  let base := job_base (vs_project_id spec) (vs_job_id spec) in
  vs_key spec = (base +:+ "input.wav")%string ∧ vs_output_prefix spec = (base +:+ "results/")%string ∧
  0 < vs_size spec ≤ MAX_INPUT_BYTES ∧ is_uuid (PyStr (vs_job_id spec)) = true ∧
  is_sha256 (PyStr (vs_sha256 spec)) = true ∧ (vs_mode spec = "poly" ∨ vs_mode spec = "mono")%string.
Proof.
  unfold validate_payload. destruct payload as [| | | | | |p]; try discriminate.
  destruct (_ && _) eqn:Hp; [| discriminate]. apply andb_true_iff in Hp as [_ Hs].
  destruct (dict_get p "spec" PyNone) as [| | | | | |s]; try discriminate. intros [= <- <-]. cbn.
  unfold valid_spec in Hs. rewrite !andb_true_iff in Hs.
  destruct Hs as ((((((((_ & Hj) & _) & _) & _) & _) & Hm) & Hi) & Ho).
  apply py_eq_str_true in Ho. rewrite orb_true_iff, !py_eq_str_true in Hm.
  destruct (dict_get s "input" PyNone) as [| | | | | |i]; try discriminate. unfold valid_input in Hi.
  rewrite !andb_true_iff in Hi. destruct Hi as ((((_ & _) & Hk) & Hz) & Hh).
  apply py_eq_str_true in Hk. destruct (dict_get i "size_bytes" PyNone) as [| | n | | | |]; try discriminate.
  unfold get_str in *. rewrite Hk, Ho. split_and!; try reflexivity.
  - lia.
  - lia.
  - destruct (dict_get s "job_id" PyNone); try discriminate Hj. exact Hj.
  - destruct (dict_get i "sha256" PyNone); try discriminate Hh. exact Hh.
  - destruct Hm as [-> | ->]; auto.
Qed.

(** What an answer rests on: every required file is there, nothing but the fixed names
    is, the model's own report is complete, for the pinned checkpoint and the requested
    mode, and gives the digest of each required file. *)
Definition verified_files (spec : v73_spec) (ob : v73_obs) (files : list (string * artifact)) (parameters : pyval) : Prop :=
  (∀ n, n ∈ REQUIRED → n ∈ dict_keys files) ∧
  (∀ n a, (n, a) ∈ files → n ∈ REQUIRED ++ OPTIONAL ∧ vo_entry ob n = Regular a) ∧
  (∃ u ps, dict_lookup files "final.unified.json" = Some u ∧ parameters = PyDict ps ∧ ar_json u = Some parameters) ∧
  ∃ a detail manifest, dict_lookup files "result.json" = Some a ∧ ar_json a = Some (PyDict detail) ∧
    dict_get detail "status" PyNone = PyStr "completed" ∧
    dict_get detail "checkpoint_sha256" PyNone = PyStr CHECKPOINT_SHA256 ∧
    dict_get detail "mode" PyNone = PyStr (vs_mode spec) ∧
    dict_get detail "artifacts" (PyDict []) = PyDict manifest ∧
    ∀ n, n ∈ ["final.vital"; "final.unified.json"; "final.wav"]%string →
      ∃ f descriptor, dict_lookup files n = Some f ∧ dict_lookup manifest n = Some (PyDict descriptor) ∧
        dict_get descriptor "sha256" PyNone = PyStr (ar_sha256 f).

Lemma collect_files_sound entry_of names files :
  collect_files entry_of names = inl files →
  (∀ n a, (n, a) ∈ files → n ∈ names ∧ entry_of n = Regular a) ∧
  (∀ n, n ∈ names → n ∉ OPTIONAL → n ∈ dict_keys files).
Proof.
  revert files. induction names as [| m names IH]; cbn; intros files.
  { intros [= <-]. split; intros n *; intros H; inversion H. }
  destruct (entry_of m) as [| | | a] eqn:Hm; try discriminate.
  - case_bool_decide as Ho; [| discriminate]. intros Hc. destruct (IH files Hc) as [H1 H2]. split.
    + intros n a' Hn. destruct (H1 n a' Hn). split; [right |]; assumption.
    + intros n [-> | Hn]%elem_of_cons Hno; [contradiction | auto].
  - destruct (collect_files entry_of names) as [files' | e]; [| discriminate]. intros [= <-].
    destruct (IH files' eq_refl) as [H1 H2]. split.
    + intros n a' [[= -> ->] | Hn]%elem_of_cons; [split; [left | exact Hm] |].
      destruct (H1 n a' Hn). split; [right |]; assumption.
    + intros n [-> | Hn]%elem_of_cons Hno; cbn; [left | right; auto].
Qed.

Lemma verify_entries_sound out required files manifest n reference :
  verify_entries locate out required files manifest = None → (n, reference) ∈ manifest →
  verify_entry locate out required files n reference = None.
Proof.
  induction manifest as [| [m v] manifest IH]; cbn; intros Hv Hin; [inversion Hin |].
  destruct (verify_entry _ _ _ _ m v) eqn:Hm; [discriminate |].
  apply elem_of_cons in Hin as [[= -> ->] | Hin]; auto.
Qed.

Lemma verify_manifest_sound out files manifest :
  (∀ n, n ∈ REQUIRED → n ∈ dict_keys files) →
  verify_manifest locate out true files manifest = None →
  ∃ m, manifest = PyDict m ∧
    ∀ n, n ∈ ["final.vital"; "final.unified.json"; "final.wav"]%string →
      ∃ f descriptor, dict_lookup files n = Some f ∧ dict_lookup m n = Some (PyDict descriptor) ∧
        dict_get descriptor "sha256" PyNone = PyStr (ar_sha256 f).
Proof.
  intros Hreq. destruct manifest as [| | | | | | m]; try discriminate. unfold verify_manifest.
  destruct (true && _) eqn:Hall; [discriminate |]. cbn [andb] in Hall.
  apply negb_false_iff in Hall. rewrite forallb_forall in Hall. intros Hv.
  exists m. split; [reflexivity |]. intros n Hn.
  assert (Hk : n ∈ dict_keys files) by (apply Hreq; unfold REQUIRED; rewrite !elem_of_cons in *; tauto).
  destruct (dict_lookup files n) as [f |] eqn:Hf; [| apply dict_lookup_None in Hf; contradiction].
  specialize (Hall n). rewrite bool_decide_eq_true in Hall. specialize (Hall (proj1 (list_elem_of_In _ _) Hn)).
  destruct (dict_lookup m n) as [v |] eqn:Hm; [| apply dict_lookup_None in Hm; contradiction].
  pose proof (verify_entries_sound _ _ _ _ _ _ Hv (dict_lookup_elem _ _ _ Hm)) as He.
  unfold verify_entry in He. destruct (verify_path _ _ _) as [candidate |]; [| discriminate].
  rewrite Hf in He. case_bool_decide; [| discriminate]. cbn in He.
  destruct (py_eq_str _ (ar_sha256 f)) eqn:Hsha; [| discriminate]. apply py_eq_str_true in Hsha.
  destruct v as [| | | | | | d]; try discriminate Hsha. exists f, d. auto.
Qed.

Lemma verify_result_sound spec ob response files parameters :
  verify spec ob response = inl (files, parameters) → verified_files spec ob files parameters.
Proof.
  unfold verify_result. destruct (negb _); [discriminate |].
  destruct (pyval_get response "result" PyNone) as [| | | | | | report]; try discriminate.
  destruct (py_eq_str _ _); [discriminate |]. destruct (negb _); [discriminate |].
  destruct (negb _); [discriminate |]. destruct (negb _); [discriminate |].
  destruct (collect_files _ _) as [fs |] eqn:Hc; [| discriminate].
  destruct (collect_files_sound _ _ _ Hc) as [Hin Hall].
  assert (Hreq : ∀ n, n ∈ REQUIRED → n ∈ dict_keys fs).
  { intros n Hn. apply Hall; [apply elem_of_app; left; exact Hn |].
    unfold REQUIRED, OPTIONAL in *. rewrite !elem_of_cons in *. intros Ho.
    destruct Hn as [-> | [-> | [-> | [-> | Hn]]]]; [.. | inversion Hn].
    all: destruct Ho as [? | [? | [? | [? | Ho]]]]; [discriminate.. | inversion Ho]. }
  destruct (dict_lookup fs "final.unified.json") as [u |] eqn:Hu; cbn; [| discriminate].
  destruct (ar_json u) as [[| | | | | | ps] |] eqn:Hps; try discriminate.
  destruct (dict_lookup fs "result.json") as [a |] eqn:Ha; cbn; [| discriminate].
  destruct (ar_json a) as [[| | | | | | detail] |] eqn:Hj; try discriminate.
  destruct (py_eq_str _ "completed") eqn:Hs; [cbn | discriminate].
  destruct (py_eq_str _ CHECKPOINT_SHA256) eqn:Hcp; [cbn | discriminate].
  destruct (py_eq_str _ (vs_mode spec)) eqn:Hm; [cbn | discriminate].
  destruct (verify_manifest _ _ false _ _); [discriminate |].
  destruct (verify_manifest _ _ true _ _) eqn:Hv; [discriminate |].
  destruct (verify_path _ _ _); [| discriminate]. destruct (bool_decide _); [| discriminate].
  intros [= <- <-]. destruct (verify_manifest_sound _ _ _ Hreq Hv) as (m & Hma & Hd).
  split_and!; [exact Hreq | exact Hin | exists u, ps; auto |]. exists a, detail, m.
  rewrite py_eq_str_true in Hs, Hcp, Hm. auto 10.
Qed.

(** ** The steps of the collector *)

Lemma vt_download spec ob st :
  vtriple (λ w, on_file st w ∧ vw_sends w = 0) (download sha256 spec ob)
    (λ _ w, (on_file st w ∧ vw_sends w = 0) ∧ vw_input w = Some (vs_sha256 spec, vs_size spec))
    job_inv.
Proof.
  assert (HE : ∀ w, on_file st w ∧ vw_sends w = 0 → job_inv w) by (intros w [H _]; eapply on_file_inv, H).
  unfold download. destruct (vo_endpoint ob); [| apply vt_raise, HE].
  destruct (vo_download ob) as [[announced chunks] |]; [| apply vt_raise, HE].
  cbn [negb]. case_match; [apply vt_raise, HE |].
  destruct (read_chunks _ _ _) as [[read total] |]; [| apply vt_raise, HE].
  destruct (_ || _) eqn:Hc; [apply vt_raise, HE |].
  apply orb_false_iff in Hc as [H1%negb_false_iff%Z.eqb_eq H2%negb_false_iff%bool_decide_eq_true].
  apply vt_effect; [exact HE |]. intros w [[Hf [_ Hr]] Hs]. cbn.
  split; [| rewrite H1, H2; reflexivity]. split; [| exact Hs].
  split; [exact Hf |]. split; [left; exact Hs | exact Hr].
Qed.

Lemma vt_check_active P (Q : () → v73_world → Prop) E ob i :
  (∀ w, P w → E w) → (∀ w, P w → Q tt w) → vtriple P (check_active ob i) Q E.
Proof.
  intros HE HQ. unfold check_active. destruct (vo_active ob i); [apply vt_ret, HQ | apply vt_raise, HE].
Qed.

Lemma vt_call_daemon spec ob st payload raw :
  validate_payload payload = Some (raw, spec) → fingerprint raw = jf_fingerprint st →
  vtriple (λ w, (on_file st w ∧ vw_sends w = 0) ∧ vw_input w = Some (vs_sha256 spec, vs_size spec))
    (call_daemon ob st)
    (λ _ w, on_file (with_running true st) w ∧ vw_sends w = 1) job_inv.
Proof.
  intros Hp Hfp.
  assert (HE : ∀ w, (on_file st w ∧ vw_sends w = 0) ∧ vw_input w = Some (vs_sha256 spec, vs_size spec) →
            job_inv w) by (intros w [[H _] _]; eapply on_file_inv, H).
  unfold call_daemon. destruct (vo_connect ob); [cbn | apply vt_raise, HE].
  eapply vt_bind with (R := λ _ w, (on_file (with_running true st) w ∧ vw_sends w = 0) ∧
                                   vw_input w = Some (vs_sha256 spec, vs_size spec)).
  { apply vt_effect; [exact HE |]. intros w [[[Hf [_ Hr]] Hs] Hi]. cbn.
    split; [| exact Hi]. split; [| exact Hs]. split; [reflexivity |]. split; [left; exact Hs | exact Hr]. }
  intros []. eapply vt_bind with (R := λ _ w, on_file (with_running true st) w ∧ vw_sends w = 1).
  { apply vt_effect; [intros w [[H _] _]; eapply on_file_inv, H |].
    intros w [[[Hf [_ Hr]] Hs] Hi]. cbn. rewrite Hs. split; [| reflexivity].
    split; [exact Hf |]. split; [| exact Hr]. right. cbn. split_and!; [lia | left; reflexivity |].
    exists payload, raw, spec. split_and!; assumption. }
  intros []. destruct (vo_daemon ob) as [v |]; [destruct (valid_response v) |].
  - apply vt_ret. auto.
  - apply vt_raise. intros w [H _]. eapply on_file_inv, H.
  - apply vt_raise. intros w [H _]. eapply on_file_inv, H.
Qed.

(** The states [execute] starts from: no answer yet, and no request that is unaccounted
    for. *)
Definition startable (st : job_file) : Prop :=
  jf_result st = None ∧ (jf_response st ≠ None ∨ jf_running st = false).

Lemma vt_obtain_response spec ob st payload raw :
  validate_payload payload = Some (raw, spec) → fingerprint raw = jf_fingerprint st → startable st →
  vtriple (on_file st) (obtain_response sha256 spec ob st)
    (λ sr w, on_file sr.1 w ∧ jf_result sr.1 = None ∧ jf_fingerprint sr.1 = jf_fingerprint st) job_inv.
Proof.
  intros Hp Hfp [Hres Hst]. unfold obtain_response. destruct (jf_response st) as [r |] eqn:Hr.
  { apply vt_ret. intros w Hw. split; [exact Hw | split; [exact Hres | reflexivity]]. }
  destruct Hst as [? | Hrun]; [congruence |].
  eapply vt_bind.
  { eapply vt_weaken; [apply (vt_download spec ob st) | | intros a w H; exact H | intros w H; exact H].
    intros w [Hf [Hs Hv]]. split; [split; [exact Hf | split; [exact Hs | exact Hv]] |].
    destruct Hs as [? | (_ & [? | ?] & _)]; congruence. }
  intros []. eapply vt_bind with (R := λ _ w, (on_file st w ∧ vw_sends w = 0) ∧
                                   vw_input w = Some (vs_sha256 spec, vs_size spec)).
  { apply vt_check_active; [intros w [[H _] _]; eapply on_file_inv, H | auto]. }
  intros []. eapply vt_bind; [eapply vt_call_daemon; eassumption |].
  intros v. eapply vt_bind with (R := λ _ w, on_file (with_response v st) w).
  { apply vt_effect; [intros w [H _]; eapply on_file_inv, H |].
    intros w [[_ [Hs Hv]] H1]. split; [reflexivity |]. split; [| exact Hv].
    destruct Hs as [Hs | (_ & _ & Hi)]; [cbn in Hs; lia |].
    right. cbn. split_and!; [exact H1 | right; discriminate | exact Hi]. }
  intros []. apply vt_ret. intros w Hw. split; [exact Hw | split; [exact Hres | reflexivity]].
Qed.

Lemma vt_upload_files spec ob st files :
  vtriple (on_file st) (upload_files spec ob files)
    (λ _ w, on_file st w ∧
       Forall (λ f, ((vs_output_prefix spec +:+ f.1)%string, ar_sha256 f.2) ∈ vw_uploads w) files) job_inv.
Proof.
  enough (H : ∀ u : list (string * string), vtriple (λ w, on_file st w ∧ ∀ x, x ∈ u → x ∈ vw_uploads w) (upload_files spec ob files)
    (λ _ w, (on_file st w ∧ ∀ x, x ∈ u → x ∈ vw_uploads w) ∧
       Forall (λ f, ((vs_output_prefix spec +:+ f.1)%string, ar_sha256 f.2) ∈ vw_uploads w) files) job_inv).
  { eapply vt_weaken; [apply (H []) | | | auto].
    - intros w Hw. split; [exact Hw |]. intros x Hx. inversion Hx.
    - intros a w [[Hw _] HF]. split; assumption. }
  induction files as [| [n a] files IH]; intros u.
  { apply vt_ret. intros w Hw. split; [exact Hw | constructor]. }
  cbn. destruct (vo_put ob n).
  - eapply vt_bind; [| intros []].
    + apply vt_effect with (Q := λ _ w, on_file st w ∧
        ∀ x, x ∈ (u ++ [((vs_output_prefix spec +:+ n)%string, ar_sha256 a)]) → x ∈ vw_uploads w).
      { intros w [H _]. eapply on_file_inv, H. }
      intros w [[Hf [Hs Hv]] Hu]. split; [split; [exact Hf | split; [exact Hs |]] |].
      * intros r Hr. apply verified_answer_mono, Hv, Hr.
      * cbn. intros x [Hx | Hx]%elem_of_app; apply elem_of_app; [left; apply Hu, Hx | right; exact Hx].
    + eapply vt_weaken; [apply IH | intros w H; exact H | | intros w H; exact H]. intros [] w [[Hf Hu] HF]. split.
      * split; [exact Hf |]. intros x Hx. apply Hu, elem_of_app. left. exact Hx.
      * constructor; [| exact HF]. apply Hu, elem_of_app. right. left.
  - eapply vt_bind; [apply (IH u) |]. intros []. apply vt_raise.
    intros w [[Hf _] _]. eapply on_file_inv, Hf.
Qed.

Lemma vt_upload_result spec ob st response payload raw :
  made payload ob → validate_payload payload = Some (raw, spec) → fingerprint raw = jf_fingerprint st →
  vtriple (on_file st) (upload_result out_dir locate spec ob response)
    (λ r w, on_file st w ∧ verified_answer (jf_fingerprint st) (vw_uploads w) r) job_inv.
Proof.
  intros Hmade Hp Hfp. unfold upload_result. destruct (verify spec ob response) as [[files ps] | [c g]] eqn:Hv.
  2: { apply vt_raise. intros w H. eapply on_file_inv, H. }
  destruct (vo_endpoint ob); [cbn | apply vt_raise; intros w H; eapply on_file_inv, H].
  eapply vt_bind; [apply vt_upload_files |]. intros []. apply vt_ret.
  intros w [Hw HF]. split; [exact Hw |]. exists payload, raw, spec, ob, response, files, ps. auto 10.
Qed.

Lemma vt_record_error c g r : vtriple job_inv (record_error c g r) (λ _, job_inv) job_inv.
Proof.
  unfold record_error. destruct (_ && _); [| apply vt_ret; auto].
  intros n w Hw. unfold mbind, v_bind, v_file. cbn. destruct (vw_file w) as [st |] eqn:Hf; [| exact Hw].
  destruct n as [| n]; cbn; [exact Hw |]. unfold job_inv in Hw. rewrite Hf in Hw.
  exact Hw.
Qed.

(** A run that returns an answer has stored it. *)
Definition stored (fp : string) (r : pyval) (w : v73_world) : Prop :=
  job_inv w ∧ ∃ st, vw_file w = Some st ∧ jf_result st = Some r ∧ jf_fingerprint st = fp.

Lemma vt_run_job spec ob st payload raw :
  made payload ob → validate_payload payload = Some (raw, spec) → fingerprint raw = jf_fingerprint st → startable st →
  vtriple (on_file st) (run_job sha256 out_dir locate spec ob st) (stored (jf_fingerprint st)) job_inv.
Proof.
  intros Hmade Hp Hfp Hst. unfold run_job. eapply vt_bind; [eapply vt_obtain_response; eassumption |].
  intros [st' response]. cbn.
  eapply (vt_weaken (λ w, jf_fingerprint st' = jf_fingerprint st ∧ on_file st' w));
    [| intros w (H & _ & Hf); split; assumption | intros a w H; exact H | intros w H; exact H].
  apply vt_pure. intros Hfp'. eapply vt_bind; [eapply vt_upload_result; [exact Hmade | exact Hp | congruence] |].
  intros r. eapply vt_bind with (R := λ _, stored (jf_fingerprint st) r).
  - apply vt_effect; [intros w [H _]; eapply on_file_inv, H |].
    intros w [[Hf [Hs Hv]] Hr]. split; [| eexists; split_and!; [reflexivity.. | exact Hfp']]. unfold job_inv. cbn.
    split; [exact Hs |]. intros r' [= <-]. exact Hr.
  - intros []. apply vt_ret. auto.
Qed.

(** The state saved on entry. *)
Definition claimed_file (spec : v73_spec) (fp : string) (st : job_file) : job_file :=
  mkJobFile fp (out_dir (vs_job_id spec)) (jf_running st) (jf_response st) (jf_result st) (jf_error st).

Lemma vt_execute spec ob st payload raw :
  made payload ob → validate_payload payload = Some (raw, spec) → startable st →
  vtriple (λ w, job_inv w ∧ job_ok (claimed_file spec (fingerprint raw) st) w)
    (execute sha256 out_dir locate spec (fingerprint raw) ob st) (stored (fingerprint raw)) job_inv.
Proof.
  intros Hmade Hp Hst. unfold execute. eapply vt_bind with (R := λ _, on_file (claimed_file spec (fingerprint raw) st)).
  - apply vt_effect; [intros w [H _]; exact H |]. intros w [_ H]. split; [reflexivity | exact H].
  - intros []. apply vt_on_error; [| apply vt_record_error].
    eapply vt_run_job; [exact Hmade | exact Hp | reflexivity | exact Hst].
Qed.

(** ** One attempt *)

(** What [decide_job] concludes of the file it read. *)
Definition decided (spec : v73_spec) (fp : string) (d : pyval + job_file) (w : v73_world) : Prop :=
  match d with
  | inl r => stored fp r w
  | inr st => startable st ∧ job_inv w ∧ job_ok (claimed_file spec fp st) w
  end.

Lemma job_ok_with_response spec fp r st w :
  jf_fingerprint st = fp → jf_result st = None → job_ok st w →
  job_ok (claimed_file spec fp (with_response r st)) w.
Proof.
  intros <- Hres [Hs Hv]. split; [| exact Hv].
  destruct Hs as [Hs | (Hs & _ & Hi)]; [left; exact Hs |].
  right. split_and!; [exact Hs | right; discriminate | exact Hi].
Qed.

Lemma vt_decide_job spec fp ob f :
  vtriple (λ w, job_inv w ∧ vw_file w = f) (decide_job out_dir spec fp ob f) (decided spec fp) job_inv.
Proof.
  assert (HE : ∀ w, job_inv w ∧ vw_file w = f → job_inv w) by (intros w [H _]; exact H).
  unfold decide_job. destruct (_ && _) eqn:Hfp; [apply vt_raise, HE |].
  destruct (jf_result _) as [r |] eqn:Hres.
  { apply vt_ret. intros w [Hw Hf]. split; [exact Hw |].
    destruct f as [st |]; [| discriminate]. exists st. split_and!; [exact Hf | exact Hres |].
    apply negb_false_iff, bool_decide_eq_true in Hfp. exact Hfp. }
  destruct (jf_error _) as [[c g] |]; [apply vt_raise, HE |].
  destruct (vo_out_safe ob); [cbn | apply vt_raise, HE].
  destruct f as [st |]; cbn in *.
  - apply negb_false_iff, bool_decide_eq_true in Hfp.
    destruct (_ && _) eqn:Hc.
    + destruct (recover_response _ _ _ _) as [[r |] | [c g]]; [| apply vt_raise, HE | apply vt_raise, HE].
      apply vt_ret. intros w [Hw Hf]. split; [split; [exact Hres | left; discriminate] |].
      split; [exact Hw |]. apply job_ok_with_response; [exact Hfp | exact Hres |].
      unfold job_inv in Hw. rewrite Hf in Hw. exact Hw.
    + apply vt_ret. intros w [Hw Hf]. split; [split; [exact Hres |] | split; [exact Hw |]].
      * apply andb_false_iff in Hc as [Hc%bool_decide_eq_false | [Hc _]%orb_false_iff]; auto.
      * unfold job_inv in Hw. rewrite Hf in Hw. destruct st. cbn in *. subst. exact Hw.
  - destruct (vo_out_exists ob); [apply vt_raise, HE |]. apply vt_ret.
    intros w [Hw Hf]. split; [split; [reflexivity | right; reflexivity] |].
    split; [exact Hw |]. unfold job_inv in Hw. rewrite Hf in Hw.
    split; [left; exact Hw | discriminate].
Qed.

Lemma vt_wait {A} P (Q : A → v73_world → Prop) E ob m :
  vtriple P m Q E → (∀ a w, Q a w → E w) → vtriple P (wait_collector ob m) Q E.
Proof.
  intros Hm HQ n w HP. specialize (Hm n w HP). unfold wait_collector.
  destruct (m (n, w)) as [[a | c g r |] [n' w']], (vo_cancelled ob); eauto.
Qed.

(** An attempt that answers has stored its answer, for its own specification. *)
Definition answered_job (payload r : pyval) (w : v73_world) : Prop :=
  ∃ raw spec, validate_payload payload = Some (raw, spec) ∧ stored (fingerprint raw) r w.

Lemma answered_job_stored payload r w : answered_job payload r w → job_inv w ∧ ∃ st, vw_file w = Some st ∧ jf_result st = Some r.
Proof. intros (raw & spec & _ & Hw & st & Hf & Hr & _). split; [exact Hw |]. exists st. auto. Qed.

Lemma vt_process payload ob : made payload ob → vtriple job_inv (process payload ob) (answered_job payload) job_inv.
Proof.
  intros Hmade. unfold v73_process, answered_job. destruct (validate_payload payload) as [[raw spec] |] eqn:Hp; [| apply vt_raise; auto].
  eapply (vt_weaken job_inv job_inv (stored (fingerprint raw)) _ job_inv job_inv); [| auto | intros a w H; exists raw, spec; auto | auto].
  destruct (vo_finite ob); [cbn | apply vt_raise; auto].
  eapply vt_bind with (R := λ _, job_inv); [apply vt_check_active; auto | intros []].
  destruct (vo_job_safe ob); [cbn | apply vt_raise; auto].
  destruct (vo_job_lock ob); [cbn | apply vt_raise; auto].
  eapply vt_bind with (R := λ f w, job_inv w ∧ vw_file w = f); [intros n w Hw; cbn; auto |].
  intros f. eapply vt_bind; [apply vt_decide_job |]. intros [r | st]; cbn.
  { apply vt_ret. auto. }
  apply vt_pure. intros Hst. destruct (vo_model_lock ob); [cbn | apply vt_raise; intros w [H _]; exact H].
  apply vt_wait; [apply (vt_execute spec ob st payload raw Hmade Hp Hst) |]. intros a w [H _]. exact H.
Qed.

(** ** Sequences of attempts *)

(** An attempt: its payload, what it observes, and after how many effects the process
    dies. *)
Abbreviation attempt := (pyval * v73_obs * nat)%type.

Fixpoint run_attempts (l : list attempt) (w : v73_world) : list (v_out pyval) * v73_world :=
  match l with
  | [] => ([], w)
  | (payload, ob, n) :: l' =>
      let '(o, (_, w)) := process payload ob (n, w) in
      let '(os, w) := run_attempts l' w in (o :: os, w)
  end.

Lemma run_attempts_inv l w :
  (∀ payload ob n, (payload, ob, n) ∈ l → made payload ob) → job_inv w → job_inv (run_attempts l w).2.
Proof.
  revert w. induction l as [| [[payload ob] n] l IH]; intros w Hl Hw; [exact Hw |]. cbn.
  pose proof (vt_process payload ob (Hl payload ob n ltac:(left)) n w Hw) as H.
  destruct (process payload ob (n, w)) as [[r | c g b |] [n' w']].
  all: assert (Hw' : job_inv w') by (try exact H; apply (answered_job_stored _ _ _ H)).
  all: specialize (IH w' ltac:(intros payload' ob' k Hk; apply (Hl payload' ob' k); right; exact Hk) Hw').
  all: destruct (run_attempts l w') as [os w'']; exact IH.
Qed.

(** An attempt on a job that has its answer changes nothing and returns no other. *)
Lemma process_settled payload ob n w st r :
  vw_file w = Some st → jf_result st = Some r →
  (process payload ob (n, w)).2 = (n, w) ∧
  ((process payload ob (n, w)).1 = VRet r ∨
   ∃ c g b, (process payload ob (n, w)).1 = VErr c g b).
Proof.
  intros Hf Hr. unfold v73_process, v_raise. destruct (validate_payload payload) as [[raw spec] |]; [| eauto 6].
  destruct (vo_finite ob); [cbn | eauto 6].
  unfold mbind, v_bind, check_active, v_raise. destruct (vo_active ob 0); [cbn | cbn; eauto 6].
  destruct (vo_job_safe ob); [cbn | eauto 6]. destruct (vo_job_lock ob); [cbn | eauto 6].
  rewrite Hf. unfold decide_job. cbn [from_option id]. cbn -[bool_decide]. rewrite Hr. unfold v_raise.
  destruct (_ && _); cbn; eauto 6.
Qed.

Lemma run_attempts_settled l w st r :
  vw_file w = Some st → jf_result st = Some r →
  (run_attempts l w).2 = w ∧ ∀ r', VRet r' ∈ (run_attempts l w).1 → r' = r.
Proof.
  intros Hf Hr. induction l as [| [[payload ob] n] l [IHw IHr]]; cbn.
  { split; [reflexivity |]. intros r' H. inversion H. }
  destruct (process_settled payload ob n w st r Hf Hr) as [H2 H1].
  destruct (process payload ob (n, w)) as [o [n' w']]. cbn in H1, H2. injection H2 as -> ->.
  destruct (run_attempts l w) as [os w'']. cbn in *. split; [exact IHw |].
  intros r' [Ho | Ho]%elem_of_cons; [| apply IHr, Ho].
  destruct H1 as [-> | (c & g & b & ->)]; congruence.
Qed.

Lemma answers_agree l w r r' :
  (∀ payload ob, made payload ob) → job_inv w → VRet r ∈ (run_attempts l w).1 → VRet r' ∈ (run_attempts l w).1 → r = r'.
Proof.
  intros Hall. revert w. induction l as [| [[payload ob] n] l IH]; intros w Hw; cbn; [intros H; inversion H |].
  pose proof (vt_process payload ob (Hall payload ob) n w Hw) as H.
  destruct (process payload ob (n, w)) as [[a | c g b |] [n' w']].
  1: { apply answered_job_stored in H as [_ (st & Hf & Ha)]. destruct (run_attempts_settled l w' st a Hf Ha) as [_ Hl].
       destruct (run_attempts l w') as [os w'']. cbn in *.
       intros [? | ?%Hl]%elem_of_cons [? | ?%Hl]%elem_of_cons; congruence. }
  all: specialize (IH w' H); destruct (run_attempts l w') as [os w'']; cbn in *.
  all: intros [? | H1]%elem_of_cons; [discriminate |].
  all: intros [? | H2]%elem_of_cons; [discriminate | apply IH; assumption].
Qed.

(** What an answer rests on, whatever happened to the job before: what the attempt that
    made it, for a specification with this one's fingerprint, found on disk. *)
Definition answer_verified (payload r : pyval) (w : v73_world) : Prop :=
  ∃ raw own payload' raw' spec ob files parameters,
    validate_payload payload = Some (raw, own) ∧ made payload' ob ∧ validate_payload payload' = Some (raw', spec) ∧
    fingerprint raw' = fingerprint raw ∧
    r = published spec files parameters ∧ verified_files spec ob files parameters ∧
    ∀ n a, (n, a) ∈ files → ((vs_output_prefix spec +:+ n)%string, ar_sha256 a) ∈ vw_uploads w.

Lemma answered_job_verified payload r w : answered_job payload r w → answer_verified payload r w.
Proof.
  intros (raw & own & Hp & Hw & st & Hf & Hres & Hfp). unfold job_inv in Hw. rewrite Hf in Hw. destruct Hw as [_ Hv].
  destruct (Hv r Hres) as (payload' & raw' & spec & ob & response & files & ps & Hm & Hp' & Hfp' & Hver & -> & HF).
  exists raw, own, payload', raw', spec, ob, files, ps. split_and!; [exact Hp | exact Hm | exact Hp' | congruence | reflexivity | eapply verify_result_sound, Hver |].
  intros n a Hin. rewrite Forall_forall in HF. exact (HF (n, a) Hin).
Qed.

Lemma attempt_verified l payload ob n r s :
  (∀ payload ob n, (payload, ob, n) ∈ l → made payload ob) → made payload ob →
  process payload ob (n, (run_attempts l vw_init).2) = (VRet r, s) → answer_verified payload r s.2.
Proof.
  intros Hl Hm H. pose proof (vt_process payload ob Hm n _ (run_attempts_inv l vw_init Hl job_inv_init)) as Hp.
  rewrite H in Hp. destruct s as [n' w']. apply answered_job_verified, Hp.
Qed.
End facts.

(** ** The claims *)

Section claims.
Context (sha256 : list string → string).
Context (fingerprint : pyval → string).
Context (out_dir : string → string).
Context (locate : string → string → located).

Lemma attempts_inv l : job_inv fingerprint out_dir locate (λ _ _, True)
  (run_attempts sha256 fingerprint out_dir locate l vw_init).2.
Proof. apply run_attempts_inv; [intros payload ob n _; exact I | apply job_inv_init]. Qed.

(** C19. However many times a job is attempted, by however many processes, and wherever
    each of them dies, at most one request reaches the model daemon; and if one did, the
    input on disk has the digest and the size of an accepted specification with the
    fingerprint on file, and the size is at most 50 MiB. *)
Theorem v73_daemon_called_once (l : list (pyval * v73_obs * nat)) :
  let w := (run_attempts sha256 fingerprint out_dir locate l vw_init).2 in
  vw_sends w = 0 ∨
  vw_sends w = 1 ∧ ∃ st payload raw spec,
    vw_file w = Some st ∧ validate_payload payload = Some (raw, spec) ∧ fingerprint raw = jf_fingerprint st ∧
    vw_input w = Some (vs_sha256 spec, vs_size spec) ∧ 0 < vs_size spec ≤ MAX_INPUT_BYTES.
Proof.
  cbn zeta. pose proof (attempts_inv l) as H. unfold job_inv in H.
  destruct (vw_file _) as [st |]; [| left; exact H].
  destruct H as [[H | (Hs & _ & payload & raw & spec & Hp & Hfp & Hi)] _]; [left; exact H |].
  right. split; [exact Hs |]. exists st, payload, raw, spec.
  split_and!; auto; apply (validate_payload_sound _ _ _ Hp).
Qed.

(** All the answers a job is ever given are equal: a retry after a crash, a
    cancellation or a lost response returns the stored result, never a second one. *)
Theorem v73_answers_agree (l : list (pyval * v73_obs * nat)) (r r' : pyval) :
  VRet r ∈ (run_attempts sha256 fingerprint out_dir locate l vw_init).1 →
  VRet r' ∈ (run_attempts sha256 fingerprint out_dir locate l vw_init).1 → r = r'.
Proof. apply (answers_agree _ _ _ _ (λ _ _, True)); [auto | apply job_inv_init]. Qed.

(** C20. Whatever attempts were made at a job before, and wherever they died, an answer is for
    the specification that was asked, as far as its fingerprint tells, and one of these
    attempts or the one that answers found what it describes in the job's output directory:
    the four required files and at most the fixed optional ones, all uploaded under the job's
    prefix, with a model report that is complete, for the pinned checkpoint and the requested
    mode, and whose digests are those of the files; the parameters are those of the unified
    document. *)
Theorem v73_answer_is_verified (l : list (pyval * v73_obs * nat)) (payload : pyval) (ob : v73_obs) (n : nat) (r : pyval) (s : nat * v73_world) :
  v73_process sha256 fingerprint out_dir locate payload ob
    (n, (run_attempts sha256 fingerprint out_dir locate l vw_init).2) = (VRet r, s) →
  ∃ raw own payload' raw' spec ob' files parameters,
    validate_payload payload = Some (raw, own) ∧ (payload', ob') ∈ (payload, ob) :: l.*1 ∧
    validate_payload payload' = Some (raw', spec) ∧ fingerprint raw' = fingerprint raw ∧
    r = published spec files parameters ∧ verified_files spec ob' files parameters ∧
    ∀ k a, (k, a) ∈ files → ((vs_output_prefix spec +:+ k)%string, ar_sha256 a) ∈ vw_uploads s.2.
Proof.
  apply (attempt_verified _ _ _ _ (λ payload' ob', (payload', ob') ∈ (payload, ob) :: l.*1)); [| left].
  intros payload' ob' k Hk. right. apply (list_elem_of_fmap_2 fst l (payload', ob', k)), Hk.
Qed.
End claims.

(** ** A run *)

Definition demo_sha (chunks : list string) : string :=
  if bool_decide (chunks = ["abc"]%string)
  then "ba7816bf8f01cfea414140de5dae2223b00361a396177a9cb410ff61f20015ad" else "0".
Definition demo_out (job : string) : string := ("/d/results/" +:+ job)%string.
Definition demo_locate (out r : string) : located :=
  if bool_decide (r = out +:+ "/result.json")%string then Below "result.json"
  else if bool_decide (r ∈ REQUIRED ++ OPTIONAL) then Below r else Unsafe.

Definition demo_job : string := "00000000-0000-4000-8000-000000000001".
Definition demo_payload : pyval :=
  PyDict [("kind", PyStr "synthx_v73"); ("attempt_id", PyStr "00000000-0000-4000-8000-000000000002");
    ("spec", PyDict [("job_id", PyStr demo_job); ("project_id", PyStr demo_job); ("user_id", PyStr "u");
       ("model", PyStr "v7_3_full"); ("checkpoint_sha256", PyStr CHECKPOINT_SHA256); ("mode", PyStr "mono");
       ("input", PyDict [("bucket", PyStr "synthx-jobs"); ("key", PyStr (job_base demo_job demo_job +:+ "input.wav"));
          ("sha256", PyStr (demo_sha ["abc"])); ("size_bytes", PyInt 3)]);
       ("output_prefix", PyStr (job_base demo_job demo_job +:+ "results/"))])]%string.

Definition demo_descriptor (n : string) : string * pyval :=
  (n, PyDict [("path", PyStr n); ("sha256", PyStr n)]%string).
Definition demo_detail : pyval :=
  PyDict [("status", PyStr "completed"); ("checkpoint_sha256", PyStr CHECKPOINT_SHA256); ("mode", PyStr "mono");
          ("artifacts", PyDict (map demo_descriptor ["final.vital"; "final.unified.json"; "final.wav"]))]%string.
Definition demo_entry (n : string) : entry :=
  if bool_decide (n ∈ REQUIRED)
  then Regular (mkArtifact n 1 (Some (if bool_decide (n = "result.json"%string) then demo_detail else PyDict [])))
  else Absent.

(** What an attempt sees once the daemon has ([done]) or has not run. *)
Definition demo_obs (done : bool) : v73_obs :=
  mkV73Obs true (λ _, true) true true true true done (if done then demo_entry else λ _, Absent)
    true (Some (Some 3, ["abc"]%string)) true None (λ _, true) false.

(** The first attempt loses the daemon's reply; the second recovers it and dies during
    the uploads; the third completes, the fourth returns the stored result. *)
Definition demo_attempts : list (pyval * v73_obs * nat) :=
  [(demo_payload, demo_obs false, 9%nat); (demo_payload, demo_obs true, 3%nat);
   (demo_payload, demo_obs true, 9%nat); (demo_payload, demo_obs true, 9%nat)].

Abbreviation demo_run := (run_attempts demo_sha (λ _, "fp"%string) demo_out demo_locate demo_attempts vw_init).

Definition demo_answer : pyval :=
  match demo_run.1 !! 2%nat with Some (VRet r) => r | _ => PyNone end.

Lemma demo_answer_given : VRet demo_answer ∈ demo_run.1.
Proof. apply (list_elem_of_lookup_2 _ 2%nat). vm_compute. reflexivity. Qed.

Lemma demo_answer_repeated : demo_run.1 !! 3%nat = Some (VRet demo_answer).
Proof. vm_compute. reflexivity. Qed.

Lemma v73_answers_agree_witness :
  demo_run.1 !! 3%nat = Some (VRet demo_answer) ∧ demo_answer = demo_answer.
Proof.
  split; [exact demo_answer_repeated |].
  exact (v73_answers_agree demo_sha (λ _, "fp"%string) demo_out demo_locate demo_attempts _ _
           demo_answer_given (list_elem_of_lookup_2 _ 3%nat _ demo_answer_repeated)).
Defined.

(** The third attempt by itself. *)
Definition demo_third : v_out pyval * (nat * v73_world) :=
  v73_process demo_sha (λ _, "fp"%string) demo_out demo_locate demo_payload (demo_obs true)
    (9%nat, (run_attempts demo_sha (λ _, "fp"%string) demo_out demo_locate (take 2 demo_attempts) vw_init).2).

Lemma v73_answer_is_verified_witness :
  ∃ raw own payload' raw' spec ob' files parameters,
    validate_payload demo_payload = Some (raw, own) ∧
    (payload', ob') ∈ (demo_payload, demo_obs true) :: (take 2 demo_attempts).*1 ∧
    validate_payload payload' = Some (raw', spec) ∧ "fp"%string = "fp"%string ∧
    demo_answer = published spec files parameters ∧ verified_files spec ob' files parameters ∧
    ∀ k a, (k, a) ∈ files → ((vs_output_prefix spec +:+ k)%string, ar_sha256 a) ∈ vw_uploads demo_third.2.2.
Proof.
  apply (v73_answer_is_verified demo_sha (λ _, "fp"%string) demo_out demo_locate (take 2 demo_attempts) demo_payload
    (demo_obs true) 9 demo_answer demo_third.2). vm_compute. reflexivity.
Defined.

(** The run above reached the daemon once. *)
Example demo_sent_once : vw_sends demo_run.2 = 1.
Proof. vm_compute. reflexivity. Qed.
