(* ===== verification/V73Paths.v ===== *)
(** The local paths of [src/system/worker_v73.py]: [_safe_path], [_safe_dir] and
    [_verify_path] over a file system with symbolic links, and what they promise: whatever a
    job or a model report names, the worker stays within the directory of that job. *)
From S2P Require Import Prelude PyVal Tasks TextWorker V73Worker V73WorkerFacts.

(** ** Paths as [pathlib] reads them *)

(** Two leading slashes are a root of their own, three are one. *)
Inductive anchor := NoAnchor | Slash | TwoSlashes.
Record ppath := mkPath { pp_anchor : anchor; pp_parts : list string }.

#[export] Instance anchor_eq_dec : EqDecision anchor.
Proof. solve_decision. Defined.
#[export] Instance ppath_eq_dec : EqDecision ppath.
Proof. solve_decision. Defined.

Fixpoint path_split (s : string) : list string :=
  match s with
  | EmptyString => [EmptyString]
  | String c s' =>
      if is_char c 47 then EmptyString :: path_split s'
      else match path_split s' with p :: ps => String c p :: ps | [] => [String c EmptyString] end
  end.

Definition path_anchor (s : string) : anchor :=
  match s with
  | String a (String b (String c _)) =>
      if is_char a 47 then if is_char b 47 && negb (is_char c 47) then TwoSlashes else Slash else NoAnchor
  | String a (String b EmptyString) => if is_char a 47 then if is_char b 47 then TwoSlashes else Slash else NoAnchor
  | String a EmptyString => if is_char a 47 then Slash else NoAnchor
  | EmptyString => NoAnchor
  end.

(** [Path(s)]: empty components and single dots go, double dots stay. *)
Definition path_of (s : string) : ppath :=
  mkPath (path_anchor s) (filter (λ p, p ≠ EmptyString ∧ p ≠ "."%string) (path_split s)).

(** [p / q]. *)
Definition ppath_join (p q : ppath) : ppath :=
  match pp_anchor q with NoAnchor => mkPath (pp_anchor p) (pp_parts p ++ pp_parts q) | _ => q end.

Definition is_absolute (p : ppath) : bool := negb (bool_decide (pp_anchor p = NoAnchor)).

(** [p.absolute()], in the working directory [cwd]. *)
Definition path_absolute (cwd : list string) (p : ppath) : ppath :=
  if is_absolute p then p else mkPath Slash (cwd ++ pp_parts p).

(** [p.is_relative_to(q)]. *)
Definition is_relative_to (p q : ppath) : bool :=
  bool_decide (pp_anchor p = pp_anchor q) && bool_decide (pp_parts q `prefix_of` pp_parts p).

(** ** The file system *)

Inductive fnode := FDir | FFile (a : artifact) | FLink (target : string).
Abbreviation fsys := (gmap (list string) fnode).

Definition link_at (fs : fsys) (p : list string) : option string :=
  match fs !! p with Some (FLink target) => Some target | _ => None end.

(** [os.path.realpath], component by component: [acc] is resolved, [rest] is not.  [None]
    is a run out of fuel, as a loop of links is. *)
Fixpoint resolve_from (fuel : nat) (fs : fsys) (acc rest : list string) : option (list string) :=
  match rest with
  | [] => Some acc
  | c :: rest' =>
      match fuel with
      | O => None
      | S fuel' =>
          if decide (c = ".."%string) then resolve_from fuel' fs (removelast acc) rest'
          else match link_at fs (acc ++ [c]) with
               | None => resolve_from fuel' fs (acc ++ [c]) rest'
               | Some target =>
                   let t := path_of target in
                   resolve_from fuel' fs (if is_absolute t then [] else acc) (pp_parts t ++ rest')
               end
      end
  end.

(** [p.resolve()] of an absolute path; the result has one root. *)
Definition path_resolve (fuel : nat) (fs : fsys) (p : ppath) : option ppath :=
  mkPath Slash <$> resolve_from fuel fs [] (pp_parts p).

(** ** [_safe_path] *)

Section paths.
Context (cwd : list string) (root : list string).
Implicit Types fs : fsys.

(** The path, or [None] for the [WorkerError] (for a loop of links, [pathlib]'s own). *)
Definition safe_path (fuel : nat) (fs : fsys) (p : ppath) : option ppath :=
  let p := path_absolute cwd p in
  if bool_decide (path_resolve fuel fs p = Some p) && is_relative_to p (mkPath Slash root) then Some p else None.

(** A path that is reached as it is written: no double dots, and no symbolic link at any
    directory on the way or at its end. *)
Definition plain (fs : fsys) (p : list string) : Prop :=
  (".."%string ∉ p) ∧ (∀ q, q `prefix_of` p → link_at fs q = None).

Lemma plain_nil fs : link_at fs [] = None → plain fs [].
Proof. intros H. split; [apply not_elem_of_nil|]. by intros q ->%prefix_nil_inv. Qed.

Lemma plain_app fs p c : plain fs p → c ≠ ".."%string → link_at fs (p ++ [c]) = None → plain fs (p ++ [c]).
Proof.
  intros [Hd Hl] Hc Hn. split; [rewrite elem_of_app, list_elem_of_singleton; naive_solver|].
  intros q [k Hq]. destruct (decide (k = [])) as [->|Hk]; [rewrite app_nil_r in Hq; by subst|].
  destruct (exists_last Hk) as (k' & x & ->). rewrite app_assoc in Hq. apply app_inj_tail in Hq as [Hq _].
  apply Hl. by exists k'.
Qed.

Lemma plain_prefix fs p q : q `prefix_of` p → plain fs p → plain fs q.
Proof.
  intros Hq [Hd Hl]. split; [|intros k Hk; apply Hl; by etrans]. intros Hin. apply Hd. by eapply elem_of_prefix.
Qed.

Lemma removelast_prefix {A} (l : list A) : removelast l `prefix_of` l.
Proof. induction l as [|x [|y l] IH]; [done|by exists [x]|]. by apply prefix_cons. Qed.

(** What [resolve] returns is plain, wherever the links lead. *)
Lemma resolve_plain fuel fs acc rest p :
  link_at fs [] = None → plain fs acc → resolve_from fuel fs acc rest = Some p → plain fs p.
Proof.
  intros Hroot. revert acc rest. induction fuel as [|fuel IH]; intros acc [|c rest] Ha; cbn [resolve_from]; [by intros [= <-]|done|by intros [= <-]|].
  destruct (decide _) as [->|Hc]; [apply IH, (plain_prefix _ _ _ (removelast_prefix _) Ha)|].
  destruct (link_at fs (acc ++ [c])) as [target|] eqn:El; [|by apply IH, plain_app].
  apply IH. destruct (is_absolute _); [by apply plain_nil|done].
Qed.

(** A plain path resolves to itself. *)
Lemma resolve_self fuel fs acc rest :
  plain fs (acc ++ rest) → (length rest ≤ fuel)%nat → resolve_from fuel fs acc rest = Some (acc ++ rest).
Proof.
  revert fuel acc. induction rest as [|c rest IH]; intros fuel acc Hp Hf; [destruct fuel; simpl; by rewrite app_nil_r|].
  destruct fuel as [|fuel]; simpl in Hf; [lia|]. cbn [resolve_from].
  rewrite decide_False by (intros ->; apply (proj1 Hp), elem_of_app; right; by left).
  replace (acc ++ c :: rest) with ((acc ++ [c]) ++ rest) in * by by rewrite <- app_assoc.
  rewrite (proj2 Hp (acc ++ [c])) by by apply prefix_app_r. apply IH; [done|lia].
Qed.

Lemma resolve_iff fuel fs p :
  link_at fs [] = None → (length p ≤ fuel)%nat → resolve_from fuel fs [] p = Some p ↔ plain fs p.
Proof.
  intros Hroot Hf. split; [by apply resolve_plain, plain_nil|]. intros Hp. by apply (resolve_self fuel fs [] p).
Qed.

(** [_safe_path] accepts exactly the paths below the deployment that no link is on the way
    of; and what it accepts it returns unchanged. *)
Theorem safe_path_spec fuel fs p q :
  link_at fs [] = None → (length (pp_parts (path_absolute cwd p)) ≤ fuel)%nat →
  safe_path fuel fs p = Some q ↔
  q = path_absolute cwd p ∧ pp_anchor q = Slash ∧ root `prefix_of` pp_parts q ∧ plain fs (pp_parts q).
Proof.
  intros Hroot Hf. unfold safe_path, is_relative_to, path_resolve. cbn [pp_anchor pp_parts].
  destruct (path_absolute cwd p) as [an ps]. simpl in *. pose proof (resolve_iff fuel fs ps Hroot Hf) as Hiff. split.
  - destruct (bool_decide (mkPath Slash <$> _ = _)) eqn:E1; [|done]. apply bool_decide_eq_true_1 in E1.
    destruct (bool_decide (an = Slash)) eqn:E2; [|done]. destruct (bool_decide (root `prefix_of` ps)) eqn:E3; [|done].
    apply bool_decide_eq_true_1 in E2, E3. intros [= <-]. split_and!; [done..|]. apply Hiff.
    destruct (resolve_from fuel fs [] ps); simpl in E1; congruence.
  - intros (-> & [= ->] & Hp & Hr). simpl in *. apply Hiff in Hr. rewrite Hr. simpl. by rewrite !bool_decide_eq_true_2.
Qed.

(** ** [_safe_dir] *)

(** [path.mkdir(parents=True, exist_ok=True)]: the directories on the way are made where
    nothing is; [None] where something else is in the way. *)
Fixpoint mkdir_from (fs : fsys) (acc rest : list string) : option fsys :=
  match rest with
  | [] => Some fs
  | c :: rest' =>
      match fs !! (acc ++ [c]) with
      | None => mkdir_from (<[acc ++ [c] := FDir]> fs) (acc ++ [c]) rest'
      | Some FDir => mkdir_from fs (acc ++ [c]) rest'
      | Some _ => None
      end
  end.

Inductive dir_outcome := DirReady (fs : fsys) | DirRefused (fs : fsys) | DirFails (fs : fsys).

(** What other processes do to the file system between the creation and the second check
    is [others]. *)
Definition safe_dir (fuel : nat) (others : fsys → fsys) (fs : fsys) (p : ppath) : dir_outcome :=
  match safe_path fuel fs p with
  | None => DirRefused fs
  | Some _ =>
      match mkdir_from fs [] (pp_parts p) with
      | None => DirFails fs
      | Some fs =>
          let fs := others fs in
          match safe_path fuel fs p with Some _ => DirReady fs | None => DirRefused fs end
      end
  end.

Lemma mkdir_from_spec fs acc rest fs' :
  mkdir_from fs acc rest = Some fs' →
  (∀ q n, fs !! q = Some n → fs' !! q = Some n) ∧
  (∀ q, fs !! q = None → fs' !! q = None ∨ fs' !! q = Some FDir) ∧
  (∀ q, acc `prefix_of` q → q `prefix_of` acc ++ rest → q ≠ acc → fs' !! q = Some FDir).
Proof.
  revert fs acc. induction rest as [|c rest IH]; intros fs acc; simpl.
  - intros [= <-]. split_and!; [done|by left|]. rewrite app_nil_r. intros q H1 H2 Hne. destruct Hne. by apply (anti_symm prefix).
  - assert (∀ q, acc `prefix_of` q → q `prefix_of` acc ++ c :: rest → q ≠ acc →
              q = acc ++ [c] ∨ (acc ++ [c] `prefix_of` q ∧ q `prefix_of` (acc ++ [c]) ++ rest ∧ q ≠ acc ++ [c])) as Hq.
    { intros q [[|x k] ->] H2 Hne; [by rewrite app_nil_r in Hne|]. apply prefix_app_inv, prefix_cons_inv_1 in H2 as H3. subst x.
      apply prefix_cons_inv_2 in H2. destruct k as [|y k]; [by left|right].
      replace (acc ++ c :: y :: k) with ((acc ++ [c]) ++ y :: k) by by rewrite <- app_assoc.
      split_and!; [by eexists|by apply prefix_app|]. intros E%(f_equal length). rewrite !length_app in E. simpl in E. lia. }
    destruct (fs !! (acc ++ [c])) as [[|a|target]|] eqn:El; [|done|done|]; intros H; apply IH in H as (H1 & H2 & H3); split_and!.
    + exact H1.
    + exact H2.
    + intros q Ha Hp Hne. destruct (Hq q Ha Hp Hne) as [->|(Ha' & Hp' & Hne')]; [by apply H1|by apply H3].
    + intros q n Hn. apply H1. rewrite lookup_insert_ne; [done|]. intros E. subst q. congruence.
    + intros q Hn. destruct (decide (acc ++ [c] = q)) as [<-|Hne]; [right; apply H1; by rewrite lookup_insert_eq|].
      apply H2. by rewrite lookup_insert_ne.
    + intros q Ha Hp Hne. destruct (Hq q Ha Hp Hne) as [->|(Ha' & Hp' & Hne')]; [apply H1; by rewrite lookup_insert_eq|by apply H3].
Qed.

(** [_safe_dir]: a directory it returns for is one, below the deployment, with no link on
    the way whatever other processes did since the first check; making it destroys nothing
    and adds directories only. *)
Theorem safe_dir_spec fuel others fs fs' p :
  link_at fs [] = None → link_at fs' [] = None → is_absolute p = true → (length (pp_parts p) ≤ fuel)%nat →
  safe_dir fuel others fs p = DirReady fs' →
  root `prefix_of` pp_parts p ∧ plain fs' (pp_parts p) ∧
  ∃ fs1, fs' = others fs1 ∧ (∀ q n, fs !! q = Some n → fs1 !! q = Some n) ∧
    (∀ q, fs !! q = None → fs1 !! q = None ∨ fs1 !! q = Some FDir) ∧
    (pp_parts p ≠ [] → fs1 !! pp_parts p = Some FDir).
Proof.
  intros Hr Hr' Ha Hf. unfold safe_dir. destruct (safe_path fuel fs p); [|done].
  destruct (mkdir_from fs [] (pp_parts p)) as [fs1|] eqn:Em; [|done].
  destruct (safe_path fuel (others fs1) p) as [q|] eqn:Es; [|done]. intros [= <-].
  assert (path_absolute cwd p = p) as Ep by (unfold path_absolute; by rewrite Ha).
  apply safe_path_spec in Es as (-> & _ & Hp & Hpl); [|done|by rewrite Ep]. rewrite Ep in *.
  split_and!; [done|done|]. exists fs1. apply mkdir_from_spec in Em as (H1 & H2 & H3).
  split_and!; [done|done|done|]. intros Hne. by apply H3; [apply prefix_nil| |].
Qed.

(** ** [V73Worker.__init__] *)

Inductive start_outcome := V73Started (fs : fsys) | V73Refused (msg : string) | V73Fails.

(** The directories of the worker, made one after the other. *)
Fixpoint safe_dirs (fuel : nat) (others : nat → fsys → fsys) (fs : fsys) (dirs : list ppath) : start_outcome :=
  match dirs with
  | [] => V73Started fs
  | p :: dirs' =>
      match safe_dir fuel (others (length dirs)) fs p with
      | DirReady fs => safe_dirs fuel others fs dirs'
      | DirRefused _ => V73Refused symlink_text
      | DirFails _ => V73Fails
      end
  end.

Definition v73_dirs : list ppath :=
  [mkPath Slash root; mkPath Slash (root ++ [".synthx_v73"%string]); mkPath Slash (root ++ ["results"%string])].

(** [type(upload_workers) is int]: a bool is not one. *)
Definition v73_start (fuel : nat) (others : nat → fsys → fsys) (upload_workers : pyval) (fs : fsys) : start_outcome :=
  match upload_workers with
  | PyInt n => if (1 <=? n) && (n <=? 4) then safe_dirs fuel others fs v73_dirs
               else V73Refused "upload_workers must be an integer from 1 to 4"
  | _ => V73Refused "upload_workers must be an integer from 1 to 4"
  end.

(** Making directories leads nothing astray. *)
Lemma mkdir_plain fs fs' p q : mkdir_from fs [] p = Some fs' → plain fs q → plain fs' q.
Proof.
  intros (H1 & H2 & _)%mkdir_from_spec [Hd Hl]. split; [done|]. intros k Hk. specialize (Hl k Hk). unfold link_at in *.
  destruct (fs !! k) as [n|] eqn:E; [by rewrite (H1 k n E)|]. by destruct (H2 k E) as [->| ->].
Qed.

Lemma safe_dirs_spec fuel fs dirs fs' :
  link_at fs [] = None → Forall (λ p, pp_anchor p = Slash ∧ (length (pp_parts p) ≤ fuel)%nat) dirs →
  safe_dirs fuel (λ _, id) fs dirs = V73Started fs' →
  (∀ q, plain fs q → plain fs' q) ∧ (∀ q n, fs !! q = Some n → fs' !! q = Some n) ∧
  Forall (λ p, plain fs' (pp_parts p) ∧ (pp_parts p ≠ [] → fs' !! pp_parts p = Some FDir)) dirs.
Proof.
  intros Hroot Hd. revert fs Hroot. induction Hd as [|p dirs [Ha Hf] _ IH]; intros fs Hroot; simpl; [by intros [= <-]|].
  destruct (safe_dir fuel id fs p) as [fs1|fs1|fs1] eqn:E; [|done|done]. intros H.
  assert (mkdir_from fs [] (pp_parts p) = Some fs1) as Em.
  { unfold safe_dir in E. destruct (safe_path fuel fs p); [|done]. destruct (mkdir_from _ _ _) as [fs2|]; [|done].
    simpl in E. destruct (safe_path fuel fs2 p); [|done]. by injection E as ->. }
  assert (plain fs1 []) as [_ Hr1] by (eapply mkdir_plain, plain_nil; [exact Em|exact Hroot]).
  destruct (IH fs1) as (H1 & H2 & H3); [by apply Hr1|exact H|].
  apply safe_dir_spec in E as (_ & Hp & fs2 & -> & Hk & _ & Hn); [|done|by apply Hr1|unfold is_absolute; by rewrite Ha|done].
  simpl in *. split_and!.
  - intros q Hq. apply H1. by eapply mkdir_plain.
  - intros q n Hq. apply H2, Hk, Hq.
  - constructor; [split; [by apply H1|intros Hne; apply H2, Hn, Hne]|done].
Qed.

(** A worker that starts has one to four upload threads, and its three directories exist
    and are reached without a link. *)
Theorem v73_start_ready fuel workers fs fs' :
  link_at fs [] = None → (S (length root) ≤ fuel)%nat →
  v73_start fuel (λ _, id) workers fs = V73Started fs' →
  (∃ n, workers = PyInt n ∧ 1 ≤ n ≤ 4) ∧
  Forall (λ p, plain fs' (pp_parts p) ∧ (pp_parts p ≠ [] → fs' !! pp_parts p = Some FDir)) v73_dirs.
Proof.
  intros Hroot Hf. unfold v73_start. destruct workers as [| |n| | | |]; try done.
  destruct ((1 <=? n) && (n <=? 4)) eqn:En; [|done]. intros H. apply andb_true_iff in En as [H1%Z.leb_le H2%Z.leb_le].
  split; [by exists n|]. eapply safe_dirs_spec; [exact Hroot| |exact H].
  repeat constructor; simpl; rewrite ?length_app; simpl; lia.
Qed.

(** ** The directory of a job *)

Definition results_root : ppath := mkPath Slash (root ++ ["results"%string]).

(** [self.results_root / spec['job_id']]. *)
Definition job_out (job : string) : ppath := ppath_join results_root (path_of job).

(** [str(p)] of the components below a directory. *)
Definition below_name (parts : list string) : string := String.concat "/" parts.

(** [_safe_path] with the fuel that decides it, as [safe_path_spec] shows. *)
Definition check_path (fs : fsys) (p : ppath) : option ppath :=
  safe_path (length (pp_parts (path_absolute cwd p))) fs p.

(** [_verify_path], of a reference that is a string. *)
Definition locate_in (fs : fsys) (out : ppath) (reference : string) : located :=
  let r := path_of reference in
  let candidate := if is_absolute r then r else ppath_join out r in
  match check_path fs candidate with
  | None => Unsafe
  | Some q =>
      if is_relative_to q out then Below (below_name (drop (length (pp_parts out)) (pp_parts q))) else Outside
  end.

(** What a fixed name of the output directory is: [_safe_path(out / name)], [exists] and
    [is_file]. *)
Definition entry_in (fs : fsys) (out : ppath) (name : string) : entry :=
  match check_path fs (ppath_join out (path_of name)) with
  | None => Linked
  | Some q => match fs !! pp_parts q with
              | None => Absent
              | Some FDir => Directory
              | Some (FFile a) => Regular a
              | Some (FLink _) => Linked
              end
  end.

Lemma check_path_spec fs p q :
  link_at fs [] = None →
  check_path fs p = Some q ↔
  q = path_absolute cwd p ∧ pp_anchor q = Slash ∧ root `prefix_of` pp_parts q ∧ plain fs (pp_parts q).
Proof. intros H. by apply safe_path_spec. Qed.

(** More fuel decides the same. *)
Lemma check_path_fuel fuel fs p :
  link_at fs [] = None → (length (pp_parts (path_absolute cwd p)) ≤ fuel)%nat → safe_path fuel fs p = check_path fs p.
Proof.
  intros H Hf. apply option_eq. intros q. by rewrite safe_path_spec, check_path_spec.
Qed.
End paths.

(** ** Names without separators *)

Definition no_slash (s : string) : Prop := path_split s = [s].

Lemma no_slash_chars s : forallb (λ c, negb (is_char c 47)) (String.list_ascii_of_string s) = true → no_slash s.
Proof.
  unfold no_slash. induction s as [|c s IH]; simpl; [done|]. intros [Hc Hs]%andb_true_iff.
  apply negb_true_iff in Hc. by rewrite Hc, IH.
Qed.

Lemma path_of_name s : no_slash s → s ≠ EmptyString → s ≠ "."%string → path_of s = mkPath NoAnchor [s].
Proof.
  intros Hs He Hd. unfold path_of. rewrite Hs, filter_cons_True, filter_nil by done. f_equal.
  destruct s as [|c s]; [done|]. unfold no_slash in Hs. simpl in Hs.
  destruct (is_char c 47) eqn:Ec; [discriminate Hs|]. unfold path_anchor. rewrite Ec. by destruct s as [|? []].
Qed.

(** The letters of a canonical UUID are hexadecimal digits and dashes. *)
Lemma uuid_shape_chars groups l :
  uuid_shape groups l = true → Forall (λ c, is_hex c = true ∨ Ascii.nat_of_ascii c = 45%nat) l.
Proof.
  assert (∀ k : list Ascii.ascii, forallb is_hex k = true → Forall (λ c, is_hex c = true ∨ Ascii.nat_of_ascii c = 45%nat) k) as Hh.
  { intros k Hk. rewrite forallb_forall in Hk. apply Forall_forall. intros c Hc. left. by apply Hk, list_elem_of_In. }
  revert l. induction groups as [|n groups IH]; intros l; [done|].
  destruct groups as [|m groups]; [intros [_ H]%andb_true_iff; by apply Hh|].
  cbn [uuid_shape]. intros [[_ H1]%andb_true_iff H2]%andb_true_iff. rewrite <- (take_drop n l).
  apply Forall_app. split; [by apply Hh|]. destruct (drop n l) as [|c l']; [done|].
  apply andb_true_iff in H2 as [Hc H2]. apply bool_decide_eq_true_1 in Hc. constructor; [by right|by apply IH].
Qed.

Lemma uuid_name s : is_uuid (PyStr s) = true → path_of s = mkPath NoAnchor [s] ∧ s ≠ ".."%string.
Proof.
  intros H. pose proof (uuid_shape_chars _ _ H) as Hc. split.
  - apply path_of_name; [apply no_slash_chars|by intros ->|by intros ->].
    apply forallb_forall. intros c Hin. rewrite Forall_forall in Hc. apply negb_true_iff, bool_decide_eq_false_2.
    intros E. apply list_elem_of_In, Hc in Hin as [Hx|Hx]; [|lia]. unfold is_hex in Hx. rewrite E in Hx. by vm_compute in Hx.
  - by intros ->.
Qed.

Section confinement.
Context (cwd root : list string).

Lemma job_out_uuid job : is_uuid (PyStr job) = true → job_out root job = mkPath Slash (root ++ ["results"; job]%string).
Proof. intros [E _]%uuid_name. unfold job_out, ppath_join. rewrite E. simpl. by rewrite <- app_assoc. Qed.

(** C14. Whatever a model reports, the worker stays in the directory of the job: a reference
    that passes [_verify_path] for a validated job denotes a file below the output directory
    of that job, which is a directory of its own below the deployment's results; no symbolic
    link and no double dot is on the way, so that opening it opens that very file; and two
    jobs never share one. *)
Theorem accepted_reference_is_confined (fs : fsys) (payload raw : pyval) (spec : v73_spec) (reference name : string) :
  link_at fs [] = None → validate_payload payload = Some (raw, spec) →
  locate_in cwd root fs (job_out root (vs_job_id spec)) reference = Below name →
  ∃ parts, name = below_name parts ∧
    path_absolute cwd (if is_absolute (path_of reference) then path_of reference
                       else ppath_join (job_out root (vs_job_id spec)) (path_of reference))
      = mkPath Slash (root ++ ["results"; vs_job_id spec]%string ++ parts) ∧
    plain fs (root ++ ["results"; vs_job_id spec]%string ++ parts) ∧
    (∀ fuel, (length (root ++ ["results"; vs_job_id spec]%string ++ parts) ≤ fuel)%nat →
       resolve_from fuel fs [] (root ++ ["results"; vs_job_id spec]%string ++ parts)
         = Some (root ++ ["results"; vs_job_id spec]%string ++ parts)) ∧
    ∀ job parts', root ++ ["results"; vs_job_id spec]%string ++ parts = root ++ ["results"; job]%string ++ parts' →
      job = vs_job_id spec ∧ parts' = parts.
Proof.
  intros Hroot Hv. apply validate_payload_sound in Hv as (_ & _ & _ & Hj & _). unfold locate_in.
  rewrite (job_out_uuid _ Hj). set (candidate := if is_absolute _ then _ else _).
  destruct (check_path cwd root fs candidate) as [q|] eqn:Ec; [|done].
  apply check_path_spec in Ec as (-> & Ha & _ & Hp); [|done]. destruct (is_relative_to _ _) eqn:Er; [|done].
  unfold is_relative_to in Er. apply andb_true_iff in Er as [_ Er]. apply bool_decide_eq_true_1 in Er as [parts Er].
  simpl in Er. rewrite Er in Hp |- *. cbn [pp_parts]. rewrite drop_app_length. intros [= <-].
  exists parts. rewrite <- app_assoc in Hp, Er. destruct (path_absolute cwd candidate) as [an ps]. simpl in *. subst.
  split_and!; [done|done|done| |].
  - intros fuel Hf. by apply resolve_iff.
  - intros job parts' E%app_inv_head. by injection E as -> ->.
Qed.

(** The files an answer is made of: each is a regular file that lies directly in the output
    directory of the job, reached without a link. *)
Theorem verified_files_are_confined (fs : fsys) (spec : v73_spec) (ob : v73_obs) (files : list (string * artifact)) (parameters : pyval) :
  link_at fs [] = None → is_uuid (PyStr (vs_job_id spec)) = true →
  vo_entry ob = entry_in cwd root fs (job_out root (vs_job_id spec)) →
  verified_files spec ob files parameters →
  ∀ n a, (n, a) ∈ files →
    fs !! (root ++ ["results"; vs_job_id spec; n]%string) = Some (FFile a) ∧ plain fs (root ++ ["results"; vs_job_id spec; n]%string).
Proof.
  intros Hroot Hj Hob (_ & Hf & _) n a Hin. destruct (Hf n a Hin) as [Hn Hr]. rewrite Hob in Hr. unfold entry_in in Hr.
  rewrite (job_out_uuid _ Hj) in Hr.
  assert (path_of n = mkPath NoAnchor [n]) as En.
  { revert Hn. unfold REQUIRED, OPTIONAL. simpl. rewrite !elem_of_cons.
    intros Hn. repeat destruct Hn as [->|Hn]; [reflexivity..|by apply not_elem_of_nil in Hn]. }
  rewrite En in Hr. unfold ppath_join in Hr. cbn [pp_anchor pp_parts] in Hr. rewrite <- app_assoc in Hr.
  destruct (check_path _ _ _ _) as [q|] eqn:Ec; [|done]. apply check_path_spec in Ec as (-> & _ & _ & Hp); [|done].
  unfold path_absolute in *. simpl in *. split; [|done]. by destruct (fs !! _) as [[]|]; simplify_eq.
Qed.
End confinement.

(** ** The worker over a file system *)

Definition path_str (p : ppath) : string :=
  (match pp_anchor p with NoAnchor => EmptyString | Slash => "/" | TwoSlashes => "//" end +:+ below_name (pp_parts p))%string.

(** The arguments of [v73_process] that depend on the file system. *)
Definition fs_out (root : list string) (job : string) : string := path_str (job_out root job).
Definition fs_locate (root : list string) (fs : fsys) (out reference : string) : located :=
  locate_in [] root fs (path_of out) reference.

Definition demo_root : list string := ["d"%string].
Definition demo_dir : list string := ["d"; "results"; demo_job]%string.
Definition demo_file (n : string) : list string * fnode :=
  (demo_dir ++ [n],
   FFile (mkArtifact n 1 (Some (if bool_decide (n = "result.json"%string) then demo_detail else PyDict [])))).

(** The output directory of the job, another job's file, and links out of the directory. *)
Definition demo_fs : fsys :=
  list_to_map (map demo_file REQUIRED ++
    [(["d"], FDir); (["d"; "results"], FDir); (demo_dir, FDir);
     (["d"; "results"; "other"; "final.wav"], FFile (mkArtifact "other" 1 None));
     (app demo_dir ["trap"], FLink "/etc"); (app demo_dir ["loop"], FLink "loop");
     (["mnt"], FLink "/d/results")]%string).

Example references_of_a_report :
  fs_locate demo_root demo_fs (fs_out demo_root demo_job) <$>
    ["final.wav"; "./final.wav"; "/d/results/" +:+ demo_job +:+ "//final.wav"; "../other/final.wav";
     "/d/results/other/final.wav"; "/etc/passwd"; "trap/passwd"; "loop/x"; "//d/results/" +:+ demo_job +:+ "/final.wav";
     "/mnt/" +:+ demo_job +:+ "/final.wav"]%string
  = [Below "final.wav"; Below "final.wav"; Below "final.wav"; Unsafe; Outside; Unsafe; Unsafe; Unsafe; Unsafe; Unsafe]%string.
Proof. vm_compute. reflexivity. Qed.

(** The attempts of [demo_attempts] over this file system. *)
Definition demo_fs_obs (done : bool) : v73_obs :=
  mkV73Obs true (λ _, true) true true true true done
    (if done then entry_in [] demo_root demo_fs (job_out demo_root demo_job) else λ _, Absent)
    true (Some (Some 3, ["abc"]%string)) true None (λ _, true) false.

Example attempts_over_files :
  run_attempts demo_sha (λ _, "fp"%string) (fs_out demo_root) (fs_locate demo_root demo_fs)
    [(demo_payload, demo_fs_obs false, 9%nat); (demo_payload, demo_fs_obs true, 3%nat);
     (demo_payload, demo_fs_obs true, 9%nat); (demo_payload, demo_fs_obs true, 9%nat)] vw_init
  = demo_run.
Proof. vm_compute. reflexivity. Qed.

Lemma accepted_reference_is_confined_witness :
  ∃ parts, "final.wav"%string = below_name parts ∧ plain demo_fs (demo_dir ++ parts).
Proof.
  destruct (validate_payload demo_payload) as [[raw spec]|] eqn:Hv; [|vm_compute in Hv; discriminate Hv].
  assert (vs_job_id spec = demo_job) as Ej by (vm_compute in Hv; by injection Hv as <- <-).
  assert (locate_in [] demo_root demo_fs (job_out demo_root (vs_job_id spec)) "final.wav" = Below "final.wav") as Hl
    by (rewrite Ej; vm_compute; reflexivity).
  destruct (accepted_reference_is_confined [] demo_root demo_fs demo_payload raw spec "final.wav" "final.wav"
              eq_refl Hv Hl) as (parts & Hn & _ & Hp & _).
  exists parts. split; [exact Hn|]. rewrite Ej in Hp. exact Hp.
Defined.
