(* ===== verification/V73Locks.v ===== *)
(** The two file locks of [src/system/worker_v73.py], under concurrent calls of [process]
    in one worker process: the lock of a job, held from the look at its state file to the end
    of its collector, and the lock of the model.  A lock is taken without waiting and is
    released by closing its descriptor. *)
From S2P Require Import Prelude.

(** Where a call is; a collector outlives the call that started it. *)
Inductive vcall :=
| VcEntered           (* validated, before the job's lock *)
| VcDeciding          (* holds the job's lock: reads the state file *)
| VcReady             (* holds both locks: about to start the collector *)
| VcCollecting        (* the collector runs, with both locks *)
| VcRefused           (* a lock was taken: already_running or worker_busy *)
| VcRaised            (* another exception before the collector *)
| VcReplayed          (* returned the stored result *)
| VcUnstarted         (* the collector's thread could not be started *)
| VcFinished.         (* the collector has ended *)

#[export] Instance vcall_eq_dec : EqDecision vcall.
Proof. solve_decision. Defined.

(** The calls, each with its job, and the holders of the locks. *)
Record lock_table := mkLocks {
  lk_calls : gmap nat (string * vcall);
  lk_jobs : gmap string nat;
  lk_model : option nat;
}.

Definition locks_init : lock_table := mkLocks ∅ ∅ None.

Inductive vlabel :=
| VlEnter (i : nat) (job : string)
| VlLockJob (i : nat)
| VlReplay (i : nat)                  (* the state file holds a result *)
| VlRaise (i : nat)                   (* it holds an error, another fingerprint, or an unresolved run *)
| VlLockModel (i : nat)
| VlStart (i : nat) (started : bool)
| VlFinish (i : nat).

Definition set_call (i : nat) (job : string) (pc : vcall) (s : lock_table) : gmap nat (string * vcall) :=
  <[i := (job, pc)]> (lk_calls s).

(** [process], step by step, and [run], the collector; [None] where the call is elsewhere.
    The return of a stored result leaves the [try] block without closing the lock. *)
Definition lock_step (l : vlabel) (s : lock_table) : option lock_table :=
  match l with
  | VlEnter i job =>
      match lk_calls s !! i with
      | None => Some (mkLocks (set_call i job VcEntered s) (lk_jobs s) (lk_model s))
      | Some _ => None
      end
  | VlLockJob i =>
      match lk_calls s !! i with
      | Some (job, VcEntered) =>
          match lk_jobs s !! job with
          | Some _ => Some (mkLocks (set_call i job VcRefused s) (lk_jobs s) (lk_model s))
          | None => Some (mkLocks (set_call i job VcDeciding s) (<[job := i]> (lk_jobs s)) (lk_model s))
          end
      | _ => None
      end
  | VlReplay i =>
      match lk_calls s !! i with
      | Some (job, VcDeciding) => Some (mkLocks (set_call i job VcReplayed s) (lk_jobs s) (lk_model s))
      | _ => None
      end
  | VlRaise i =>
      match lk_calls s !! i with
      | Some (job, VcDeciding) => Some (mkLocks (set_call i job VcRaised s) (delete job (lk_jobs s)) (lk_model s))
      | _ => None
      end
  | VlLockModel i =>
      match lk_calls s !! i with
      | Some (job, VcDeciding) =>
          match lk_model s with
          | Some _ => Some (mkLocks (set_call i job VcRefused s) (delete job (lk_jobs s)) (lk_model s))
          | None => Some (mkLocks (set_call i job VcReady s) (lk_jobs s) (Some i))
          end
      | _ => None
      end
  | VlStart i started =>
      match lk_calls s !! i with
      | Some (job, VcReady) =>
          Some (mkLocks (set_call i job (if started then VcCollecting else VcUnstarted) s) (lk_jobs s) (lk_model s))
      | _ => None
      end
  | VlFinish i =>
      match lk_calls s !! i with
      | Some (job, VcCollecting) => Some (mkLocks (set_call i job VcFinished s) (delete job (lk_jobs s)) None)
      | _ => None
      end
  end.

Fixpoint lock_run (ls : list vlabel) (s : lock_table) : option lock_table :=
  match ls with [] => Some s | l :: ls' => s' ← lock_step l s; lock_run ls' s' end.

(** ** The tables say who holds what *)

Definition holds_job (pc : vcall) : bool :=
  match pc with VcDeciding | VcReady | VcCollecting | VcReplayed | VcUnstarted => true | _ => false end.
Definition holds_model (pc : vcall) : bool :=
  match pc with VcReady | VcCollecting | VcUnstarted => true | _ => false end.

Record locks_ok (s : lock_table) : Prop := {
  lo_jobs : ∀ job i, lk_jobs s !! job = Some i ↔ ∃ pc, lk_calls s !! i = Some (job, pc) ∧ holds_job pc = true;
  lo_model : ∀ i, lk_model s = Some i ↔ ∃ job pc, lk_calls s !! i = Some (job, pc) ∧ holds_model pc = true;
}.

Lemma locks_init_ok : locks_ok locks_init.
Proof.
  split.
  - intros job i. simpl. rewrite !lookup_empty. naive_solver.
  - intros i. simpl. setoid_rewrite lookup_empty. naive_solver.
Qed.

(** A call moves on: its job's lock is kept, taken or released with it. *)
Lemma locks_ok_move s i job pc pc' jobs model :
  locks_ok s →
  lk_calls s !! i = Some (job, pc) ∨ (lk_calls s !! i = None ∧ holds_job pc = false ∧ holds_model pc = false) →
  (jobs = (if holds_job pc' then <[job := i]> (lk_jobs s) else if holds_job pc then delete job (lk_jobs s) else lk_jobs s)) →
  (model = if holds_model pc' then Some i else if holds_model pc then None else lk_model s) →
  (holds_job pc = false → holds_job pc' = true → lk_jobs s !! job = None) →
  (holds_model pc = false → holds_model pc' = true → lk_model s = None) →
  locks_ok (mkLocks (set_call i job pc' s) jobs model).
Proof.
  intros [Hj Hm] Hi -> -> Hfree Hfreem.
  assert (∀ job', lk_jobs s !! job' = Some i ↔ job = job' ∧ holds_job pc = true) as Fj.
  { intros job'. rewrite Hj. destruct Hi as [->|(-> & -> & _)]; [|by split; [intros (? & [=] & _)|intros [_ [=]]]].
    split; [by intros (pc0 & [= -> ->] & H)|]. intros [<- H]. by exists pc. }
  assert (lk_model s = Some i ↔ holds_model pc = true) as Fm.
  { rewrite Hm. destruct Hi as [->|(-> & _ & ->)]; [|by split; [intros (? & ? & [=] & _)|]].
    split; [by intros (job0 & pc0 & [= -> ->] & H)|]. intros H. by exists job, pc. }
  split; unfold set_call; simpl.
  - intros job' i'. destruct (decide (i' = i)) as [->|Hne].
    + rewrite lookup_insert_eq. trans (job = job' ∧ holds_job pc' = true).
      2:{ split; [intros [<- H]; by exists pc'|by intros (pc0 & [= -> ->] & H)]. }
      destruct (holds_job pc') eqn:Ep; [|destruct (holds_job pc) eqn:Ep0].
      * rewrite lookup_insert_Some, Fj. split; [intros [[? _]|[_ [? _]]]; done|]. intros [? _]. by left.
      * rewrite lookup_delete_Some, Fj. split; [by intros (Hn & ? & _)|by intros [_ [=]]].
      * rewrite Fj. done.
    + rewrite lookup_insert_ne, <- (Hj job' i') by done. destruct (holds_job pc') eqn:Ep; [|destruct (holds_job pc) eqn:Ep0; [|done]].
      * rewrite lookup_insert_Some. split; [intros [[_ ?]|[_ ?]]; [congruence|done]|]. intros E. right. split; [|done]. intros <-.
        destruct (holds_job pc) eqn:Ep0; [|by rewrite Hfree in E]. pose proof (proj2 (Fj job) (conj eq_refl eq_refl)). congruence.
      * rewrite lookup_delete_Some. split; [by intros [_ ?]|]. intros E. split; [|done]. intros <-.
        pose proof (proj2 (Fj job) (conj eq_refl eq_refl)). congruence.
  - intros i'. destruct (decide (i' = i)) as [->|Hne].
    + rewrite lookup_insert_eq. trans (holds_model pc' = true).
      2:{ split; [intros H; by exists job, pc'|by intros (job0 & pc0 & [= -> ->] & H)]. }
      destruct (holds_model pc') eqn:Ep; [done|]. destruct (holds_model pc) eqn:Ep0; [done|]. by rewrite Fm.
    + rewrite lookup_insert_ne, <- (Hm i') by done. destruct (holds_model pc') eqn:Ep; [|destruct (holds_model pc) eqn:Ep0; [|done]].
      * split; [by intros [= ->]|]. intros E. destruct (holds_model pc) eqn:Ep0; [|by rewrite Hfreem in E].
        pose proof (proj2 Fm eq_refl). congruence.
      * split; [done|]. intros E. pose proof (proj2 Fm eq_refl). congruence.
Qed.

Lemma lock_step_ok l s s' : lock_step l s = Some s' → locks_ok s → locks_ok s'.
Proof.
  intros E Hok. unfold lock_step in E.
  destruct l as [i job|i|i|i|i|i started|i]; destruct (lk_calls s !! i) as [[job' pc]|] eqn:Ei; try done.
  - injection E as <-. eapply (locks_ok_move s i job VcRefused); try done; by right.
  - destruct pc; try done. destruct (lk_jobs s !! job') eqn:El; injection E as <-;
      eapply (locks_ok_move s i job' VcEntered); try done; by left.
  - destruct pc; try done. injection E as <-. assert (lk_jobs s !! job' = Some i) as Hj by (apply (lo_jobs s Hok); eauto).
    eapply (locks_ok_move s i job' VcDeciding); [done|by left|simpl; by rewrite insert_id|done..].
  - destruct pc; try done. injection E as <-. eapply (locks_ok_move s i job' VcDeciding); try done; by left.
  - destruct pc; try done. assert (lk_jobs s !! job' = Some i) as Hj by (apply (lo_jobs s Hok); eauto).
    destruct (lk_model s) eqn:El; injection E as <-; eapply (locks_ok_move s i job' VcDeciding); try done; try (by left); simpl;
      rewrite ?insert_id; done.
  - destruct pc; try done. assert (lk_jobs s !! job' = Some i) as Hj by (apply (lo_jobs s Hok); eauto).
    assert (lk_model s = Some i) as Hm by (apply (lo_model s Hok); eauto).
    injection E as <-. eapply (locks_ok_move s i job' VcReady); try done; try (by left); destruct started; simpl; rewrite ?insert_id; done.
  - destruct pc; try done. injection E as <-. eapply (locks_ok_move s i job' VcCollecting); try done; by left.
Qed.

Lemma lock_run_ok ls s s' : lock_run ls s = Some s' → locks_ok s → locks_ok s'.
Proof.
  revert s. induction ls as [|l ls IH]; intros s; simpl; [by intros [= ->]|].
  destruct (lock_step l s) as [s1|] eqn:E; [|done]. intros H Hok. eapply IH; [exact H|]. by eapply lock_step_ok.
Qed.

(** C15. One model run at a time: under any interleaving of calls, at most one call holds the
    model's lock, and of the calls for one job at most one is past its lock, so two
    collectors never run together and no two calls ever look at the state file of the same
    job; a lock that is taken is held by a call that is still at work, unless that call
    returned a stored result or could not start its collector. *)
Theorem one_collector_at_a_time (ls : list vlabel) (s : lock_table) :
  lock_run ls locks_init = Some s →
  (∀ i i' job job' pc pc', lk_calls s !! i = Some (job, pc) → lk_calls s !! i' = Some (job', pc') →
     (holds_model pc = true → holds_model pc' = true → i = i') ∧
     (job = job' → holds_job pc = true → holds_job pc' = true → i = i')) ∧
  (∀ i, lk_model s = Some i ∨ (∃ job, lk_jobs s !! job = Some i) →
     ∃ job pc, lk_calls s !! i = Some (job, pc) ∧ pc ∈ [VcDeciding; VcReady; VcCollecting; VcReplayed; VcUnstarted]).
Proof.
  intros H. destruct (lock_run_ok ls _ _ H locks_init_ok) as [Hj Hm]. split.
  - intros i i' job job' pc pc' Hi Hi'. split.
    + intros H1 H2. assert (lk_model s = Some i) as E by (apply Hm; eauto).
      assert (lk_model s = Some i') as E' by (apply Hm; eauto). congruence.
    + intros <- H1 H2. assert (lk_jobs s !! job = Some i) as E by (apply Hj; eauto).
      assert (lk_jobs s !! job = Some i') as E' by (apply Hj; eauto). congruence.
  - intros i [(job & pc & Hi & Hp)%Hm|(job & (pc & Hi & Hp)%Hj)]; exists job, pc; (split; [done|]);
      rewrite !elem_of_cons; destruct pc; try done; auto 7.
Qed.

(** The call [i] has returned the stored result of [job]; the calls of [fresh] came later. *)
Record replayed (fresh : nat → Prop) (i : nat) (job : string) (s : lock_table) : Prop := {
  rp_ok : locks_ok s;
  rp_call : lk_calls s !! i = Some (job, VcReplayed);
  rp_later : ∀ k pc, fresh k → lk_calls s !! k = Some (job, pc) → pc = VcEntered ∨ pc = VcRefused;
}.

Definition label_call (l : vlabel) : nat :=
  match l with VlEnter i _ | VlLockJob i | VlReplay i | VlRaise i | VlLockModel i | VlStart i _ | VlFinish i => i end.

(** A step moves its own call only; a call that waits for a lock that is taken is refused. *)
Lemma lock_step_calls l s s' k : lock_step l s = Some s' → k ≠ label_call l → lk_calls s' !! k = lk_calls s !! k.
Proof.
  intros E Hne. unfold lock_step in E. destruct l as [j job|j|j|j|j|j started|j]; simpl in Hne;
    repeat case_match; simplify_eq; simpl; unfold set_call; by rewrite lookup_insert_ne.
Qed.

Lemma lock_step_waiting l s s' job pc :
  lock_step l s = Some s' → is_Some (lk_jobs s !! job) → lk_calls s' !! label_call l = Some (job, pc) →
  lk_calls s !! label_call l = None ∨ lk_calls s !! label_call l = Some (job, VcEntered) ∨
    lk_calls s !! label_call l = Some (job, VcRefused) →
  pc = VcEntered ∨ pc = VcRefused.
Proof.
  intros E [h Hh] Hpc Hold. unfold lock_step in E. destruct l as [j job1|j|j|j|j|j started|j]; simpl in Hpc, Hold;
    destruct Hold as [Ho|[Ho|Ho]]; rewrite Ho in E; try done; [|rewrite Hh in E];
    injection E as <-; simpl in Hpc; unfold set_call in Hpc; rewrite lookup_insert_eq in Hpc; injection Hpc as <-; auto.
Qed.

Lemma lock_step_replayed l s s' i job : lock_step l s = Some s' → lk_calls s !! i = Some (job, VcReplayed) → i ≠ label_call l.
Proof. intros E Hi ->. unfold lock_step in E. destruct l; simpl in Hi; by rewrite Hi in E. Qed.

Lemma replayed_step fresh i job l s s' : lock_step l s = Some s' → replayed fresh i job s → replayed fresh i job s'.
Proof.
  intros E [Hok Hi Hk]. pose proof (lock_step_replayed _ _ _ _ _ E Hi) as Hne.
  split; [by eapply lock_step_ok|by rewrite (lock_step_calls _ _ _ _ E)|]. intros k pc Hf Hpc.
  destruct (decide (k = label_call l)) as [->|Hn]; [|rewrite (lock_step_calls _ _ _ _ E) in Hpc by done; by eapply Hk].
  assert (is_Some (lk_jobs s !! job)) as Hl by (exists i; apply (lo_jobs s Hok); eauto).
  apply (lock_step_waiting _ _ _ _ _ E Hl Hpc).
  destruct (lk_calls s !! label_call l) as [[job' pc']|] eqn:Ec; [|by left]. right.
  assert (job' = job) as ->; [|destruct (Hk _ _ Hf Ec) as [->| ->]; auto].
  unfold lock_step in E. destruct l; simpl in *; rewrite Ec in E; repeat case_match; simplify_eq;
    simpl in Hpc; unfold set_call in Hpc; rewrite lookup_insert_eq in Hpc; by simplify_eq.
Qed.

Lemma replayed_run fresh i job ls s s' : lock_run ls s = Some s' → replayed fresh i job s → replayed fresh i job s'.
Proof.
  revert s. induction ls as [|l ls IH]; intros s H Hr; simpl in H; [by injection H as <-|].
  destruct (lock_step l s) as [s1|] eqn:E; [|done]. apply (IH s1 H). by eapply replayed_step.
Qed.

(** C16. A call that returned the stored result never gives the job's lock back: every later call
    for that job of the same process is refused, for good. *)
Theorem replayed_result_keeps_lock (ls : list vlabel) (s s' : lock_table) (i : nat) (job : string) :
  locks_ok s → lk_calls s !! i = Some (job, VcReplayed) → lock_run ls s = Some s' →
  lk_jobs s' !! job = Some i ∧
  ∀ k pc, lk_calls s !! k = None → lk_calls s' !! k = Some (job, pc) → pc = VcEntered ∨ pc = VcRefused.
Proof.
  intros Hok Hi H. assert (replayed (λ k, lk_calls s !! k = None) i job s) as Hr by (split; [done|done|congruence]).
  destruct (replayed_run _ _ _ _ _ _ H Hr) as [Hok' Hi' Hk]. split; [apply (lo_jobs s' Hok'); eauto|exact Hk].
Qed.

(** A result is asked for a third time by the same process. *)
Definition replay_run : list vlabel :=
  [VlEnter 0 "j"; VlLockJob 0; VlLockModel 0; VlStart 0 true; VlFinish 0;
   VlEnter 1 "j"; VlLockJob 1; VlReplay 1; VlEnter 2 "j"; VlLockJob 2]%nat%string.

Example third_request_refused :
  (λ s, (snd <$> (lk_calls s !! 1%nat), snd <$> (lk_calls s !! 2%nat), lk_model s)) <$> lock_run replay_run locks_init
  = Some (Some VcReplayed, Some VcRefused, None).
Proof. vm_compute. reflexivity. Qed.

Lemma one_collector_at_a_time_witness :
  ∃ s, lock_run replay_run locks_init = Some s ∧
    ∃ job pc, lk_calls s !! 1%nat = Some (job, pc) ∧ pc ∈ [VcDeciding; VcReady; VcCollecting; VcReplayed; VcUnstarted].
Proof.
  eexists. split; [vm_compute; reflexivity|].
  apply (one_collector_at_a_time replay_run); [vm_compute; reflexivity|].
  right. exists "j"%string. vm_compute. reflexivity.
Defined.

(** The state once the stored result was returned. *)
Definition replayed_table : lock_table := default locks_init (lock_run (take 8 replay_run) locks_init).

Lemma replayed_table_ok : locks_ok replayed_table.
Proof. apply (lock_run_ok (take 8 replay_run) locks_init); [vm_compute; reflexivity|apply locks_init_ok]. Qed.

Lemma replayed_result_keeps_lock_witness :
  ∃ s, lock_run (drop 8 replay_run) replayed_table = Some s ∧ lk_jobs s !! "j"%string = Some 1%nat ∧
    ∀ pc, lk_calls s !! 2%nat = Some ("j"%string, pc) → pc = VcEntered ∨ pc = VcRefused.
Proof.
  destruct (lock_run (drop 8 replay_run) replayed_table) as [s|] eqn:E; [|vm_compute in E; discriminate E].
  destruct (replayed_result_keeps_lock (drop 8 replay_run) replayed_table s 1%nat "j" replayed_table_ok) as [H1 H2];
    [vm_compute; reflexivity|exact E|].
  exists s. split; [reflexivity|]. split; [exact H1|]. intros pc. apply H2. vm_compute. reflexivity.
Defined.
