(* ===== verification/Fleet.v ===== *)
(** The workers the pool talks to: [WorkerServicer] of [src/system/grpc_worker_server.py]
    with the backend its process was started for, and what its successful answers say about
    the payloads they answer. *)
From S2P Require Import Prelude PyVal Tasks LocalWorker GrpcWorker World GrpcPool GrpcPoolFacts GrpcDelivery GrpcSettle Deployment WorkerServer WorkerServerFacts ApiServer TextWorker V73Worker V73WorkerFacts JsonCodec GrpcHonest.

(** ** [WorkerServicer.__init__] *)

Inductive worker_backend := Simulated | RealV73 | RealText.

#[export] Instance worker_backend_eq_dec : EqDecision worker_backend.
Proof. solve_decision. Defined.

(** [given] is the constructor's argument, [name] the value of INFERENCE_BACKEND; the
    constructors of the real backends may raise. *)
Definition servicer_backend (given : option worker_backend) (name : option string)
    (v73_starts text_starts : bool) : worker_backend + string :=
  match given with
  | Some b => inl b
  | None =>
      if bool_decide (name = Some "v7_3_full"%string)
      then if v73_starts then inl RealV73 else inr "V73Worker"%string
      else if bool_decide (name = Some "text_v1.2.3"%string)
      then if text_starts then inl RealText else inr "TextWorker"%string
      else if String.prefix "text_" (default EmptyString name)
      then inr "Only text_v1.2.3 is supported"%string
      else inl Simulated
  end.

(** No process serves a text model other than the supported release. *)
Lemma servicer_backend_text name v73 text b :
  servicer_backend None name v73 text = inl b →
  (b = RealText ↔ name = Some "text_v1.2.3"%string) ∧ (b = RealV73 ↔ name = Some "v7_3_full"%string) ∧
  (b = Simulated → String.prefix "text_" (default EmptyString name) = false).
Proof.
  unfold servicer_backend. case_bool_decide as H1; [subst; destruct v73; intros [=]; by subst|].
  case_bool_decide as H2; [subst; destruct text; intros [=]; by subst|].
  destruct (String.prefix "text_" _) eqn:E; [done|]. intros [= <-]. split_and!; [split; [done|congruence]..|done].
Qed.

(** ** [TextWorker.__init__] *)

(** [urllib.parse.urlsplit]: what the constructor looks at.  A text that [urlsplit] itself rejects
    also ends the constructor with a [ValueError]; it is not represented. *)
Record split_url := mkSplit {
  su_scheme : string;
  su_hostname : option string;
  su_username : option string;
  su_password : option string;
  su_query : string;
  su_fragment : string;
  su_path : string;
}.

Definition given_text (o : option string) : bool := negb (bool_decide (default EmptyString o = EmptyString)).

Definition is_origin (u : split_url) : bool :=
  bool_decide (su_scheme u ∈ ["http"; "https"]%string) && given_text (su_hostname u)
  && negb (given_text (su_username u) || given_text (su_password u) || given_text (Some (su_query u))
           || given_text (Some (su_fragment u)) || given_text (Some (su_path u))).

(** [(argument or os.environ.get(...)).rstrip("/")]. *)
Definition configured_url (argument variable : option string) : string :=
  let url := if given_text argument then default EmptyString argument else default EmptyString variable in
  String.string_of_list_ascii (rstrip_slash (String.list_ascii_of_string url)).

(** The two origins of the worker, or the [ValueError]. *)
Definition text_start (urlsplit : string → split_url) (base_url refinement_url text_variable refinement_variable : option string)
    : string * string + string :=
  let base := configured_url base_url text_variable in
  if negb (is_origin (urlsplit base)) then inr "TEXT_SERVICE_URL must be a service origin without credentials or path"%string
  else
    let refinement := configured_url refinement_url refinement_variable in
    if given_text (Some refinement) && negb (is_origin (urlsplit refinement))
    then inr "TEXT_REFINEMENT_SERVICE_URL must be a service origin without credentials or path"%string
    else inl (base, refinement).

(** A text worker that starts talks to origins only: neither URL carries credentials, a path
    or a query. *)
Lemma text_start_origins urlsplit base_url refinement_url v1 v2 base refinement :
  text_start urlsplit base_url refinement_url v1 v2 = inl (base, refinement) →
  is_origin (urlsplit base) = true ∧ (refinement = EmptyString ∨ is_origin (urlsplit refinement) = true).
Proof.
  unfold text_start. destruct (is_origin (urlsplit (configured_url base_url v1))) eqn:E1; simpl; [|done].
  destruct (given_text (Some (configured_url refinement_url v2))) eqn:Eg; simpl.
  - destruct (is_origin (urlsplit (configured_url refinement_url v2))) eqn:E2; simpl; [|done]. intros [= <- <-]. auto.
  - intros [= <- <-]. split; [done|]. left. unfold given_text in Eg. apply negb_false_iff, bool_decide_eq_true_1 in Eg. exact Eg.
Qed.

(** ** What a backend answers *)

Definition text_outcome (r : pyval + worker_error) : backend_outcome :=
  match r with inl v => BackendOk v | inr (code, msg) => BackendError code msg end.

(** A process that dies answers nothing. *)
Definition v73_outcome (r : v_out pyval) : option backend_outcome :=
  match r with VRet v => Some (BackendOk v) | VErr code msg _ => Some (BackendError code msg) | VCrash => None end.

(** The deployment the workers are part of, and what happened in it: the configuration of the
    text adapters, what a text service answered to a payload posted to a URL, the hash function
    and the canonical fingerprint of a specification, [sha256(_canonical(spec))], which the V7.3
    workers and the gateway compute alike, where the output directory of a job and the paths in
    it lead, and the attempts that V7.3 workers made, each a payload and what was observed. *)
Class FleetFacts := {
  ff_text : text_config;
  ff_said : string → list (string * pyval) → service_outcome → Prop;
  ff_sha : list string → string;
  v73_fp : pyval → string;
  ff_out : string → string;
  ff_locate : string → string → located;
  ff_attempt : pyval → v73_obs → Prop;
}.

Section backends.
Context {ff : FleetFacts}.

(** The V7.3 worker finds a job as its [past] attempts left it, and makes another one. *)
Definition v73_job_after (past : list (pyval * v73_obs * nat)) : v73_world :=
  (run_attempts ff_sha v73_fp ff_out ff_locate past vw_init).2.
Definition v73_attempt (past : list (pyval * v73_obs * nat)) (data : pyval) (ob : v73_obs) (n : nat) :
    v_out pyval * (nat * v73_world) :=
  v73_process ff_sha v73_fp ff_out ff_locate data ob (n, v73_job_after past).

(** One call of the backend's [process], with what it observes in this deployment: [service]
    is the text services' behaviour during the call. *)
Inductive backend_call_of : worker_backend → pyval → backend_outcome → Prop :=
| bc_text size service ob dl slot data :
    (∀ url payload timeout, ff_said url payload (service url payload timeout)) →
    backend_call_of RealText data (text_outcome (text_process ff_text size service ob dl slot data).1.1)
| bc_v73 past data ob n o :
    (∀ data' ob' k, (data', ob', k) ∈ past → ff_attempt data' ob') → ff_attempt data ob →
    v73_outcome (v73_attempt past data ob n).1 = Some o →
    backend_call_of RealV73 data o
| bc_unexpected b data : backend_call_of b data BackendCrash.

(** An answer of the simulation: the square of the input, with the worker's identity. *)
Definition simulated_answer (data v : pyval) : Prop :=
  ∃ wid x2, py_square (input_x data) = inl x2 ∧ v = prediction wid x2.

(** What a worker may answer to a payload, when only the [deployed] backends run. *)
Definition fleet_answer (deployed : worker_backend → Prop) (data v : pyval) : Prop :=
  (deployed Simulated ∧ simulated_answer data v) ∨ ∃ b, deployed b ∧ backend_call_of b data (BackendOk v).

(** The real backends answer their own task kinds only. *)
Lemma backend_answers_own_kind b data v :
  backend_call_of b data (BackendOk v) →
  ∃ d, data = PyDict d ∧ "kind"%string ∈ dict_keys d ∧ dict_get d "kind" PyNone ≠ PyStr "simulation".
Proof.
  intros H. remember (BackendOk v) as o eqn:Eo. destruct H as [size service ob dl slot data Hsaid|past data ob n o Hpast Hmade Ho|]; [| |done].
  - unfold text_process in Eo. destruct (text_check ob dl 0) as [[]|]; [done|].
    destruct (text_spec ff_text data size) as [p|[]] eqn:Es; [|done].
    clear Eo. unfold text_spec in Es. destruct data as [| | | | | |d]; try done. exists d. split; [done|].
    destruct (negb (has_exactly d _)) eqn:Eh; [done|]. apply negb_false_iff in Eh. unfold has_exactly in Eh.
    apply andb_true_iff in Eh as [_ Eh]. rewrite forallb_forall in Eh.
    split; [apply (bool_decide_eq_true_1 _ (Eh "kind"%string (or_introl eq_refl)))|].
    destruct (dict_get d "model" PyNone) as [| | | |model| |]; try done.
    destruct (dict_lookup MODEL_KINDS model) as [kind|] eqn:Ek; [|done].
    destruct (negb (py_eq_str _ kind)) eqn:Ekk; [done|]. apply negb_false_iff, py_eq_str_true in Ekk. rewrite Ekk.
    intros [= ->]. apply dict_lookup_elem in Ek. clear -Ek. revert Ek. unfold MODEL_KINDS. rewrite !elem_of_cons.
    intros [[=]|[[=]|H]]; by apply not_elem_of_nil in H.
  - subst o. unfold v73_attempt, v73_process in Ho. destruct (validate_payload data) as [[raw spec]|] eqn:Ev; [|done]. clear Ho.
    unfold validate_payload in Ev. destruct data as [| | | | | |d]; try done. exists d. split; [done|].
    destruct (has_exactly d _ && _ && _ && _) eqn:Eh; [|done]. rewrite !andb_true_iff in Eh. destruct Eh as [[[Eh Ek] _] _].
    unfold has_exactly in Eh. apply andb_true_iff in Eh as [_ Eh]. rewrite forallb_forall in Eh.
    split; [apply (bool_decide_eq_true_1 _ (Eh "kind"%string (or_introl eq_refl)))|].
    apply py_eq_str_true in Ek. by rewrite Ek.
Qed.

(** A payload whose kind is the simulation's, or that names none, is answered by the
    simulation only. *)
Lemma fleet_answer_simulated deployed d v :
  dict_get d "kind" (PyStr "simulation") = PyStr "simulation" → fleet_answer deployed (PyDict d) v →
  deployed Simulated ∧ simulated_answer (PyDict d) v.
Proof.
  intros Hk [H|(b & _ & H)]; [done|]. apply backend_answers_own_kind in H as (d' & [= <-] & Hin & Hne). exfalso. apply Hne.
  unfold dict_get in *. destruct (dict_lookup d "kind") eqn:El; [done|]. by apply dict_lookup_None in El.
Qed.

(** Where no simulated worker runs, a payload that names another kind than the V7.3 model's is
    answered by the text adapter only. *)
Lemma fleet_answer_text deployed d v kind :
  ¬ deployed Simulated → dict_get d "kind" PyNone = PyStr kind → kind ≠ "synthx_v73"%string →
  fleet_answer deployed (PyDict d) v →
  deployed RealText ∧ ∃ size service ob dl slot,
    (∀ url payload timeout, ff_said url payload (service url payload timeout)) ∧
    (text_process ff_text size service ob dl slot (PyDict d)).1.1 = inl v.
Proof.
  intros Hn Hk Hne [[H _]|(b & Hd & H)]; [done|]. remember (BackendOk v) as o eqn:Eo. remember (PyDict d) as data eqn:Ed.
  destruct H as [size service ob dl slot data Hsaid|past data ob n o Hpast Hmade Ho|]; [| |done].
  - split; [done|]. exists size, service, ob, dl, slot. split; [done|]. destruct (text_process _ _ _ _ _ _ _).1.1 as [v'|[]]; [|done].
    by injection Eo as ->.
  - exfalso. subst o data. unfold v73_attempt, v73_process in Ho. destruct (validate_payload (PyDict d)) as [[raw spec]|] eqn:Ev; [|done]. clear Ho.
    unfold validate_payload in Ev. destruct (has_exactly d _ && _ && _ && _) eqn:Eh; [|done].
    rewrite !andb_true_iff in Eh. destruct Eh as [[[_ Ek] _] _]. apply py_eq_str_true in Ek. congruence.
Qed.

(** And a payload of the V7.3 model's kind by the V7.3 worker: an attempt of this deployment
    at this very payload returned the answer, and what it describes was found on disk, and
    verified, by an attempt of this deployment, and is uploaded by then. *)
Definition v73_delivered (data v : pyval) : Prop :=
  ∃ past ob n s, ff_attempt data ob ∧ v73_attempt past data ob n = (VRet v, s) ∧
    answer_verified v73_fp ff_attempt data v s.2.

Lemma fleet_answer_v73 deployed d v :
  ¬ deployed Simulated → dict_get d "kind" PyNone = PyStr "synthx_v73" → fleet_answer deployed (PyDict d) v →
  deployed RealV73 ∧ v73_delivered (PyDict d) v.
Proof.
  intros Hn Hk [[H _]|(b & Hd & H)]; [done|]. remember (BackendOk v) as o eqn:Eo. remember (PyDict d) as data eqn:Ed.
  destruct H as [size service ob dl slot data Hsaid|past data ob n o Hpast Hmade Ho|]; [| |done].
  - exfalso. subst data. unfold text_process in Eo. destruct (text_check ob dl 0) as [[]|]; [done|].
    destruct (text_spec ff_text (PyDict d) size) as [p|[]] eqn:Es; [|done]. clear Eo. unfold text_spec in Es.
    destruct (negb (has_exactly d _)); [done|]. destruct (dict_get d "model" PyNone) as [| | | |model| |]; try done.
    destruct (dict_lookup MODEL_KINDS model) as [kind|] eqn:Ek; [|done].
    destruct (negb (py_eq_str _ kind)) eqn:Ekk; [done|]. apply negb_false_iff, py_eq_str_true in Ekk. rewrite Hk in Ekk.
    injection Ekk as <-. apply dict_lookup_elem in Ek. clear -Ek. revert Ek. unfold MODEL_KINDS. rewrite !elem_of_cons.
    intros [[=]|[[=]|H]]; by apply not_elem_of_nil in H.
  - split; [done|]. subst o data. destruct (v73_attempt past (PyDict d) ob n) as [[r|c g b|] s] eqn:Ep; try done.
    injection Ho as ->. exists past, ob, n, s. split_and!; [done|done|].
    exact (attempt_verified ff_sha v73_fp ff_out ff_locate ff_attempt past (PyDict d) ob n v s Hpast Hmade Ep).
Qed.

(** The checks of the answer against those of the request. *)
Lemma text_result_delivered b payload n value v :
  (tt_operation b = Retrieve → dict_get payload "pipeline_version" PyNone = PyStr (text_model_name (tt_model b))) →
  text_result (text_model_name (tt_model b)) (text_operation_name (tt_operation b)) payload n value = inl v →
  ∃ r, value = Some (PyDict r) ∧ n <= MAX_RESULT ∧
    (tt_operation b = Retrieve ∨ tt_model b = TextV123 → dict_get r "model" PyNone = PyStr (text_model_name (tt_model b))) ∧
    v = PyDict [("model", PyStr (text_model_name (tt_model b))); ("operation", PyStr (text_operation_name (tt_operation b)));
                ("result", PyDict r)]%string.
Proof.
  unfold text_result. intros Hp. destruct (MAX_RESULT <? n) eqn:En; [done|]. apply Z.ltb_ge in En.
  destruct value as [[| | | | | |r]|]; try done. intros H. exists r.
  destruct (bool_decide (text_operation_name (tt_operation b) = "retrieve"%string) && _) eqn:E1; [done|].
  destruct (bool_decide (text_model_name (tt_model b) = MODEL) && _) eqn:E2; [done|]. injection H as <-.
  split_and!; try done. rewrite andb_false_iff, bool_decide_eq_false, negb_false_iff in E1, E2.
  intros Hn. destruct (tt_operation b) eqn:Eo.
  - destruct E1 as [E1|E1]; [done|]. rewrite (Hp eq_refl) in E1. by apply py_eq_str_true.
  - destruct (tt_model b); [|by destruct Hn].
    destruct E2 as [E2|E2]; [done|]. by apply py_eq_str_true.
Qed.

(** What [v] answers the request [b] with: the object, within the size limit, that a text
    service answered when this operation of this model was asked, at the deployed adapter's URL,
    for exactly this payload, and which names the pinned model wherever the protocol lets it. *)
Definition text_delivered (b : TextTaskRequest) (v : pyval) : Prop :=
  ∃ (n : Z) r,
    ff_said (service_url ff_text (text_model_name (tt_model b)) +:+
             match tt_operation b with Retrieve => "/text-v1/retrieve" | Rerank => "/text-v1/rerank" end)%string
      (tt_payload b) (ServiceBody n (Some (PyDict r))) ∧ n <= MAX_RESULT ∧
    (tt_operation b = Retrieve ∨ tt_model b = TextV123 → dict_get r "model" PyNone = PyStr (text_model_name (tt_model b))) ∧
    v = PyDict [("model", PyStr (text_model_name (tt_model b))); ("operation", PyStr (text_operation_name (tt_operation b)));
                ("result", PyDict r)]%string.

Lemma text_process_delivered size service ob dl slot b v :
  (∀ url payload timeout, ff_said url payload (service url payload timeout)) →
  (text_process ff_text size service ob dl slot (text_input b)).1.1 = inl v → text_delivered b v.
Proof.
  intros Hsaid. unfold text_process. destruct (text_check ob dl 0); [done|]. rewrite text_spec_input. cbv zeta.
  destruct (bool_decide (service_url ff_text _ = EmptyString)); [done|].
  destruct (bool_decide (tt_operation b = Retrieve) && negb (py_eq_str (dict_get (tt_payload b) "pipeline_version" PyNone) _)) eqn:Ep; [done|].
  destruct (bool_decide (tt_operation b = Retrieve) && negb (_ || _)); [done|]. do 2 (destruct (_ && _ && _); [done|]).
  destruct (size _) as [k|]; [|done]. destruct (256 * 1024 <? k); [done|]. destruct (negb slot); [done|].
  destruct (text_check ob dl 1); [done|]. destruct (service _ _ _) as [n value|code|late] eqn:Es; [|done..].
  destruct (text_check ob dl 3); [done|]. intros H. apply text_result_delivered in H as (r & -> & Hn & Hm & ->).
  - exists n, r. split_and!; [|done|done|done]. rewrite <- Es. apply Hsaid.
  - intros Ho. rewrite bool_decide_true in Ep by done. by apply negb_false_iff, py_eq_str_true in Ep.
Qed.

End backends.

(** ** One call of a worker *)

Section calls.
Context {ff : FleetFacts} (deployed : worker_backend → Prop) (dumps : pyval → string) (loads : string → pyval + string).

(** The body of [ProcessBatch] in a process with this backend; a call of the simulation
    may be cancelled. *)
Inductive worker_body : worker_backend → Z → list TaskRequest → list TaskResult → Prop :=
| wb_simulated wid fuel ws ob rqs results :
    process_batch dumps loads wid fuel ws ob rqs = Some results → worker_body Simulated wid rqs results
| wb_backend b wid process received rqs :
    b ≠ Simulated → (∀ i data dl, backend_call_of b data (process i data dl)) →
    worker_body b wid rqs (process_backend dumps loads process received rqs).

(** The reply of a worker that the pool reaches: through its gate, if it has one. *)
Definition worker_reply (rqs : list TaskRequest) (results : list TaskResult) : Prop :=
  ∃ b wid gate body others, deployed b ∧ worker_body b wid rqs body ∧
    (ProcessBatch gate (Some body) others rqs).1 = Some results.

(** A successful result answers the payload of its request. *)
Definition answers (rqs : list TaskRequest) (res : TaskResult) : Prop :=
  ∃ rq, rq ∈ rqs ∧ rq_task_id rq = rs_task_id res ∧
    ∀ payload, loads (rq_input_json rq) = inl payload →
      ∃ v, rs_result_json res = dumps v ∧ fleet_answer deployed payload v.

Lemma predict_result_answers wid rqs rq :
  deployed Simulated → rq ∈ rqs → rs_success (predict_result dumps loads wid rq) = true → answers rqs (predict_result dumps loads wid rq).
Proof using.
  intros Hd Hin Hs. exists rq. unfold predict_result in *.
  destruct (loads (rq_input_json rq)) as [data|msg]; [|done]. destruct (py_square (input_x data)) as [x2|msg] eqn:Esq; [|done].
  split_and!; [done|done|]. intros payload [= <-]. exists (prediction wid x2). split; [done|]. left. split; [done|]. by exists wid, x2.
Qed.

Lemma backend_result_answers b rqs rq (process : nat → pyval → option Q → backend_outcome) received i :
  deployed b → rq ∈ rqs → (∀ i data dl, backend_call_of b data (process i data dl)) →
  rs_success (backend_result dumps loads (process i) received rq) = true →
  answers rqs (backend_result dumps loads (process i) received rq).
Proof using.
  intros Hd Hin Hb Hs. exists rq. unfold backend_result in *. destruct (loads (rq_input_json rq)) as [data|msg]; [|done].
  destruct (process i data _) as [v|code msg|] eqn:Ep; try done. split_and!; [done|done|].
  intros payload [= <-]. exists v. split; [done|]. right. exists b. split; [done|]. rewrite <- Ep. apply Hb.
Qed.

Lemma worker_body_answers b wid rqs results res :
  deployed b → worker_body b wid rqs results → res ∈ results → rs_success res = true → answers rqs res.
Proof using.
  intros Hd H. revert Hd. destruct H as [wid' fuel ws ob rqs' results' H|b' wid' process received rqs' Hb Hp]; intros Hd Hin Hs.
  - apply process_batch_spec in H as [Hok _]. destruct (Hok res Hin) as (rq & Hrq & Hcase).
    destruct Hcase as [[-> _]|[[-> _]|[-> _]]]; [done|done|]. by apply predict_result_answers.
  - unfold process_backend in Hin. apply elem_of_lookup_imap in Hin as (i & rq & -> & Hrq).
    eapply (backend_result_answers b'); [done|by eapply list_elem_of_lookup_2|exact Hp|exact Hs].
Qed.

Lemma worker_reply_answers rqs results res :
  worker_reply rqs results → res ∈ results → rs_success res = true → answers rqs res.
Proof using.
  intros (b & wid & gate & body & others & Hd & Hb & Hp) Hin Hs. unfold ProcessBatch in Hp.
  destruct gate as [[m g]|]; [|injection Hp as ->; by eapply worker_body_answers].
  destruct (gate_enter m g) as [[] g']; injection Hp as <-; [by eapply worker_body_answers|].
  apply list_elem_of_fmap in Hin as (rq & -> & _). done.
Qed.
End calls.

(** The workers of an environment are processes of this program with [deployed] backends. *)
Class FleetWorkers {ff : FleetFacts} (deployed : worker_backend → Prop) (env : environment) : Prop :=
  fleet_rpc : ∀ n who rqs timeout results, rpc env n who rqs timeout = RpcOk results →
    worker_reply deployed (json_dumps env) (json_loads env) rqs results.

#[export] Instance fleet_honest {ff : FleetFacts} deployed (env : environment) `{!FleetWorkers deployed env}
    `{!JsonRoundTrip (json_dumps env) (json_loads env)} : HonestWorkers (fleet_answer deployed) env.
Proof.
  intros n who rqs timeout results res Hr Hin Hs. pose proof (fleet_rpc n who rqs timeout results Hr) as Hw.
  destruct (worker_reply_answers _ _ _ _ _ _ Hw Hin Hs) as (rq & Hrq & Hid & Ha). exists rq. split_and!; [done|done|].
  intros payload v Hp Hv. destruct (Ha payload Hp) as (v' & E & Hf). rewrite E, json_round_trip in Hv. by injection Hv as <-.
Qed.
