(* ===== verification/JobPath.v ===== *)
(** A durable job on its way through the system: the job table, the gateway of
    [src/system/job_gateway.py], the scheduler and the pool of the API process, and the
    workers.  What a worker may answer to a payload carries over from the task to the row. *)
From S2P Require Import Prelude PyVal Tasks Queue JobStore JobStoreFacts JobGateway JobGatewayFacts GatewaySql Justified ApiServer ApiServerFacts ServingPath.

(** ** Succeeded rows *)

(** The payload of a job's task. *)
Definition job_payload (spec : pyval) (attempt : string) : pyval :=
  PyDict [("kind", PyStr "synthx_v73"); ("spec", spec); ("attempt_id", PyStr attempt)]%string.

Section table.
Context (justifies : pyval → pyval → Prop) (spec_of : string → pyval).

(** A row of the job [k]: its specification, and the answer if it has succeeded. *)
Definition row_answered (k : string) (j : job) : Prop :=
  j_spec j = spec_of k ∧
  (j_status j = Succeeded → ∃ a v, j_attempt_id j = Some a ∧ j_result j = json_or_null v ∧ justifies (job_payload (j_spec j) a) v).

Definition table_answered (db : jobs) : Prop := jobs_wf db ∧ ∀ k j, db !! k = Some j → row_answered k j.

(** A statement that completes a job with a result brings an answer. *)
Definition honest_op (o : job_op) : Prop :=
  match o with Complete k a result error => error = PyNone → justifies (job_payload (spec_of k) a) result | _ => True end.

Lemma fenced_answered k a now f (db : jobs) :
  (∀ j, row_answered k j → holds_lease a now j = true → row_answered k (f j)) →
  (∀ k' j, db !! k' = Some j → row_answered k' j) →
  ∀ k' j, (fenced_update k a now f db).2 !! k' = Some j → row_answered k' j.
Proof using.
  intros Hf Hdb k' j. unfold fenced_update. destruct (db !! k) as [j0|] eqn:E; [|apply Hdb].
  destruct (holds_lease a now j0) eqn:Eh; [|apply Hdb]. simpl. rewrite lookup_insert_Some.
  intros [[<- <-]|[_ H]]; [by apply Hf; [apply Hdb|]|by apply Hdb].
Qed.

Lemma stmt_answered now o db : honest_op o → table_answered db → table_answered (job_stmt now o db).2.
Proof using.
  intros Ho [Hwf Hdb]. split; [by apply job_stmt_wf|]. revert Ho.
  destruct o as [kid secs a locked|k a secs|k a result error|k a error secs|]; simpl; intros Ho k' j'.
  - unfold job_claim. pose proof (candidate_spec kid locked now db) as Hc.
    destruct (candidate kid locked now db) as [j|]; [|apply Hdb]. simpl.
    destruct Hc as [[k0 (Hk0 & _)] _]. destruct (Hwf k0 j Hk0) as [Hid _]. rewrite Hid, lookup_insert_Some.
    intros [[<- <-]|[_ H]]; [|by apply Hdb]. split; [apply (Hdb k0 j Hk0)|done].
  - unfold job_renew. match goal with |- context [fenced_update ?k ?a ?n ?f db] => pose proof (fenced_answered k a n f db) as Hf; destruct (fenced_update k a n f db) end.
    apply Hf; [|exact Hdb].
    intros j Hj _. exact Hj.
  - unfold job_complete. match goal with |- context [fenced_update ?k ?a ?n ?f db] => pose proof (fenced_answered k a n f db) as Hf; destruct (fenced_update k a n f db) end.
    apply Hf; [|exact Hdb].
    intros j [Hs _] (Ha & _)%holds_lease_true. split; [exact Hs|]. simpl. destruct error; try done. intros _.
    exists a, result. split_and!; [done|done|]. rewrite Hs. by apply Ho.
  - unfold job_defer. match goal with |- context [fenced_update ?k ?a ?n ?f db] => pose proof (fenced_answered k a n f db) as Hf; destruct (fenced_update k a n f db) end.
    apply Hf; [|exact Hdb].
    intros j [Hs _] _. by split.
  - rewrite lookup_fmap_Some. intros (j & <- & H). unfold expire_row. destruct (deadline_passed now j); [|by apply Hdb].
    split; [apply (Hdb k' j H)|done].
Qed.

Lemma run_answered os db : Forall (λ no, honest_op no.2) os → table_answered db → table_answered (job_run os db).2.
Proof using.
  intros H. revert db. induction H as [|[now o] os Ho _ IH]; intros db Hdb; simpl; [done|].
  pose proof (stmt_answered now o db Ho Hdb) as H1. destruct (job_stmt now o db) as [r db1]. specialize (IH db1 H1).
  by destruct (job_run os db1).
Qed.

Lemma claimed_spec kid secs a locked now db row :
  table_answered db → (job_claim kid secs a locked now db).1 = Some row → j_spec row = spec_of (j_job_id row).
Proof using.
  intros [Hwf Hdb]. unfold job_claim. pose proof (candidate_spec kid locked now db) as Hc.
  destruct (candidate kid locked now db) as [j|]; [|done]. simpl. intros [= <-].
  destruct Hc as [[k0 (Hk0 & _)] _]. destruct (Hwf k0 j Hk0) as [Hid _]. simpl. rewrite Hid. apply (Hdb k0 j Hk0).
Qed.
End table.

(** ** The gateway *)

(** What the gateway and the table owe each other: its calls keep the table answered, if the
    results it reports are answers, and the rows it claims carry their job's specification. *)
Class AnsweringTable {St : Type} `{JobStoreAPI St} (justifies : pyval → pyval → Prop) (spec_of : string → pyval)
    (ok : St → Prop) : Prop := {
  at_get : ∀ k st, ok st → ok (api_get k st).2;
  at_claim : ∀ k secs st, ok st → ok (api_claim k secs st).2 ∧
    ∀ row, (api_claim k secs st).1 = Some (Some row) → j_spec row = spec_of (j_job_id row);
  at_renew : ∀ k a secs st, ok st → ok (api_renew k a secs st).2;
  at_complete : ∀ k a result error st, (error = PyNone → justifies (job_payload (spec_of k) a) result) →
    ok st → ok (api_complete k a result error st).2;
  at_defer : ∀ k a error secs st, ok st → ok (api_defer k a error secs st).2;
  at_expire : ∀ st, ok st → ok (api_expire st).2;
}.

(** The other threads of the process. *)
Class JobThreads {St : Type} (justifies : pyval → pyval → Prop) (ok : St → Prop)
    (tick : nat → gstate St → gstate St) : Prop := {
  jt_rely :: GatewayEnv tick;
  jt_store : ∀ n s, ok (g_store s) → ok (g_store (tick n s));
  jt_justified : ∀ n s, justified justifies (g_tasks s) → justified justifies (g_tasks (tick n s));
}.

Section gateway.
Context {St : Type} `{JobStoreAPI St} (justifies : pyval → pyval → Prop) (spec_of : string → pyval) (ok : St → Prop).
Context `{!AnsweringTable justifies spec_of ok}.
Context (tick : nat → gstate St → gstate St) (fp : pyval → string) (uuid : store → string) (cfg : gateway_config).
Context `{!JobThreads justifies ok tick}.
Context (Huuid : ∀ h, fresh_id h (uuid h)).   (* [uuid4] does not repeat itself *)
Implicit Types s : gstate St.

(** The task [r] is an attempt at the job [k]. *)
Definition attempts_job (h : store) (k a : string) (r : tref) : Prop :=
  ∃ t, h !! r = Some t ∧ input_data t = job_payload (spec_of k) a.

Lemma attempts_job_le (h1 h2 : store) k a r : store_le h1 h2 → attempts_job h1 k a r → attempts_job h2 k a r.
Proof using.
  intros Hle (t & Ht & Hi). destruct (Hle r t Ht) as [os Ho]. exists (run_ops t os). split; [done|].
  rewrite <- Hi. apply run_ops_frame.
Qed.

(** [entries] are those a loop still works on. *)
Record job_path_inv (entries : list (string * (tref * string * Q))) s : Prop := {
  pi_store : ok (g_store s);
  pi_tasks : justified justifies (g_tasks s);
  pi_active : ∀ k r a m, (k, (r, a, m)) ∈ g_active s → attempts_job (g_tasks s) k a r;
  pi_entries : ∀ k r a m, (k, (r, a, m)) ∈ entries → attempts_job (g_tasks s) k a r;
}.

(** [m] runs from [P] to [Q], and leaves the invariant when it raises. *)
Definition gt {A} (P : gstate St → Prop) (m : G A) (Q : A → gstate St → Prop) : Prop :=
  ∀ s, P s → match m s with (Some a, s') => Q a s' | (None, s') => job_path_inv [] s' end.

Lemma gt_ret {A} (P : gstate St → Prop) (a : A) : gt P (mret a) (λ _, P).
Proof using. by intros s. Qed.

Lemma gt_bind {A B} P (m : G A) Q (k : A → G B) R : gt P m Q → (∀ a, gt (Q a) (k a) R) → gt P (m ≫= k) R.
Proof using.
  intros Hm Hk s Hs. specialize (Hm s Hs). unfold mbind, g_bind. destruct (m s) as [[a|] s1]; [by apply Hk|done].
Qed.

Lemma gt_pre {A} (P P' : gstate St → Prop) (m : G A) Q : (∀ s, P s → P' s) → gt P' m Q → gt P m Q.
Proof using. intros HP Hm s Hs. by apply Hm, HP. Qed.

Lemma gt_post {A} P (m : G A) (Q Q' : A → gstate St → Prop) : gt P m Q → (∀ a s, Q a s → Q' a s) → gt P m Q'.
Proof using. intros Hm HQ s Hs. specialize (Hm s Hs). destruct (m s) as [[a|] s1]; [by apply HQ|done]. Qed.

Lemma gt_read {A} P (f : gstate St → A) : gt P (g_read f) (λ a s, P s ∧ a = f s).
Proof using. by intros s. Qed.

Lemma gt_if {A} (b : bool) P (m1 m2 : G A) Q : gt P m1 Q → gt P m2 Q → gt P (if b then m1 else m2) Q.
Proof using. by destruct b. Qed.

Lemma forget_entries l entries s : (∀ e, e ∈ l → e ∈ entries) → job_path_inv entries s → job_path_inv l s.
Proof using. intros Hl [? ? ? He]. split; try done. intros k r a m Hin. eapply He, Hl, Hin. Qed.

(** ** The steps *)

Lemma gt_pause entries : gt (job_path_inv entries) (g_pause tick) (λ _, job_path_inv entries).
Proof using JobThreads0.
  intros s [H1 H2 H3 H4]. simpl. pose proof (tick_rely (g_points s) (bump_points s)) as [Ht _ Ha _]. split.
  - by apply (jt_store (tick := tick)).
  - by apply (jt_justified (tick := tick)).
  - intros k r a m. rewrite Ha. intros Hk. eapply attempts_job_le; [exact Ht|by eapply H3].
  - intros k r a m Hk. eapply attempts_job_le; [exact Ht|by eapply H4].
Qed.

Lemma gt_call {A} entries (f : St → option A * St) : (∀ st, ok st → ok (f st).2) →
  gt (job_path_inv entries) (g_call f) (λ _, job_path_inv entries).
Proof using.
  intros Hf s [H1 ? ? ?]. unfold g_call. specialize (Hf _ H1). destruct (f (g_store s)) as [[a|] st]; split; try done.
  intros k r a m Hk. by apply not_elem_of_nil in Hk.
Qed.

Lemma gt_note entries r : gt (job_path_inv entries) (g_note r) (λ _, job_path_inv entries).
Proof using. intros s [? ? ? ?]. by split. Qed.

Lemma gt_complete entries k a result error :
  (error = PyNone → justifies (job_payload (spec_of k) a) result) →
  gt (job_path_inv entries) (complete_job k a result error) (λ _, job_path_inv entries).
Proof using AnsweringTable0.
  intros Hj. eapply gt_bind; [apply gt_call; exact (λ st Hok, at_complete k a result error st Hj Hok)|intros ?; apply gt_note].
Qed.

Lemma gt_defer entries k a error : gt (job_path_inv entries) (defer_job cfg k a error) (λ _, job_path_inv entries).
Proof using AnsweringTable0. eapply gt_bind; [apply gt_call; exact (λ st Hok, at_defer k a error (retry_seconds cfg) st Hok)|intros ?; apply gt_note]. Qed.

Lemma gt_fail entries err code r : gt (job_path_inv entries) (g_fail err code r) (λ _, job_path_inv entries).
Proof using.
  intros s [H1 H2 H3 H4]. simpl. pose proof (store_le_mark_failed (g_wall s) err (Some code) r (g_tasks s)) as Hle. split; simpl.
  - done.
  - by apply fail_justified.
  - intros k q a m Hk. eapply attempts_job_le; [exact Hle|by eapply H3].
  - intros k q a m Hk. eapply attempts_job_le; [exact Hle|by eapply H4].
Qed.

Lemma gt_drop entries k : gt (job_path_inv entries) (g_drop k) (λ _, job_path_inv entries).
Proof using.
  intros s [? ? H4 ?]. split; try done. intros k' r a m Hin. apply list_elem_of_filter in Hin as [_ Hin]. by eapply H4.
Qed.

Lemma gt_activate entries k r a :
  gt (λ s, job_path_inv entries s ∧ attempts_job (g_tasks s) k a r) (g_activate k r a) (λ _, job_path_inv entries).
Proof using.
  intros s [[? ? H4 ?] Ha]. split; try done. intros k' q b m Hin. apply dict_elem_set in Hin as [[= -> -> -> _]|Hin]; [exact Ha|].
  by eapply H4.
Qed.

(** ** The methods *)

Lemma gt_pure (φ : Prop) {A} P (m : G A) Q : (∀ s, P s → φ) → (φ → gt P m Q) → gt P m Q.
Proof using. intros Hφ Hm s Hs. by apply Hm; [eapply Hφ|]. Qed.

Lemma gt_if_cases {A} (b : bool) P (m1 m2 : G A) Q : (b = true → gt P m1 Q) → (b = false → gt P m2 Q) → gt P (if b then m1 else m2) Q.
Proof using. destruct b; auto. Qed.

(** A look that is not needed, and one at a task among the entries: it holds an answer if it
    is done. *)
Lemma gt_look {A B} entries (f : gstate St → A) (k : A → G B) Q :
  (∀ a, gt (job_path_inv entries) (k a) Q) → gt (job_path_inv entries) (g_read f ≫= k) Q.
Proof using. intros Hk. eapply gt_bind; [apply gt_read|]. intros a s [Hs _]. by apply Hk. Qed.

Lemma gt_look_task {B} entries k r a m (f : option Task → G B) Q :
  (k, (r, a, m)) ∈ entries →
  (∀ t, (∀ t', t = Some t' → status t' = DONE → justifies (job_payload (spec_of k) a) (result t')) → gt (job_path_inv entries) (f t) Q) →
  gt (job_path_inv entries) (g_task r ≫= f) Q.
Proof using.
  intros Hin Hf. eapply gt_bind; [apply gt_read|]. intros t. eapply gt_pure; [|intros Ht; eapply gt_pre; [|by apply Hf]].
  - intros s [[_ [_ Hj] _ He] ->] t' Ht Hs. destruct (He k r a m Hin) as (t & Ht' & Hi). assert (t' = t) as -> by congruence.
    rewrite <- Hi. by apply (Hj r t).
  - by intros s [? _].
Qed.

Lemma gt_poll_entry entries k r a m :
  (k, (r, a, m)) ∈ entries → gt (job_path_inv entries) (poll_entry tick cfg k r a m) (λ _, job_path_inv entries).
Proof using JobThreads0 AnsweringTable0.
  intros Hin. unfold poll_entry. eapply gt_bind; [apply gt_pause|intros ?]. apply gt_look. intros t0. apply gt_look. intros mono0.
  eapply gt_bind; [apply gt_if; [apply gt_fail|apply gt_ret]|intros ?]. eapply gt_bind; [apply gt_pause|intros ?].
  eapply gt_look_task; [exact Hin|]. intros t Ht. apply gt_if_cases; intros Ed.
  - destruct t as [t|]; [|done]. apply bool_decide_eq_true_1 in Ed.
    eapply gt_bind; [apply gt_complete; intros _; by apply Ht|intros ?; apply gt_drop].
  - eapply gt_bind; [apply gt_pause|intros ?]. clear t Ht Ed. apply gt_look. intros [t|]; [|apply gt_ret]. apply gt_if.
    + eapply gt_bind; [|intros ?; apply gt_drop]. apply gt_if; [apply gt_defer|by apply gt_complete].
    + eapply gt_bind; [apply gt_pause|intros ?]. apply gt_look. intros mono. apply gt_if; [|apply gt_ret].
      eapply gt_bind; [apply gt_call; exact (λ st, at_renew k a (lease_seconds cfg) st)|intros ok'].
      apply gt_if.
      * eapply gt_pre; [|apply gt_activate]. intros s Hs. split; [exact Hs|by eapply pi_entries].
      * eapply gt_bind; [apply gt_note|intros ?]. eapply gt_bind; [apply gt_fail|intros ?; apply gt_drop].
Qed.

Lemma gt_poll_entries entries l :
  (∀ e, e ∈ l → e ∈ entries) → gt (job_path_inv entries) (poll_entries tick cfg l) (λ _, job_path_inv entries).
Proof using JobThreads0 AnsweringTable0.
  induction l as [|[k [[r a] m]] l IH]; intros Hl; simpl; [apply gt_ret|].
  eapply gt_bind; [apply (gt_poll_entry entries k r a m), Hl; by left|intros ?; apply IH; intros e He; apply Hl; by right].
Qed.

(** A claimed row becomes a task with its own payload and a new identifier. *)
Lemma gt_create row r :
  j_spec row = spec_of (j_job_id row) →
  gt (λ s, job_path_inv [] s ∧ r = fresh (dom (g_tasks s)))
     (g_update (λ s, set_gtasks (<[r := job_task row (uuid (g_tasks s)) s]> (g_tasks s)) s))
     (λ _ s, job_path_inv [] s ∧ attempts_job (g_tasks s) (j_job_id row) (attempt_of row) r).
Proof using Huuid.
  intros Hspec s [[H1 H2 H3 _] ->]. set (r := fresh (dom (g_tasks s))).
  assert (g_tasks s !! r = None) as Hr by apply not_elem_of_dom, is_fresh. simpl. split.
  - split; simpl; [exact H1| | |by intros ???? ?%not_elem_of_nil].
    + apply create_justified; [exact Hr| |exact H2]. intros q u Hq. by apply (Huuid (g_tasks s) q u).
    + intros k q a m Hk. destruct (H3 k q a m Hk) as (u & Hu & Hi). exists u. split; [|done].
      rewrite lookup_insert_ne by congruence. exact Hu.
  - eexists. rewrite lookup_insert_eq. split; [done|]. simpl. by rewrite Hspec.
Qed.

Lemma gt_enqueue row :
  j_spec row = spec_of (j_job_id row) → gt (job_path_inv []) (enqueue tick fp uuid cfg row) (λ _, job_path_inv []).
Proof using JobThreads0 AnsweringTable0 Huuid.
  intros Hspec. unfold enqueue. destruct (decide (fp (j_spec row) = j_spec_sha256 row)); [|by apply gt_complete].
  eapply gt_bind; [apply gt_pause|intros ?].
  eapply gt_bind; [apply gt_read|intros r]. eapply gt_bind; [by apply gt_create|intros ?].
  eapply gt_bind; [apply gt_read|intros [q|]]; [|eapply gt_pre; [by intros s [[? _] _]|apply gt_defer]].
  eapply (gt_bind _ _ (λ _ s, job_path_inv [] s ∧ attempts_job (g_tasks s) (j_job_id row) (attempt_of row) r));
    [|intros ?; apply gt_activate].
  intros s [[[? ? ? ?] Ha] _]. by split.
Qed.

Lemma gt_claim {B} k secs (f : option job → G B) Q :
  gt (job_path_inv []) (f None) Q →
  (∀ row, j_spec row = spec_of (j_job_id row) → gt (job_path_inv []) (f (Some row)) Q) →
  gt (job_path_inv []) (g_call (api_claim k secs) ≫= f) Q.
Proof using AnsweringTable0.
  intros H0 H1 s [Hok ? ? ?]. unfold mbind, g_bind, g_call. destruct (at_claim k secs (g_store s) Hok) as [Hok' Hc].
  destruct (api_claim k secs (g_store s)) as [[[row|]|] st]; simpl in *; [apply H1; [by apply Hc|]|apply H0|]; by split.
Qed.

Lemma gt_poll_claims n : gt (job_path_inv []) (poll_claims tick fp uuid cfg n) (λ _, job_path_inv []).
Proof using JobThreads0 AnsweringTable0 Huuid.
  induction n as [|n IH]; simpl; [apply gt_ret|]. apply gt_claim; [apply gt_ret|]. intros row Hrow.
  eapply gt_bind; [by apply gt_enqueue|intros ?; apply IH].
Qed.

Lemma gt_submit stopped job_id : gt (job_path_inv []) (jg_submit tick fp uuid cfg stopped job_id) (λ _, job_path_inv []).
Proof using JobThreads0 AnsweringTable0 Huuid.
  unfold jg_submit. eapply gt_bind; [apply gt_call; exact (λ st, at_get job_id st)|]. intros [row|]; [|apply gt_ret].
  apply gt_look. intros n. eapply gt_bind.
  - apply gt_if; [|apply gt_ret]. apply gt_claim; [apply gt_ret|]. intros row' Hrow. by apply gt_enqueue.
  - intros ?. eapply gt_bind; [apply gt_call; exact (λ st, at_get job_id st)|intros ?; apply gt_ret].
Qed.

Lemma gt_poll : gt (job_path_inv []) (poll tick fp uuid cfg) (λ _, job_path_inv []).
Proof using JobThreads0 AnsweringTable0 Huuid.
  unfold poll. eapply gt_bind; [apply gt_call; exact (λ st, at_expire st)|intros ?].
  eapply gt_bind; [apply gt_read|intros entries].
  eapply (gt_pre _ (job_path_inv entries)); [by intros s [[? ? H3 _] ->]|].
  eapply gt_bind; [by apply gt_poll_entries|intros ?]. apply gt_look. intros n.
  eapply gt_pre; [|apply gt_poll_claims]. intros s. by apply forget_entries; intros e ?%not_elem_of_nil.
Qed.

(** The gateway's entry points, one after the other. *)
Definition job_event (s : gstate St) (ev : gateway_event) : gstate St :=
  match ev with
  | EvSubmit stopped job_id => (jg_submit tick fp uuid cfg stopped job_id s).2
  | EvTurn => loop_turn tick fp uuid cfg s
  end.

Lemma events_keep evs s : job_path_inv [] s → job_path_inv [] (foldl job_event s evs).
Proof using JobThreads0 AnsweringTable0 Huuid.
  revert s. induction evs as [|ev evs IH]; intros s Hs; [done|]. simpl. apply IH. destruct ev as [stopped k|]; simpl.
  - pose proof (gt_submit stopped k s Hs) as Hg. by destruct (jg_submit _ _ _ _ _ _ s) as [[o|] s'].
  - unfold loop_turn. pose proof (gt_poll s Hs) as Hg. by destruct (poll _ _ _ _ s) as [[o|] s'].
Qed.
End gateway.

(** ** The job table beside the rest of the process

    The gateway's state carries the job table, and the pool with the scheduler's buffer. *)
Section beside.
Context {X : Type} (e : sql_world).

Definition on_table {A} (f : sql → option A * sql) (st : sql * X) : option A * (sql * X) :=
  let '(o, t) := f st.1 in (o, (t, st.2)).

#[local] Existing Instance sql_api.

Definition beside_api : JobStoreAPI (sql * X) := {|
  api_get k := on_table (@api_get sql (sql_api e) k);
  api_claim k secs := on_table (@api_claim sql (sql_api e) k secs);
  api_renew k a secs := on_table (@api_renew sql (sql_api e) k a secs);
  api_complete k a result error := on_table (@api_complete sql (sql_api e) k a result error);
  api_defer k a error secs := on_table (@api_defer sql (sql_api e) k a error secs);
  api_expire := on_table (@api_expire sql (sql_api e));
|}.

Context (justifies : pyval → pyval → Prop) (spec_of : string → pyval).

(** The other processes that write the table report answers. *)
Class HonestTables : Prop := honest_others : ∀ n, Forall (λ no, honest_op justifies spec_of no.2) (sql_others e n).

Definition table_ok (st : sql * X) : Prop := table_answered justifies spec_of (sql_db st.1).

Lemma exec_answered {A} (f : nat → Z → jobs → A * jobs) (t : sql) `{!HonestTables} :
  (∀ n now db, table_answered justifies spec_of db → table_answered justifies spec_of (f n now db).2) →
  table_answered justifies spec_of (sql_db t) →
  table_answered justifies spec_of (sql_db (sql_exec e f t).2) ∧
  ∀ a, (sql_exec e f t).1 = Some a → ∃ n now db, table_answered justifies spec_of db ∧ (f n now db).1 = a.
Proof using.
  intros Hf Ht. unfold sql_exec. apply (run_answered _ _ _ _ (honest_others (sql_calls t))) in Ht.
  set (db := (job_run (sql_others e (sql_calls t)) (sql_db t)).2) in *. pose proof (Hf (sql_calls t) (sql_clock e (sql_calls t)) db Ht) as H1.
  destruct (sql_faults e (sql_calls t)); [|by split|];
    destruct (f (sql_calls t) (sql_clock e (sql_calls t)) db) as [a db'] eqn:E; (split; [exact H1|]); [|done].
  intros a' [= <-]. exists (sql_calls t), (sql_clock e (sql_calls t)), db. by rewrite E.
Qed.

Lemma on_table_answered {A} (f : nat → Z → jobs → A * jobs) (st : sql * X) `{!HonestTables} :
  (∀ n now db, table_answered justifies spec_of db → table_answered justifies spec_of (f n now db).2) →
  table_ok st → table_ok (on_table (sql_exec e f) st).2.
Proof using.
  intros Hf Ht. destruct (exec_answered f st.1 Hf Ht) as [Ha _]. unfold on_table, table_ok.
  by destruct (sql_exec e f st.1) as [o t].
Qed.

Lemma stmt_fst {A} now o db (g : A → job_reply) (m : A * jobs) :
  job_stmt now o db = (g m.1, m.2) → honest_op justifies spec_of o → table_answered justifies spec_of db →
  table_answered justifies spec_of m.2.
Proof using. intros E Ho Hdb. pose proof (stmt_answered justifies spec_of now o db Ho Hdb) as Hs. by rewrite E in Hs. Qed.

#[export] Instance beside_laws `{!HonestTables} : @AnsweringTable _ beside_api justifies spec_of table_ok.
Proof using.
  split; simpl.
  - intros k st. by apply on_table_answered; [done|].
  - intros k secs st Hst. assert (∀ n now db, table_answered justifies spec_of db →
      table_answered justifies spec_of (job_claim k secs (sql_uuid e n) (sql_locked e n) now db).2) as Hf.
    { intros n now db Hdb. eapply (stmt_fst now (Claim k secs (sql_uuid e n) (sql_locked e n)) db Row); [|done|exact Hdb].
      simpl. by destruct (job_claim _ _ _ _ _ _). }
    destruct (exec_answered _ st.1 Hf Hst) as [H1 H2]. unfold on_table, table_ok.
    destruct (sql_exec e _ st.1) as [o t]. split; [exact H1|]. simpl in *. intros row ->.
    destruct (H2 _ eq_refl) as (n & now & db & Hdb & Hc). by eapply claimed_spec.
  - intros k a secs st. apply on_table_answered; [done|]. intros n now db Hdb.
    eapply (stmt_fst now (Renew k a secs) db Done); [|done|exact Hdb]. simpl. by destruct (job_renew _ _ _ _ _).
  - intros k a result error st Hj. apply on_table_answered; [done|]. intros n now db Hdb.
    eapply (stmt_fst now (Complete k a result error) db Done); [|exact Hj|exact Hdb]. simpl. by destruct (job_complete _ _ _ _ _ _).
  - intros k a error secs st. apply on_table_answered; [done|]. intros n now db Hdb.
    eapply (stmt_fst now (Defer k a error secs) db Done); [|done|exact Hdb]. simpl. by destruct (job_defer _ _ _ _ _ _).
  - intros st. apply on_table_answered; [done|]. intros n now db Hdb.
    eapply (stmt_fst now Expire db Count); [|done|exact Hdb]. simpl. reflexivity.
Qed.
End beside.

(** The other threads: requests, the scheduler and the pool, at the points where the gateway
    can be interrupted. *)
Section threads.
Context {W A : Type} (B : pool_backend W A) (plan : nat → list (activity (A := A))) (utc : nat → Z).

Definition job_tick (n : nat) (s : gstate (sql * (W * list tref))) : gstate (sql * (W * list tref)) :=
  let a := run_activities B (plan n) (mkAstate (g_tasks s) (g_queue s) (g_mono s) (g_wall s) (g_points s) (g_store s).2) in
  mkGstate ((g_store s).1, a_rest a) (a_tasks a) (a_queue a) (g_active s) (a_mono a) (a_wall a) (utc n) (g_points s) (g_log s).

#[export] Instance job_threads (justifies : pyval → pyval → Prop) (spec_of : string → pyval) `{!PoolLaws B justifies} :
  JobThreads justifies (table_ok justifies spec_of) job_tick.
Proof using.
  assert (∀ (n : nat) (s : gstate (sql * (W * list tref))), let a := mkAstate (g_tasks s) (g_queue s) (g_mono s) (g_wall s) (g_points s) (g_store s).2 in
    a_rely a (run_activities B (plan n) a) ∧
    (justified justifies (a_tasks a) → justified justifies (a_tasks (run_activities B (plan n) a)))) as H.
  { intros n s. apply run_activities_rely, PoolLaws0. }
  split.
  - intros n s. destruct (H n s) as [[H1 H2 _] _]. by split.
  - done.
  - intros n s. apply H.
Qed.
End threads.
