(* ===== verification/EndToEnd.v ===== *)
(** The system as a whole: a client's request against the API process with its scheduler and
    either pool of [lifespan] in [src/system/api_server.py], the workers being processes of
    this program. *)
From S2P Require Import Prelude PyVal Tasks Queue Config Scheduler LocalWorker GrpcWorker World GrpcPool GrpcPoolFacts Dispatch Deployment WorkerServer WorkerServerFacts JobStore TextWorker V73Worker Justified JsonCodec GrpcHonest Fleet ApiServer ApiServerFacts ServingPath.

(** ** USE_GRPC: the remote pool *)

(** What the threads of the remote pool do: a proxy's dispatch thread, the retirement of a
    proxy, discovery and shutdown. *)
Inductive remote_act :=
| RemoteTurn (p : pref)
| RemoteStop (retry : bool) (p : pref)
| RemoteMembers (snapshot : list (string * WorkerInfo))
| RemoteShutdown.

Definition run_remote (env : environment) (a : remote_act) (w : world) : world :=
  match a with
  | RemoteTurn p => (gw_loop_turn env p w).2
  | RemoteStop retry p => gw_stop_proxy env retry p w
  | RemoteMembers snapshot => update_workers env snapshot w
  | RemoteShutdown => pool_stop env w
  end.

Definition load_world (h : store) (mono wall : Q) (w : world) : world :=
  mkWorld h (w_proxies w) (w_members w) (w_stopping w) (w_rr_index w) (w_worker_count w)
    (w_retry_submissions w) (w_retry_completions w) mono wall (w_pauses w) (w_trace w).

Definition remote_pool (env : environment) : pool_backend world remote_act :=
  mkBackend _ _ w_tasks w_mono w_wall load_world (grpc_handler env) (run_remote env).

(** The assumptions of the remote deployment: the other threads are those of this program,
    the workers are processes of this program, and the codec is faithful. *)
Class RemoteSystem {ff : FleetFacts} (deployed : worker_backend → Prop) (env : environment) : Prop := {
  rs_threads :: HonestThreads (fleet_answer deployed) env;
  rs_workers :: FleetWorkers deployed env;
  rs_codec :: JsonRoundTrip (json_dumps env) (json_loads env);
}.

Lemma honest_pool_step justifies env w1 w2 : honest justifies w1 w2 → pool_step (remote_pool env) justifies w1 w2.
Proof. intros [[H _] J]. split; [apply H|apply H|exact J]. Qed.

#[export] Instance remote_laws {ff : FleetFacts} deployed env `{!RemoteSystem deployed env} : PoolLaws (remote_pool env) (fleet_answer deployed).
Proof.
  split; [done| |].
  - intros batch w. apply honest_pool_step, (stays_pool_submit_batch env (honest (fleet_answer deployed))).
  - intros a w. apply honest_pool_step. destruct a as [p|retry p|snapshot|]; simpl.
    + apply (stays_gw_loop_turn env (honest (fleet_answer deployed))).
    + apply (stays_gw_stop_proxy env (honest (fleet_answer deployed))).
    + apply (stays_update_workers env (honest (fleet_answer deployed))).
    + apply (stays_pool_stop env (honest (fleet_answer deployed))).
Qed.

(** ** The in-process pool *)

Record local_world := mkLocalWorld {
  lo_tasks : store;
  lo_mono : Q;
  lo_wall : Q;
  lo_pool : WorkerPool;
}.

(** A worker thread takes and processes up to [n] batches, with the configuration of then. *)
Inductive local_act := LocalWork (i : nat) (n : nat) (c : SystemConfig) (obs : nat → batch_obs).

Definition run_local (a : local_act) (w : local_world) : local_world :=
  let 'LocalWork i n c obs := a in
  match lp_workers (lo_pool w) !! i with
  | None => w
  | Some k =>
      let '(k, h) := worker_drain n c obs k (lo_tasks w) in
      mkLocalWorld h (lo_mono w) (lo_wall w) (mkPool (<[i := k]> (lp_workers (lo_pool w))) (lp_rr_index (lo_pool w)))
  end.

Definition local_submit (batch : list tref) (w : local_world) : local_world * option string :=
  let '(p, h) := pool_submit (λ _, lo_wall w) batch (lo_pool w) (lo_tasks w) in
  (mkLocalWorld h (lo_mono w) (lo_wall w) p, None).

Definition local_pool : pool_backend local_world local_act :=
  mkBackend _ _ lo_tasks lo_mono lo_wall (λ h m v w, mkLocalWorld h m v (lo_pool w)) local_submit run_local.

Lemma local_process_justified c ob batch k h :
  justified simulated_answer h → justified simulated_answer (worker_process c ob batch k h).2.
Proof.
  intros H. unfold worker_process.
  assert (justified simulated_answer (for_each (λ r, mark_processing (bo_start ob r)) batch h)) as H1.
  { apply for_each_justified; [|done]. intros r t. by exists (OpProcessing (bo_start ob r)). }
  destruct (_ && _); simpl; (apply for_each_justified; [|done]); intros r t.
  - by exists (OpFailed (bo_end ob r) (injected_failure (lw_id k)) None).
  - unfold predict_task. destruct (py_square (input_x (input_data t))) as [x2|e] eqn:E.
    + exists (OpDone (bo_end ob r) (prediction (lw_id k) x2)). split; [done|]. by exists (lw_id k), x2.
    + by exists (OpFailed (bo_end ob r) e None).
Qed.

Lemma local_drain_step n c obs k h :
  store_le h (worker_drain n c obs k h).2 ∧
  (justified simulated_answer h → justified simulated_answer (worker_drain n c obs k h).2).
Proof.
  revert k h. induction n as [|n IH]; intros k h; cbn [worker_drain]; [done|].
  destruct (lw_batch_queue k) as [|batch rest]; [done|].
  pose proof (worker_process_store_le c (obs (S n)) batch (mkWorker (lw_id k) rest (lw_processed k)) h) as H1.
  pose proof (local_process_justified c (obs (S n)) batch (mkWorker (lw_id k) rest (lw_processed k)) h) as J1.
  destruct (worker_process _ _ _ _ h) as [k' h']. destruct (IH k' h') as [H2 J2]. split; [by etrans|auto].
Qed.

#[export] Instance local_laws : PoolLaws local_pool simulated_answer.
Proof.
  split; [done| |].
  - intros batch w. unfold local_pool, local_submit, pool_submit. simpl.
    assert (∀ p, pool_step local_pool simulated_answer w (mkLocalWorld (lo_tasks w) (lo_mono w) (lo_wall w) p)) as Hp.
    { intros p. split; [done|apply Qle_refl|done]. }
    destruct (lp_workers (lo_pool w)); simpl; [|destruct (pool_choice _); simpl; apply Hp].
    split; [|apply Qle_refl|]; simpl.
    + apply store_le_for_each. intros r t. by exists [OpFailed (lo_wall w) "no workers available" None].
    + apply for_each_justified. intros r t. by exists (OpFailed (lo_wall w) "no workers available" None).
  - intros [i n c obs] w. simpl. destruct (lp_workers (lo_pool w) !! i) as [k|]; [|reflexivity].
    pose proof (local_drain_step n c obs k (lo_tasks w)) as [H J].
    destruct (worker_drain n c obs k (lo_tasks w)) as [k' h]. split; [exact H|apply Qle_refl|exact J].
Qed.

(** ** What a client can rely on

    The response to [POST /predict] with the value [x]: the queue was full; or 200 with the
    identifier of the request's task and the square of [x]; or 500, 503 or 504. *)
Definition square_response (x : pyval) (uuid : string) (res : api_result) : Prop :=
  res = ApiError 503 (PyStr "task queue is full") ∨
  (∃ wid x2 latency, py_square x = inl x2 ∧
     res = ApiOk 200 (PyDict [("task_id", PyStr uuid); ("result", prediction wid x2); ("latency_ms", PyFloat latency)]%string)) ∨
  ∃ code detail, res = ApiError code detail ∧ code ∈ [500; 503; 504].

Lemma simulated_square x v : simulated_answer (predict_input x) v → ∃ wid x2, py_square x = inl x2 ∧ v = prediction wid x2.
Proof. by intros (wid & x2 & Hs & ->); exists wid, x2. Qed.

Lemma served_square (justifies : pyval → pyval → Prop) x uuid res :
  (∀ v, justifies (predict_input x) v → simulated_answer (predict_input x) v) →
  predict_served justifies x uuid res → square_response x uuid res.
Proof.
  intros Hj [?|[(v & latency & -> & Hv)|?]]; [by left| |by right; right].
  right. left. apply Hj, simulated_square in Hv as (wid & x2 & Hs & ->). by exists wid, x2, latency.
Qed.

(** C1. End to end, with remote workers.  Whatever the other requests, the scheduler, the
    proxies, discovery and shutdown do meanwhile, and whichever worker processes answer, a
    prediction request is answered; and if it is answered with 200, the body carries the
    identifier of its own task and the square of its own input, computed by a simulated
    worker: no result reaches another request, and no real model answers it. *)
Theorem remote_prediction_end_to_end {ff : FleetFacts} (deployed : worker_backend → Prop) (env : environment) `{!RemoteSystem deployed env}
    (plan : nat → list (activity (A := remote_act))) (clock : nat → Q) `{!ClockPasses clock}
    (x : pyval) (uuid : string) (s : serving_state (W := world)) :
  justified (fleet_answer deployed) (a_tasks s) →
  fresh_id (a_tasks (a_pause (handler_tick (remote_pool env) plan clock) s)) uuid →
  ∃ fuel res s', predict (handler_tick (remote_pool env) plan clock) fuel x uuid s = Some (res, s') ∧
    square_response x uuid res.
Proof.
  intros Hj Hid.
  destruct (predict_is_served (remote_pool env) (fleet_answer deployed) plan clock x uuid s Hj Hid) as (fuel & res & s' & E & Hs).
  exists fuel, res, s'. split; [done|]. eapply served_square; [|exact Hs]. intros v Hv. by apply fleet_answer_simulated in Hv as [_ Hv].
Qed.

(** End to end, in one process: the same with the in-process workers. *)
Theorem local_prediction_end_to_end (plan : nat → list (activity (A := local_act))) (clock : nat → Q) `{!ClockPasses clock}
    (x : pyval) (uuid : string) (s : serving_state (W := local_world)) :
  justified simulated_answer (a_tasks s) →
  fresh_id (a_tasks (a_pause (handler_tick local_pool plan clock) s)) uuid →
  ∃ fuel res s', predict (handler_tick local_pool plan clock) fuel x uuid s = Some (res, s') ∧
    square_response x uuid res.
Proof.
  intros Hj Hid.
  destruct (predict_is_served local_pool simulated_answer plan clock x uuid s Hj Hid) as (fuel & res & s' & E & Hs).
  exists fuel, res, s'. split; [done|]. by eapply served_square.
Qed.



(** ** Runs

    Two workers, simulated and reached over gRPC: each call is [process_batch] with nothing
    injected.  While a request for 3 waits, another one for 4 arrives, the scheduler hands
    both out in one batch, and the proxy's thread makes its call; one number of the clock
    passes between two scheduling points. *)

Definition smoke_rpc (n : nat) (who : string) (rqs : list TaskRequest) (timeout : Q) : rpc_outcome :=
  match process_batch text_dumps text_loads 7 20%nat (mkSettings 0 60) call_sample rqs with
  | Some results => RpcOk results
  | None => RpcFail DEADLINE_EXCEEDED "worker-0"
  end.

Definition smoke_env : environment := mkEnvironment (λ _ w, w) smoke_rpc text_dumps text_loads None.

(** The text service echoes the number of fields of the payload it was sent. *)
Definition echo_service (url : string) (payload : list (string * pyval)) (timeout : Q) : service_outcome :=
  ServiceBody 64 (Some (PyDict [("model", PyStr "text_v1.2.3"); ("fields", PyInt (Z.of_nat (length payload)))]%string)).

(** That is all it ever said; no V7.3 worker runs. *)
#[local] Instance smoke_facts : FleetFacts := {|
  ff_text := mkTextConfig "http://text" EmptyString;
  ff_said url payload o := o = echo_service url payload 0;
  ff_sha _ := EmptyString; v73_fp _ := EmptyString; ff_out job := job; ff_locate _ _ := Unsafe;
  ff_attempt _ _ := False;
|}.

#[export] Instance smoke_system : RemoteSystem (λ b, b = Simulated) smoke_env.
Proof.
  split; [split; [intros n w; reflexivity|done]| |exact text_round_trip].
  intros n who rqs timeout results. simpl. unfold smoke_rpc. destruct (process_batch _ _ _ _ _ _ _) as [res|] eqn:E; [|done].
  intros [= <-]. exists Simulated, 7, None, res, id. split_and!; [done|by eapply wb_simulated|done].
Qed.

Definition point_clock (n : nat) : Q := inject_Z (Z.of_nat n).

#[export] Instance point_clock_passes : ClockPasses point_clock.
Proof.
  intros x. exists (Z.to_nat (Qceiling x)). intros m Hm. eapply Qle_trans; [apply Qle_ceiling|].
  unfold point_clock. rewrite <- Zle_Qle. lia.
Qed.

Definition smoke_world : world :=
  mkWorld ∅ (<[0%nat := gw_init "w0" "h0:1"]> (<[1%nat := gw_init "w1" "h1:1"]> ∅))
    [("w0"%string, 0%nat); ("w1"%string, 1%nat)] false 0 2 0 0 0 0 0%nat [].

Definition smoke_schedule {A : Type} : activity (A := A) :=
  ActSchedule "fifo" 0 [mkTick [] 2 0; mkTick [] 2 0; mkTick [] 2 0] sample_obs.

Definition remote_plan (n : nat) : list (activity (A := remote_act)) :=
  if decide (n = 2%nat) then
    [ActArrive (predict_input (PyInt 4)) "other" 30; smoke_schedule; ActPool (RemoteTurn 0%nat); ActPool (RemoteTurn 1%nat)]
  else [].

Definition remote_start : serving_state (W := world) := mkAstate ∅ (queue_init 10) 0 0 0%nat (smoke_world, []).

Definition local_plan (n : nat) : list (activity (A := local_act)) :=
  if decide (n = 2%nat) then
    [ActArrive (predict_input (PyInt 4)) "other" 30; smoke_schedule;
     ActPool (LocalWork 0%nat 1%nat default_config (λ _, mkBatchObs (λ _, 0%Q) (λ _, 1%Q) 1));
     ActPool (LocalWork 1%nat 1%nat default_config (λ _, mkBatchObs (λ _, 0%Q) (λ _, 1%Q) 1))]
  else [].

Definition local_start : serving_state (W := local_world) :=
  mkAstate ∅ (queue_init 10) 0 0 0%nat (mkLocalWorld ∅ 0 0 (mkPool [mkWorker 0 [] 0; mkWorker 1 [] 0] 0), []).

Example remote_run :
  (λ '(res, _), match res with ApiOk status (PyDict d) => (status, dict_lookup d "result") | _ => (0, None) end) <$>
    predict (handler_tick (remote_pool smoke_env) remote_plan point_clock) 10 (PyInt 3) "own" remote_start
  = Some (200, Some (prediction 7 (PyInt 9))).
Proof. vm_compute. reflexivity. Qed.

Example local_run :
  (λ '(res, _), match res with ApiOk status (PyDict d) => (status, dict_lookup d "result") | _ => (0, None) end) <$>
    predict (handler_tick local_pool local_plan point_clock) 10 (PyInt 3) "own" local_start
  = Some (200, Some (prediction 0 (PyInt 9))).
Proof. vm_compute. reflexivity. Qed.

(** Without a free worker the request is given up in time. *)
Example remote_run_alone :
  (λ '(res, _), result_status res) <$>
    predict (handler_tick (remote_pool smoke_env) (λ _, []) point_clock) 40 (PyInt 3) "own" remote_start
  = Some 504.
Proof. vm_compute. reflexivity. Qed.

(** A pool that declares no capabilities offers the task of a real model to every worker, and
    a simulated one answers it: the job succeeds with the square of the [x] it does not have. *)
Definition model_task_plan : list (activity (A := remote_act)) :=
  [ActArrive (PyDict [("kind", PyStr "synthx_v73"); ("spec_version", PyInt 1)]%string) "job" 30; smoke_schedule;
   ActPool (RemoteTurn 0%nat)].

Example model_task_answered_by_simulation :
  (λ t, (status t, result t)) <$> a_tasks (run_activities (remote_pool smoke_env) model_task_plan remote_start) !! 0%nat
  = Some (DONE, prediction 7 (PyInt 0)).
Proof. vm_compute. reflexivity. Qed.

Lemma justified_empty justifies : justified justifies ∅.
Proof. split; [intros r1 r2 t1 t2 H1|intros r t H1]; by rewrite lookup_empty in H1. Qed.

Lemma remote_prediction_end_to_end_witness :
  ∃ fuel res s', predict (handler_tick (remote_pool smoke_env) remote_plan point_clock) fuel (PyInt 3) "own" remote_start
                   = Some (res, s') ∧ square_response (PyInt 3) "own" res.
Proof.
  apply (remote_prediction_end_to_end (λ b, b = Simulated) smoke_env remote_plan point_clock (PyInt 3) "own" remote_start).
  - apply justified_empty.
  - exact (map_Forall_empty _).
Defined.

Lemma local_prediction_end_to_end_witness :
  ∃ fuel res s', predict (handler_tick local_pool local_plan point_clock) fuel (PyInt 3) "own" local_start
                   = Some (res, s') ∧ square_response (PyInt 3) "own" res.
Proof.
  apply (local_prediction_end_to_end local_plan point_clock (PyInt 3) "own" local_start).
  - apply justified_empty.
  - exact (map_Forall_empty _).
Defined.

(** The same with text workers, for a reranking. *)
Definition echo_process (i : nat) (data : pyval) (deadline : option Q) : backend_outcome :=
  text_outcome (text_process (mkTextConfig "http://text" EmptyString) (λ _, Some 64) echo_service
                  (mkTextObs (λ _, 0%Q) (λ _, true)) deadline true data).1.1.

Definition text_env : environment :=
  mkEnvironment (λ _ w, w)
    (λ n who rqs timeout, RpcOk (process_backend text_dumps text_loads echo_process 0 rqs)) text_dumps text_loads
    (Some [("w0", ["synthx_text_v123"]); ("w1", ["synthx_text_v123"])]%string).

#[export] Instance text_system : RemoteSystem (λ b, b = RealText) text_env.
Proof.
  split; [split; [intros n w; reflexivity|done]| |exact text_round_trip].
  intros n who rqs timeout results [= <-]. exists RealText, 7, None, (process_backend text_dumps text_loads echo_process 0 rqs), id.
  split_and!; [done| |done]. apply wb_backend; [done|]. intros i data dl. by refine (bc_text (λ _, Some 64) echo_service (mkTextObs (λ _, 0%Q) (λ _, true)) dl true data _).
Qed.

Definition text_plan (n : nat) : list (activity (A := remote_act)) :=
  if decide (n = 2%nat) then [smoke_schedule; ActPool (RemoteTurn 0%nat); ActPool (RemoteTurn 1%nat)] else [].

Definition rerank_two : TextTaskRequest := mkTextTaskRequest TextV123 Rerank [("query", PyStr "pad"); ("limit", PyInt 3)]%string.

Example remote_text_run :
  (λ '(res, _), match res with ApiOk status (PyDict d) => (status, pyval_get (dict_get d "result" PyNone) "fields" PyNone) | _ => (0, PyNone) end) <$>
    text_task (handler_tick (remote_pool text_env) text_plan point_clock) (λ _, false) 10 (Some 64) rerank_two "own" remote_start
  = Some (200, PyInt 2).
Proof. vm_compute. reflexivity. Qed.

