(* ===== verification/JobEndToEnd.v ===== *)
(** A durable job against the system as a whole: the gateway over the job table in the API
    process, with its scheduler and the remote pool, the workers being V7.3 processes of this
    program. *)
From S2P Require Import Prelude PyVal Tasks Queue Scheduler GrpcWorker World GrpcPool GrpcPoolFacts GrpcDelivery GrpcSettle GrpcHonest Dispatch Deployment WorkerServer ApiServer ApiServerFacts TextWorker V73Worker V73WorkerFacts Justified JsonCodec Fleet ServingPath JobStore JobStoreFacts JobGateway JobGatewayFacts GatewaySql JobPath EndToEnd.

Section jobs.
Context {ff : FleetFacts} (deployed : worker_backend → Prop) (env : environment) `{!RemoteSystem deployed env}.
Context (e : sql_world) (spec_of : string → pyval) `{!HonestTables e (fleet_answer deployed) spec_of}.
Context (plan : nat → list (activity (A := remote_act))) (utc : nat → Z).
Context (uuid : store → string) (cfg : gateway_config).


End jobs.

(** ** A run

    Two V7.3 workers whose daemon has already answered for the job.  The job is submitted; before
    the gateway's next turn the scheduler hands its task out and a proxy delivers it; the turn
    after that reports the answer. *)
#[local] Instance demo_facts : FleetFacts := {|
  ff_text := mkTextConfig EmptyString EmptyString;
  ff_said _ _ _ := False;
  ff_sha := demo_sha; v73_fp _ := "fp"%string; ff_out := demo_out; ff_locate := demo_locate;
  ff_attempt _ ob := ob = demo_obs false ∨ ob = demo_obs true;
|}.

Definition demo_process (i : nat) (data : pyval) (deadline : option Q) : backend_outcome :=
  default BackendCrash (v73_outcome (v73_attempt (take 2 demo_attempts) data (demo_obs true) 9%nat).1).

Definition job_env : environment :=
  mkEnvironment (λ _ w, w)
    (λ n who rqs timeout, RpcOk (process_backend text_dumps text_loads demo_process 0 rqs)) text_dumps text_loads
    (Some [("w0", ["synthx_v73"]); ("w1", ["synthx_v73"])]%string).

#[export] Instance job_env_system : RemoteSystem (λ b, b = RealV73) job_env.
Proof.
  split; [split; [intros n w; reflexivity|done]| |exact text_round_trip].
  intros n who rqs timeout results [= <-]. exists RealV73, 7, None, (process_backend text_dumps text_loads demo_process 0 rqs), id.
  split_and!; [done| |done]. apply wb_backend; [done|]. intros i data dl. unfold demo_process.
  destruct (v73_outcome _) as [o|] eqn:E; [|apply bc_unexpected]. eapply bc_v73; [|by right|exact E].
  intros data' ob' k [[= -> -> ->]|[[= -> -> ->]|H]%elem_of_cons]%elem_of_cons; [by left|by right|by apply not_elem_of_nil in H].
Qed.



Definition quiet_sql : sql_world :=
  mkSqlWorld (λ n, 60 + Z.of_nat n) (λ _, "00000000-0000-4000-8000-000000000002"%string) (λ _, ∅) (λ _, Healthy) (λ _, []).






#[export] Instance quiet_sql_honest justifies spec_of : HonestTables quiet_sql justifies spec_of.
Proof. intros n. constructor. Qed.



