(* ===== verification/DeployChecks.v ===== *)
(** The checks a rollout rests on, [src/deploy/ci/deploy_platform.py]: the restricted SSH
    command, the fixed identities of the two environments, the Prometheus page that shows
    an idle gateway, and the Compose layout that may be started. *)
From stdpp Require Import pretty.
From S2P Require Import Prelude PyVal Tasks TextWorker V73Worker.

(** ** Numbers as [float] and [int] read them *)

(** A Python float: a number, an infinity or a NaN. *)
Inductive pyfloat := FNum (q : Q) | FInf | FNan.

Definition lower (c : Ascii.ascii) : Ascii.ascii :=
  let n := Ascii.nat_of_ascii c in
  if ((65 <=? n) && (n <=? 90))%nat then Ascii.ascii_of_nat (n + 32) else c.

Definition pow10 (e : Z) : Q := if 0 <=? e then inject_Z (10 ^ e) else (/ inject_Z (10 ^ (- e)))%Q.

(** The exponent of a literal whose mantissa has been read. *)
Definition read_exponent (l : chars) : option Z :=
  match l with
  | [] => Some 0
  | c :: l' =>
      if is_char (lower c) 101 then
        let '(neg, l') := read_sign l' in
        match read_digits 0 0 l' with
        | (n, S _, []) => Some (if neg then - n else n)
        | _ => None
        end
      else None
  end.

(** [float(s)]; [None] is its [ValueError]. *)
Definition py_float_of (s : string) : option pyfloat :=
  let '(neg, l) := read_sign (chars_of (py_strip s)) in
  let word := String.string_of_list_ascii (map lower l) in
  if bool_decide (word ∈ ["inf"; "infinity"]%string) then Some FInf
  else if bool_decide (word = "nan"%string) then Some FNan
  else
    let '(whole, n, l) := read_digits 0 0 l in
    let '(mantissa, n, scale, l) :=
      match l with
      | c :: l' => if is_char c 46
                   then let '(m, n', l') := read_digits whole 0 l' in (m, (n + n')%nat, Z.of_nat n', l')
                   else (whole, n, 0, l)
      | [] => (whole, n, 0, [])
      end in
    match n, read_exponent l with
    | S _, Some e => let q := (inject_Z mantissa * pow10 (e - scale))%Q in
                     Some (FNum (if neg then - q else q)%Q)
    | _, _ => None
    end.

Example float_of_count : py_float_of "2.0" = Some (FNum (20 * (1 # 10))).
Proof. vm_compute. reflexivity. Qed.
Example float_of_word : py_float_of "idle" = None.
Proof. vm_compute. reflexivity. Qed.

(** ** [Environment] *)

Definition STATE_BASE : string := "/home/ubuntu/services/.synthx".
Definition SERVICES : list string := ["gateway"; "text-worker"]%string.

Record Environment := mkEnvironment {
  en_name : string;
  en_state_dir : string;
  en_backend_state : string;
  en_config : string;
  en_backend_config : string;
  en_project : string;
  en_containers : list (string * string);
  en_backend_container : string;
  en_tunnel_container : string;
  en_network : string;
  en_gateway_port : Z;
  en_model_host : string;
}.

Definition environment_of (name : string) : option Environment :=
  if negb (bool_decide (name ∈ ["dev"; "staging"]%string)) then None
  else
    let staging := bool_decide (name = "staging"%string) in
    let state_dir := (STATE_BASE +:+ "/" +:+ if staging then "staging-platform-cicd" else "platform-cicd")%string in
    let backend_state := (STATE_BASE +:+ "/" +:+ if staging then "staging-cicd" else "cicd")%string in
    let project := (if staging then "synthx-staging-platform" else "deploy")%string in
    Some (mkEnvironment name state_dir backend_state (state_dir +:+ "/config.json")
      (backend_state +:+ "/config.json") project
      (map (λ s, (s, (project +:+ "-" +:+ s +:+ "-1")%string)) SERVICES)
      (if staging then "synthx-staging-backend-1" else "deploy-backend-1")
      (if staging then "synthx-staging-models-model-tunnel-1" else "deploy-vast-tunnel-1")
      (if staging then "synthx-staging_default" else "deploy_default")
      (if staging then 18100 else 8100)
      (if staging then "model-tunnel" else "vast-tunnel"))%string.

(** [validate_environment].  [path] is the normal form of a [Path]. *)
Definition validate_environment (path : string → string) (config shared : pyval) (requested : option string)
    : Environment + string :=
  match pyval_get config "environment" (PyStr "dev") with
  | PyStr name =>
      match environment_of name with
      | None => inr "Environment must be staging or dev"%string
      | Some target =>
          if bool_decide (requested ≠ None) && negb (bool_decide (requested = Some name))
          then inr "SSH command and configured environment differ"%string
          else if negb (py_eq_str (pyval_get shared "environment" (PyStr "dev")) name)
          then inr "Platform and backend environments differ"%string
          else
            match pyval_get config "state_dir" PyNone, pyval_get config "backend_config" PyNone,
                  pyval_get shared "state_dir" PyNone with
            | PyStr a, PyStr b, PyStr c =>
                if negb (bool_decide (path a = en_state_dir target) && bool_decide (path b = en_backend_config target)
                         && bool_decide (path c = en_backend_state target))
                then inr "Deployment paths do not belong to the selected environment"%string
                else
                  match pyval_get shared "repo" PyNone with
                  | PyStr repo =>
                      let production := path (repo +:+ "/.env.production")%string in
                      let env_file := if bool_decide (name = "staging"%string)
                                      then "/opt/synthx-staging/.env.staging"%string else production in
                      match pyval_get shared "env_file" (PyStr production) with
                      | PyStr f => if bool_decide (path f = env_file) then inl target
                                   else inr "Backend environment file does not belong to the selected environment"%string
                      | _ => inr "TypeError"%string
                      end
                  | _ => inr "KeyError: 'repo'"%string
                  end
            | _, _, _ => inr "KeyError"%string
            end
      end
  | _ => inr "Environment must be staging or dev"%string
  end.

(** ** [parse_command] *)

Fixpoint strip_prefix (p l : chars) : option chars :=
  match p, l with
  | [], _ => Some l
  | c :: p', d :: l' => if bool_decide (c = d) then strip_prefix p' l' else None
  | _ :: _, [] => None
  end.

(** [n] lower-case hexadecimal digits, and the rest. *)
Definition take_hex (n : nat) (l : chars) : option (string * chars) :=
  if bool_decide (length (take n l) = n) && forallb is_hex (take n l)
  then Some (String.string_of_list_ascii (take n l), drop n l) else None.

(** [re.fullmatch('deploy-platform(-staging)? ([0-9a-f]{40}) ([0-9a-f]{64})', command)]. *)
Definition parse_command (command : string) : option (string * string * string) :=
  rest ← strip_prefix (chars_of "deploy-platform") (chars_of command);
  let '(name, rest) := match strip_prefix (chars_of "-staging") rest with
                       | Some r => ("staging"%string, r)
                       | None => ("dev"%string, rest)
                       end in
  rest ← strip_prefix (chars_of " ") rest;
  '(sha, rest) ← take_hex 40 rest;
  rest ← strip_prefix (chars_of " ") rest;
  '(checksum, rest) ← take_hex 64 rest;
  match rest with [] => Some (name, sha, checksum) | _ => None end.

(** ** [metrics_idle] *)

(** The non-empty pieces between separators. *)
Fixpoint split_pieces (sep : Ascii.ascii → bool) (piece : chars) (l : chars) : list chars :=
  match l with
  | [] => match piece with [] => [] | _ => [rev piece] end
  | c :: l' =>
      if sep c then match piece with [] => split_pieces sep [] l' | _ => rev piece :: split_pieces sep [] l' end
      else split_pieces sep (c :: piece) l'
  end.

(** The characters [str.splitlines] breaks at. *)
Definition is_break (c : Ascii.ascii) : bool :=
  let n := Ascii.nat_of_ascii c in
  ((10 <=? n) && (n <=? 13) || (28 <=? n) && (n <=? 30))%nat.

(** [s.split(',')]. *)
Fixpoint split_commas (piece : chars) (l : chars) : list string :=
  match l with
  | [] => [String.string_of_list_ascii (rev piece)]
  | c :: l' => if is_char c 44 then String.string_of_list_ascii (rev piece) :: split_commas [] l'
               else split_commas (c :: piece) l'
  end.

(** [s.split('{', 1)] when the brace is there. *)
Fixpoint split_brace (before : chars) (l : chars) : option (string * chars) :=
  match l with
  | [] => None
  | c :: l' => if is_char c 123 then Some (String.string_of_list_ascii (rev before), l')
               else split_brace (c :: before) l'
  end.

Fixpoint insert_string (s : string) (l : list string) : list string :=
  match l with
  | [] => [s]
  | t :: l' => if String.leb s t then s :: l else t :: insert_string s l'
  end.
Definition sorted_strings (l : list string) : list string := foldr insert_string [] l.

(** [key(value)]: the sample's name with its labels in order; [None] is the
    [ValueError] of a name whose only brace is its last character. *)
Definition metric_key (value : chars) : option string :=
  if negb (existsb (λ c, is_char c 123) value) then Some (String.string_of_list_ascii value)
  else
    '(name, labels) ← split_brace [] (removelast value);
    Some (name +:+ "{" +:+ String.concat "," (sorted_strings (split_commas [] labels)) +:+ "}")%string.

(** The samples of the page; [None] where the code answers [False] at once. *)
Fixpoint metric_values (lines : list chars) (values : list (string * pyfloat)) : option (list (string * pyfloat)) :=
  match lines with
  | [] => Some values
  | line :: lines' =>
      if match line with c :: _ => is_char c 35 | [] => true end then metric_values lines' values
      else
        match split_pieces is_space [] line with
        | name :: value :: _ =>
            match py_float_of (String.string_of_list_ascii value), metric_key name with
            | Some v, Some k => metric_values lines' (dict_set values k v)
            | _, _ => None
            end
        | _ => metric_values lines' values
        end
  end.

Definition quoted (s : string) : string :=
  String (Ascii.ascii_of_nat 34) (s +:+ String (Ascii.ascii_of_nat 34) EmptyString).

Definition required_metrics : list (string * Q) :=
  [("inference_api_queue_depth", 0%Q); ("inference_registered_workers", 2%Q)]%string ++
   flat_map (λ w, [("inference_worker_queued_batches{worker_id=" +:+ quoted w +:+ "}", 0%Q);
                   ("inference_worker_active_rpcs{worker_id=" +:+ quoted w +:+ "}", 0%Q);
                   ("inference_worker_routing_state{worker_id=" +:+ quoted w +:+ ",state=" +:+ quoted "READY" +:+ "}", 1%Q)]%string)
     ["73"; "122"]%string.

Definition metrics_idle (page : string) : bool :=
  match metric_values (split_pieces is_break [] (chars_of page)) [] with
  | None => false
  | Some values =>
      forallb (λ '(name, want),
        match k ← metric_key (chars_of name); dict_lookup values k with
        | Some (FNum v) => Qeq_bool v want
        | _ => false
        end) required_metrics
  end.

(** A page in the exposition format, with its labels in the client's order. *)
Definition newline : string := String (Ascii.ascii_of_nat 10) EmptyString.
Definition sample_page (depth : string) : string :=
  String.concat newline
    (["# HELP inference_api_queue_depth Tasks"; "inference_api_queue_depth " +:+ depth;
      "inference_registered_workers 2.0"]%string ++
     flat_map (λ w, ["inference_worker_queued_batches{worker_id=" +:+ quoted w +:+ "} 0.0";
                     "inference_worker_active_rpcs{worker_id=" +:+ quoted w +:+ "} 0.0";
                     "inference_worker_routing_state{state=" +:+ quoted "READY" +:+ ",worker_id=" +:+ quoted w +:+ "} 1.0"]%string)
       ["73"; "122"]%string).

Example metrics_idle_page : metrics_idle (sample_page "0.0") = true ∧ metrics_idle (sample_page "1.0") = false.
Proof. vm_compute. split; reflexivity. Qed.

(** ** [validate_layout] *)

Definition py_eq_int (v : pyval) (n : Z) : bool :=
  match v with
  | PyInt z => z =? n
  | PyFloat q => Qeq_bool q (inject_Z n)
  | PyBool b => (if b then 1 else 0) =? n
  | _ => false
  end.

(** [v is True]. *)
Definition is_true (v : pyval) : bool := match v with PyBool b => b | _ => false end.

(** [float(v)] and [int(v)]; [None] is a [TypeError] or [ValueError]. *)
Definition py_float (v : pyval) : option pyfloat :=
  match v with
  | PyInt z => Some (FNum (inject_Z z))
  | PyFloat q => Some (FNum q)
  | PyBool b => Some (FNum (if b then 1 else 0)%Q)
  | PyStr s => py_float_of s
  | _ => None
  end.
Definition py_int (v : pyval) : option Z :=
  match v with
  | PyInt z => Some z
  | PyFloat q => Some (if Qltb q 0 then - Qfloor (- q) else Qfloor q)
  | PyBool b => Some (if b then 1 else 0)
  | PyStr s => py_int_of s
  | _ => None
  end.

(** ['s' in v] for a string. *)
Definition py_contains (v : pyval) (s : string) : bool :=
  match v with
  | PyList l => existsb (λ x, py_eq_str x s) l
  | PyStr t => match String.index 0 s t with Some _ => true | None => false end
  | PyDict d => bool_decide (s ∈ dict_keys d)
  | _ => false
  end.

(** [set(v) == {'default'}]. *)
Definition only_default (v : pyval) : bool :=
  match v with
  | PyDict d => has_exactly d ["default"%string]
  | PyList l => negb (bool_decide (length l = 0%nat)) && forallb (λ x, py_eq_str x "default") l
  | _ => false
  end.

Definition CA_TARGET : string := "/etc/synthx-staging/supabase-prod-ca-2021.crt".

(** The checks of a service that only staging makes. *)
Definition staging_service_error (name : string) (service : pyval) : option string :=
  let get k := pyval_get service k PyNone in
  let env := pyval_get service "environment" (PyDict []) in
  if bool_decide (name = "gateway"%string)
     && (negb (py_eq_str (pyval_get env "PGSSLMODE" PyNone) "verify-full")
         || negb (py_eq_str (pyval_get env "PGSSLROOTCERT" PyNone) CA_TARGET))
  then Some "Staging gateway must use the approved CA and verify-full database TLS"%string
  else if existsb (λ k, py_truthy (get k)) ["container_name"; "cap_add"; "devices"; "pid"; "ipc"; "extra_hosts"]%string
  then Some "Staging container identity and host isolation cannot be overridden"%string
  else
    match py_float (pyval_get service "cpus" (PyInt 0)), py_int (pyval_get service "mem_limit" (PyInt 0)) with
    | Some cpus, Some memory =>
        let max_cpus := if bool_decide (name = "gateway"%string) then 1%Q else (1 # 2)%Q in
        let max_memory := if bool_decide (name = "gateway"%string) then 1073741824 else 536870912 in
        let cpus_ok := match cpus with FNum q => (0 <?q q) && (q <=?q max_cpus) | _ => false end in
        if negb cpus_ok || negb ((0 <? memory) && (memory <=? max_memory))
        then Some "Staging resource limits exceed the approved budget"%string
        else if negb (match get "cap_drop" with PyList [v] => py_eq_str v "ALL" | _ => false end)
                || negb (py_contains (pyval_get service "security_opt" (PyList [])) "no-new-privileges:true")
        then Some "Staging requires dropped capabilities and no privilege escalation"%string
        else None
    | _, _ => Some "Staging resource limits must be explicit"%string
    end.

Definition expected_mounts (control : string) (staging : bool) (name : string) : list (string * string) :=
  ((control, "/run/synthx-deploy") ::
   (if staging && bool_decide (name = "gateway"%string)
    then [("/opt/synthx-staging/deploy/certs/supabase-prod-ca-2021.crt", CA_TARGET)] else []))%string.

(** A mount of this source and target, under the names a document gives the two. *)
Definition is_mount (source target : string) (p : string * string) (m : pyval) : bool :=
  py_eq_str (pyval_get m source PyNone) p.1 && py_eq_str (pyval_get m target PyNone) p.2.

(** Exactly the expected mounts, each as it should be. *)
Definition mounts_match (source target : string) (fine : pyval → bool) (expected : list (string * string))
    (l : list pyval) : bool :=
  bool_decide (length l = length expected)
  && forallb (λ m, existsb (λ p, is_mount source target p m) expected) l
  && forallb (λ p, existsb (is_mount source target p) l) expected
  && forallb fine l.

Definition read_only_bind (m : pyval) : bool :=
  py_eq_str (pyval_get m "type" PyNone) "bind" && is_true (pyval_get m "read_only" PyNone).

(** Exactly the expected mounts, all read-only bind mounts. *)
Definition mounts_ok (expected : list (string * string)) (mounts : pyval) : bool :=
  match mounts with
  | PyList l => mounts_match "source" "target" read_only_bind expected l
  | _ => false
  end.

(** The checks of one service. *)
Definition service_error (control : option string) (staging : bool) (name : string) (service : pyval) : option string :=
  match (if staging then staging_service_error name service else None) with
  | Some e => Some e
  | None =>
      let mounts := pyval_get service "volumes" (PyList []) in
      let mounts_bad :=
        match control with
        | Some c => if mounts_ok (expected_mounts c staging name) mounts then None
                    else Some "Only approved read-only maintenance and staging gateway CA mounts are allowed"%string
        | None => if py_truthy mounts then Some "Unexpected deployment mounts"%string else None
        end in
      match mounts_bad with
      | Some e => Some e
      | None =>
          if negb (only_default (pyval_get service "networks" (PyDict [])))
             || existsb (λ k, py_truthy (pyval_get service k PyNone)) ["build"; "privileged"; "network_mode"]%string
          then Some "Platform mounts, builds and network changes require separate review"%string
          else None
      end
  end.

Fixpoint first_service_error (control : option string) (staging : bool) (services : list (string * pyval)) : option string :=
  match services with
  | [] => None
  | (name, service) :: services' =>
      match service_error control staging name service with
      | Some e => Some e
      | None => first_service_error control staging services'
      end
  end.

(** [len(ports) == 1] and that port is the loopback one. *)
Definition gateway_port_ok (target : Environment) (port_text : string) (ports : pyval) : bool :=
  match ports with
  | PyList [p] =>
      py_eq_str (pyval_get p "host_ip" PyNone) "127.0.0.1"
      && match pyval_get p "published" PyNone with
         | PyStr s => bool_decide (s = port_text)
         | PyInt z => z =? en_gateway_port target
         | _ => false
         end
      && py_eq_int (pyval_get p "target" PyNone) 8000
  | _ => false
  end.

(** The error of a layout that is refused; [None] when it is accepted. *)
Definition validate_layout (layout : pyval) (control : option string) (target : Environment) : option string :=
  let staging := bool_decide (en_name target = "staging"%string) in
  let port_text := pretty (en_gateway_port target) in
  let network := pyval_get (pyval_get layout "networks" (PyDict [])) "default" (PyDict []) in
  match pyval_get layout "services" (PyDict []) with
  | PyDict services =>
      if negb (has_exactly services SERVICES)
         || negb (py_eq_str (pyval_get network "name" PyNone) (en_network target))
         || negb (is_true (pyval_get network "external" PyNone))
      then Some "Only gateway/text-worker on the selected external network are allowed"%string
      else if negb (gateway_port_ok target port_text (pyval_get (dict_get services "gateway" PyNone) "ports" (PyList [])))
      then Some "Gateway must retain its selected loopback port"%string
      else if py_truthy (pyval_get (dict_get services "text-worker" PyNone) "ports" PyNone)
      then Some "Text adapter must not publish a host port"%string
      else if staging && negb (py_eq_str (pyval_get layout "name" PyNone) (en_project target))
      then Some "Staging Compose project identity changed"%string
      else first_service_error control staging services
  | _ => Some "Only gateway/text-worker on the selected external network are allowed"%string
  end.

(** ** The restricted command *)

Lemma strip_prefix_iff p l r : strip_prefix p l = Some r ↔ l = p ++ r.
Proof.
  revert l. induction p as [| c p IH]; intros l; cbn; [split; congruence |].
  destruct l as [| d l]; [split; discriminate |].
  case_bool_decide as Hc; [rewrite IH; subst; split; congruence | split; congruence].
Qed.

Lemma chars_of_app a b : chars_of (a +:+ b) = chars_of a ++ chars_of b.
Proof. induction a as [| c a IH]; [reflexivity |]. exact (f_equal (cons c) IH). Qed.

Lemma chars_of_string l : chars_of (String.string_of_list_ascii l) = l.
Proof. apply String.list_ascii_of_string_of_list_ascii. Qed.

Lemma string_of_chars s : String.string_of_list_ascii (chars_of s) = s.
Proof. apply String.string_of_list_ascii_of_string. Qed.

(** [n] lower-case hexadecimal digits. *)
Definition is_hexn (n : nat) (s : string) : Prop :=
  length (chars_of s) = n ∧ forallb is_hex (chars_of s) = true.

Lemma take_hex_iff n l s r : take_hex n l = Some (s, r) ↔ is_hexn n s ∧ l = chars_of s ++ r.
Proof.
  unfold take_hex, is_hexn. split.
  - destruct (_ && _) eqn:H; [| discriminate]. apply andb_true_iff in H as [H1%bool_decide_eq_true H2].
    intros [= <- <-]. rewrite chars_of_string, take_drop. auto.
  - intros [[Hl Hh] ->]. rewrite take_app_length', drop_app_length' by (symmetry; exact Hl).
    rewrite bool_decide_true, Hh, string_of_chars by exact Hl. reflexivity.
Qed.

(** The only commands the receiver obeys. *)
Definition render_command (name sha checksum : string) : string :=
  ("deploy-platform" +:+ (if bool_decide (name = "staging"%string) then "-staging" else EmptyString)
     +:+ " " +:+ sha +:+ " " +:+ checksum)%string.

(** The text after [deploy-platform], in either environment. *)
Lemma parse_rest (rest : chars) (sha checksum : string) :
  (r ← strip_prefix (chars_of " ") rest;
   '(sha', r) ← take_hex 40 r;
   r ← strip_prefix (chars_of " ") r;
   '(checksum', r) ← take_hex 64 r;
   match r with [] => Some (sha', checksum') | _ => None end) = Some (sha, checksum) ↔
  is_hexn 40 sha ∧ is_hexn 64 checksum ∧ rest = chars_of (" " +:+ sha +:+ " " +:+ checksum).
Proof.
  rewrite !chars_of_app. split.
  - intros (r & H1%strip_prefix_iff & H)%bind_Some. apply bind_Some in H as ([s r'] & [Hs ->]%take_hex_iff & H).
    apply bind_Some in H as (r'' & H2%strip_prefix_iff & H).
    apply bind_Some in H as ([c r3] & [Hc ->]%take_hex_iff & H).
    destruct r3; [| discriminate]. injection H as -> ->. subst. rewrite app_nil_r. auto.
  - intros (Hs & Hc & ->). apply bind_Some. eexists. split; [apply strip_prefix_iff; reflexivity |].
    apply bind_Some. eexists. split; [apply take_hex_iff; split; [exact Hs | reflexivity] |].
    apply bind_Some. eexists. split; [apply strip_prefix_iff; reflexivity |].
    apply bind_Some. eexists. split; [apply take_hex_iff; split; [exact Hc | symmetry; apply app_nil_r] |].
    reflexivity.
Qed.

Lemma parse_command_spec command :
  parse_command command =
  (rest ← strip_prefix (chars_of "deploy-platform") (chars_of command);
   let '(name, rest) := match strip_prefix (chars_of "-staging") rest with
                        | Some r => ("staging"%string, r) | None => ("dev"%string, rest) end in
   '(sha, checksum) ← (r ← strip_prefix (chars_of " ") rest;
                       '(sha', r) ← take_hex 40 r;
                       r ← strip_prefix (chars_of " ") r;
                       '(checksum', r) ← take_hex 64 r;
                       match r with [] => Some (sha', checksum') | _ => None end);
   Some (name, sha, checksum)).
Proof.
  unfold parse_command. destruct (strip_prefix _ _) as [rest |]; [| reflexivity]. cbn [mbind option_bind].
  destruct (match strip_prefix (chars_of "-staging") rest with Some r => _ | None => _ end) as [name rest'].
  destruct (strip_prefix _ rest') as [r |]; [| reflexivity]. cbn [mbind option_bind].
  destruct (take_hex 40 r) as [[sha r'] |]; [| reflexivity]. cbn [mbind option_bind].
  destruct (strip_prefix _ r') as [r'' |]; [| reflexivity]. cbn [mbind option_bind].
  destruct (take_hex 64 r'') as [[c []] |]; reflexivity.
Qed.

(** The receiver obeys exactly the rendered commands: a parsed command is the text
    of its environment, commit and checksum, both lower-case hexadecimal of full length,
    and every such text parses back to them. *)
Theorem parse_command_roundtrip (command name sha checksum : string) :
  parse_command command = Some (name, sha, checksum) ↔
  (name = "dev" ∨ name = "staging")%string ∧ is_hexn 40 sha ∧ is_hexn 64 checksum ∧
  command = render_command name sha checksum.
Proof.
  rewrite parse_command_spec. split.
  - intros (rest & H1%strip_prefix_iff & H)%bind_Some.
    destruct (strip_prefix (chars_of "-staging") rest) as [r |] eqn:Hst.
    all: apply bind_Some in H as ([s c] & (Hs & Hc & Hr)%parse_rest & [= <- -> ->]).
    all: split; [auto |]; split_and!; [assumption.. |].
    + apply strip_prefix_iff in Hst. rewrite <- (string_of_chars command), H1, Hst, Hr, <- !chars_of_app.
      apply string_of_chars.
    + rewrite <- (string_of_chars command), H1, Hr, <- !chars_of_app. apply string_of_chars.
  - intros (Hn & Hs & Hc & ->). apply bind_Some. eexists.
    split; [apply strip_prefix_iff; unfold render_command; rewrite chars_of_app; reflexivity |].
    destruct Hn as [-> | ->].
    + cbn -[take_hex]. apply bind_Some. exists (sha, checksum).
      split; [apply (parse_rest (chars_of (" " +:+ sha +:+ " " +:+ checksum)) sha checksum); auto | reflexivity].
    + cbn -[take_hex]. apply bind_Some. exists (sha, checksum).
      split; [apply (parse_rest (chars_of (" " +:+ sha +:+ " " +:+ checksum)) sha checksum); auto | reflexivity].
Qed.

(** ** What an accepted layout guarantees *)

Lemma mounts_match_spec source target fine expected l m :
  mounts_match source target fine expected l = true → m ∈ l →
  fine m = true ∧ ∃ p, p ∈ expected ∧ pyval_get m source PyNone = PyStr p.1 ∧ pyval_get m target PyNone = PyStr p.2.
Proof.
  intros H Hm%list_elem_of_In. unfold mounts_match in H. rewrite !andb_true_iff, !forallb_forall in H.
  destruct H as [[[_ Hall] _] Hf]. split; [by apply Hf|].
  specialize (Hall m Hm). apply existsb_exists in Hall as (p & Hp & Hmt). exists p.
  unfold is_mount in Hmt. rewrite andb_true_iff, !py_eq_str_true in Hmt.
  split; [apply list_elem_of_In, Hp | exact Hmt].
Qed.

Lemma first_service_error_none control staging services name service :
  first_service_error control staging services = None → (name, service) ∈ services →
  service_error control staging name service = None.
Proof.
  induction services as [| [n s] services IH]; cbn; intros H Hin; [inversion Hin |].
  destruct (service_error control staging n s) eqn:He; [discriminate |].
  apply elem_of_cons in Hin as [[= -> ->] | Hin]; auto.
Qed.

(** A layout is started only if it has exactly the two services, on the
    environment's external network; the gateway publishes the one loopback port and the
    text adapter none; no service is built, privileged or given another network mode;
    and every mount of a service is one of the approved pairs, bound read-only. *)
Theorem accepted_layout_is_confined (layout : pyval) (control : string) (target : Environment) :
  validate_layout layout (Some control) target = None →
  ∃ services, pyval_get layout "services" (PyDict []) = PyDict services ∧
    length services = 2%nat ∧ (∀ n, n ∈ SERVICES → n ∈ dict_keys services) ∧
    (∃ p, pyval_get (dict_get services "gateway" PyNone) "ports" (PyList []) = PyList [p] ∧
          pyval_get p "host_ip" PyNone = PyStr "127.0.0.1") ∧
    py_truthy (pyval_get (dict_get services "text-worker" PyNone) "ports" PyNone) = false ∧
    ∀ n s, (n, s) ∈ services →
      py_truthy (pyval_get s "build" PyNone) = false ∧ py_truthy (pyval_get s "privileged" PyNone) = false ∧
      py_truthy (pyval_get s "network_mode" PyNone) = false ∧
      ∃ mounts, pyval_get s "volumes" (PyList []) = PyList mounts ∧
        ∀ m, m ∈ mounts →
          is_true (pyval_get m "read_only" PyNone) = true ∧
          ∃ p, p ∈ expected_mounts control (bool_decide (en_name target = "staging"%string)) n ∧
            pyval_get m "source" PyNone = PyStr p.1 ∧ pyval_get m "target" PyNone = PyStr p.2.
Proof.
  unfold validate_layout.
  destruct (pyval_get layout "services" _) as [| | | | | | services]; try discriminate. intros H.
  exists services. split; [reflexivity |].
  destruct (negb _ || _ || _) eqn:H1; [discriminate |].
  destruct (negb _) eqn:H2 in H; [discriminate |].
  destruct (py_truthy _) eqn:H3; [discriminate |]. destruct (_ && _); [discriminate |].
  rewrite !orb_false_iff, !negb_false_iff in H1. destruct H1 as [[H1 _] _].
  apply negb_false_iff in H2. apply andb_true_iff in H1 as [Hlen Hkeys].
  apply bool_decide_eq_true in Hlen. rewrite forallb_forall in Hkeys.
  split_and!; [exact Hlen | | | reflexivity |].
  - intros n Hn%list_elem_of_In%Hkeys. apply bool_decide_eq_true in Hn. exact Hn.
  - unfold gateway_port_ok in H2. destruct (pyval_get _ "ports" _) as [| | | | | l |]; try discriminate.
    destruct l as [| p [| ]]; try discriminate. exists p. rewrite !andb_true_iff, py_eq_str_true in H2.
    split; [reflexivity | apply H2].
  - intros n s Hin. apply (first_service_error_none _ _ _ _ _ H) in Hin. unfold service_error in Hin.
    destruct (if bool_decide _ then _ else None); [discriminate |].
    destruct (mounts_ok _ _) eqn:Hm; [| discriminate].
    destruct (_ || _) eqn:Hb; [discriminate |]. apply orb_false_iff in Hb as [_ Hb]. cbn in Hb.
    rewrite !orb_false_iff in Hb. destruct Hb as (? & ? & ? & _). split_and!; [assumption.. |].
    unfold mounts_ok in Hm. destruct (pyval_get s "volumes" _) as [| | | | | mounts |]; try discriminate.
    exists mounts. split; [reflexivity |]. intros m Hm'.
    destruct (mounts_match_spec _ _ _ _ _ m Hm Hm') as [Hf Hp].
    unfold read_only_bind in Hf. apply andb_true_iff in Hf as [_ Hf]. split; [exact Hf | exact Hp].
Qed.
