(* ===== verification/ArgParse.v ===== *)
(** [argparse] of the standard library, as far as the programs of the repository use it:
    parsers with options only, each taking one value, one or more values or none. *)
From stdpp Require Import pretty.
From S2P Require Import Prelude PyVal DeployChecks.

(** ** Declarations: [add_argument] *)

(** [nargs] absent, [nargs="+"], [action="store_true"], and the option [-h] of every parser. *)
Inductive arity := One | Many | Switch | Help.

(** [type]. *)
Inductive arg_type := StrArg | IntArg | FloatArg.

#[warnings="-register-all"]
Inductive arg_value :=
| ArgNone
| ArgStr (s : string)
| ArgInt (z : Z)
| ArgFloat (x : pyfloat)
| ArgTrue
| ArgFalse
| ArgList (l : list arg_value).

Record argument := mkArgument {
  ag_flags : list string;
  ag_dest : string;
  ag_arity : arity;
  ag_type : arg_type;
  ag_choices : option (list string);
  ag_required : bool;
  ag_default : arg_value;
}.

Definition help_argument : argument :=
  mkArgument ["-h"; "--help"]%string "help" Help StrArg None false ArgNone.

(** ** Words *)

Definition is_digit (c : Ascii.ascii) : bool := match digit_of c with Some _ => true | None => false end.

Definition starts_dash (l : chars) : bool := match l with c :: _ => is_char c 45 | [] => false end.

(** ['^-\d+$|^-\d*\.\d+$']. *)
Fixpoint number_shape (dot : bool) (digit : bool) (l : chars) : bool :=
  match l with
  | [] => digit
  | c :: l' =>
      if is_digit c then number_shape dot true l'
      else if is_char c 46 && negb dot then number_shape true false l'
      else if is_char c 10 then match l' with [] => digit | _ => false end
      else false
  end.

Definition negative_number (l : chars) : bool :=
  match l with c :: l' => is_char c 45 && number_shape false false l' | [] => false end.

(** [s.split("=", 1)], if there is one. *)
Fixpoint split_equal (l : chars) : option (chars * chars) :=
  match l with
  | [] => None
  | c :: l' => if is_char c 61 then Some ([], l') else '(a, b) ← split_equal l'; Some (c :: a, b)
  end.

Fixpoint is_prefix (l k : chars) : bool :=
  match l, k with
  | [], _ => true
  | c :: l', d :: k' => bool_decide (c = d) && is_prefix l' k'
  | _ :: _, [] => false
  end.

Definition text_of (l : chars) : string := String.string_of_list_ascii l.

(** What a word of the command line is: a value, [--], an option with what follows it in the
    same word (and whether it follows a [=]), or an option nobody knows. *)
Inductive mark :=
| Plain
| Dashes
| Known (o : argument) (explicit : option (bool * string))
| Unknown.

Section parser.
Context (p : list argument).

Definition option_strings : list (string * argument) := p ≫= λ o, (λ f, (f, o)) <$> ag_flags o.

Definition find_flag (s : string) : option argument := dict_lookup option_strings s.

(** [_get_option_tuples]: the options a word abbreviates. *)
Definition option_tuples (l : chars) : list (argument * option (bool * string)) :=
  match l with
  | _ :: c :: _ =>
      if is_char c 45 then
        let '(prefix, explicit) :=
          match split_equal l with Some (a, b) => (a, Some (true, text_of b)) | None => (l, None) end in
        option_strings ≫= λ '(f, o), if is_prefix prefix (chars_of f) then [(o, explicit)] else []
      else
        option_strings ≫= λ '(f, o),
          if bool_decide (f = text_of (take 2 l)) then [(o, Some (false, text_of (drop 2 l)))]
          else if is_prefix l (chars_of f) then [(o, None)] else []
  | _ => []
  end.

(** [_parse_optional]; [None] is the error of an ambiguous option. *)
Definition classify (s : string) : option mark :=
  let l := chars_of s in
  if negb (starts_dash l) then Some Plain
  else
    match find_flag s with
    | Some o => Some (Known o None)
    | None =>
        if bool_decide (length l = 1%nat) then Some Plain
        else
          match '(a, b) ← split_equal l; o ← find_flag (text_of a); Some (o, text_of b) with
          | Some (o, b) => Some (Known o (Some (true, b)))
          | None =>
              match option_tuples l with
              | [(o, e)] => Some (Known o e)
              | _ :: _ :: _ => None
              | [] => Some (if negative_number l || existsb (λ c, is_char c 32) l then Plain else Unknown)
              end
          end
    end.

Inductive parse_error :=
| Ambiguous (word : string)
| Expected (dest : string)
| Ignored (dest explicit : string)
| Invalid (dest word : string)
| NotAChoice (dest word : string)
| Missing (dests : list string)
| Unrecognized (words : list string).

(** All words are classified first; after [--] they are values. *)
Fixpoint classify_all (words : list string) : list (string * mark) + parse_error :=
  match words with
  | [] => inl []
  | w :: ws =>
      if bool_decide (w = "--"%string) then inl ((w, Dashes) :: ((λ v, (v, Plain)) <$> ws))
      else match classify w with
           | None => inr (Ambiguous w)
           | Some m => match classify_all ws with inl l => inl ((w, m) :: l) | inr e => inr e end
           end
  end.

(** ** Values *)

(** [_get_value]. *)
Definition convert (t : arg_type) (s : string) : option arg_value :=
  match t with
  | StrArg => Some (ArgStr s)
  | IntArg => ArgInt <$> py_int_of s
  | FloatArg => ArgFloat <$> py_float_of s
  end.

(** [_check_value]: the choices are strings. *)
Definition is_choice (o : argument) (v : arg_value) : bool :=
  match ag_choices o with
  | None => true
  | Some l => match v with ArgStr s => bool_decide (s ∈ l) | _ => false end
  end.

Definition get_value (o : argument) (s : string) : arg_value + parse_error :=
  match convert (ag_type o) s with
  | None => inr (Invalid (ag_dest o) s)
  | Some v => if is_choice o v then inl v else inr (NotAChoice (ag_dest o) s)
  end.

(** [_get_values] for [nargs="+"]: all are converted, then all are checked. *)
Fixpoint get_list (o : argument) (words : list string) : list arg_value + parse_error :=
  match words with
  | [] => inl []
  | w :: ws =>
      match convert (ag_type o) w with
      | None => inr (Invalid (ag_dest o) w)
      | Some v => match get_list o ws with inl l => inl (v :: l) | inr e => inr e end
      end
  end.

Fixpoint check_list (o : argument) (words : list string) (l : list arg_value) : option parse_error :=
  match words, l with
  | w :: ws, v :: l' => if is_choice o v then check_list o ws l' else Some (NotAChoice (ag_dest o) w)
  | _, _ => None
  end.

Definition get_values (o : argument) (words : list string) : arg_value + parse_error :=
  match get_list o words with
  | inr e => inr e
  | inl l => match check_list o words l with Some e => inr e | None => inl (ArgList l) end
  end.

(** ** [parse_args] *)

Abbreviation namespace := (list (string * arg_value)).

(** What has been read: the namespace, the destinations seen, and the words left over. *)
Record progress := mkProgress { pr_args : namespace; pr_seen : list string; pr_extras : list string }.

(** [parse_args] returns, or ends the program with a status: 0 after the help text. *)
Inductive parse_result := Args (n : namespace) | Exits (status : Z) (e : option parse_error).

Definition parser_error (e : parse_error) : parse_result := Exits 2 (Some e).

Definition store_value (o : argument) (v : arg_value) (st : progress) : progress :=
  mkProgress (dict_set (pr_args st) (ag_dest o) v) (ag_dest o :: pr_seen st) (pr_extras st).

Definition leave (w : string) (st : progress) : progress :=
  mkProgress (pr_args st) (pr_seen st) (pr_extras st ++ [w]).

(** The values that follow an option. *)
Fixpoint following (items : list (string * mark)) : list string :=
  match items with (w, Plain) :: items' => w :: following items' | _ => [] end.

(** One option with the words behind it: what it stores and how many words it takes, or how
    the parser ends.  Several [h] in one word are several help options. *)
Definition consume (o : argument) (explicit : option (bool * string)) (rest : list string) : (arg_value * nat) + parse_result :=
  match ag_arity o, explicit with
  | Help, None => inr (Exits 0 None)
  | Help, Some (false, e) => inr (if forallb (λ c, is_char c 104) (chars_of e) then Exits 0 None else parser_error (Ignored (ag_dest o) e))
  | Help, Some (true, e) | Switch, Some (_, e) => inr (parser_error (Ignored (ag_dest o) e))
  | Switch, None => inl (ArgTrue, O)
  | One, Some (_, e) => match get_value o e with inl v => inl (v, O) | inr err => inr (parser_error err) end
  | One, None =>
      match rest with
      | [] => inr (parser_error (Expected (ag_dest o)))
      | w :: _ => match get_value o w with inl v => inl (v, 1%nat) | inr err => inr (parser_error err) end
      end
  | Many, Some (_, e) => match get_values o [e] with inl v => inl (v, O) | inr err => inr (parser_error err) end
  | Many, None =>
      match rest with
      | [] => inr (parser_error (Expected (ag_dest o)))
      | _ => match get_values o rest with inl v => inl (v, length rest) | inr err => inr (parser_error err) end
      end
  end.

(** [skip] words belong to the last option. *)
Fixpoint parse_items (skip : nat) (items : list (string * mark)) (st : progress) : progress + parse_result :=
  match items with
  | [] => inl st
  | (w, m) :: items' =>
      match skip with
      | S skip' => parse_items skip' items' st
      | O =>
          match m with
          | Known o explicit =>
              match consume o explicit (following items') with
              | inl (v, n) => parse_items n items' (store_value o v st)
              | inr stop => inr stop
              end
          | _ => parse_items O items' (leave w st)
          end
      end
  end.

Definition defaults : namespace :=
  (λ o, (ag_dest o, ag_default o)) <$> filter (λ o, match ag_arity o with Help => false | _ => true end = true) p.

Definition missing (st : progress) : list string :=
  ag_dest <$> filter (λ o, ag_required o = true ∧ ag_dest o ∉ pr_seen st) p.

Definition parse_args (words : list string) : parse_result :=
  match classify_all words with
  | inr e => parser_error e
  | inl items =>
      match parse_items 0 items (mkProgress defaults [] []) with
      | inr stop => stop
      | inl st =>
          match missing st with
          | _ :: _ as dests => parser_error (Missing dests)
          | [] => match pr_extras st with [] => Args (pr_args st) | extras => parser_error (Unrecognized extras) end
          end
      end
  end.
End parser.

(** ** Numbers as they are printed *)

Lemma digit_of_pretty x : (x < 10)%N → digit_of (pretty_N_char x) = Some (Z.of_N x).
Proof.
  intros H. assert (x = 0 ∨ x = 1 ∨ x = 2 ∨ x = 3 ∨ x = 4 ∨ x = 5 ∨ x = 6 ∨ x = 7 ∨ x = 8 ∨ x = 9)%N as Hx by lia.
  repeat destruct Hx as [->|Hx]; try done. by subst.
Qed.

Lemma digit_char c d : digit_of c = Some d → is_digit c = true ∧ is_char c 95 = false ∧ is_char c 45 = false ∧
  is_char c 43 = false ∧ is_char c 61 = false ∧ is_space c = false.
Proof.
  unfold digit_of, is_digit, digit_of, is_char, is_space. set (n := Ascii.nat_of_ascii c).
  destruct (_ && _) eqn:E; [|done]. intros _. apply andb_true_iff in E as [H1 H2].
  apply Z.leb_le in H1, H2. rewrite !bool_decide_eq_false. split_and!; try lia. 
  destruct (_ || _) eqn:Es; [|done]. rewrite orb_true_iff, !andb_true_iff, !Nat.leb_le in Es. lia.
Qed.

(** What follows a positive number that is printed in front of [s]. *)
Lemma int_digits_pretty x s : (0 < x)%N →
  ∃ l k, chars_of (pretty_N_go x s) = l ++ chars_of s ∧ l ≠ [] ∧ Forall (λ c, is_digit c = true) l ∧
    ∀ acc b, int_digits acc b (chars_of (pretty_N_go x s)) = int_digits (acc * 10 ^ Z.of_nat k + Z.of_N x) true (chars_of s).
Proof.
  revert s. induction (N.lt_wf_0 x) as [x _ IH]. intros s Hx. rewrite pretty_N_go_step by done.
  set (c := pretty_N_char (x `mod` 10)). assert (Hd : digit_of c = Some (Z.of_N (x `mod` 10))).
  { apply digit_of_pretty, N.mod_lt. lia. }
  destruct (digit_char c _ Hd) as (Hdig & Hu & _). pose proof (N.div_mod x 10 ltac:(lia)) as Hdiv.
  assert (∀ acc b, int_digits acc b (chars_of (String c s)) = int_digits (10 * acc + Z.of_N (x `mod` 10)) true (chars_of s)) as Hone.
  { intros acc b. unfold chars_of. simpl. by rewrite Hu, Hd. }
  destruct (decide (x < 10)%N) as [Hs|Hs].
  - rewrite N.div_small by done. rewrite pretty_N_go_0. exists [c], 1%nat. split_and!; [done|done|by constructor|].
    intros acc b. rewrite Hone, N.mod_small by done. f_equal. lia.
  - destruct (IH (x `div` 10)%N) with (s := String c s) as (l & k & El & Hne & Hl & Hr); [apply N.div_lt; lia|apply N.div_str_pos; lia|].
    exists (l ++ [c]), (S k). split_and!.
    + rewrite El. unfold chars_of. simpl. by rewrite <- (assoc_L (++)).
    + by destruct l.
    + apply Forall_app_2; [done|by constructor].
    + intros acc b. rewrite Hr, Hone. f_equal. rewrite Nat2Z.inj_succ, Z.pow_succ_r by lia. nia.
Qed.

(** The characters of a number: an optional minus, and digits. *)
Lemma pretty_Z_shape z : ∃ l : chars, l ≠ [] ∧ Forall (λ c, is_digit c = true) l ∧
  chars_of (pretty z) = (if z <? 0 then [Ascii.ascii_of_nat 45] else []) ++ l ∧ int_digits 0 false l = Some (Z.abs z).
Proof.
  assert (∀ x, ∃ l, l ≠ [] ∧ Forall (λ c, is_digit c = true) l ∧ chars_of (pretty (N.pos x)) = l ∧ int_digits 0 false l = Some (Z.pos x)) as Hpos.
  { intros x. destruct (int_digits_pretty (N.pos x) EmptyString) as (l & k & El & Hne & Hl & Hr); [done|].
    exists l. unfold pretty, pretty_N. rewrite decide_False by done. specialize (Hr 0 false). rewrite El in Hr |- *.
    rewrite app_nil_r in Hr |- *. by split_and!. }
  destruct z as [|x|x].
  - exists [Ascii.ascii_of_nat 48]. split_and!; try done. by repeat constructor.
  - destruct (Hpos x) as (l & ? & ? & <- & ?). eauto.
  - destruct (Hpos x) as (l & ? & ? & <- & ?). eauto.
Qed.

(** [int(str(z)) == z]. *)
Lemma py_int_of_pretty z : py_int_of (pretty z) = Some z.
Proof.
  destruct (pretty_Z_shape z) as (l & Hne & Hl & E & Hr).
  assert (Forall (λ c, is_space c = false ∧ is_char c 43 = false ∧ is_char c 45 = false) l) as Hp.
  { eapply Forall_impl; [exact Hl|]. intros c Hc. unfold is_digit in Hc. destruct (digit_of c) as [d|] eqn:Ed; [|done].
    by destruct (digit_char c d Ed) as (_ & _ & ? & ? & _ & ?). }
  unfold py_int_of. rewrite py_strip_tight; fold (chars_of (pretty z)); rewrite E.
  - destruct (z <? 0) eqn:Ez; simpl.
    + rewrite Hr. simpl. f_equal. apply Z.ltb_lt in Ez. lia.
    + unfold read_sign. destruct l as [|c l]; [done|]. inversion Hp as [|? ? (_ & H1 & H2) _]; subst. rewrite H1, H2.
      rewrite Hr. simpl. f_equal. apply Z.ltb_ge in Ez. lia.
  - rewrite forallb_app, andb_true_iff. split; [by destruct (z <? 0)|]. apply forallb_forall. intros c Hc%list_elem_of_In.
    rewrite Forall_forall in Hp. by destruct (Hp c Hc) as (-> & _).
Qed.

(** ** What a parser returns fits its declarations *)

Section sound.
Context (p : list argument).

Definition plain_word (w : string) : Prop := w ≠ "--"%string ∧ classify p w = Some Plain.

(** What an option with several values can be given: one word behind [=], which can be any
    text, or a row of words that are no options. *)
Definition sayable (ws : list string) : Prop := ws ≠ [] ∧ (length ws = 1%nat ∨ Forall plain_word ws).

Definition given (o : argument) (v : arg_value) : Prop :=
  match ag_arity o with
  | One => ∃ w, get_value o w = inl v
  | Many => ∃ ws, sayable ws ∧ get_values o ws = inl v
  | Switch => v = ArgTrue
  | Help => False
  end.

Lemma find_flag_elem s o : find_flag p s = Some o → o ∈ p.
Proof using.
  intros H%dict_lookup_elem. unfold option_strings in H. apply list_elem_of_bind in H as (q & H & Hq).
  apply list_elem_of_fmap in H as (f & [= -> ->] & _). done.
Qed.

Lemma option_strings_elem f o : (f, o) ∈ option_strings p → o ∈ p.
Proof using.
  unfold option_strings. intros H. apply list_elem_of_bind in H as (q & H & Hq).
  apply list_elem_of_fmap in H as (g & [= -> ->] & _). done.
Qed.

Lemma option_tuples_elem l o e : (o, e) ∈ option_tuples p l → o ∈ p.
Proof using.
  unfold option_tuples. destruct l as [|a [|c l]]; [intros H; inversion H..|].
  destruct (is_char c 45); [destruct (match split_equal _ with Some _ => _ | None => _ end) as [prefix explicit]|];
    intros H; apply list_elem_of_bind in H as ([f q] & H & Hq); apply option_strings_elem in Hq.
  - destruct (is_prefix _ _); [|inversion H]. by apply list_elem_of_singleton in H as [= -> _].
  - case_bool_decide; [by apply list_elem_of_singleton in H as [= -> _]|].
    destruct (is_prefix _ _); [|inversion H]. by apply list_elem_of_singleton in H as [= -> _].
Qed.

Lemma classify_known w o e : classify p w = Some (Known o e) → o ∈ p.
Proof using.
  unfold classify. destruct (negb _); [done|]. destruct (find_flag p w) as [q|] eqn:Ef; [intros [= <- _]; by eapply find_flag_elem|].
  case_bool_decide; [done|]. destruct (split_equal _) as [[a b]|]; simpl.
  - destruct (find_flag p (text_of a)) as [q|] eqn:Eq; simpl; [intros [= <- _]; by eapply find_flag_elem|].
    destruct (option_tuples _ _) as [|[q x] [|]] eqn:Et; [by destruct (_ || _)| |done].
    intros [= <- _]. eapply option_tuples_elem. rewrite Et. by left.
  - destruct (option_tuples _ _) as [|[q x] [|]] eqn:Et; [by destruct (_ || _)| |done].
    intros [= <- _]. eapply option_tuples_elem. rewrite Et. by left.
Qed.

Lemma classify_all_following words items : classify_all p words = inl items → Forall plain_word (following items).
Proof using.
  revert items. induction words as [|v words IH]; simpl; intros items; [intros [= <-]; constructor|].
  case_bool_decide; [intros [= <-]; constructor|]. destruct (classify p v) as [m|] eqn:Ec; [|done].
  destruct (classify_all p words) as [l|]; [|done]. intros [= <-].
  destruct m; try constructor; [by split|by apply IH].
Qed.

(** Behind every option stands what was classified there. *)
Definition well_read (items : list (string * mark)) : Prop :=
  ∀ pre w o e post, items = pre ++ (w, Known o e) :: post → o ∈ p ∧ Forall plain_word (following post).

Lemma well_read_tail x items : well_read (x :: items) → well_read items.
Proof using. intros H pre w o e post ->. by apply (H (x :: pre) w o e post). Qed.

Lemma classify_all_well_read words items : classify_all p words = inl items → well_read items.
Proof using.
  revert items. induction words as [|v words IH]; simpl; intros items.
  { intros [= <-] [|? pre] w o e post; done. }
  case_bool_decide.
  - intros [= <-] pre w o e post E. exfalso.
    assert ((w, Known o e) ∈ (v, Dashes) :: ((λ v, (v, Plain)) <$> words)) as Hin by (rewrite E; set_solver).
    apply elem_of_cons in Hin as [?|Hin]; [done|]. by apply list_elem_of_fmap in Hin as (? & ? & _).
  - destruct (classify p v) as [m|] eqn:Ec; [|done]. destruct (classify_all p words) as [l|] eqn:El; [|done].
    intros [= <-] [|? pre] w o e post E; simplify_eq/=.
    + split; [by eapply classify_known|by eapply classify_all_following].
    + by eapply IH.
Qed.

Lemma consume_given o explicit rest v n : Forall plain_word rest → consume o explicit rest = inl (v, n) → given o v.
Proof using.
  unfold consume, given. intros Hrest. destruct (ag_arity o), explicit as [[b e]|]; try done.
  - destruct (get_value o e) eqn:E; [|done]. intros [= <- _]. by exists e.
  - destruct rest as [|w rest]; [done|]. destruct (get_value o w) eqn:E; [|done]. intros [= <- _]. by exists w.
  - destruct (get_values o [e]) eqn:E; [|done]. intros [= <- _]. exists [e]. split; [split; [done|by left]|done].
  - destruct rest as [|w rest]; [done|]. destruct (get_values o _) eqn:E; [|done]. intros [= <- _].
    exists (w :: rest). split; [split; [done|by right]|done].
  - by intros [= <- _].
  - by destruct b.
Qed.

(** Every destination has a value: one that was given, or the default if none was. *)
Definition progress_ok (st : progress) : Prop :=
  ∀ o, o ∈ p → ag_arity o ≠ Help → ∃ v, dict_lookup (pr_args st) (ag_dest o) = Some v ∧
    (given o v ∨ v = ag_default o ∧ ag_dest o ∉ pr_seen st).

Context (Hdest : NoDup (ag_dest <$> p)).

Lemma same_dest o1 o2 : o1 ∈ p → o2 ∈ p → ag_dest o1 = ag_dest o2 → o1 = o2.
Proof using Hdest.
  intros (i & Hi)%list_elem_of_lookup (j & Hj)%list_elem_of_lookup E.
  assert (i = j) as ->; [|congruence]. eapply NoDup_lookup; [exact Hdest|..]; rewrite list_lookup_fmap.
  - by rewrite Hi.
  - by rewrite Hj, E.
Qed.

Lemma store_value_ok o v st : o ∈ p → given o v → progress_ok st → progress_ok (store_value o v st).
Proof using Hdest.
  intros Ho Hv Hst q Hq Hh. destruct (decide (ag_dest q = ag_dest o)) as [E|E].
  - rewrite (same_dest q o) by done. exists v. simpl. rewrite dict_lookup_set_eq. auto.
  - destruct (Hst q Hq Hh) as (u & Hu & Hg). exists u. simpl. rewrite dict_lookup_set_ne by done. split; [done|].
    destruct Hg as [Hg|[Hd Hs]]; [by left|]. right. split; [done|]. by intros [?|?]%elem_of_cons.
Qed.

Lemma parse_items_ok items : well_read items →
  ∀ skip st st', progress_ok st → parse_items skip items st = inl st' → progress_ok st'.
Proof using Hdest.
  induction items as [|[w m] items IH]; intros Hk skip st st' Hst; simpl; [by intros [= <-]|].
  pose proof (well_read_tail _ _ Hk) as Hk'.
  destruct skip as [|skip]; [|by apply IH]. destruct m as [| |o e|]; try (apply IH; [done|exact Hst]).
  destruct (consume o e (following items)) as [[v n]|] eqn:Ec; [|done]. apply IH; [done|].
  destruct (Hk [] w o e items eq_refl) as [Ho Hf]. apply store_value_ok; [done|by eapply consume_given|done].
Qed.

Lemma defaults_ok : progress_ok (mkProgress (defaults p) [] []).
Proof using Hdest.
  intros o Ho Hh. exists (ag_default o). split; [|right; split; [done|apply not_elem_of_nil]]. simpl.
  apply dict_elem_lookup.
  - unfold defaults, dict_keys. rewrite <- list_fmap_compose. eapply sublist_NoDup; [exact Hdest|].
    by apply (fmap_sublist ag_dest), sublist_filter.
  - apply list_elem_of_fmap. exists o. split; [done|]. apply list_elem_of_filter. by destruct (ag_arity o).
Qed.

Lemma consume_stops o explicit rest st n : consume o explicit rest = inr st → st ≠ Args n.
Proof using.
  unfold consume, parser_error. by repeat case_match; intros [= <-] ?.
Qed.

Lemma parse_items_stops items n : ∀ skip st, parse_items skip items st ≠ inr (Args n).
Proof using.
  induction items as [|[w m] items IH]; intros skip st; simpl; [done|].
  destruct skip as [|skip]; [|apply IH]. destruct m as [| |o e|]; try apply IH.
  destruct (consume o e (following items)) as [[v k]|x] eqn:Ec; [apply IH|]. intros [= ->].
  by apply (consume_stops _ _ _ _ n) in Ec.
Qed.

(** Whatever the words: a parser that returns has a value for each of its options, which is
    converted and checked as declared, or its default where it is not required. *)
Lemma parse_args_sound words n : parse_args p words = Args n →
  ∀ o, o ∈ p → ag_arity o ≠ Help → ∃ v, dict_lookup n (ag_dest o) = Some v ∧
    (given o v ∨ v = ag_default o ∧ ag_required o = false).
Proof using Hdest.
  unfold parse_args. destruct (classify_all p words) as [items|] eqn:Ec; [|done].
  destruct (parse_items 0 items _) as [st|] eqn:Ei; [|intros ->; exfalso; by apply parse_items_stops in Ei].
  destruct (missing p st) as [|] eqn:Em; [|done]. destruct (pr_extras st); [|done]. intros [= <-] o Ho Hh.
  destruct (parse_items_ok items (classify_all_well_read _ _ Ec) 0 _ _ defaults_ok Ei o Ho Hh) as (v & Hv & Hg).
  exists v. split; [done|]. destruct Hg as [Hg|[Hd Hs]]; [by left|]. right. split; [done|].
  destruct (ag_required o) eqn:Er; [|done]. exfalso. unfold missing in Em. apply fmap_nil_inv in Em.
  assert (o ∈ filter (λ o, ag_required o = true ∧ ag_dest o ∉ pr_seen st) p) as H by (by apply list_elem_of_filter).
  rewrite Em in H. inversion H.
Qed.
End sound.

(** ** Writing a command line *)

Definition flag_of (o : argument) : string := default EmptyString (head (ag_flags o)).

(** An option with its words. *)
Abbreviation setting := (argument * list string)%type.

(** [--flag=word] for a single value, so that any text can be given; [--flag word ...] for several. *)
Definition write_setting (g : setting) : list string :=
  match ag_arity g.1, g.2 with
  | One, [w] | Many, [w] => [(flag_of g.1 +:+ "=" +:+ w)%string]
  | _, ws => flag_of g.1 :: ws
  end.

Section written.
Context (p : list argument).

Definition no_equal (l : chars) : bool := forallb (λ c, negb (is_char c 61)) l.

(** No option string holds a [=], and none is [--]. *)
Definition flags_ok : bool :=
  forallb (λ '(f, _), no_equal (chars_of f) && negb (bool_decide (f = "--"%string)) && starts_dash (chars_of f)) (option_strings p).

(** What a setting stores. *)
Definition stores (g : setting) (v : arg_value) : Prop :=
  find_flag p (flag_of g.1) = Some g.1 ∧
  match ag_arity g.1 with
  | One => ∃ w, g.2 = [w] ∧ get_value g.1 w = inl v
  | Many => sayable p g.2 ∧ get_values g.1 g.2 = inl v
  | Switch => g.2 = [] ∧ v = ArgTrue
  | Help => False
  end.

Lemma split_equal_app l k : no_equal l = true → split_equal (l ++ Ascii.ascii_of_nat 61 :: k) = Some (l, k).
Proof using.
  unfold no_equal. induction l as [|c l IH]; simpl; [done|]. intros [Hc Hl]%andb_true_iff.
  apply negb_true_iff in Hc. rewrite Hc, IH by done. done.
Qed.

Lemma text_of_chars s : text_of (chars_of s) = s.
Proof using. apply String.string_of_list_ascii_of_string. Qed.

Lemma chars_of_text l : chars_of (text_of l) = l.
Proof using. apply String.list_ascii_of_string_of_list_ascii. Qed.

Context (Hflags : flags_ok = true).

Lemma flag_ok f o : find_flag p f = Some o → no_equal (chars_of f) = true ∧ f ≠ "--"%string ∧ starts_dash (chars_of f) = true.
Proof using Hflags.
  intros H%dict_lookup_elem. unfold flags_ok in Hflags. rewrite forallb_forall in Hflags.
  specialize (Hflags (f, o) (proj1 (list_elem_of_In _ _) H)). simpl in Hflags.
  rewrite !andb_true_iff, negb_true_iff, bool_decide_eq_false in Hflags. tauto.
Qed.

Lemma classify_flag f o : find_flag p f = Some o → classify p f = Some (Known o None).
Proof using Hflags. intros H. unfold classify. destruct (flag_ok f o H) as (_ & _ & ->). simpl. by rewrite H. Qed.

Lemma classify_equal f o w : find_flag p f = Some o → classify p (f +:+ "=" +:+ w)%string = Some (Known o (Some (true, w))).
Proof using Hflags.
  intros H. destruct (flag_ok f o H) as (Hne & _ & Hd). unfold classify.
  assert (chars_of (f +:+ "=" +:+ w)%string = chars_of f ++ Ascii.ascii_of_nat 61 :: chars_of w) as E by apply chars_of_app.
  assert (find_flag p (f +:+ "=" +:+ w)%string = None) as Hn.
  { destruct (find_flag p (f +:+ "=" +:+ w)%string) as [q|] eqn:Eq; [|done]. exfalso. destruct (flag_ok _ q Eq) as (Hx & _).
    rewrite E in Hx. unfold no_equal in Hx. rewrite forallb_app in Hx. apply andb_true_iff in Hx as [_ Hx].
    change (false && forallb (λ c, negb (is_char c 61)) (chars_of w) = true) in Hx. done. }
  rewrite Hn, E, split_equal_app by done. destruct (chars_of f) as [|c l] eqn:Ef; [done|].
  change (starts_dash ((c :: l) ++ Ascii.ascii_of_nat 61 :: chars_of w)) with (starts_dash (c :: l)). rewrite Hd. simpl negb.
  rewrite bool_decide_eq_false_2 by (rewrite length_app; simpl; lia).
  cbv beta iota delta [mbind option_bind]. by rewrite <- Ef, !text_of_chars, H.
Qed.

(** The items a written setting is read as. *)
Definition setting_items (g : setting) : list (string * mark) :=
  match ag_arity g.1, g.2 with
  | One, [w] | Many, [w] => [((flag_of g.1 +:+ "=" +:+ w)%string, Known g.1 (Some (true, w)))]
  | _, ws => (flag_of g.1, Known g.1 None) :: ((λ w, (w, Plain)) <$> ws)
  end.

Lemma classify_all_cons w m words : w ≠ "--"%string → classify p w = Some m →
  classify_all p (w :: words) = match classify_all p words with inl l => inl ((w, m) :: l) | inr e => inr e end.
Proof using. intros Hw Hm. simpl. rewrite bool_decide_eq_false_2 by done. by rewrite Hm. Qed.

Lemma classify_all_plain ws words : Forall (plain_word p) ws →
  classify_all p (ws ++ words) = match classify_all p words with inl l => inl (((λ w, (w, Plain)) <$> ws) ++ l) | inr e => inr e end.
Proof using.
  induction 1 as [|w ws [Hw Hp] _ IH]; simpl app; [by destruct (classify_all p words)|].
  rewrite (classify_all_cons _ Plain), IH by done. by destruct (classify_all p words).
Qed.

Lemma flag_equal_dashes f w : (f +:+ "=" +:+ w)%string ≠ "--"%string.
Proof using.
  intros E. apply (f_equal chars_of) in E. rewrite !chars_of_app in E.
  destruct (chars_of f) as [|c [|d [|]]]; discriminate E.
Qed.

Lemma classify_flag_equal f o w words : find_flag p f = Some o →
  classify_all p ((f +:+ "=" +:+ w)%string :: words)
  = match classify_all p words with inl l => inl (((f +:+ "=" +:+ w)%string, Known o (Some (true, w))) :: l) | inr e => inr e end.
Proof using Hflags.
  intros Hf. by rewrite (classify_all_cons _ (Known o (Some (true, w)))) by (try apply flag_equal_dashes; by apply classify_equal).
Qed.

Lemma classify_flag_words f o ws words : find_flag p f = Some o → Forall (plain_word p) ws →
  classify_all p (f :: ws ++ words)
  = match classify_all p words with inl l => inl ((f, Known o None) :: ((λ w, (w, Plain)) <$> ws) ++ l) | inr e => inr e end.
Proof using Hflags.
  intros Hf Hw. destruct (flag_ok _ _ Hf) as (_ & Hne & _).
  rewrite (classify_all_cons _ (Known o None)), classify_all_plain by (try done; by apply classify_flag).
  by destruct (classify_all p words).
Qed.

Lemma classify_setting g v words : stores g v →
  classify_all p (write_setting g ++ words) = match classify_all p words with inl l => inl (setting_items g ++ l) | inr e => inr e end.
Proof using Hflags.
  destruct g as [o ws]. intros [Hf Hg]. simpl in *. unfold write_setting, setting_items. simpl.
  destruct (ag_arity o).
  - destruct Hg as (w & -> & _). by apply classify_flag_equal.
  - destruct Hg as [[Hne Hw] _]. destruct ws as [|w [|w' ws]]; [done|by apply classify_flag_equal|].
    destruct Hw as [|Hw]; [done|]. by apply (classify_flag_words _ _ (w :: w' :: ws)).
  - destruct Hg as [-> _]. by apply (classify_flag_words _ _ []).
  - done.
Qed.

Lemma following_settings gs : following (gs ≫= setting_items) = [].
Proof using. destruct gs as [|[o ws] gs]; [done|]. simpl. unfold setting_items. simpl. destruct (ag_arity o), ws as [|? []]; done. Qed.

Lemma following_plain ws l : following (((λ w, (w, Plain)) <$> ws) ++ l) = ws ++ following l.
Proof using. induction ws as [|w ws IH]; [done|]. simpl. by rewrite <- IH. Qed.

Lemma parse_items_skip l k st : parse_items (length l) (l ++ k) st = parse_items 0 k st.
Proof using. induction l as [|[w m] l IH]; [done|]. exact IH. Qed.

Lemma parse_many o ws v gs st : ag_arity o = Many → ws ≠ [] → get_values o ws = inl v →
  parse_items 0 ((flag_of o, Known o None) :: ((λ w, (w, Plain)) <$> ws) ++ (gs ≫= setting_items)) st
  = parse_items 0 (gs ≫= setting_items) (store_value o v st).
Proof using.
  intros Ea Hne Hv. cbn [parse_items]. rewrite following_plain, following_settings, app_nil_r. unfold consume. rewrite Ea.
  destruct ws as [|w ws]; [done|]. rewrite Hv. etrans; [|apply (parse_items_skip ((λ w, (w, Plain)) <$> w :: ws))].
  by rewrite length_fmap.
Qed.

Lemma parse_setting g v gs st : stores g v →
  parse_items 0 (setting_items g ++ (gs ≫= setting_items)) st = parse_items 0 (gs ≫= setting_items) (store_value g.1 v st).
Proof using.
  destruct g as [o ws]. intros [_ Hg]. unfold setting_items. simpl in *.
  destruct (ag_arity o) eqn:Ea; [destruct Hg as (w & -> & Hv)|destruct Hg as ((Hne & _) & Hv)|destruct Hg as [-> ->]|done].
  - simpl. unfold consume. by rewrite Ea, Hv.
  - destruct ws as [|w [|w' ws]]; [done|simpl; unfold consume; by rewrite Ea, Hv|by apply (parse_many o (w :: w' :: ws))].
  - simpl. unfold consume. by rewrite Ea.
Qed.

(** What is left of the words after the settings [gs] with the values [vs]. *)
Definition applied (gs : list (setting * arg_value)) (n : list (string * arg_value)) : list (string * arg_value) :=
  foldl (λ n g, dict_set n (ag_dest g.1.1) g.2) n gs.

Lemma classify_settings (gs : list (setting * arg_value)) : Forall (λ g, stores g.1 g.2) gs →
  classify_all p (gs.*1 ≫= write_setting) = inl (gs.*1 ≫= setting_items).
Proof using Hflags.
  induction 1 as [|[g v] gs Hg _ IH]; [done|]. rewrite fmap_cons, !bind_cons. simpl in Hg |- *. by rewrite (classify_setting g v), IH.
Qed.

Lemma parse_settings (gs : list (setting * arg_value)) st : Forall (λ g, stores g.1 g.2) gs →
  ∃ st', parse_items 0 (gs.*1 ≫= setting_items) st = inl st' ∧ pr_args st' = applied gs (pr_args st) ∧ pr_extras st' = pr_extras st ∧
    (∀ d, d ∈ pr_seen st' ↔ d ∈ pr_seen st ∨ d ∈ (λ g, ag_dest g.1.1) <$> gs).
Proof using.
  intros H. revert st. induction H as [|[g v] gs Hg _ IH]; intros st; simpl.
  - exists st. split_and!; try done. intros d. split; [by left|intros [?|H]; [done|inversion H]].
  - rewrite (parse_setting g v) by exact Hg. destruct (IH (store_value g.1 v st)) as (st' & E & Ha & Hx & Hs).
    exists st'. split_and!; [exact E|exact Ha|exact Hx|]. intros d. rewrite Hs. simpl. rewrite !elem_of_cons. tauto.
Qed.

(** What is written is read back: the defaults, with every setting in its place. *)
Lemma parse_written (gs : list (setting * arg_value)) :
  Forall (λ g, stores g.1 g.2) gs → (∀ o, o ∈ p → ag_required o = true → ag_dest o ∈ (λ g, ag_dest g.1.1) <$> gs) →
  parse_args p (gs.*1 ≫= write_setting) = Args (applied gs (defaults p)).
Proof using Hflags.
  intros Hgs Hreq. unfold parse_args. rewrite classify_settings by done.
  destruct (parse_settings gs (mkProgress (defaults p) [] []) Hgs) as (st & -> & Ha & Hx & Hs).
  assert (missing p st = []) as ->.
  { unfold missing. destruct (filter _ p) as [|o l] eqn:E; [done|]. exfalso.
    assert (o ∈ o :: l) as Ho by left. rewrite <- E in Ho. apply list_elem_of_filter in Ho as [[Hr Hn] Ho].
    apply Hn, Hs. right. by apply Hreq. }
  by rewrite Hx, Ha.
Qed.
End written.

(** Numbers can be given as separate words, negative ones too, unless an option looks like one. *)
Definition no_number_flags (p : list argument) : bool :=
  forallb (λ '(f, _), match chars_of f with _ :: c :: _ => negb (is_digit c) | _ => true end) (option_strings p).

Lemma number_shape_digits l : Forall (λ c, is_digit c = true) l → l ≠ [] → number_shape false false l = true.
Proof.
  assert (∀ l, Forall (λ c, is_digit c = true) l → number_shape false true l = true) as H.
  { induction 1 as [|c l' Hc _ IH]; simpl; [done|]. by rewrite Hc. }
  intros Hl Hne. destruct Hl as [|c l Hc Hl]; [done|]. simpl. rewrite Hc. by apply H.
Qed.

Lemma split_equal_none l : no_equal l = true → split_equal l = None.
Proof.
  unfold no_equal. induction l as [|c l IH]; simpl; [done|]. intros [Hc Hl]%andb_true_iff.
  apply negb_true_iff in Hc. by rewrite Hc, IH.
Qed.

Lemma number_flag p f o c : no_number_flags p = true → (f, o) ∈ option_strings p →
  is_digit c = true → is_prefix [Ascii.ascii_of_nat 45; c] (chars_of f) = true → False.
Proof.
  unfold no_number_flags. rewrite forallb_forall. intros H Hf Hc Hp. specialize (H (f, o) (proj1 (list_elem_of_In _ _) Hf)).
  simpl in H. destruct (chars_of f) as [|a [|b k]]; simpl in Hp; try by rewrite andb_false_r in Hp.
  - done.
  - rewrite !andb_true_iff in Hp. destruct Hp as (_ & Hb & _). apply bool_decide_eq_true_1 in Hb. subst b. by rewrite Hc in H.
Qed.

Lemma tuples_of_number p c l : no_number_flags p = true → is_digit c = true →
  option_tuples p (Ascii.ascii_of_nat 45 :: c :: l) = [].
Proof.
  intros Hp Hc. unfold option_tuples. assert (is_char c 45 = false) as ->.
  { unfold is_digit in Hc. destruct (digit_of c) as [d|] eqn:Ed; [|done]. by destruct (digit_char c d Ed) as (_ & _ & ? & _). }
  assert (∀ fs, (∀ f o, (f, o) ∈ fs → (f, o) ∈ option_strings p) →
    (fs ≫= λ '(f, o), if bool_decide (f = text_of (take 2 (Ascii.ascii_of_nat 45 :: c :: l)))
        then [(o, Some (false, text_of (drop 2 (Ascii.ascii_of_nat 45 :: c :: l))))]
        else if is_prefix (Ascii.ascii_of_nat 45 :: c :: l) (chars_of f) then [(o, None)] else []) = []) as H; [|by apply H].
  induction fs as [|[f o] fs IH]; intros Hfs; [done|]. rewrite bind_cons, IH by (intros; apply Hfs; by right). rewrite app_nil_r.
  pose proof (Hfs f o ltac:(by left)) as Hf. case_bool_decide as Ef.
  - exfalso. apply (number_flag p f o c Hp Hf Hc). rewrite Ef, chars_of_text. cbn -[bool_decide].
    by rewrite !bool_decide_eq_true_2.
  - destruct (is_prefix _ _) eqn:Epf; [|done]. exfalso. apply (number_flag p f o c Hp Hf Hc).
    destruct (chars_of f) as [|a [|b k]]; cbn -[bool_decide] in Epf |- *; try done; rewrite ?andb_true_iff in *; tauto.
Qed.

Lemma plain_number p (z : Z) : no_number_flags p = true → plain_word p (pretty z).
Proof.
  intros Hp. destruct (pretty_Z_shape z) as (l & Hne & Hl & E & _). destruct l as [|c l]; [done|].
  inversion Hl as [|? ? Hc Hl']; subst. assert (is_char c 45 = false ∧ is_char c 61 = false) as [Hc1 Hc2].
  { unfold is_digit in Hc. destruct (digit_of c) as [d|] eqn:Ed; [|done]. destruct (digit_char c d Ed) as (_ & _ & ? & _ & ? & _). done. }
  split; [intros Ez; rewrite Ez in E; destruct (z <? 0); [|injection E as <- _; done]; injection E as <- _; done|].
  unfold classify. rewrite E. destruct (z <? 0); cbn [app] in *; [|simpl; by rewrite Hc1].
  change (starts_dash (Ascii.ascii_of_nat 45 :: c :: l)) with true. cbn [negb].
  destruct (find_flag p (pretty z)) as [o|] eqn:Ef.
  { exfalso. apply dict_lookup_elem in Ef. apply (number_flag p _ o c Hp Ef Hc). rewrite E. cbn -[bool_decide].
    by rewrite !bool_decide_eq_true_2. }
  rewrite bool_decide_eq_false_2 by done. rewrite split_equal_none.
  - cbn [mbind option_bind]. rewrite tuples_of_number by done.
    change (negative_number (Ascii.ascii_of_nat 45 :: c :: l)) with (number_shape false false (c :: l)).
    by rewrite number_shape_digits.
  - change (no_equal (c :: l) = true). apply forallb_forall. intros a Ha%list_elem_of_In. rewrite Forall_forall in Hl.
    specialize (Hl a Ha). unfold is_digit in Hl. destruct (digit_of a) as [d|] eqn:Ed; [|done].
    by destruct (digit_char a d Ed) as (_ & _ & _ & _ & -> & _).
Qed.

