(* ===== verification/Rollout.v ===== *)
(** The rollout of the gateway and the text adapter, [src/deploy/ci/deploy_platform.py]:
    the transaction of [Deployment.run] over the operations of [Runtime] that change the
    host, with the drain markers, the recorded release, the pins of the backend and the
    recovery record.

    Every operation may be interrupted: an exception may arrive before or after its
    effect, and the process may die; an exception may also arrive between the last
    assignment of [resume_safe] and the end of its [try].  The host's other programs (git, Docker, the backend's
    maintenance protocol, the HTTP endpoints) are observations indexed by a clock that
    every operation advances. *)
From S2P Require Import Prelude PyVal Tasks TextWorker V73Worker DeployChecks.

(** ** The host *)

Abbreviation image_map := (list (string * string)).

(** A release: [sha], [compose] and the image of each service. *)
Record release_info := mkRelease { ri_sha : string; ri_compose : string; ri_images : image_map }.

(** [current.json]. *)
Record platform := mkPlatform {
  pl_release : release_info;
  pl_bootstrap : bool;
  pl_previous : option release_info;
}.

(** What this process has done to the running services: nothing, stopped one, started
    images, or seen these images run and answer. *)
Inductive services_state := Untouched | Down | Up (images : image_map) | Verified (images : image_map).

Record host := mkHost {
  h_current : platform;
  h_pins : image_map;                         (* dependency_images of the backend's config *)
  h_transaction : option platform;            (* transaction.json *)
  h_control : list (string * string);         (* the drain markers and their tokens *)
  h_images : list (string * image_map);       (* images.json beside each compose file *)
  h_backend_closed : bool;                    (* the last maintenance call was begin_drain *)
  h_services : services_state;
}.

(** What interrupts an operation: nothing, an exception before or after its effect (of a
    kind that [healthy] retries on, or not), or the death of the process. *)
Inductive fault := Smooth | Before (retried : bool) | After (retried : bool) | Death.

(** The state of a rollout: the host, the members of [Runtime], the local variables of
    [run], and the clock. *)
Record dstate := mkDState {
  ds_clock : nat;
  ds_host : host;
  ds_token : option string;                   (* platform_token *)
  ds_markers : list string;                   (* marker_names *)
  ds_protected : list (string * string);      (* protected *)
  ds_resume_safe : bool;
  ds_begun : bool;                            (* transaction *)
}.

Record dobs := mkDObs {
  do_fault : nat → fault;
  do_archive : nat → string * option pyval;   (* the archive's digest, and its manifest if it is readable *)
  do_backend_current : nat → pyval;           (* current.json of the backend *)
  do_backend_source : nat → bool * option string;   (* its source is no symbolic link; its revision file *)
  do_validator : nat → option pyval;          (* the report of the backend's validator, if it is JSON *)
  do_digests : nat → string * string;         (* of the two environment files *)
  do_pipeline : nat → option string;          (* SYNTHFLOW_TEXT_PIPELINE of the backend *)
  do_head : nat → string;                     (* origin/main *)
  do_dependencies_ok : nat → bool;            (* the backend's assert_dependencies passes *)
  do_source : nat → string * string;          (* compose path of the export, and its revision *)
  do_layout : nat → pyval;                    (* docker compose config *)
  do_label : nat → option string * string;    (* revision label and architecture of the image *)
  do_image : nat → string;                    (* its id *)
  do_container : nat → string → option (string * bool);   (* a container's image, and whether it runs *)
  do_backend_image : nat → string;            (* the image the backend recorded *)
  do_busy : nat → bool;
  do_token : nat → string;                    (* a fresh uuid *)
  do_backend_idle : nat → bool;               (* the backend's wait_idle passes *)
  do_backend_status : nat → pyval;
  do_backend_token : string;
  do_backend_code : nat → Z;                  (* exit_code of what the backend's methods raise *)
  do_metrics : nat → string;
  do_gateway : nat → pyval;                   (* /health/deployment of the gateway *)
  do_worker : nat → pyval;                    (* and of the adapter *)
  do_worker_env : nat → list (string * string);
  do_ready : nat → bool;                      (* /readyz answers ready *)
  do_transport : nat → bool;                  (* the transport probe answers *)
  do_drain_polls : nat;                       (* polls of wait_idle before its deadline *)
  do_health_polls : nat → nat;                (* polls of healthy before its deadline *)
  do_late : fault;                            (* what arrives once run has set resume_safe again, inside its try *)
}.

(** ** Runs with interruptions *)

Inductive d_out (A : Type) := DRet (a : A) | DExc (retried : bool) (code : Z) (msg : string) | DDead.
Arguments DRet {A}.
Arguments DExc {A}.
Arguments DDead {A}.

Definition D (A : Type) : Type := dstate → d_out A * dstate.

#[export] Instance d_ret : MRet D := λ A a s, (DRet a, s).
#[export] Instance d_bind : MBind D := λ A B k m s,
  let '(o, s) := m s in
  match o with DRet a => k a s | DExc t c g => (DExc t c g, s) | DDead => (DDead, s) end.

(** [raise DeployError(msg, code)]. *)
Definition d_raise {A} (code : Z) (msg : string) : D A := λ s, (DExc true code msg, s).

(** [try: m except BaseException: h]. *)
Definition d_try {A} (m : D A) (h : D A) : D A := λ s,
  let '(o, s) := m s in match o with DExc _ _ _ => h s | _ => (o, s) end.

(** [try: m except (DeployError, ...): h] in [healthy]. *)
Definition d_retry {A} (m : D A) (h : D A) : D A := λ s,
  let '(o, s) := m s in match o with DExc true _ _ => h s | _ => (o, s) end.

(** [try: m finally: f]. *)
Definition d_finally {A} (m : D A) (f : D ()) : D A := λ s,
  let '(o, s) := m s in
  match o with
  | DDead => (DDead, s)
  | _ => let '(o2, s) := f s in
         match o2 with DRet _ => (o, s) | DExc t c g => (DExc t c g, s) | DDead => (DDead, s) end
  end.

(** An update of the program's own variables. *)
Definition d_modify (f : dstate → dstate) : D () := λ s, (DRet tt, f s).
Definition d_get : D dstate := λ s, (DRet s, s).

Definition with_host (f : host → host) (s : dstate) : dstate :=
  mkDState (ds_clock s) (f (ds_host s)) (ds_token s) (ds_markers s) (ds_protected s)
    (ds_resume_safe s) (ds_begun s).
Definition d_tick (s : dstate) : dstate :=
  mkDState (S (ds_clock s)) (ds_host s) (ds_token s) (ds_markers s) (ds_protected s)
    (ds_resume_safe s) (ds_begun s).
Definition with_token (t : option string) (s : dstate) : dstate :=
  mkDState (ds_clock s) (ds_host s) t (ds_markers s) (ds_protected s) (ds_resume_safe s) (ds_begun s).
Definition with_markers (m : list string) (s : dstate) : dstate :=
  mkDState (ds_clock s) (ds_host s) (ds_token s) m (ds_protected s) (ds_resume_safe s) (ds_begun s).
Definition with_protected (p : list (string * string)) (s : dstate) : dstate :=
  mkDState (ds_clock s) (ds_host s) (ds_token s) (ds_markers s) p (ds_resume_safe s) (ds_begun s).
Definition set_resume_safe (b : bool) (s : dstate) : dstate :=
  mkDState (ds_clock s) (ds_host s) (ds_token s) (ds_markers s) (ds_protected s) b (ds_begun s).
Definition set_begun (b : bool) (s : dstate) : dstate :=
  mkDState (ds_clock s) (ds_host s) (ds_token s) (ds_markers s) (ds_protected s) (ds_resume_safe s) b.

Section rollout.
Context (target : Environment).
Context (ob : dobs).

(** An operation on the host. *)
Definition act (f : host → host) : D () := λ s,
  match do_fault ob (ds_clock s) with
  | Smooth => (DRet tt, with_host f (d_tick s))
  | Before t => (DExc t 1 "interrupted", d_tick s)
  | After t => (DExc t 1 "interrupted", with_host f (d_tick s))
  | Death => (DDead, d_tick s)
  end.

(** A look at the world. *)
Definition observe {A} (f : nat → A) : D A := λ s,
  match do_fault ob (ds_clock s) with
  | Smooth => (DRet (f (ds_clock s)), d_tick s)
  | Before t | After t => (DExc t 1 "interrupted", d_tick s)
  | Death => (DDead, d_tick s)
  end.

(** A point between two operations, where [f] may arrive. *)
Definition moment (f : fault) : D () := λ s,
  match f with
  | Smooth => (DRet tt, d_tick s)
  | Before t | After t => (DExc t 1 "interrupted", d_tick s)
  | Death => (DDead, d_tick s)
  end.

Definition require (b : bool) (msg : string) : D () := if b then mret tt else d_raise 1 msg.

(** [backend_call]: an exception of the backend's method, with its exit status. *)
Definition backend_call {A} (m : D A) : D A := λ s,
  let '(o, s) := m s in
  match o with
  | DExc _ _ msg => (DExc true (do_backend_code ob (ds_clock s)) ("Backend maintenance protocol failed: " +:+ msg)%string, s)
  | _ => (o, s)
  end.

(** ** [Runtime] *)

Definition control_dir : string := (en_state_dir target +:+ "/control")%string.

(** [validate_archive]: the archive holds exactly the expected image. *)
Definition archive_error (digest : string) (manifest : option pyval) (sha expected : string) : option string :=
  if negb (bool_decide (digest = expected)) then Some "Image archive checksum mismatch"%string
  else
    match manifest with
    | Some (PyList [m]) =>
        match pyval_get m "RepoTags" PyNone with
        | PyList [t] => if py_eq_str t ("synthx-platform:" +:+ sha) then None
                        else Some "Archive must contain exactly the expected platform image"%string
        | _ => Some "Archive must contain exactly the expected platform image"%string
        end
    | _ => Some "Archive must contain exactly the expected platform image"%string
    end.

Definition validate_archive (sha expected : string) : D () :=
  a ← observe (do_archive ob);
  match archive_error a.1 a.2 sha expected with Some msg => d_raise 1 msg | None => mret tt end.

(** [re.fullmatch('[0-9a-f]{40}', v)] of a string. *)
Definition is_sha1 (v : pyval) : bool :=
  match v with
  | PyStr s => bool_decide (length (chars_of s) = 40%nat) && forallb is_hex (chars_of s)
  | _ => false
  end.

(** The exported source of a backend release. *)
Definition backend_source (sha : string) : string :=
  (en_backend_state target +:+ "/releases/" +:+ sha +:+ "/source")%string.

Definition assert_platform_environment : D () :=
  if negb (bool_decide (en_name target = "staging"%string)) then mret tt
  else
    current ← observe (do_backend_current ob);
    let sha := pyval_get current "sha" (PyStr EmptyString) in
    require (is_sha1 sha) "Staging backend release must record an immutable revision" ;;
    source ← observe (do_backend_source ob);
    require (match sha with
             | PyStr h => py_eq_str (pyval_get current "compose" PyNone)
                            (backend_source h +:+ "/deploy/ci/compose.backend-staging.yml")
                          && source.1 && bool_decide (py_strip <$> source.2 = Some h)
             | _ => false
             end) "Staging backend validator source is not its approved release" ;;
    running ← observe (do_container ob);
    require (match running (en_backend_container target) with
             | Some (image, _) => py_eq_str (pyval_get current "image" PyNone) image
             | None => false
             end) "Staging backend image differs from its recorded validator release" ;;
    report ← observe (do_validator ob);
    require (match report with
             | Some r => py_eq_str (pyval_get r "status" PyNone) "passed"
                         && is_true (pyval_get r "platform_checked" PyNone)
             | None => false
             end) "Staging platform credentials did not pass backend target validation".

Definition assert_product_compatible : D () :=
  p ← observe (do_pipeline ob);
  require (bool_decide (p = Some "text_v1.2.3"%string))
    "Strict text platform cannot resume a backend sending retired requests; coordinated v1.2.3 cutover is required".

(** The digests are those read when the process started, at clock 0. *)
Definition assert_protected : D () :=
  d ← observe (do_digests ob);
  require (bool_decide (d = do_digests ob 0)) "Selected environment file changed during deployment" ;;
  s ← d_get;
  running ← observe (do_container ob);
  require (forallb (λ '(c, image), bool_decide (running c = Some (image, true))) (ds_protected s))
    "Protected dependency changed or stopped".

Definition set_images (compose : string) (images : image_map) (h : host) : host :=
  mkHost (h_current h) (h_pins h) (h_transaction h) (h_control h) (dict_set (h_images h) compose images)
    (h_backend_closed h) (h_services h).

Definition check_layout : D () :=
  l ← observe (do_layout ob);
  match validate_layout l (Some control_dir) target with
  | Some msg => d_raise 1 msg
  | None => mret tt
  end.

Definition prepare (sha : string) : D release_info :=
  assert_platform_environment ;;
  assert_product_compatible ;;
  head ← observe (do_head ob);
  require (bool_decide (head = sha)) "Deployment SHA is not latest origin/main" ;;
  backend_call (deps ← observe (do_dependencies_ok ob); require deps "assert_dependencies") ;;
  source ← observe (do_source ob);
  require (bool_decide (source.2 = sha)) "Incomplete release source export" ;;
  let images := map (λ s, (s, ("synthx-platform:" +:+ sha)%string)) SERVICES in
  act (set_images source.1 images) ;;
  check_layout ;;
  mret (mkRelease sha source.1 []).

Definition load (sha : string) : D string :=
  label ← observe (do_label ob);
  require (bool_decide (label.1 = Some sha) && bool_decide (label.2 = "amd64"%string))
    "Image revision/architecture differs from tested release" ;;
  observe (do_image ob).

Definition container_of (s : string) : string := dict_get (en_containers target) s EmptyString.

(** The containers of all services have these images. *)
Definition images_match (running : string → option (string * bool)) (images : image_map) : bool :=
  forallb (λ s, match running (container_of s), dict_lookup images s with
                | Some (image, _), Some image' => bool_decide (image = image')
                | _, _ => false
                end) SERVICES.

Definition previous : D platform :=
  s ← d_get;
  let prev := h_current (ds_host s) in
  require (negb (pl_bootstrap prev)) "First maintenance-protocol bootstrap requires separate operator approval" ;;
  running ← observe (do_container ob);
  require (images_match running (ri_images (pl_release prev)))
    "Platform changed outside CI; explicitly adopt it before deployment" ;;
  image ← observe (do_backend_image ob);
  match dict_lookup (h_pins (ds_host s)) (en_tunnel_container target) with
  | None => d_raise 1 "KeyError"
  | Some tunnel =>
      d_modify (with_protected [(en_backend_container target, image); (en_tunnel_container target, tunnel)])
  end ;;
  assert_protected ;;
  mret prev.

Definition set_backend (b : bool) (h : host) : host :=
  mkHost (h_current h) (h_pins h) (h_transaction h) (h_control h) (h_images h) b (h_services h).

Definition begin_drain : D () :=
  t ← observe (do_token ob);
  d_modify (with_token (Some t)) ;;
  backend_call (act (set_backend true)).

Definition set_control (c : list (string * string)) (h : host) : host :=
  mkHost (h_current h) (h_pins h) (h_transaction h) c (h_images h) (h_backend_closed h) (h_services h).

Definition add_name (name : string) (l : list string) : list string :=
  if bool_decide (name ∈ l) then l else l ++ [name].

(** Publishes the token exclusively. *)
Definition fence (name : string) : D () :=
  s ← d_get;
  d_modify (with_markers (add_name name (ds_markers s))) ;;
  match dict_lookup (h_control (ds_host s)) name with
  | Some _ => d_raise 1 "FileExistsError"
  | None => act (λ h, set_control (dict_set (h_control h) name (default EmptyString (ds_token s))) h)
  end.

(** The markers this process registered still hold its token, or are gone. *)
Definition markers_owned (s : dstate) : bool :=
  forallb (λ name, match dict_lookup (h_control (ds_host s)) name with
                   | Some t => bool_decide (Some (py_strip t) = ds_token s)
                   | None => true
                   end) (ds_markers s).

Fixpoint unlink_markers (names : list string) : D () :=
  match names with
  | [] => mret tt
  | name :: names' =>
      s ← d_get;
      (if bool_decide (name ∈ ds_markers s)
       then act (λ h, set_control (dict_del (h_control h) name) h) else mret tt) ;;
      unlink_markers names'
  end.

Definition end_drain : D () :=
  s ← d_get;
  require (markers_owned s) "Platform drain marker ownership changed; operator recovery required" ;;
  unlink_markers ["worker-drain"; "gateway-drain"]%string ;;
  d_modify (λ s, with_token None (with_markers [] s)) ;;
  backend_call (act (set_backend false)).

(** [acknowledged]: whether the process is idle; an error when it does not acknowledge
    this maintenance window. *)
Definition acknowledged (state : pyval) : D bool :=
  s ← d_get;
  require (py_eq_int (pyval_get state "protocol" PyNone) 1 && is_true (pyval_get state "draining" PyNone)
           && match ds_token s with
              | Some t => py_eq_str (pyval_get state "drain_id" PyNone) t
              | None => match pyval_get state "drain_id" PyNone with PyNone => true | _ => false end
              end)
    "Platform process did not acknowledge this maintenance window" ;;
  mret (py_eq_int (pyval_get state "active" PyNone) 0).

(** The backend acknowledges the window. *)
Definition backend_acknowledged (state : pyval) : bool :=
  is_true (pyval_get state "draining" PyNone) && py_eq_str (pyval_get state "drain_id" PyNone) (do_backend_token ob).
Definition backend_idle (state : pyval) : bool :=
  py_eq_int (pyval_get state "active_requests" PyNone) 0 && py_eq_int (pyval_get state "active_operations" PyNone) 0.

(** The loop of [wait_idle], with the number of polls before the deadline. *)
Fixpoint wait_polls (n : nat) : D () :=
  state ← backend_call (observe (do_backend_status ob));
  require (backend_acknowledged state) "Backend did not acknowledge this platform maintenance window" ;;
  page ← observe (do_metrics ob);
  g ← observe (do_gateway ob);
  gateway_idle ← acknowledged g;
  busy ← (if backend_idle state then backend_call (observe (do_busy ob)) else mret true);
  idle ← (if backend_idle state && negb busy && metrics_idle page && gateway_idle then
            s ← d_get;
            (if bool_decide ("worker-drain"%string ∈ ds_markers s) then mret tt else fence "worker-drain") ;;
            w ← observe (do_worker ob);
            acknowledged w
          else mret false);
  if (idle : bool) then assert_protected
  else
    match n with
    | O => d_raise 75 "Platform did not become idle; old services remain running"
    | S n' => wait_polls n'
    end.

Definition wait_idle : D () :=
  backend_call (b ← observe (do_backend_idle ob); require b "wait_idle") ;;
  fence "gateway-drain" ;;
  wait_polls (do_drain_polls ob).

Definition set_transaction (t : option platform) (h : host) : host :=
  mkHost (h_current h) (h_pins h) t (h_control h) (h_images h) (h_backend_closed h) (h_services h).

Definition begin_transaction (prev : platform) : D () := act (set_transaction (Some prev)).
Definition finish : D () := act (set_transaction None).

Definition set_services (x : services_state) (h : host) : host :=
  mkHost (h_current h) (h_pins h) (h_transaction h) (h_control h) (h_images h) (h_backend_closed h) x.

Fixpoint stop_services (names : list string) : D () :=
  match names with
  | [] => mret tt
  | s :: names' =>
      running ← observe (do_container ob);
      match running (container_of s) with
      | Some _ => act (set_services Down)
      | None => mret tt
      end ;;
      stop_services names'
  end.
Definition stop : D () := stop_services SERVICES.

(** [start]: the images beside the release's compose file are what comes up. *)
Definition start (r : release_info) (images : image_map) : D () :=
  assert_platform_environment ;;
  assert_protected ;;
  act (set_images (ri_compose r) (map (λ s, (s, dict_get images s EmptyString)) SERVICES)) ;;
  check_layout ;;
  act (λ h, set_services (Up (dict_get (h_images h) (ri_compose r) [])) h).

(** The checks on the adapter's environment. *)
Definition origin_error (env : list (string * string)) : option string :=
  let host p := ("http://" +:+ en_model_host target +:+ p)%string in
  match dict_lookup env "INFERENCE_BACKEND" with
  | Some version =>
      let expected := if bool_decide (version = "text_v1.2.3"%string) then Some (host ":18083")
                      else if bool_decide (version = "text_v1.2.2"%string) then Some (host ":18080") else None in
      if bool_decide (expected = None) || negb (bool_decide (dict_lookup env "TEXT_SERVICE_URL" = expected))
      then Some "Text worker model/origin does not match its release"%string
      else if bool_decide (version = "text_v1.2.3"%string)
              && negb (bool_decide (dict_get env "TEXT_REFINEMENT_SERVICE_URL" EmptyString = host ":18080"))
      then Some "Independent MFCC origin is missing"%string
      else None
  | None => Some "Text worker model/origin does not match its release"%string
  end.

Definition all_running (running : string → option (string * bool)) : bool :=
  forallb (λ s, match running (container_of s) with Some (_, r) => r | None => false end) SERVICES.

(** One poll of [healthy]. *)
Definition health_poll (images : image_map) : D () :=
  assert_protected ;;
  g ← observe (do_gateway ob);
  gi ← acknowledged g;
  wi ← (if (gi : bool) then w ← observe (do_worker ob); acknowledged w else mret false);
  require wi "Platform handlers are still active" ;;
  running ← observe (do_container ob);
  require (images_match running images && all_running running) "Platform container image/state mismatch" ;;
  ready ← observe (do_ready ob);
  require ready "Gateway not ready" ;;
  transport ← observe (do_transport ob);
  require transport "Model transport not ready".

Fixpoint health_polls (n : nat) (images : image_map) : D bool :=
  match n with
  | O => mret false
  | S n' => d_retry (health_poll images ;; d_modify (with_host (set_services (Verified images))) ;; mret true)
                    (health_polls n' images)
  end.

Definition healthy (images : image_map) : D bool :=
  env ← observe (do_worker_env ob);
  match origin_error env with
  | Some msg => d_raise 1 msg
  | None => s ← d_get; health_polls (do_health_polls ob (ds_clock s)) images
  end.

Definition set_pins (p : image_map) (h : host) : host :=
  mkHost (h_current h) p (h_transaction h) (h_control h) (h_images h) (h_backend_closed h) (h_services h).
Definition set_current (p : platform) (h : host) : host :=
  mkHost p (h_pins h) (h_transaction h) (h_control h) (h_images h) (h_backend_closed h) (h_services h).

(** The pins and the record of a new release. *)
Definition updated_pins (shared images : image_map) : image_map :=
  foldl (λ pins s, dict_set pins (container_of s) (dict_get images s EmptyString)) shared SERVICES.
Definition new_platform (r : release_info) (images : image_map) (prev : platform) : platform :=
  mkPlatform (mkRelease (ri_sha r) (ri_compose r) images) false (Some (pl_release prev)).

Definition record (shared : image_map) (r : release_info) (images : image_map) (prev : platform) : D () :=
  act (set_pins (updated_pins shared images)) ;; act (set_current (new_platform r images prev)).

Definition restore (shared : image_map) (prev : platform) : D () :=
  act (set_pins shared) ;; act (set_current prev).

(** ** [Deployment.run] *)

Definition require_healthy (images : image_map) (msg : string) : D () :=
  b ← healthy images; require b msg.

(** The replacement of the services, to the end of its [try]: [resume_safe] is set inside
    it, so that what arrives before the [try] is left finds it set. *)
Definition replace (shared : image_map) (r : release_info) (images : image_map) (prev : platform) : D () :=
  stop ;; start r images ;;
  require_healthy images "Platform health or Vast connectivity check failed" ;;
  record shared r images prev ;;
  d_modify (set_resume_safe true) ;;
  moment (do_late ob).

(** Its rollback. *)
Definition rollback (shared : image_map) (prev : platform) : D () :=
  d_try
    (stop ;; start (pl_release prev) (ri_images (pl_release prev)) ;;
     require_healthy (ri_images (pl_release prev)) "Previous platform is unhealthy" ;;
     restore shared prev ;;
     d_modify (set_resume_safe true) ;;
     observe (λ _, tt))
    (d_raise 1 "Platform rollback failed; admission remains closed for operator recovery") ;;
  d_raise 1 "Platform deployment failed; previous images and pins restored".

Definition maintain (shared : image_map) (r : release_info) (images : image_map) (prev : platform) : D () :=
  begin_transaction prev ;; d_modify (set_begun true) ;;
  begin_drain ;;
  wait_idle ;;
  d_modify (set_resume_safe false) ;;
  observe (λ _, tt) ;;
  d_try (replace shared r images prev) (rollback shared prev).

(** The [finally] clause. *)
Definition reopen : D () :=
  s ← d_get;
  if ds_resume_safe s then
    end_drain ;;
    s ← d_get;
    if ds_begun s then finish else mret tt
  else mret tt.

Definition run (shared : image_map) (sha expected : string) : D image_map :=
  validate_archive sha expected ;;
  r ← prepare sha;
  image ← load sha;
  let images := map (λ s, (s, image)) SERVICES in
  prev ← previous;
  busy ← backend_call (observe (do_busy ob));
  (if (busy : bool) then d_raise 75 "Active jobs; retry platform deployment later" else mret tt) ;;
  d_modify (set_resume_safe true) ;;
  d_modify (set_begun false) ;;
  d_finally (maintain shared r images prev) reopen ;;
  mret images.

(** [Runtime] refuses to start over an unfinished transaction; [self.shared] holds the
    pins it found. *)
Definition deploy (sha expected : string) : D image_map :=
  s ← d_get;
  match h_transaction (ds_host s) with
  | Some _ => d_raise 1 "Unfinished platform transaction; inspect recovery record before another rollout"
  | None => run (h_pins (ds_host s)) sha expected
  end.
End rollout.
