(* ===== verification/RolloutFacts.v ===== *)
(** Theorems on the rollout: admission is reopened only over services that were left
    alone or were seen running what is recorded and pinned; otherwise the markers, the
    backend's window and the recovery record stay; markers of others are never removed;
    and a rollout that returns has replaced everything.  The exception is one that arrives
    between the last assignment of [resume_safe] and the end of its [try]. *)
From S2P Require Import Prelude PyVal Tasks TextWorker V73Worker DeployChecks Rollout.

(** ** What the theorems look at *)

(** Everything but the clock, the protected containers and the images files. *)
Record dview := mkView {
  v_services : services_state;
  v_current : platform;
  v_pins : image_map;
  v_transaction : option platform;
  v_control : list (string * string);
  v_backend : bool;
  v_token : option string;
  v_markers : list string;
  v_safe : bool;
  v_begun : bool;
}.

Definition view (s : dstate) : dview :=
  let h := ds_host s in
  mkView (h_services h) (h_current h) (h_pins h) (h_transaction h) (h_control h) (h_backend_closed h)
    (ds_token s) (ds_markers s) (ds_resume_safe s) (ds_begun s).

(** Posts of a return, an exception and the process's death. *)
Definition dtriple {A} (P : dview → Prop) (m : D A) (Q : A → dview → Prop) (E X : dview → Prop) : Prop :=
  ∀ s, P (view s) →
    match m s with
    | (DRet a, s') => Q a (view s')
    | (DExc _ _ _, s') => E (view s')
    | (DDead, s') => X (view s')
    end.

Section logic.
Context {A : Type}.
Implicit Types (P E X : dview → Prop) (Q : A → dview → Prop).

Lemma dt_ret P Q E X (a : A) : (∀ v, P v → Q a v) → dtriple P (mret a) Q E X.
Proof. intros H s HP. cbn. auto. Qed.

Lemma dt_raise P Q E X c g : (∀ v, P v → E v) → dtriple P (d_raise (A := A) c g) Q E X.
Proof. intros H s HP. cbn. auto. Qed.

Lemma dt_bind {B} P (R : B → dview → Prop) Q E X (m : D B) (k : B → D A) :
  dtriple P m R E X → (∀ b, dtriple (R b) (k b) Q E X) → dtriple P (m ≫= k) Q E X.
Proof.
  intros Hm Hk s HP. specialize (Hm s HP). unfold mbind, d_bind.
  destruct (m s) as [[b | t c g |] s']; [apply Hk, Hm | exact Hm | exact Hm].
Qed.

Lemma dt_weaken P P' Q Q' E E' X X' (m : D A) :
  dtriple P m Q E X → (∀ v, P' v → P v) → (∀ a v, Q a v → Q' a v) → (∀ v, E v → E' v) →
  (∀ v, X v → X' v) → dtriple P' m Q' E' X'.
Proof.
  intros Hm HP HQ HE HX s Hs. specialize (Hm s (HP _ Hs)).
  destruct (m s) as [[a | t c g |] s']; auto.
Qed.

Lemma dt_try P Q E E' X (m h : D A) :
  dtriple P m Q E' X → dtriple E' h Q E X → dtriple P (d_try m h) Q E X.
Proof.
  intros Hm Hh s HP. specialize (Hm s HP). unfold d_try.
  destruct (m s) as [[a | t c g |] s']; [exact Hm | exact (Hh s' Hm) | exact Hm].
Qed.

Lemma dt_retry P Q E X (m h : D A) :
  dtriple P m Q E X → dtriple E h Q E X → dtriple P (d_retry m h) Q E X.
Proof.
  intros Hm Hh s HP. specialize (Hm s HP). unfold d_retry.
  destruct (m s) as [[a | [] c g |] s']; [exact Hm | exact (Hh s' Hm) | exact Hm | exact Hm].
Qed.

Lemma dt_finally P (Q Q' : A → dview → Prop) E E' X (m : D A) (f : D ()) :
  dtriple P m Q' E' X → (∀ a, dtriple (Q' a) f (λ _, Q a) E X) → dtriple E' f (λ _, E) E X →
  dtriple P (d_finally m f) Q E X.
Proof.
  intros Hm HQ HE s HP. specialize (Hm s HP). unfold d_finally.
  destruct (m s) as [[a | t c g |] s']; [specialize (HQ a s' Hm) | specialize (HE s' Hm) | exact Hm].
  - destruct (f s') as [[b | t c g |] s'']; assumption.
  - destruct (f s') as [[b | t' c' g' |] s'']; assumption.
Qed.

Lemma dt_or P P' Q E X (m : D A) :
  dtriple P m Q E X → dtriple P' m Q E X → dtriple (λ v, P v ∨ P' v) m Q E X.
Proof. intros H H' s [HP | HP]; [exact (H s HP) | exact (H' s HP)]. Qed.

Lemma dt_pure P Q E X (m : D A) (φ : Prop) :
  (φ → dtriple P m Q E X) → dtriple (λ v, φ ∧ P v) m Q E X.
Proof. intros H s [Hφ HP]. apply H; assumption. Qed.
End logic.

Lemma dt_modify (P E X : dview → Prop) (Q : () → dview → Prop) f :
  (∀ s, P (view s) → Q tt (view (f s))) → dtriple P (d_modify f) Q E X.
Proof. intros H s HP. cbn. auto. Qed.

(** A read of the program's state keeps what is known of the view it read. *)
Lemma dt_get (P E X : dview → Prop) : dtriple P d_get (λ s v, P v ∧ view s = v) E X.
Proof. intros s HP. cbn. auto. Qed.

(** Code that leaves the view alone. *)
Definition looks {A} (m : D A) : Prop := ∀ s, view (m s).2 = view s.

Lemma dt_look {A} (m : D A) (P : dview → Prop) : looks m → dtriple P m (λ _, P) P P.
Proof.
  intros H s HP. specialize (H s). destruct (m s) as [[a | t c g |] s']; cbn in H; rewrite H; exact HP.
Qed.

Lemma looks_ret {A} (a : A) : looks (mret a).
Proof. intros s. reflexivity. Qed.
Lemma looks_get : looks d_get.
Proof. intros s. reflexivity. Qed.
Lemma looks_raise {A} c g : looks (d_raise (A := A) c g).
Proof. intros s. reflexivity. Qed.
Lemma looks_require b msg : looks (require b msg).
Proof. destruct b; intros s; reflexivity. Qed.
Lemma looks_bind {A B} (m : D A) (k : A → D B) : looks m → (∀ a, looks (k a)) → looks (m ≫= k).
Proof.
  intros Hm Hk s. specialize (Hm s). unfold mbind, d_bind.
  destruct (m s) as [[a | t c g |] s']; cbn in *; [rewrite (Hk a s'); exact Hm | exact Hm | exact Hm].
Qed.

Section facts.
Context (target : Environment).
Context (ob : dobs).

Lemma looks_observe {A} (f : nat → A) : looks (observe ob f).
Proof. intros s. unfold observe. destruct (do_fault ob (ds_clock s)); reflexivity. Qed.

Lemma looks_moment f : looks (moment f).
Proof. intros s. destruct f; reflexivity. Qed.

Lemma looks_backend {A} (m : D A) : looks m → looks (backend_call ob m).
Proof. intros Hm s. specialize (Hm s). unfold backend_call. destruct (m s) as [[a | t c g |] s']; exact Hm. Qed.

Lemma looks_set_images c i : looks (act ob (set_images c i)).
Proof. intros s. unfold act. destruct (do_fault ob (ds_clock s)); reflexivity. Qed.
Lemma looks_protected p : looks (d_modify (with_protected p)).
Proof. intros s. reflexivity. Qed.

Lemma dt_act (P E X : dview → Prop) (Q : () → dview → Prop) f :
  (∀ v, P v → E v ∧ X v) →
  (∀ s, P (view s) → E (view (with_host f s)) ∧ Q tt (view (with_host f s))) →
  dtriple P (act ob f) Q E X.
Proof.
  intros H1 H2 s HP. unfold act. destruct (H1 _ HP), (H2 (d_tick s) HP).
  destruct (do_fault ob (ds_clock s)); assumption.
Qed.

(** The exception of a backend call is another one, in the same state. *)
Lemma dt_backend {A} P (Q : A → dview → Prop) E X (m : D A) :
  dtriple P m Q E X → dtriple P (backend_call ob m) Q E X.
Proof.
  intros Hm s HP. specialize (Hm s HP). unfold backend_call. destruct (m s) as [[a | t c g |] s']; exact Hm.
Qed.

(** Splits a sequence of looks; a named operation is looked up before it is unfolded. *)
Create HintDb looks.
#[local] Hint Resolve looks_observe looks_moment looks_require looks_ret looks_get looks_raise looks_set_images
  looks_protected : looks.
Ltac look :=
  repeat first [ solve [auto 1 with looks] | apply looks_backend | apply looks_bind; [| intros ?] | case_match ].

Lemma looks_environment : looks (assert_platform_environment target ob).
Proof. unfold assert_platform_environment. look. Qed.
Lemma looks_assert_protected : looks (assert_protected ob).
Proof. unfold assert_protected. look. Qed.
Lemma looks_layout : looks (check_layout target ob).
Proof. unfold check_layout. look. Qed.
Lemma looks_acknowledged v : looks (acknowledged v).
Proof. unfold acknowledged. look. Qed.
Lemma looks_asked {A} (f : nat → A) : looks (backend_call ob (observe ob f)).
Proof. look. Qed.
Lemma looks_required (f : nat → bool) msg : looks (backend_call ob (b ← observe ob f; require b msg)).
Proof. look. Qed.
#[local] Hint Resolve looks_asked looks_required : looks.
#[local] Hint Resolve looks_environment looks_assert_protected looks_layout looks_acknowledged : looks.

Lemma looks_archive sha expected : looks (validate_archive ob sha expected).
Proof. unfold validate_archive. look. Qed.
Lemma looks_prepare sha : looks (prepare target ob sha).
Proof. unfold prepare, assert_product_compatible. look. Qed.
Lemma looks_load sha : looks (load ob sha).
Proof. unfold load. look. Qed.
Lemma looks_previous : looks (previous target ob).
Proof. unfold previous. look. Qed.
Lemma looks_health_poll images : looks (health_poll target ob images).
Proof. unfold health_poll. look. Qed.
#[local] Hint Resolve looks_archive looks_prepare looks_load looks_previous looks_health_poll : looks.

(** ** Admission closed, and a platform as recorded *)

(** Both processes hold this window's token, the backend was told to drain, and the
    recovery record names the platform to go back to. *)
Definition admission_closed (prev : platform) (v : dview) : Prop :=
  v_transaction v = Some prev ∧ v_backend v = true ∧
  ∃ t, v_token v = Some t ∧ dict_lookup (v_control v) "gateway-drain" = Some t ∧
       dict_lookup (v_control v) "worker-drain" = Some t.

(** The previous platform, untouched or seen running again; or a new one seen running;
    in each case the one that is recorded and pinned. *)
Definition platform_settled (prev : platform) (shared : image_map) (v : dview) : Prop :=
  (v_current v = prev ∧ v_pins v = shared ∧
   (v_services v = Untouched ∨ v_services v = Verified (ri_images (pl_release prev)))) ∨
  (∃ r images, v_current v = new_platform r images prev ∧ v_pins v = updated_pins target shared images ∧
     v_services v = Verified images).

(** Closed, with every marker registered: what the run knows while it replaces the
    services. *)
Definition shut (prev : platform) (v : dview) : Prop :=
  admission_closed prev v ∧ v_safe v = false ∧ v_begun v = true ∧
  "gateway-drain"%string ∈ v_markers v ∧ "worker-drain"%string ∈ v_markers v.

(** Facts that do not depend on the services, the record and the pins. *)
Definition about_admission (C : dview → Prop) : Prop :=
  ∀ v x c p, C v →
    C (mkView x c p (v_transaction v) (v_control v) (v_backend v) (v_token v) (v_markers v) (v_safe v) (v_begun v)).

Section services.
Context (C : dview → Prop) (HC : about_admission C).

(** Operations on the services, the record and the pins keep such facts. *)
Definition holds_shut (m : D ()) : Prop := dtriple C m (λ _, C) C C.

Lemma shut_look m : looks m → holds_shut m.
Proof. intros H. apply dt_look, H. Qed.

Lemma shut_bind {A} (m : D A) (k : A → D ()) : looks m → (∀ a, holds_shut (k a)) → holds_shut (m ≫= k).
Proof. intros Hm Hk. eapply dt_bind; [apply dt_look, Hm | exact Hk]. Qed.

Lemma shut_then (m k : D ()) : holds_shut m → holds_shut k → holds_shut (m ;; k).
Proof. intros Hm Hk. eapply dt_bind; [exact Hm | intros []; exact Hk]. Qed.

Lemma shut_services x : holds_shut (act ob (set_services x)).
Proof. apply dt_act; [auto | intros s H; split; exact (HC _ _ _ _ H)]. Qed.

Lemma shut_stop : holds_shut (stop target ob).
Proof.
  unfold stop. induction SERVICES as [| n names IH]; [apply shut_look, looks_ret |]. cbn.
  apply shut_bind; [apply looks_observe |]. intros running. apply shut_then; [| exact IH].
  destruct (running _); [apply shut_services | apply shut_look, looks_ret].
Qed.

Lemma shut_start r images : holds_shut (start target ob r images).
Proof.
  unfold start. apply shut_bind; [auto with looks | intros _]. apply shut_bind; [auto with looks | intros _].
  apply shut_bind; [auto with looks | intros _]. apply shut_bind; [auto with looks | intros _].
  apply dt_act; [auto | intros s H; split; exact (HC _ _ _ _ H)].
Qed.

Lemma shut_healthy images :
  dtriple C (healthy target ob images)
    (λ b v, C v ∧ (b = true → v_services v = Verified images)) C C.
Proof.
  unfold healthy. eapply dt_bind; [apply dt_look; auto with looks |]. intros env. cbn beta.
  destruct (origin_error target env); [apply dt_raise; auto |].
  eapply dt_bind; [apply dt_look, looks_get |]. intros s0. cbn beta.
  generalize (do_health_polls ob (ds_clock s0)) as n. induction n as [| n IH]; cbn.
  { apply dt_ret. intros v H. split; [exact H | discriminate]. }
  apply dt_retry; [| exact IH]. eapply dt_bind; [apply dt_look; auto with looks |]. intros []. cbn beta.
  eapply dt_bind with (R := λ _ v, C v ∧ v_services v = Verified images).
  - apply dt_modify. intros s H. split; [exact (HC _ _ _ _ H) | reflexivity].
  - intros []. apply dt_ret. intros v [H1 H2]. auto.
Qed.

Lemma shut_require_healthy images msg :
  dtriple C (require_healthy target ob images msg) (λ _ v, C v ∧ v_services v = Verified images) C C.
Proof.
  unfold require_healthy. eapply dt_bind; [apply shut_healthy |]. intros [|]; cbn.
  - apply dt_ret. intros v [H1 H2]. auto.
  - apply dt_raise. intros v [H _]. exact H.
Qed.

(** Two writes, the pins before the record. *)
Lemma shut_write pins cur x :
  dtriple (λ v, C v ∧ v_services v = x) (act ob (set_pins pins) ;; act ob (set_current cur))
    (λ _ v, C v ∧ v_services v = x ∧ v_current v = cur ∧ v_pins v = pins) C C.
Proof.
  eapply dt_bind with (R := λ _ v, C v ∧ v_services v = x ∧ v_pins v = pins).
  - apply dt_act; [intros v [H _]; auto |]. intros s [H1 H2].
    split; [exact (HC _ _ _ _ H1) |]. split; [exact (HC _ _ _ _ H1) | auto].
  - intros []. apply dt_act; [intros v [H _]; auto |]. intros s (H1 & H2 & H3).
    split; [exact (HC _ _ _ _ H1) |]. split; [exact (HC _ _ _ _ H1) | auto].
Qed.

(** The services are stopped, started, verified and recorded. *)
Lemma shut_swap r images msg pins cur :
  dtriple C (stop target ob ;; start target ob r images ;; require_healthy target ob images msg ;;
             act ob (set_pins pins) ;; act ob (set_current cur))
    (λ _ v, C v ∧ v_services v = Verified images ∧ v_current v = cur ∧ v_pins v = pins) C C.
Proof.
  eapply dt_bind; [apply shut_stop |]. intros []. eapply dt_bind; [apply shut_start |].
  intros []. eapply dt_bind; [apply shut_require_healthy |]. intros []. apply shut_write.
Qed.
End services.

(** A sequence is associative. *)
Lemma d_assoc {A} (m k : D ()) (l : D A) : ∀ s, ((m ;; k) ;; l) s = (m ;; k ;; l) s.
Proof. intros s. unfold mbind, d_bind. destruct (m s) as [[[] | t c g |] s']; reflexivity. Qed.

Lemma dt_assoc {A} P (Q : A → dview → Prop) E X (m1 m2 m3 m4 m5 : D ()) (l : D A) :
  dtriple P ((m1 ;; m2 ;; m3 ;; m4 ;; m5) ;; l) Q E X → dtriple P (m1 ;; m2 ;; m3 ;; (m4 ;; m5) ;; l) Q E X.
Proof.
  intros H s HP. specialize (H s HP).
  rewrite (d_assoc m1 (m2 ;; m3 ;; m4 ;; m5) l) in H.
  unfold mbind, d_bind in *. destruct (m1 s) as [[[] | t c g |] s1]; [| exact H..].
  destruct (m2 s1) as [[[] | t c g |] s2]; [| exact H..].
  destruct (m3 s2) as [[[] | t c g |] s3]; [| exact H..]. exact H.
Qed.

(** Facts that do not look at [resume_safe] either are kept by the whole replacement. *)
Section steady.
Context (C : dview → Prop) (HC : about_admission C).
Context (Hsafe : ∀ s, C (view s) → C (view (set_resume_safe true s))).

Lemma shut_try r images msg pins cur (k : D ()) :
  looks k →
  holds_shut C (stop target ob ;; start target ob r images ;; require_healthy target ob images msg ;;
                (act ob (set_pins pins) ;; act ob (set_current cur)) ;; d_modify (set_resume_safe true) ;; k).
Proof.
  intros Hk. apply dt_assoc. eapply dt_bind; [apply shut_swap, HC |]. intros [].
  eapply dt_bind with (R := λ _, C); [apply dt_modify; intros s [H _]; apply Hsafe, H | intros []; apply shut_look, Hk].
Qed.

Lemma shut_rollback shared prev : holds_shut C (rollback target ob shared prev).
Proof.
  unfold rollback. eapply dt_bind with (R := λ _, C); [| intros []; apply shut_look, looks_raise].
  eapply dt_try; [apply shut_try, looks_observe | apply shut_look, looks_raise].
Qed.

Lemma shut_replacement shared r images prev :
  holds_shut C (d_try (replace target ob shared r images prev) (rollback target ob shared prev)).
Proof. eapply dt_try; [apply shut_try, looks_moment | apply shut_rollback]. Qed.
End steady.

Lemma shut_about_admission prev : about_admission (shut prev).
Proof. intros v x c p H. exact H. Qed.

Section replacement.
Context (prev : platform) (shared : image_map).
Abbreviation C := (shut prev).

(** Admission may be reopened; at any moment it may or is closed. *)
Definition reopenable (v : dview) : Prop := platform_settled prev shared v ∧ v_safe v = true.
Definition secured (v : dview) : Prop := platform_settled prev shared v ∨ admission_closed prev v.

(** The new platform runs, is recorded and pinned. *)
Definition replaced (r : release_info) (images : image_map) (v : dview) : Prop :=
  v_current v = new_platform r images prev ∧ v_pins v = updated_pins target shared images ∧
  v_services v = Verified images.

Definition replaced_shut (r : release_info) (images : image_map) (v : dview) : Prop :=
  replaced r images v ∧ v_safe v = true ∧ v_begun v = true ∧
  "gateway-drain"%string ∈ v_markers v ∧ "worker-drain"%string ∈ v_markers v.

Lemma shut_secured v : C v → secured v.
Proof. intros [H _]. right. exact H. Qed.

(** The window at the end of the [try]: [resume_safe] is set while the doors are closed,
    and an exception arrives. *)
Definition raises (f : fault) : bool := match f with Before _ | After _ => true | Smooth | Death => false end.
Definition late_exception : Prop := raises (do_late ob) = true.

Definition late (v : dview) : Prop :=
  late_exception ∧ admission_closed prev v ∧ v_safe v = true ∧ v_begun v = true ∧
  "gateway-drain"%string ∈ v_markers v ∧ "worker-drain"%string ∈ v_markers v.

Definition late_replaced (r : release_info) (images : image_map) (v : dview) : Prop :=
  late v ∧ replaced r images v.

Lemma late_about_admission : about_admission late.
Proof. intros v x c p H. exact H. Qed.

Lemma dt_leave (K : dview → Prop) r images :
  (∀ v, K v → replaced_shut r images v ∧ admission_closed prev v) →
  dtriple K (moment (do_late ob)) (λ _, replaced_shut r images) (late_replaced r images) K.
Proof.
  intros HK s H. destruct (HK _ H) as [Hr Hc]. pose proof Hr as (Hd & Hs).
  unfold moment. destruct (do_late ob) eqn:El; [exact Hr | | | exact H].
  all: split; [split; [unfold late_exception; rewrite El; reflexivity | split; [exact Hc | exact Hs]] | exact Hd].
Qed.

Lemma dt_replace r images :
  dtriple C (replace target ob shared r images prev) (λ _, replaced_shut r images)
    (λ v, C v ∨ late_replaced r images v) secured.
Proof.
  unfold replace, record. apply dt_assoc. eapply dt_bind.
  { eapply dt_weaken; [apply shut_swap, (shut_about_admission prev) | auto | intros ? v H; exact H | auto | apply shut_secured]. }
  intros []. eapply dt_bind with (R := λ _ v, replaced_shut r images v ∧ admission_closed prev v).
  - apply dt_modify. intros s (HC & H1 & H2 & H3). destruct HC as (Hc & _ & Hb & Hg & Hw).
    split; [| exact Hc]. split_and!; try assumption; try reflexivity. split_and!; assumption.
  - intros []. apply dt_weaken with (P := λ v, replaced_shut r images v ∧ admission_closed prev v)
      (Q := λ _, replaced_shut r images) (E := late_replaced r images) (X := λ v, replaced_shut r images v ∧ admission_closed prev v);
      [apply dt_leave | | | |]; auto.
    intros v [_ H]. right. exact H.
Qed.

(** The rollback never returns; it leaves the previous platform running or the doors as
    they were. *)
Lemma dt_rollback (K : dview → Prop) :
  about_admission K → (∀ v, K v → admission_closed prev v) →
  dtriple K (rollback target ob shared prev) (λ _ _, False) (λ v, reopenable v ∨ K v) secured.
Proof.
  intros HK Hc. assert (HX : ∀ v, reopenable v → secured v) by (intros v [H _]; left; exact H).
  unfold rollback. eapply dt_bind with (R := λ _, reopenable); [| intros []; apply dt_raise; auto].
  apply dt_try with (E' := λ v, reopenable v ∨ K v); [| apply dt_raise; auto].
  unfold restore. apply dt_assoc. eapply dt_bind.
  { eapply dt_weaken; [apply shut_swap, HK | auto | intros ? v H; exact H | auto | intros v H; right; apply Hc, H]. }
  intros []. eapply dt_bind with (R := λ _, reopenable).
  - apply dt_modify. intros s (_ & H1 & H2 & H3). split; [| reflexivity]. left. auto.
  - intros []. apply dt_weaken with (P := reopenable) (Q := λ _, reopenable) (E := reopenable) (X := reopenable);
      [apply dt_look, looks_observe | auto..].
Qed.

Lemma dt_replacement r images :
  dtriple C (d_try (replace target ob shared r images prev) (rollback target ob shared prev))
    (λ _, replaced_shut r images) (λ v, reopenable v ∨ C v ∨ late v) secured.
Proof.
  apply dt_try with (E' := λ v, C v ∨ late_replaced r images v); [apply dt_replace |]. apply dt_or.
  - eapply dt_weaken; [apply (dt_rollback C); [apply shut_about_admission | intros v H; apply H] | auto | intros [] v [] | intros v [H | H]; auto | auto].
  - eapply dt_weaken; [apply (dt_rollback late); [apply late_about_admission | intros v H; apply H] | intros v [H _]; exact H | intros [] v [] | intros v [H | H]; auto | auto].
Qed.
End replacement.

(** ** Draining *)

Section drain.
Context (prev : platform) (shared : image_map).

(** Before anything is stopped. *)
Definition untouched (v : dview) : Prop :=
  v_current v = prev ∧ v_pins v = shared ∧ v_services v = Untouched ∧ v_safe v = true.

Lemma untouched_reopenable v : untouched v → reopenable prev shared v.
Proof. intros (H1 & H2 & H3 & H4). split; [left; auto | exact H4]. Qed.

(** This window is open at the backend and recorded. *)
Definition announced (v : dview) : Prop :=
  v_transaction v = Some prev ∧ v_backend v = true ∧ v_token v ≠ None ∧ v_begun v = true.
(** A registered marker is in place. *)
Definition fenced (name : string) (v : dview) : Prop := dict_lookup (v_control v) name = v_token v.

Definition window_draining (v : dview) : Prop :=
  untouched v ∧ announced v ∧ ("gateway-drain"%string ∈ v_markers v ∧ fenced "gateway-drain" v) ∧
  ("worker-drain"%string ∈ v_markers v → fenced "worker-drain" v).

(** What [fence] leaves when it returns. *)
Definition fence_view (name : string) (v : dview) : dview :=
  mkView (v_services v) (v_current v) (v_pins v) (v_transaction v)
    (dict_set (v_control v) name (default EmptyString (v_token v))) (v_backend v) (v_token v)
    (add_name name (v_markers v)) (v_safe v) (v_begun v).

Lemma dt_fence v0 name :
  untouched v0 →
  dtriple (eq v0) (fence ob name) (λ _, eq (fence_view name v0)) untouched untouched.
Proof.
  intros Hu s ->. unfold fence, mbind, d_bind. cbn.
  destruct (dict_lookup (h_control (ds_host s)) name); [exact Hu |].
  unfold act. cbn. destruct (do_fault ob (ds_clock s)); try exact Hu. reflexivity.
Qed.

Lemma dt_start {A} P (Q : A → dview → Prop) E X (m : D A) :
  (∀ v0, P v0 → dtriple (eq v0) m Q E X) → dtriple P m Q E X.
Proof. intros H s HP. exact (H _ HP s eq_refl). Qed.

Lemma fenced_fence name v : v_token v ≠ None → fenced name (fence_view name v).
Proof.
  intros Ht. unfold fenced. cbn. rewrite dict_lookup_set_eq. destruct (v_token v); [reflexivity | congruence].
Qed.

Lemma add_name_elem name l : name ∈ add_name name l.
Proof. unfold add_name. case_bool_decide; [assumption |]. apply elem_of_app. right. left. Qed.
Lemma add_name_mono name x l : x ∈ l → x ∈ add_name name l.
Proof. intros H. unfold add_name. case_bool_decide; [assumption |]. apply elem_of_app. left. exact H. Qed.

(** The gateway's marker comes first. *)
Lemma dt_fence_gateway :
  dtriple (λ v, untouched v ∧ announced v ∧ v_markers v = []) (fence ob "gateway-drain")
    (λ _, window_draining) untouched untouched.
Proof.
  apply dt_start. intros v (Hu & Ha & Hm).
  apply dt_weaken with (P := eq v) (Q := λ _, eq (fence_view "gateway-drain" v)) (E := untouched) (X := untouched);
    [apply dt_fence, Hu | auto | intros [] ? <- | auto..].
  split_and!; [exact Hu | exact Ha | apply add_name_elem | apply fenced_fence, Ha |]. cbn. rewrite Hm. intros Hin.
  exfalso. revert Hin. apply (bool_decide_unpack (¬ _)). vm_compute. exact I.
Qed.

(** Then the adapter's, which leaves the gateway's. *)
Lemma dt_fence_worker :
  dtriple window_draining (fence ob "worker-drain")
    (λ _ v, window_draining v ∧ "worker-drain"%string ∈ v_markers v) untouched untouched.
Proof.
  apply dt_start. intros v (Hu & Ha & [Hgm Hg] & Hw).
  apply dt_weaken with (P := eq v) (Q := λ _, eq (fence_view "worker-drain" v)) (E := untouched) (X := untouched);
    [apply dt_fence, Hu | auto | intros [] ? <- | auto..].
  assert (Hf : fenced "worker-drain" (fence_view "worker-drain" v)) by (apply fenced_fence, Ha).
  split; [| apply add_name_elem]. split_and!; [exact Hu | exact Ha | apply add_name_mono, Hgm | | auto].
  unfold fenced in *. cbn. rewrite dict_lookup_set_ne by discriminate. exact Hg.
Qed.

Lemma draining_untouched v : window_draining v → untouched v.
Proof. intros [H _]. exact H. Qed.

Definition drained (v : dview) : Prop := window_draining v ∧ "worker-drain"%string ∈ v_markers v.

Lemma dt_look_in {A} (P E X : dview → Prop) (m : D A) :
  looks m → (∀ v, P v → E v) → (∀ v, P v → X v) → dtriple P m (λ _, P) E X.
Proof. intros H HE HX. apply dt_weaken with (P := P) (Q := λ _, P) (E := P) (X := P); [apply dt_look, H | auto..]. Qed.

Ltac drain_look :=
  eapply dt_bind; [apply dt_look_in; [auto with looks | apply draining_untouched..] | intros ?; cbn beta].

Lemma drained_untouched v : drained v → untouched v.
Proof. intros [[H _] _]. exact H. Qed.

(** The adapter is asked only behind its marker. *)
Lemma dt_ask_worker :
  dtriple window_draining
    (s ← d_get;
     (if bool_decide ("worker-drain"%string ∈ ds_markers s) then mret tt else fence ob "worker-drain") ;;
     w ← observe ob (do_worker ob);
     acknowledged w)
    (λ _, drained) untouched untouched.
Proof.
  eapply dt_bind; [apply dt_get |]. intros s. eapply dt_bind with (R := λ _, drained).
  - case_bool_decide as Hm.
    + apply dt_ret. intros v [Hd <-]. split; [exact Hd | exact Hm].
    + eapply dt_weaken; [apply dt_fence_worker | intros v [H _]; exact H | auto..].
  - intros []. eapply dt_bind; [apply dt_look_in; [auto with looks | apply drained_untouched..] |].
    intros w. cbn beta. apply dt_look_in; [auto with looks | apply drained_untouched..].
Qed.

(** A window that drained has both markers in place. *)
Lemma dt_wait_polls n : dtriple window_draining (wait_polls ob n) (λ _, drained) untouched untouched.
Proof.
  induction n as [| n IH]; cbn [wait_polls].
  all: do 5 drain_look.
  all: eapply dt_bind with (R := λ _, window_draining);
    [case_match; [apply dt_look_in; [auto with looks | apply draining_untouched..] | apply dt_ret; auto] |].
  all: intros busy; cbn beta; eapply dt_bind with (R := λ b v, window_draining v ∧ (b = true → drained v)).
  1, 3: case_match; [| apply dt_ret; intros v Hv; split; [exact Hv | discriminate]].
  1, 2: eapply dt_weaken; [apply dt_ask_worker | auto | intros ? v Hv; split; [apply Hv | auto] | auto..].
  all: intros [|].
  1, 3: eapply dt_weaken with (P := drained);
    [apply dt_look_in; [auto with looks | apply drained_untouched..] | intros v [_ Hv]; auto | auto..].
  - apply dt_raise. intros v [H _]. apply draining_untouched, H.
  - eapply dt_weaken; [exact IH | intros v [H _]; exact H | auto..].
Qed.

Lemma drained_shut s : drained (view s) → shut prev (view (set_resume_safe false s)).
Proof.
  intros [(_ & (Ht & Hb & Hn & Hbg) & [Hgm Hg] & Hw) Hwm]. unfold fenced in *.
  split_and!; [split_and!; [exact Ht | exact Hb |] | reflexivity | exact Hbg | exact Hgm | exact Hwm].
  destruct (v_token (view s)) as [t |] eqn:Hv; [| congruence]. exists t.
  split_and!; [exact Hv | exact Hg | rewrite <- Hv in *; exact (Hw Hwm)].
Qed.

Lemma dt_wait_idle :
  dtriple (λ v, untouched v ∧ announced v ∧ v_markers v = []) (wait_idle ob) (λ _, drained) untouched untouched.
Proof.
  unfold wait_idle. eapply dt_bind; [apply dt_look_in; [auto with looks | intros v [H _]; exact H..] |].
  intros []. eapply dt_bind; [apply dt_fence_gateway |]. intros []. apply dt_wait_polls.
Qed.

Lemma dt_begin_drain :
  dtriple (λ v, untouched v ∧ v_markers v = [] ∧ v_transaction v = Some prev ∧ v_begun v = true) (begin_drain ob)
    (λ _ v, untouched v ∧ announced v ∧ v_markers v = []) untouched untouched.
Proof.
  unfold begin_drain. eapply dt_bind; [apply dt_look_in; [auto with looks | intros v [H _]; exact H..] |].
  intros t. cbn beta. eapply dt_bind with
    (R := λ _ v, untouched v ∧ v_markers v = [] ∧ v_transaction v = Some prev ∧ v_begun v = true ∧ v_token v = Some t).
  - apply dt_modify. intros s (H1 & H2 & H3 & H4). split_and!; assumption || reflexivity.
  - intros []. apply dt_backend, dt_act; [intros v [H _]; auto |]. intros s (H1 & H2 & H3 & H4 & H5). split; [exact H1 |].
    split; [exact H1 |]. split; [| exact H2].
    split_and!; [exact H3 | reflexivity | cbn in *; congruence | exact H4].
Qed.

Lemma dt_maintain r images :
  dtriple (λ v, untouched v ∧ v_markers v = []) (maintain target ob shared r images prev)
    (λ _, replaced_shut prev shared r images) (λ v, reopenable prev shared v ∨ shut prev v ∨ late prev v)
    (secured prev shared).
Proof.
  assert (HE : ∀ v, untouched v → reopenable prev shared v ∨ shut prev v ∨ late prev v)
    by (intros v H; left; apply untouched_reopenable, H).
  assert (HX : ∀ v, untouched v → secured prev shared v) by (intros v H; left; apply untouched_reopenable, H).
  unfold maintain, begin_transaction. eapply dt_bind with (R := λ _ v, untouched v ∧ v_markers v = [] ∧ v_transaction v = Some prev).
  { apply dt_act; [intros v [H _]; auto |]. intros s [H1 H2]. split; [apply HE, H1 | auto]. }
  intros []. eapply dt_bind with
    (R := λ _ v, untouched v ∧ v_markers v = [] ∧ v_transaction v = Some prev ∧ v_begun v = true).
  { apply dt_modify. intros s (H1 & H2 & H3). auto. }
  intros []. eapply dt_bind; [eapply dt_weaken; [apply dt_begin_drain | auto | intros ? v H; exact H | auto..] |].
  intros []. eapply dt_bind; [eapply dt_weaken; [apply dt_wait_idle | auto | intros ? v H; exact H | auto..] |].
  intros []. eapply dt_bind with (R := λ _, shut prev).
  { apply dt_modify. apply drained_shut. }
  intros []. eapply dt_bind; [apply dt_look_in; [auto with looks | auto | apply shut_secured] |].
  intros []. apply dt_replacement.
Qed.
End drain.
(** ** Reopening *)

(** Facts about the services, the record and the pins only. *)
Definition about_services (C : dview → Prop) : Prop :=
  ∀ v t c b k m f g, C v → C (mkView (v_services v) (v_current v) (v_pins v) t c b k m f g).

Section reopening.
Context (C : dview → Prop) (HC : about_services C).

Lemma services_act f :
  (∀ h, h_services (f h) = h_services h ∧ h_current (f h) = h_current h ∧ h_pins (f h) = h_pins h) →
  dtriple C (act ob f) (λ _, C) C C.
Proof.
  intros Hf. apply dt_act; [auto |]. intros s H.
  assert (HC' : C (view (with_host f s))); [| auto].
  unfold view. cbn. destruct (Hf (ds_host s)) as (-> & -> & ->). exact (HC _ _ _ _ _ _ _ _ H).
Qed.

Lemma services_unlink names : dtriple C (unlink_markers ob names) (λ _, C) C C.
Proof.
  induction names as [| n names IH]; cbn; [apply dt_ret; auto |].
  eapply dt_bind; [apply dt_look, looks_get |]. intros s. cbn beta. eapply dt_bind; [| intros []; exact IH].
  case_match; [apply services_act; auto | apply dt_ret; auto].
Qed.

Lemma services_end_drain : dtriple C (end_drain ob) (λ _, C) C C.
Proof.
  unfold end_drain. eapply dt_bind; [apply dt_look, looks_get |]. intros s. cbn beta.
  eapply dt_bind; [apply dt_look; auto with looks |]. intros []. eapply dt_bind; [apply services_unlink |].
  intros []. eapply dt_bind with (R := λ _, C); [| intros []; apply dt_backend, services_act; auto].
  apply dt_modify. intros s' H. exact (HC _ _ _ _ _ _ _ _ H).
Qed.

Lemma services_reopen : dtriple C (reopen ob) (λ _, C) C C.
Proof.
  unfold reopen. eapply dt_bind; [apply dt_look, looks_get |]. intros s. cbn beta.
  case_match; [| apply dt_ret; auto]. eapply dt_bind; [apply services_end_drain |]. intros [].
  eapply dt_bind; [apply dt_look, looks_get |]. intros s'. cbn beta.
  case_match; [apply services_act; auto | apply dt_ret; auto].
Qed.
End reopening.

Section whole.
Context (prev : platform) (shared : image_map).

Lemma settled_about_services : about_services (platform_settled prev shared).
Proof. intros v t c b k m f g H. exact H. Qed.

(** The [finally] clause, after an exception: a platform that is not known to run stays
    behind closed doors, unless the exception found [resume_safe] set too early. *)
Definition out_accounted (v : dview) : Prop := secured prev shared v ∨ late_exception.

Lemma dt_reopen_exception :
  dtriple (λ v, reopenable prev shared v ∨ shut prev v ∨ late prev v) (reopen ob)
    (λ _, out_accounted) out_accounted out_accounted.
Proof.
  intros s [[Hs _] | [Hs | [Hs _]]].
  - pose proof (services_reopen _ settled_about_services s Hs) as H.
    destruct (reopen ob s) as [[a | t c g |] s']; left; left; exact H.
  - unfold reopen, mbind, d_bind. cbn. pose proof Hs as (Hc & Hsafe & _). cbn in Hsafe. rewrite Hsafe.
    left. right. exact Hc.
  - destruct (reopen ob s) as [[a | t c g |] s']; right; exact Hs.
Qed.

(** A finished rollout: the new platform is seen running, recorded and pinned, the
    recovery record and the markers are gone, and the backend was told to resume. *)
Definition rollout_done (r : release_info) (images : image_map) (v : dview) : Prop :=
  replaced prev shared r images v ∧ v_transaction v = None ∧ v_backend v = false ∧
  dict_lookup (v_control v) "gateway-drain" = None ∧ dict_lookup (v_control v) "worker-drain" = None.

Lemma replaced_secured r images v : replaced prev shared r images v → secured prev shared v.
Proof. intros H. left. right. exists r, images. exact H. Qed.

(** The doors are open and nothing records the rollout. *)
Definition opened (v : dview) : Prop :=
  v_transaction v = None ∧ v_backend v = false ∧
  dict_lookup (v_control v) "gateway-drain" = None ∧ dict_lookup (v_control v) "worker-drain" = None.

(** [resume_safe], with the transaction begun and both markers registered. *)
Definition may_open (v : dview) : Prop :=
  v_safe v = true ∧ v_begun v = true ∧ "gateway-drain"%string ∈ v_markers v ∧ "worker-drain"%string ∈ v_markers v.

Lemma reopen_opens s s' : may_open (view s) → reopen ob s = (DRet tt, s') → opened (view s').
Proof.
  intros (Hsafe & Hbegun & Hg & Hw). unfold reopen, end_drain, mbind, d_bind. cbn in *. rewrite Hsafe. cbn.
  unfold require. destruct (markers_owned s); [| discriminate]. unfold mbind, d_bind, backend_call, act. cbn.
  rewrite bool_decide_true by exact Hw. cbn.
  destruct (do_fault ob (ds_clock s)); [| discriminate..]. cbn.
  rewrite bool_decide_true by exact Hg. cbn.
  destruct (do_fault ob _); [| discriminate..]. cbn.
  destruct (do_fault ob _); [| discriminate..]. cbn.
  rewrite Hbegun. unfold finish, act. cbn. destruct (do_fault ob _); [| discriminate..]. intros [= <-].
  split_and!; [reflexivity.. | |]; cbn; [apply dict_lookup_del_eq |].
  etransitivity; [apply (dict_lookup_del_ne _ "gateway-drain"%string); discriminate | apply dict_lookup_del_eq].
Qed.

Lemma dt_reopen_success r images :
  dtriple (replaced_shut prev shared r images) (reopen ob)
    (λ _, rollout_done r images) (secured prev shared) (secured prev shared).
Proof.
  intros s (Hr & Hopen). pose proof (services_reopen (replaced prev shared r images)) as Hk.
  specialize (Hk ltac:(intros v t c b k m f g H; exact H) s Hr). pose proof (reopen_opens s) as Ho.
  destruct (reopen ob s) as [[[] | t c g |] s']; [split; [exact Hk | apply Ho; auto] | apply (replaced_secured r images), Hk..].
Qed.

Lemma previous_reads s p : (previous target ob s).1 = DRet p → p = h_current (ds_host s).
Proof.
  unfold previous, mbind, d_bind. cbn.
  repeat (case_match; simplify_eq/=; try congruence).
Qed.

Lemma dt_run sha expected :
  dtriple (λ v, v_current v = prev ∧ v_pins v = shared ∧ v_services v = Untouched ∧ v_markers v = [])
    (run target ob shared sha expected) (λ images v, ∃ r, rollout_done r images v) out_accounted out_accounted.
Proof.
  set (P := λ v, v_current v = prev ∧ v_pins v = shared ∧ v_services v = Untouched ∧ v_markers v = []).
  assert (HP : ∀ v, P v → out_accounted v) by (intros v (H1 & H2 & H3 & _); left; left; left; auto).
  assert (HS : ∀ v, secured prev shared v → out_accounted v) by (intros v H; left; exact H).
  unfold run.
  eapply dt_bind; [apply dt_look_in; [auto with looks | exact HP..] | intros []].
  eapply dt_bind; [apply dt_look_in; [auto with looks | exact HP..] | intros r; cbn beta].
  eapply dt_bind; [apply dt_look_in; [auto with looks | exact HP..] | intros image; cbn beta].
  (* the platform that was read *)
  eapply dt_bind with (R := λ p v, p = prev ∧ P v).
  { intros s Hs. pose proof (looks_previous s) as Hl. pose proof (previous_reads s) as Hr.
    destruct (previous target ob s) as [[p | t c g |] s']; cbn in Hl; rewrite Hl; [| apply HP, Hs..].
    split; [| exact Hs]. rewrite (Hr p eq_refl). apply Hs. }
  intros p. apply dt_pure. intros ->.
  eapply dt_bind; [apply dt_look_in; [auto with looks | exact HP..] | intros busy; cbn beta].
  eapply dt_bind with (R := λ _, P); [case_match; [apply dt_raise, HP | apply dt_ret; auto] | intros []].
  eapply dt_bind with (R := λ _ v, P v ∧ v_safe v = true); [apply dt_modify; intros s H; split; [exact H | reflexivity] |].
  intros []. eapply dt_bind with (R := λ _ v, P v ∧ v_safe v = true); [apply dt_modify; auto |].
  intros []. eapply dt_bind with (R := λ _ v, ∃ r, rollout_done r (map (λ s, (s, image)) SERVICES) v);
    [| intros []; apply dt_ret; intros v H; exact H].
  eapply dt_finally; [| intros [] | apply dt_reopen_exception].
  - eapply dt_weaken; [apply dt_maintain | | intros a v H; exact H | auto..].
    intros v [(H1 & H2 & H3 & H4) H5]. split; [| exact H4]. split_and!; assumption.
  - eapply dt_weaken; [apply dt_reopen_success | intros v H; exact H | | auto..]. intros [] v H. eexists. exact H.
Qed.
End whole.
(** ** Markers of others *)

Section foreign.
Context (name tok : string) (Hfresh : ∀ k, do_token ob k ≠ py_strip tok).

(** The marker is there, and is not this window's. *)
Definition foreign (v : dview) : Prop :=
  dict_lookup (v_control v) name = Some tok ∧ v_token v ≠ Some (py_strip tok).

Definition spares {A} (m : D A) : Prop := dtriple foreign m (λ _, foreign) foreign foreign.

Lemma spares_look {A} (m : D A) : looks m → spares m.
Proof. apply dt_look. Qed.
Lemma spares_bind {A B} (m : D A) (k : A → D B) : spares m → (∀ a, spares (k a)) → spares (m ≫= k).
Proof. intros Hm Hk. eapply dt_bind; [exact Hm | exact Hk]. Qed.
Lemma spares_try {A} (m h : D A) : spares m → spares h → spares (d_try m h).
Proof. intros Hm Hh. eapply dt_try; [exact Hm | exact Hh]. Qed.
Lemma spares_act f : (∀ h, h_control (f h) = h_control h) → spares (act ob f).
Proof.
  intros Hf. apply dt_act; [auto |]. intros s [H1 H2].
  assert (H : foreign (view (with_host f s))); [| auto]. split; [cbn; rewrite Hf; exact H1 | exact H2].
Qed.

Lemma foreign_about_admission : about_admission foreign.
Proof. intros v x c p H. exact H. Qed.

(** Publication is exclusive. *)
Lemma spares_fence n : spares (fence ob n).
Proof.
  intros s H. unfold fence, mbind, d_bind. cbn.
  destruct (dict_lookup (h_control (ds_host s)) n) eqn:Hn; [exact H |].
  assert (Hne : n ≠ name) by (intros ->; destruct H as [H _]; cbn in H; congruence).
  unfold act. cbn. destruct (do_fault ob (ds_clock s)); try exact H.
  all: split; [| apply H]; cbn; rewrite dict_lookup_set_ne by exact Hne; apply H.
Qed.

(** No marker is removed once a foreign one is found among those registered. *)
Lemma spares_unlink names :
  dtriple (λ v, foreign v ∧ name ∉ v_markers v) (unlink_markers ob names) (λ _, foreign) foreign foreign.
Proof.
  set (P := λ v, foreign v ∧ name ∉ v_markers v).
  assert (HP : ∀ v, P v → foreign v) by (intros v [H _]; exact H).
  induction names as [| n names IH]; cbn; [apply dt_ret, HP |].
  eapply dt_bind; [apply dt_get |]. intros s. eapply dt_bind with (R := λ _, P); [| intros []; exact IH].
  case_bool_decide as Hn; [| apply dt_ret; intros v [H _]; exact H].
  apply dt_act; [intros v [[H _] _]; auto |]. intros s' [[[H1 H2] H3] Hv].
  change (n ∈ v_markers (view s)) in Hn. rewrite Hv in Hn.
  assert (H : foreign (view (with_host (λ h, set_control (dict_del (h_control h) n) h) s'))).
  { split; [| exact H2]. cbn. rewrite dict_lookup_del_ne; [exact H1 |]. intros ->. exact (H3 Hn). }
  split; [exact H | split; [exact H | exact H3]].
Qed.

Lemma owned_foreign s : foreign (view s) → markers_owned s = true → name ∉ ds_markers s.
Proof.
  intros [H1 H2] Ho Hin. unfold markers_owned in Ho. rewrite forallb_forall in Ho.
  specialize (Ho name (proj1 (list_elem_of_In _ _) Hin)). cbn in H1, H2. rewrite H1 in Ho.
  apply bool_decide_eq_true in Ho. congruence.
Qed.

Lemma spares_end_drain : spares (end_drain ob).
Proof.
  unfold end_drain. eapply dt_bind; [apply dt_get |]. intros s.
  eapply dt_bind with (R := λ _ v, foreign v ∧ name ∉ v_markers v).
  { unfold require. destruct (markers_owned s) eqn:Ho; [apply dt_ret | apply dt_raise; intros v [H _]; exact H].
    intros v [H <-]. split; [exact H | apply owned_foreign; assumption]. }
  intros []. eapply dt_bind; [apply spares_unlink |]. intros [].
  eapply dt_bind with (R := λ _, foreign); [| intros []; apply dt_backend, spares_act; reflexivity].
  apply dt_modify. intros s' [H _]. split; [exact H | discriminate].
Qed.

Ltac spare :=
  repeat first
    [ solve [apply spares_look; auto 1 with looks] | solve [apply spares_look, looks_asked] | apply spares_fence | solve [apply spares_act; reflexivity]
    | apply spares_end_drain | solve [apply dt_modify; auto] | apply spares_try | apply spares_bind; [| intros ?]
    | case_match ].

Lemma spares_wait_polls n : spares (wait_polls ob n).
Proof. induction n as [| n IH]; cbn [wait_polls]; spare; exact IH. Qed.

Lemma spares_begin_drain : spares (begin_drain ob).
Proof.
  unfold begin_drain. intros s H. unfold mbind, d_bind, observe. cbn.
  destruct (do_fault ob (ds_clock s)); try exact H. cbn. unfold backend_call, act. cbn.
  assert (H' : foreign (view (with_token (Some (do_token ob (ds_clock s))) (d_tick s)))).
  { split; [apply H |]. cbn. intros [= Ht]. exact (Hfresh _ Ht). }
  destruct (do_fault ob _); exact H'.
Qed.

Lemma spares_wait_idle : spares (wait_idle ob).
Proof.
  unfold wait_idle. apply spares_bind; [apply spares_look, looks_required | intros []].
  apply spares_bind; [apply spares_fence | intros []; apply spares_wait_polls].
Qed.

Lemma spares_maintain shared r images prev : spares (maintain target ob shared r images prev).
Proof.
  unfold maintain. apply spares_bind; [apply spares_act; reflexivity | intros []].
  apply spares_bind; [apply dt_modify; auto | intros []].
  apply spares_bind; [apply spares_begin_drain | intros []].
  apply spares_bind; [apply spares_wait_idle | intros []].
  apply spares_bind; [apply dt_modify; auto | intros []].
  apply spares_bind; [apply spares_look; auto with looks | intros []].
  apply shut_replacement; [apply foreign_about_admission | intros s H; exact H].
Qed.

Lemma spares_reopen : spares (reopen ob).
Proof. unfold reopen, finish. spare. Qed.

Lemma spares_deploy sha expected : spares (deploy target ob sha expected).
Proof.
  unfold deploy, run. apply spares_bind; [apply spares_look, looks_get | intros s]. case_match; [spare |].
  do 5 (apply spares_bind; [spare | intros ?]). do 3 (apply spares_bind; [spare | intros []]).
  apply spares_bind; [| intros []; spare]. eapply dt_finally with (Q' := λ _, foreign) (E' := foreign).
  - apply spares_maintain.
  - intros []. apply spares_reopen.
  - apply spares_reopen.
Qed.
End foreign.
(** ** The claims *)

(** A process that has just started. *)
Definition fresh (s : dstate) : Prop := h_services (ds_host s) = Untouched ∧ ds_markers s = [].

Definition refusal : string :=
  "Unfinished platform transaction; inspect recovery record before another rollout".

Lemma closed_refuses prev s (t : dstate) target' ob' sha' sum' :
  admission_closed prev (view s) → ds_host t = ds_host s →
  deploy target' ob' sha' sum' t = (DExc true 1 refusal, t).
Proof.
  intros (H & _) Hh. unfold deploy, mbind, d_bind. cbn. rewrite Hh. cbn in H. rewrite H. reflexivity.
Qed.

(** A rollout that does not return was secured, or an exception arrived late. *)
Lemma deploy_secured sha expected s :
  fresh s →
  let '(o, s') := deploy target ob sha expected s in
  secured (h_current (ds_host s)) (h_pins (ds_host s)) (view s') ∨
  (late_exception ∧ ∀ images, o ≠ DRet images).
Proof.
  intros [H1 H2]. unfold deploy, mbind, d_bind. cbn.
  destruct (h_transaction (ds_host s)); [left; left; left; auto |].
  pose proof (dt_run (h_current (ds_host s)) (h_pins (ds_host s)) sha expected s) as H.
  destruct (run target ob (h_pins (ds_host s)) sha expected s) as [[images | t c g |] s']; cbn in H.
  - destruct H as (r & H & _); [auto |]. left. left. right. exists r, images. exact H.
  - destruct H as [H | H]; [auto | left; exact H | right; split; [exact H | discriminate]].
  - destruct H as [H | H]; [auto | left; exact H | right; split; [exact H | discriminate]].
Qed.

(** C21. Wherever a rollout is interrupted or its process dies, either the platform is
    the recorded and pinned one, left alone or seen running; or admission is closed at
    the backend, the gateway and the adapter under this window's token, the recovery
    record names the previous platform, and every further rollout is refused.  The one
    exception is an exception that arrives after [run] has set [resume_safe] again and
    before it has left that [try]: the rollout then does not return, and
    [late_interrupt_reopens] says what it does if its rollback fails. *)
Theorem rollout_never_reopens_blindly (sha expected : string) (s : dstate) :
  fresh s →
  let '(o, s') := deploy target ob sha expected s in
  platform_settled (h_current (ds_host s)) (h_pins (ds_host s)) (view s') ∨
  (admission_closed (h_current (ds_host s)) (view s') ∧
   ∀ target' ob' sha' sum' t, ds_host t = ds_host s' → deploy target' ob' sha' sum' t = (DExc true 1 refusal, t)) ∨
  (late_exception ∧ ∀ images, o ≠ DRet images).
Proof.
  intros Hs. pose proof (deploy_secured sha expected s Hs) as H.
  destruct (deploy target ob sha expected s) as [o s']. destruct H as [[H | H] | H]; [left; exact H | right; left | auto].
  split; [exact H |]. intros target' ob' sha' sum' t Ht. apply (closed_refuses _ _ _ _ _ _ _ H Ht).
Qed.

Lemma deploy_done (sha expected : string) (s s' : dstate) (images : image_map) :
  fresh s → deploy target ob sha expected s = (DRet images, s') →
  ∃ r, rollout_done (h_current (ds_host s)) (h_pins (ds_host s)) r images (view s').
Proof.
  intros [H1 H2]. unfold deploy, mbind, d_bind. cbn.
  destruct (h_transaction (ds_host s)); [discriminate |]. intros Hrun.
  pose proof (dt_run (h_current (ds_host s)) (h_pins (ds_host s)) sha expected s) as H.
  rewrite Hrun in H. apply H. cbn. auto.
Qed.

(** C23. A rollout that returns has replaced the platform completely: the new images are
    seen running, recorded with the previous release and pinned for the backend, the
    recovery record and both markers are gone and the backend was told to resume. *)
Theorem rollout_completes (sha expected : string) (s s' : dstate) (images : image_map) :
  fresh s → deploy target ob sha expected s = (DRet images, s') →
  ∃ r, rollout_done (h_current (ds_host s)) (h_pins (ds_host s)) r images (view s').
Proof. apply deploy_done. Qed.

(** The token a drain marker holds. *)
Definition marker_token (s : dstate) (name : string) : option string :=
  dict_lookup (h_control (ds_host s)) name.

(** C22. An exception that arrives once [run] has set [resume_safe] again, inside its [try],
    starts the rollback of a rollout that had succeeded.  If that rollback fails, the
    [finally] clause opens the doors all the same: the recovery record and both markers
    are removed and the backend is told to resume, over whatever services, record and
    pins the rollback left behind. *)
Theorem late_interrupt_reopens (prev : platform) (shared : image_map) (r : release_info) (images : image_map)
    (t t' : bool) (c c' : Z) (g g' : string) (s s0 s1 s2 : dstate) :
  shut prev (view s) →
  replace target ob shared r images prev s = (DExc t c g, s0) → ds_resume_safe s0 = true →
  rollback target ob shared prev s0 = (DExc t' c' g', s1) → reopen ob s1 = (DRet tt, s2) →
  late_exception ∧ replaced prev shared r images (view s0) ∧ opened (view s2) ∧
  v_services (view s2) = v_services (view s1) ∧ v_current (view s2) = v_current (view s1) ∧
  v_pins (view s2) = v_pins (view s1).
Proof.
  intros Hs E0 Hsafe E1 E2. pose proof (dt_replace prev shared r images s Hs) as H0. rewrite E0 in H0.
  destruct H0 as [(_ & H0 & _) | [(Hl & _ & Hm) Hr]]; [cbn in H0; congruence |].
  pose proof (shut_rollback may_open) as H1. specialize (H1 ltac:(intros v x ? ? H; exact H)).
  specialize (H1 ltac:(intros x (_ & H); split; [reflexivity | exact H]) shared prev s0 Hm). rewrite E1 in H1.
  set (K := λ v, v_services v = v_services (view s1) ∧ v_current v = v_current (view s1) ∧ v_pins v = v_pins (view s1)).
  assert (HK : about_services K) by (intros v ? ? ? ? ? ? ? H; exact H).
  assert (Hk : K (view s1)) by (split_and!; reflexivity).
  pose proof (services_reopen K HK s1 Hk) as H2.
  rewrite E2 in H2.
  split; [exact Hl |]. split; [exact Hr |]. split; [apply (reopen_opens s1); assumption | exact H2].
Qed.

(** A drain marker that holds another owner's token is never replaced or removed,
    however the rollout ends. *)
Theorem rollout_spares_foreign_markers (name tok sha expected : string) (s : dstate) :
  (∀ k, do_token ob k ≠ py_strip tok) → ds_token s = None →
  marker_token s name = Some tok → marker_token (deploy target ob sha expected s).2 name = Some tok.
Proof.
  intros Hk Ht Hn. assert (H : foreign name tok (view s)) by (split; [exact Hn | cbn; congruence]).
  pose proof (spares_deploy name tok Hk sha expected s H) as Hd.
  destruct (deploy target ob sha expected s) as [[images | t c g |] s']; apply Hd.
Qed.
End facts.

(** ** Runs *)

Definition dev : Environment :=
  match environment_of "dev" with Some e => e | None => mkEnvironment EmptyString EmptyString EmptyString EmptyString EmptyString EmptyString [] EmptyString EmptyString EmptyString 0 EmptyString end.

Definition dev_service (ports : list (string * pyval)) : pyval :=
  PyDict (ports ++
    [("networks", PyDict [("default", PyNone)]);
     ("volumes", PyList [PyDict [("type", PyStr "bind"); ("source", PyStr (control_dir dev));
                                 ("target", PyStr "/run/synthx-deploy"); ("read_only", PyBool true)]])]%string).
Definition dev_layout : pyval :=
  PyDict [("services", PyDict
             [("gateway", dev_service [("ports", PyList [PyDict [("host_ip", PyStr "127.0.0.1");
                                        ("published", PyStr "8100"); ("target", PyInt 8000)]])]);
              ("text-worker", dev_service [])]);
          ("networks", PyDict [("default", PyDict [("name", PyStr "deploy_default"); ("external", PyBool true)])])]%string.

Example dev_layout_accepted : validate_layout dev_layout (Some (control_dir dev)) dev = None.
Proof. vm_compute. reflexivity. Qed.

Definition drained_status : pyval :=
  PyDict [("protocol", PyInt 1); ("draining", PyBool true); ("drain_id", PyStr "t"); ("active", PyInt 0);
          ("active_requests", PyInt 0); ("active_operations", PyInt 0)]%string.

(** The services run [old] before the clock reaches [switch] and [new] after it. *)
Definition dev_container (switch k : nat) (c : string) : option (string * bool) :=
  if bool_decide (c = "deploy-backend-1"%string) then Some ("backend"%string, true)
  else if bool_decide (c = "deploy-vast-tunnel-1"%string) then Some ("tunnel"%string, true)
  else Some (if (k <? switch)%nat then "old" else "new", true)%string.

Definition dev_obs_late (faults : nat → fault) (at_the_end : fault) (switch : nat) : dobs :=
  mkDObs faults (λ _, ("sum"%string, Some (PyList [PyDict [("RepoTags", PyList [PyStr "synthx-platform:c0ffee"])]%string])))
    (λ _, PyNone) (λ _, (true, None)) (λ _, None) (λ _, ("e", "b")%string) (λ _, Some "text_v1.2.3"%string) (λ _, "c0ffee"%string)
    (λ _, true) (λ _, ("/r/compose.platform.yml", "c0ffee")%string) (λ _, dev_layout)
    (λ _, (Some "c0ffee", "amd64")%string) (λ _, "new"%string) (dev_container switch) (λ _, "backend"%string)
    (λ _, false) (λ _, "t"%string) (λ _, true) (λ _, drained_status) "t" (λ _, 1) (λ _, sample_page "0.0")
    (λ _, drained_status) (λ _, drained_status)
    (λ _, [("INFERENCE_BACKEND", "text_v1.2.3"); ("TEXT_SERVICE_URL", "http://vast-tunnel:18083");
           ("TEXT_REFINEMENT_SERVICE_URL", "http://vast-tunnel:18080")]%string)
    (λ _, true) (λ _, true) 3 (λ _, 3%nat) at_the_end.
Definition dev_obs (faults : nat → fault) (switch : nat) : dobs := dev_obs_late faults Smooth switch.

Definition dev_start (control : list (string * string)) : dstate :=
  mkDState 0
    (mkHost (mkPlatform (mkRelease "beef" "/p/compose.platform.yml" [("gateway", "old"); ("text-worker", "old")]) false None)
       [("deploy-vast-tunnel-1", "tunnel")] None control [] false Untouched)
    None [] [] false false.

Definition smooth_run := deploy dev (dev_obs (λ _, Smooth) 40) "c0ffee" "sum" (dev_start []).


(** The process dies while the services are down. *)
Definition death_at (n k : nat) : fault := if bool_decide (k = n) then Death else Smooth.
Abbreviation dead_run := (deploy dev (dev_obs (death_at 34) 40) "c0ffee" "sum" (dev_start [])).

Lemma rollout_never_reopens_blindly_witness :
  h_services (ds_host dead_run.2) = Down ∧
  (platform_settled dev (h_current (ds_host (dev_start []))) (h_pins (ds_host (dev_start []))) (view dead_run.2) ∨
   (admission_closed (h_current (ds_host (dev_start []))) (view dead_run.2) ∧
    ∀ target' ob' sha' sum' t, ds_host t = ds_host dead_run.2 → deploy target' ob' sha' sum' t = (DExc true 1 refusal, t))).
Proof.
  split; [vm_compute; reflexivity |].
  pose proof (rollout_never_reopens_blindly dev (dev_obs (death_at 34) 40) "c0ffee" "sum" (dev_start [])
                (conj eq_refl eq_refl)) as H.
  destruct dead_run as [o s'] eqn:E. destruct H as [H | [H | [H _]]]; [left; exact H | right; exact H | discriminate H].
Defined.

(** An exception at the end of the [try], and another one once the rollback has stopped
    the services: the run reports that admission remains closed, and has opened it over
    services that are down. *)
Definition raise_at (n k : nat) : fault := if bool_decide (k = n) then Before true else Smooth.
Abbreviation late_obs n := (dev_obs_late (raise_at n) (Before false) 40).

Example late_run :
  let '(o, s') := deploy dev (late_obs 53%nat) "c0ffee" "sum" (dev_start []) in
  o = DExc true 1 "Platform rollback failed; admission remains closed for operator recovery" ∧
  v_services (view s') = Down ∧ v_transaction (view s') = None ∧ v_control (view s') = [] ∧ v_backend (view s') = false.
Proof. vm_compute. repeat split. Qed.

(** A state in which a run enters the [try], and how it goes on. *)
Abbreviation late_window := (dev_obs_late (raise_at 38) (Before false) 0).
Abbreviation late_prev := (h_current (ds_host (dev_start []))).
Abbreviation late_shared := (h_pins (ds_host (dev_start []))).
Abbreviation late_release := (mkRelease "c0ffee" "/r/compose.platform.yml" []).
Abbreviation late_images := [("gateway", "new"); ("text-worker", "new")]%string.
Definition late_enter : dstate :=
  ((begin_transaction late_window late_prev ;; d_modify (set_begun true) ;; begin_drain late_window ;;
    wait_idle late_window ;; d_modify (set_resume_safe false)) (dev_start [])).2.
Definition late_left : dstate := (replace dev late_window late_shared late_release late_images late_prev late_enter).2.
Definition late_rolled : dstate := (rollback dev late_window late_shared late_prev late_left).2.
Definition late_opened : dstate := (reopen late_window late_rolled).2.

Lemma late_interrupt_reopens_witness : opened (view late_opened) ∧ v_services (view late_opened) = Down.
Proof.
  destruct (late_interrupt_reopens dev late_window late_prev late_shared late_release late_images
              false true 1 1 "interrupted" "Platform rollback failed; admission remains closed for operator recovery"
              late_enter late_left late_rolled late_opened) as (_ & _ & H & H' & _).
  - split_and!; [split_and!; [vm_compute; reflexivity.. | exists "t"%string; repeat split; vm_compute; reflexivity] |
                 vm_compute; reflexivity.. | |]; apply (bool_decide_unpack (_ ∈ _)); vm_compute; exact I.
  - vm_compute. reflexivity.
  - vm_compute. reflexivity.
  - vm_compute. reflexivity.
  - vm_compute. reflexivity.
  - split; [exact H | rewrite H'; vm_compute; reflexivity].
Defined.

Lemma rollout_completes_witness :
  ∃ r, rollout_done dev (h_current (ds_host (dev_start []))) (h_pins (ds_host (dev_start []))) r
         [("gateway", "new"); ("text-worker", "new")]%string (view smooth_run.2).
Proof.
  apply (rollout_completes dev (dev_obs (λ _, Smooth) 40) "c0ffee" "sum" (dev_start []) smooth_run.2);
    [split; reflexivity | vm_compute; reflexivity].
Defined.

Lemma rollout_spares_foreign_markers_witness :
  dict_lookup (h_control (ds_host
    (deploy dev (dev_obs (λ _, Smooth) 40) "c0ffee" "sum" (dev_start [("worker-drain", "other")]%string)).2)) "worker-drain"
  = Some "other"%string.
Proof.
  apply (rollout_spares_foreign_markers dev (dev_obs (λ _, Smooth) 40) "worker-drain" "other" "c0ffee" "sum");
    [discriminate | reflexivity | reflexivity].
Defined.

Lemma accepted_layout_is_confined_witness :
  ∃ services, pyval_get dev_layout "services" (PyDict []) = PyDict services ∧ length services = 2%nat.
Proof.
  destruct (accepted_layout_is_confined dev_layout (control_dir dev) dev dev_layout_accepted)
    as (services & H1 & H2 & _).
  exists services. split; assumption.
Defined.
