(* ===== verification/DrainHandshake.v ===== *)
(** The drain handshake: the receiver's [wait_idle] ([deploy_platform.py]) against the
    gates of the gateway and of the adapter ([deployment.py]).  The receiver reads each
    gate's snapshot over HTTP; here the answers it reads are those of a gate that runs
    meanwhile, and what it may conclude from them is proved. *)
From S2P Require Import Prelude PyVal Tasks Deployment DeployChecks Rollout RolloutFacts.

(** ** What the program's own variables keep *)

(** Time does not run backwards and the maintenance token stays. *)
Definition paced {A} (m : D A) : Prop :=
  ∀ s, (ds_clock s <= ds_clock (m s).2)%nat ∧ ds_token (m s).2 = ds_token s.

Lemma paced_ret {A} (a : A) : paced (mret a).
Proof. done. Qed.

Lemma paced_get : paced d_get.
Proof. done. Qed.

Lemma paced_raise {A} c g : paced (d_raise (A := A) c g).
Proof. done. Qed.

Lemma paced_require b msg : paced (require b msg).
Proof. by destruct b. Qed.

Lemma paced_markers f : paced (d_modify (λ s, with_markers (f s) s)).
Proof. done. Qed.

Lemma paced_bind {A B} (m : D A) (k : A → D B) : paced m → (∀ a, paced (k a)) → paced (m ≫= k).
Proof.
  intros Hm Hk s. unfold mbind, d_bind. destruct (Hm s) as [H1 H2].
  destruct (m s) as [[a|t c g|] s1]; simpl in *; try done.
  destruct (Hk a s1) as [H3 H4]. split; [lia|congruence].
Qed.

(** What a sequence that returns did. *)
Lemma d_bind_inv {A B} (m : D A) (k : A → D B) s b s' :
  (m ≫= k) s = (DRet b, s') → ∃ a s1, m s = (DRet a, s1) ∧ k a s1 = (DRet b, s').
Proof. unfold mbind, d_bind. destruct (m s) as [[a|t c g|] s1]; [eauto|done|done]. Qed.

Lemma require_inv b msg s u s' : require b msg s = (DRet u, s') → b = true ∧ s' = s.
Proof. destruct b; simpl; [|done]. unfold mret, d_ret. naive_solver. Qed.

Section handshake.
Context (ob : dobs).

Lemma paced_observe {A} (f : nat → A) : paced (observe ob f).
Proof using. intros s. unfold observe. destruct (do_fault ob (ds_clock s)); simpl; split; try done; lia. Qed.

Lemma paced_backend {A} (m : D A) : paced m → paced (backend_call ob m).
Proof using. intros Hm s. specialize (Hm s). unfold backend_call. by destruct (m s) as [[a|t c g|] s']. Qed.

Lemma backend_call_inv {A} (m : D A) s a s' : backend_call ob m s = (DRet a, s') → m s = (DRet a, s').
Proof using. unfold backend_call. destruct (m s) as [[b|t c g|] s1]; naive_solver. Qed.

Lemma paced_act f : paced (act ob f).
Proof using. intros s. unfold act. destruct (do_fault ob (ds_clock s)); simpl; split; try done; lia. Qed.

Lemma observe_inv {A} (f : nat → A) s a s' :
  observe ob f s = (DRet a, s') → a = f (ds_clock s) ∧ s' = d_tick s.
Proof using. unfold observe. destruct (do_fault ob (ds_clock s)); naive_solver. Qed.

Lemma paced_fence name : paced (fence ob name).
Proof using.
  apply paced_bind; [apply paced_get|intros s0].
  apply paced_bind; [apply (paced_markers (λ _, add_name name (ds_markers s0)))|intros _].
  case_match; [apply paced_raise|apply paced_act].
Qed.

Lemma paced_assert_protected : paced (assert_protected ob).
Proof using.
  apply paced_bind; [apply paced_observe|intros d].
  apply paced_bind; [apply paced_require|intros _].
  apply paced_bind; [apply paced_get|intros s0].
  apply paced_bind; [apply paced_observe|intros r]. apply paced_require.
Qed.

(** The drain identifier of a snapshot is the token of this window. *)
Definition names_token (t : option string) (v : pyval) : bool :=
  match t with
  | Some t => py_eq_str v t
  | None => match v with PyNone => true | _ => false end
  end.

Lemma acknowledged_inv v s b s' :
  acknowledged v s = (DRet b, s') →
  s' = s ∧ is_true (pyval_get v "draining" PyNone) = true ∧
  names_token (ds_token s) (pyval_get v "drain_id" PyNone) = true ∧
  b = py_eq_int (pyval_get v "active" PyNone) 0.
Proof using.
  unfold acknowledged. intros (s0 & s1 & H1 & H)%d_bind_inv. injection H1 as <- <-.
  apply d_bind_inv in H as (u & s2 & [Hb ->]%require_inv & H).
  rewrite !andb_true_iff in Hb. destruct Hb as [[_ Hd] Ht].
  unfold mret, d_ret in H. injection H as <- <-. split_and!; done.
Qed.

(** The snapshot of a drained process: it acknowledges the window [t] and is idle. *)
Definition drained_snapshot (t : option string) (v : pyval) : Prop :=
  is_true (pyval_get v "draining" PyNone) = true ∧
  names_token t (pyval_get v "drain_id" PyNone) = true ∧
  py_eq_int (pyval_get v "active" PyNone) 0 = true.

Definition drained_at (t : option string) (from until : nat) : Prop :=
  ∃ kg kw, (from <= kg)%nat ∧ (kg <= kw)%nat ∧ (kw < until)%nat ∧
    drained_snapshot t (do_gateway ob kg) ∧ drained_snapshot t (do_worker ob kw).

Lemma drained_at_later t from from' until : (from <= from')%nat → drained_at t from' until → drained_at t from until.
Proof using. intros Hle (kg & kw & ? & ? & ? & ? & ?). exists kg, kw. split_and!; try done. lia. Qed.

(** The end of a poll: the adapter is fenced if it was not, and asked. *)
Definition worker_turn : D bool :=
  s ← d_get;
  (if bool_decide ("worker-drain"%string ∈ ds_markers s) then mret tt else fence ob "worker-drain") ;;
  w ← observe ob (do_worker ob);
  acknowledged w.

Lemma paced_worker_turn : paced worker_turn.
Proof using.
  apply paced_bind; [apply paced_get|intros s0].
  apply paced_bind; [destruct (bool_decide _); [apply paced_ret|apply paced_fence]|intros _].
  apply paced_bind; [apply paced_observe|intros w].
  apply paced_bind; [apply paced_get|intros s1].
  apply paced_bind; [apply paced_require|intros _; apply paced_ret].
Qed.

Lemma worker_turn_inv s s' :
  worker_turn s = (DRet true, s') →
  ds_token s' = ds_token s ∧ ∃ kw, (ds_clock s <= kw)%nat ∧ (kw < ds_clock s')%nat ∧
    drained_snapshot (ds_token s) (do_worker ob kw).
Proof using.
  unfold worker_turn. intros (s0 & s1 & H1 & H)%d_bind_inv. injection H1 as <- <-.
  apply d_bind_inv in H as (u & s2 & H2 & H).
  assert ((ds_clock s <= ds_clock s2)%nat ∧ ds_token s2 = ds_token s) as [Hc Ht].
  { pose proof (paced_fence "worker-drain" s) as Hp. case_bool_decide.
    - unfold mret, d_ret in H2. by injection H2 as <- <-.
    - by rewrite H2 in Hp. }
  apply d_bind_inv in H as (w & s3 & [-> ->]%observe_inv & H).
  apply acknowledged_inv in H as (-> & H4 & H5 & H6). simpl in *. rewrite Ht in H5.
  split; [done|]. exists (ds_clock s2). split_and!; [done|lia|]. split_and!; done.
Qed.

(** One poll of [wait_idle], with what follows it. *)
Definition poll_then (K : bool → D ()) : D () :=
  state ← backend_call ob (observe ob (do_backend_status ob));
  require (backend_acknowledged ob state) "Backend did not acknowledge this platform maintenance window" ;;
  page ← observe ob (do_metrics ob);
  g ← observe ob (do_gateway ob);
  gateway_idle ← acknowledged g;
  busy ← (if backend_idle state then backend_call ob (observe ob (do_busy ob)) else mret true);
  idle ← (if backend_idle state && negb busy && metrics_idle page && gateway_idle
          then worker_turn else mret false);
  K idle.

Lemma wait_polls_poll n s :
  wait_polls ob n s =
  poll_then (λ idle, if idle then assert_protected ob
    else match n with
         | O => d_raise 75 "Platform did not become idle; old services remain running"
         | S n' => wait_polls ob n'
         end) s.
Proof using. destruct n; reflexivity. Qed.

Lemma poll_then_inv K s s' :
  poll_then K s = (DRet tt, s') →
  ∃ idle s1, K idle s1 = (DRet tt, s') ∧ ds_token s1 = ds_token s ∧ (ds_clock s <= ds_clock s1)%nat ∧
    (idle = true → drained_at (ds_token s) (ds_clock s) (ds_clock s1)).
Proof using.
  intros (st & s1 & [-> ->]%backend_call_inv%observe_inv & H)%d_bind_inv.
  apply d_bind_inv in H as (u & s2 & [_ ->]%require_inv & H).
  apply d_bind_inv in H as (page & s3 & [-> ->]%observe_inv & H).
  apply d_bind_inv in H as (g & s4 & [-> ->]%observe_inv & H).
  apply d_bind_inv in H as (gi & s5 & (-> & Hd & Ht & Hgi)%acknowledged_inv & H).
  apply d_bind_inv in H as (busy & s6 & Hbusy & H).
  set (s4 := d_tick (d_tick (d_tick s))) in *.
  assert ((ds_clock s4 <= ds_clock s6)%nat ∧ ds_token s6 = ds_token s) as [Hc6 Ht6].
  { pose proof (paced_backend _ (paced_observe (do_busy ob)) s4) as Hp. destruct (backend_idle _).
    - by rewrite Hbusy in Hp.
    - unfold mret, d_ret in Hbusy. by injection Hbusy as _ <-. }
  apply d_bind_inv in H as (idle & s7 & Hidle & H). exists idle, s7.
  assert (S (S (S (ds_clock s))) <= ds_clock s6)%nat as Hc by exact Hc6. clear Hc6.
  destruct (backend_idle _ && negb busy && metrics_idle _ && gi) eqn:Eb.
  - rewrite !andb_true_iff in Eb. destruct Eb as [_ Eg]. destruct idle.
    + apply worker_turn_inv in Hidle as [Ht7 (kw & Hk1 & Hk2 & Hw)]. rewrite Ht6 in *.
      split_and!; [done|done|simpl in *; lia|]. intros _.
      exists (S (S (ds_clock s))), kw. rewrite Eg in Hgi.
      split_and!; [lia|simpl in *; lia|done|by split_and!|done].
    + pose proof (paced_worker_turn s6) as [Hp1 Hp2]. rewrite Hidle in Hp1, Hp2. simpl in *.
      split_and!; [done|congruence|lia|done].
  - unfold mret, d_ret in Hidle. injection Hidle as <- <-. simpl in *. split_and!; try done; lia.
Qed.

Lemma wait_polls_inv n s s' :
  wait_polls ob n s = (DRet tt, s') → drained_at (ds_token s) (ds_clock s) (ds_clock s').
Proof using.
  revert s. induction n as [|n IH]; intros s; rewrite wait_polls_poll;
    intros (idle & s1 & H & Ht & Hc & Hd)%poll_then_inv; destruct idle; try done.
  1,2: destruct (Hd eq_refl) as (kg & kw & ? & ? & ? & Hg & Hw);
    pose proof (paced_assert_protected s1) as [Hp _]; rewrite H in Hp; simpl in Hp;
    exists kg, kw; repeat (split; [lia|]); by split.
  apply IH in H. rewrite Ht in H. eapply drained_at_later; [exact Hc|exact H].
Qed.

Lemma wait_idle_inv s s' :
  wait_idle ob s = (DRet tt, s') → drained_at (ds_token s) (ds_clock s) (ds_clock s').
Proof using.
  unfold wait_idle. intros (u & s2 & Hb%backend_call_inv & H)%d_bind_inv.
  apply d_bind_inv in Hb as (b & s1 & [-> ->]%observe_inv & [_ ->]%require_inv).
  apply d_bind_inv in H as (u' & s3 & Hf & H).
  pose proof (paced_fence "gateway-drain" (d_tick s)) as [Hc Ht]. rewrite Hf in Hc, Ht. simpl in Hc, Ht.
  apply wait_polls_inv in H. rewrite Ht in H. eapply drained_at_later; [|exact H]. lia.
Qed.
End handshake.

(** ** The gates at the other end *)

(** The course of one process's gate over the receiver's clock: it starts empty, moves by
    its own steps, and answers the receiver with its snapshot. *)
Record gate_course (answer : nat → pyval) (g : nat → gate_world) : Prop := {
  gc_answer : ∀ n, let r := HttpResponse 200 (answer n) in
    r = deployment_status (gw_marker (g n)) (gw_gate (g n)) ∨ r = worker_health "/health/deployment" (gw_marker (g n)) (gw_gate (g n));
  gc_start : ∃ m, rtc gate_step (mkGateWorld gate_init m []) (g 0%nat);
  gc_steps : ∀ n, rtc gate_step (g n) (g (S n));
}.

(** Until the time [h] nobody removes a marker that is in place. *)
Definition held_until (h : nat) (g : nat → gate_world) : Prop :=
  ∀ n, (n < h)%nat → draining (gw_marker (g n)) = true → rtc drain_step (g n) (g (S n)).

Lemma course_counts answer g n :
  gate_course answer g → gate_active (gw_gate (g n)) = py_len (gw_inside (g n)).
Proof.
  intros [_ [m H0] Hs]. apply (gate_reach_count (mkGateWorld gate_init m []) _); [|done].
  induction n as [|n IH]; [exact H0|]. etrans; [exact IH|apply Hs].
Qed.

Lemma drain_step_last w w' : rtc drain_step w w' → draining (gw_marker w) = true → draining (gw_marker w') = true.
Proof. induction 1 as [|w1 w2 w3 (_ & _ & H2) _ IH]; auto. Qed.

Lemma gate_answers answer g (Hc : gate_course answer g) n :
  answer n = PyDict (gate_snapshot (gw_marker (g n)) (gw_gate (g n))).
Proof. destruct (gc_answer _ _ Hc n) as [H|H]; by injection H. Qed.

Lemma snapshot_fields m g :
  let v := PyDict (gate_snapshot m g) in
  pyval_get v "draining" PyNone = PyBool (marker_state m).1 ∧
  pyval_get v "drain_id" PyNone = opt_val PyStr (marker_state m).2 ∧
  pyval_get v "active" PyNone = PyInt (gate_active g).
Proof. unfold gate_snapshot. destruct (marker_state m) as [d [tok|]]; done. Qed.

(** Nothing is admitted after a snapshot that acknowledged the window. *)
Lemma drained_stays answer g h t k n :
  gate_course answer g → held_until h g → drained_snapshot t (answer k) →
  (k <= n)%nat → (n <= h)%nat →
  gw_inside (g n) = [] ∧ gate_active (gw_gate (g n)) = 0 ∧ draining (gw_marker (g n)) = true.
Proof.
  intros Hc Hh [Hd [_ Ha]] Hk Hn. rewrite (gate_answers _ _ Hc k) in Hd, Ha.
  assert (draining (gw_marker (g k)) = true ∧ gw_inside (g k) = []) as [Hdk Hik].
  { destruct (snapshot_fields (gw_marker (g k)) (gw_gate (g k))) as (F1 & _ & F3). rewrite F1 in Hd. rewrite F3 in Ha.
    split; [done|]. simpl in Ha. zbool. pose proof (course_counts _ _ k Hc) as Hcount. rewrite Ha in Hcount.
    destruct (gw_inside (g k)); [done|]. unfold py_len in Hcount. simpl in Hcount. lia. }
  assert (draining (gw_marker (g n)) = true ∧ gw_inside (g n) = []) as [Hdn Hin].
  { revert Hn. induction Hk as [|n Hk IH]; intros Hn; [done|]. destruct (IH ltac:(lia)) as [IH1 IH2].
    pose proof (Hh n ltac:(lia) IH1) as Hs. split; [by eapply drain_step_last|].
    apply drain_steps in Hs as [_ Hsub]. rewrite IH2 in Hsub. by apply sublist_nil_r in Hsub. }
  split_and!; [done| |done]. rewrite (course_counts _ _ n Hc), Hin. done.
Qed.

(** C25. The handshake drains: when [wait_idle] returns, both processes had acknowledged
    this maintenance window with no handler in progress, and from then on, for as long as
    nobody removes their markers, neither has a handler in progress and neither admits
    one, so that services are only replaced when nobody is being served. *)
Theorem wait_idle_returns_drained (ob : dobs) (gateway worker : nat → gate_world) h s s' t :
  gate_course (do_gateway ob) gateway → gate_course (do_worker ob) worker →
  held_until h gateway → held_until h worker →
  ds_token s = Some t → wait_idle ob s = (DRet tt, s') →
  (∃ kg kw, (kg <= kw < ds_clock s')%nat ∧
     marker_state (gw_marker (gateway kg)) = (true, Some t) ∧
     marker_state (gw_marker (worker kw)) = (true, Some t)) ∧
  ∀ n, (ds_clock s' <= n)%nat → (n <= h)%nat →
    gw_inside (gateway n) = [] ∧ gate_active (gw_gate (gateway n)) = 0 ∧
    gw_inside (worker n) = [] ∧ gate_active (gw_gate (worker n)) = 0.
Proof.
  intros Hg Hw Hhg Hhw Ht H. apply wait_idle_inv in H as (kg & kw & _ & H1 & H2 & Dg & Dw). rewrite Ht in *.
  assert (∀ answer g k, gate_course answer g → drained_snapshot (Some t) (answer k) →
    marker_state (gw_marker (g k)) = (true, Some t)) as Hm.
  { intros answer g k Hc (Hd & Hn & _). rewrite (gate_answers _ _ Hc k) in Hd, Hn.
    destruct (snapshot_fields (gw_marker (g k)) (gw_gate (g k))) as (F1 & F2 & _). rewrite F1 in Hd. rewrite F2 in Hn.
    destruct (marker_state (gw_marker (g k))) as [d [tok|]]; simpl in *; [|done]. subst d. by zbool; subst. }
  split.
  - exists kg, kw. split_and!; [done|done|by apply (Hm (do_gateway ob))|by apply (Hm (do_worker ob))].
  - intros n Hn Hh.
    destruct (drained_stays _ _ h _ kg n Hg Hhg Dg ltac:(lia) Hh) as (? & ? & _).
    destruct (drained_stays _ _ h _ kw n Hw Hhw Dw ltac:(lia) Hh) as (? & ? & _). done.
Qed.

(** ** A handshake in which the gateway still serves one request at the first poll *)
Definition busy_gate : gate_world := mkGateWorld (mkGate 1) (MarkerText "t") [1%nat].
Definition idle_gate : gate_world := mkGateWorld (mkGate 0) (MarkerText "t") [].
Definition sample_gateway (n : nat) : gate_world := if (n <? 5)%nat then busy_gate else idle_gate.

Definition gate_answer (g : nat → gate_world) (n : nat) : pyval :=
  PyDict (gate_snapshot (gw_marker (g n)) (gw_gate (g n))).

Definition handshake_obs : dobs :=
  let o := dev_obs (λ _, Smooth) 40 in
  mkDObs (λ _, Smooth) (do_archive o) (do_backend_current o) (do_backend_source o) (do_validator o)
    (do_digests o) (do_pipeline o) (do_head o) (do_dependencies_ok o) (do_source o) (do_layout o)
    (do_label o) (do_image o) (do_container o) (do_backend_image o) (do_busy o) (do_token o)
    (do_backend_idle o) (do_backend_status o) (do_backend_token o) (do_backend_code o) (do_metrics o)
    (gate_answer sample_gateway) (gate_answer (λ _, idle_gate))
    (do_worker_env o) (do_ready o) (do_transport o) (do_drain_polls o) (do_health_polls o) (do_late o).

Definition handshake_start : dstate := with_token (Some "t"%string) (dev_start []).

Lemma busy_to_idle : gate_step busy_gate idle_gate.
Proof. apply (gate_finish 1%nat (MarkerText "t") (mkGate 1) [] []). Qed.

Lemma reach_busy : rtc gate_step (mkGateWorld gate_init MarkerMissing []) busy_gate.
Proof.
  eapply rtc_l; [apply (gate_admit 1%nat MarkerMissing gate_init []); [apply not_elem_of_nil|reflexivity]|].
  eapply rtc_l; [apply (gate_mark _ (MarkerText "t"))|reflexivity].
Qed.

Lemma sample_gateway_steps n : rtc drain_step (sample_gateway n) (sample_gateway (S n)).
Proof.
  unfold sample_gateway. destruct (n <? 5)%nat eqn:E1, (S n <? 5)%nat eqn:E2;
    rewrite ?Nat.ltb_lt, ?Nat.ltb_ge in *; try reflexivity; [|lia].
  apply rtc_once. split; [apply busy_to_idle|done].
Qed.

Lemma wait_idle_returns_drained_witness :
  (wait_idle handshake_obs handshake_start).1 = DRet tt ∧
  ds_clock (wait_idle handshake_obs handshake_start).2 = 14%nat ∧
  ∀ n, (14 <= n)%nat → (n <= 100)%nat → gate_active (gw_gate (sample_gateway n)) = 0.
Proof.
  assert (wait_idle handshake_obs handshake_start = (DRet tt, (wait_idle handshake_obs handshake_start).2)) as H
    by (vm_compute; reflexivity).
  assert (ds_clock (wait_idle handshake_obs handshake_start).2 = 14%nat) as Hc by (vm_compute; reflexivity).
  split; [vm_compute; reflexivity|]. split; [exact Hc|]. intros n Hn Hh. rewrite <- Hc in Hn.
  assert (gate_course (do_gateway handshake_obs) sample_gateway) as Cg.
  { split; [intros k; by left|exists MarkerMissing; apply reach_busy|].
    intros k. apply (drain_steps _ _ (sample_gateway_steps k)). }
  assert (gate_course (do_worker handshake_obs) (λ _, idle_gate)) as Cw.
  { split; [intros k; by right| |intros; reflexivity].
    exists MarkerMissing. etrans; [apply reach_busy|]. apply rtc_once, busy_to_idle. }
  apply (wait_idle_returns_drained handshake_obs sample_gateway (λ _, idle_gate) 100 handshake_start
    (wait_idle handshake_obs handshake_start).2 "t" Cg Cw
    (λ k _ _, sample_gateway_steps k) (λ k _ _, rtc_refl _ _) eq_refl H); [exact Hn|exact Hh].
Defined.
