(* ===== verification/RolloutRetry.v ===== *)
(** The exit status of a rollout.  The pipeline that calls the receiver tries again when,
    and only when, it exits with status 75; what that status says about the host is proved
    here over [Rollout], the exit statuses of the backend's own methods included. *)
From S2P Require Import Prelude PyVal Tasks DeployChecks Rollout RolloutFacts.

(** What holds when [m] ends with an exception of status 75. *)
Definition ends75 {A} (P : dview → Prop) (m : D A) (U : dview → Prop) : Prop :=
  ∀ s t g s', P (view s) → m s = (DExc t 75 g, s') → U (view s').

(** The statuses [m] can end with. *)
Definition fails_with {A} (S : Z → Prop) (m : D A) : Prop := ∀ s t c g s', m s = (DExc t c g, s') → S c.

(** They do not include 75. *)
Definition never75 {A} (m : D A) : Prop := fails_with (λ c, c ≠ 75) m.

Lemma never75_ends {A} P U (m : D A) : never75 m → ends75 P m U.
Proof. intros H s t g s' _ E. by destruct (H s t 75 g s' E). Qed.

Lemma ends75_triple {A} P Q U X (m : D A) : dtriple P m Q U X → ends75 P m U.
Proof. intros H s t g s' HP E. specialize (H s HP). by rewrite E in H. Qed.

Lemma ends75_weaken {A} P P' U U' (m : D A) :
  ends75 P m U → (∀ v, P' v → P v) → (∀ v, U v → U' v) → ends75 P' m U'.
Proof. intros H HP HU s t g s' Hs E. eapply HU, H; [by apply HP|exact E]. Qed.

Lemma ends75_bind {A B} P (R : B → dview → Prop) U E X (m : D B) (k : B → D A) :
  ends75 P m U → dtriple P m R E X → (∀ b, ends75 (R b) (k b) U) → ends75 P (m ≫= k) U.
Proof.
  intros H1 H2 H3 s t g s' HP Hm. unfold mbind, d_bind in Hm. specialize (H2 s HP).
  destruct (m s) as [[b|t' c' g'|] s1] eqn:E1; [by eapply H3| |done]. simplify_eq. by eapply H1.
Qed.

(** An expression whose view is known all along. *)
Lemma ends75_look {A B} P U (m : D B) (k : B → D A) :
  looks m → (∀ v, P v → U v) → (∀ b, ends75 P (k b) U) → ends75 P (m ≫= k) U.
Proof.
  intros Hl HU Hk. eapply ends75_bind; [|by apply dt_look|exact Hk].
  eapply ends75_triple. by apply dt_look_in.
Qed.

Section statuses.
Context (S : Z → Prop) (H1 : S 1).

Lemma fails_raise {A} c msg : S c → fails_with S (d_raise (A := A) c msg).
Proof using. intros Hc s t c' g s' [= <- <- <- <-]. exact Hc. Qed.

Lemma fails_ret {A} (a : A) : fails_with S (mret a).
Proof using. by intros s t c g s' [=]. Qed.

Lemma fails_get : fails_with S d_get.
Proof using. by intros s t c g s' [=]. Qed.

Lemma fails_modify f : fails_with S (d_modify f).
Proof using. by intros s t c g s' [=]. Qed.

Lemma fails_require b msg : fails_with S (require b msg).
Proof using H1. destruct b; [apply fails_ret|by apply fails_raise]. Qed.

Lemma fails_try {A} (m h : D A) : fails_with S h → fails_with S (d_try m h).
Proof using.
  intros H s t c g s' E. unfold d_try in E. destruct (m s) as [[a|t' c' g'|] s1]; [done| |done]. by eapply H.
Qed.

Lemma fails_retry {A} (m h : D A) : fails_with S m → fails_with S h → fails_with S (d_retry m h).
Proof using.
  intros Hm H s t c g s' E. unfold d_retry in E. destruct (m s) as [[a|[] c' g'|] s1] eqn:E1; [done|by eapply H| |done].
  simplify_eq. by eapply Hm.
Qed.

Lemma fails_bind {A B} (m : D A) (k : A → D B) : fails_with S m → (∀ a, fails_with S (k a)) → fails_with S (m ≫= k).
Proof using.
  intros Hm Hk s t c g s' E. unfold mbind, d_bind in E. destruct (m s) as [[a|t' c' g'|] s1] eqn:E1; [by eapply Hk| |done].
  simplify_eq. by eapply Hm.
Qed.

Lemma fails_finally {A} (m : D A) f : fails_with S m → fails_with S f → fails_with S (d_finally m f).
Proof using.
  intros Hm Hf s t c g s' E. unfold d_finally in E. destruct (m s) as [[a|t' c' g'|] s1] eqn:E1; [| |done].
  all: destruct (f s1) as [[b|t2 c2 g2|] s2] eqn:E2; simplify_eq; try (by eapply Hf). by eapply Hm.
Qed.

Lemma fails_act ob f : fails_with S (act ob f).
Proof using H1. intros s t c g s' E. unfold act in E. destruct (do_fault ob (ds_clock s)); by simplify_eq. Qed.

Lemma fails_observe {A} ob (f : nat → A) : fails_with S (observe ob f).
Proof using H1. intros s t c g s' E. unfold observe in E. destruct (do_fault ob (ds_clock s)); by simplify_eq. Qed.

Lemma fails_backend {A} ob (m : D A) : (∀ k, S (do_backend_code ob k)) → fails_with S (backend_call ob m).
Proof using.
  intros Hb s t c g s' E. unfold backend_call in E. destruct (m s) as [[a|t' c' g'|] s1]; by simplify_eq.
Qed.
End statuses.

Section retry.
Context (target : Environment) (ob : dobs).

Lemma never75_act f : never75 (act ob f).
Proof using. by apply fails_act. Qed.

Lemma never75_rollback shared prev : never75 (rollback target ob shared prev).
Proof using. apply fails_bind; [by apply fails_try, fails_raise|intros _; by apply fails_raise]. Qed.

Section record.
Context (prev : platform) (shared : image_map).

(** The recovery record is written and the run knows it. *)
Definition begun_view (v : dview) : Prop := v_transaction v = Some prev ∧ v_begun v = true.
(** Nothing was replaced. *)
Definition idle_view (v : dview) : Prop := v_current v = prev ∧ v_pins v = shared ∧ v_services v = Untouched.

Lemma begun_about_admission : about_admission begun_view.
Proof using. intros v x c p H. exact H. Qed.
Lemma idle_about_services : about_services idle_view.
Proof using. intros v t c b k m f g H. exact H. Qed.

(** ** The record stays until [finish] *)

Definition keeps {A} (m : D A) : Prop := dtriple begun_view m (λ _, begun_view) begun_view begun_view.

Lemma kept_look {A} (m : D A) : looks m → keeps m.
Proof using. apply dt_look. Qed.
Lemma kept_ret {A} (a : A) : keeps (mret a).
Proof using. apply kept_look, looks_ret. Qed.
Lemma kept_bind {A B} (m : D A) (k : A → D B) : keeps m → (∀ a, keeps (k a)) → keeps (m ≫= k).
Proof using. intros Hm Hk. eapply dt_bind; [exact Hm|exact Hk]. Qed.
Lemma kept_try {A} (m h : D A) : keeps m → keeps h → keeps (d_try m h).
Proof using. intros Hm Hh. eapply dt_try; [exact Hm|exact Hh]. Qed.
Lemma kept_backend {A} (m : D A) : keeps m → keeps (backend_call ob m).
Proof using. apply dt_backend. Qed.
Lemma kept_modify f : (∀ s, begun_view (view s) → begun_view (view (f s))) → keeps (d_modify f).
Proof using. intros H. apply dt_modify, H. Qed.
Lemma kept_act f : (∀ h, h_transaction (f h) = h_transaction h) → keeps (act ob f).
Proof using.
  intros Hf. apply dt_act; [auto|]. intros s [H1 H2].
  assert (begun_view (view (with_host f s))); [|auto]. split; [simpl; by rewrite Hf|exact H2].
Qed.

Ltac keep :=
  repeat first
    [ solve [apply kept_ret] | solve [apply kept_look, looks_observe] | solve [apply kept_look, looks_get]
    | solve [apply kept_look, looks_raise] | solve [apply kept_look, looks_require]
    | solve [apply kept_look, looks_acknowledged] | solve [apply kept_look, looks_assert_protected]
    | solve [apply kept_act; reflexivity] | solve [apply kept_modify; intros ? Hk; exact Hk]
    | apply kept_try | apply kept_bind; [|intros ?] | apply kept_backend | case_match ].

Lemma kept_fence name : keeps (fence ob name).
Proof using. unfold fence. keep. Qed.

Lemma kept_wait_polls n : keeps (wait_polls ob n).
Proof using.
  induction n as [|n IH]; cbn [wait_polls]; keep. exact IH.
Qed.

Lemma kept_wait_idle : keeps (wait_idle ob).
Proof using. unfold wait_idle. keep. apply kept_wait_polls. Qed.

Lemma kept_begin_drain : keeps (begin_drain ob).
Proof using. unfold begin_drain. keep. Qed.

Lemma kept_unlink names : keeps (unlink_markers ob names).
Proof using. induction names as [|n names IH]; cbn [unlink_markers]; keep. exact IH. Qed.

Lemma kept_end_drain : keeps (end_drain ob).
Proof using. unfold end_drain. keep. Qed.

Lemma kept_replacement r images :
  keeps (d_try (replace target ob shared r images prev) (rollback target ob shared prev)).
Proof using.
  apply shut_replacement; [apply begun_about_admission|intros s H; exact H].
Qed.

(** ** Where status 75 comes from *)

Lemma idle_untouched v : untouched prev shared v → idle_view v.
Proof using. intros (H1 & H2 & H3 & _). split_and!; done. Qed.

(** The states in which the maintenance starts. *)
Definition ready_view (v : dview) : Prop := untouched prev shared v ∧ v_markers v = [].

Definition recorded_view (v : dview) : Prop :=
  untouched prev shared v ∧ v_markers v = [] ∧ v_transaction v = Some prev ∧ v_begun v = true.

Lemma ends75_maintain r images : ends75 ready_view (maintain target ob shared r images prev) idle_view.
Proof using.
  unfold maintain.
  eapply ends75_bind with (R := λ _ v, ready_view v ∧ v_transaction v = Some prev) (E := λ _, True) (X := λ _, True);
    [apply never75_ends, never75_act|apply dt_act; [auto|by intros s Hr; repeat split; apply Hr]|]. intros [].
  eapply ends75_bind with (R := λ _, recorded_view) (E := λ _, True) (X := λ _, True);
    [apply never75_ends, fails_modify|apply dt_modify; intros s [[H1 H2] H3]; by split_and!|]. intros [].
  eapply ends75_bind; [|apply dt_begin_drain|].
  { eapply ends75_weaken; [eapply ends75_triple, dt_begin_drain|intros v Hv; exact Hv|apply idle_untouched]. }
  intros []. eapply ends75_bind; [|apply dt_wait_idle|].
  { eapply ends75_weaken; [eapply ends75_triple, dt_wait_idle|intros v Hv; exact Hv|apply idle_untouched]. }
  intros []. apply never75_ends, fails_bind; [apply fails_modify|intros []].
  apply fails_bind; [by apply fails_observe|intros []]. apply fails_try, never75_rollback.
Qed.

(** However the maintenance ends, the record is there or nothing was replaced. *)
Lemma dt_maintain_record r images :
  dtriple ready_view (maintain target ob shared r images prev) (λ _, begun_view)
    (λ v, begun_view v ∨ idle_view v) (λ v, begun_view v ∨ idle_view v).
Proof using.
  assert (∀ v, ready_view v → idle_view v) as Hi by (intros v [H _]; by apply idle_untouched).
  assert (keeps (begin_drain ob ;; wait_idle ob ;; d_modify (set_resume_safe false) ;; observe ob (λ _, tt) ;;
    d_try (replace target ob shared r images prev) (rollback target ob shared prev))) as Hk.
  { apply kept_bind; [apply kept_begin_drain|intros []]. apply kept_bind; [apply kept_wait_idle|intros []].
    apply kept_bind; [by apply kept_modify|intros []]. apply kept_bind; [keep|intros []]. apply kept_replacement. }
  unfold maintain. eapply dt_bind with (R := λ _ v, ready_view v ∧ v_transaction v = Some prev).
  { apply dt_act; [auto|]. intros s H. split; [right; by apply (Hi (view s))|by split]. }
  intros []. eapply dt_bind with (R := λ _, begun_view); [apply dt_modify; intros s [_ H]; by split|].
  intros []. eapply dt_weaken; [exact Hk|auto..].
Qed.

Lemma ends75_reopen : ends75 begun_view (reopen ob) begun_view.
Proof using.
  unfold reopen. apply ends75_look; [apply looks_get|auto|]. intros s. case_match.
  2:{ eapply ends75_triple, kept_ret. }
  eapply ends75_bind; [eapply ends75_triple, kept_end_drain|apply kept_end_drain|]. intros [].
  apply ends75_look; [apply looks_get|auto|]. intros s'. apply never75_ends. case_match; [apply never75_act|apply fails_ret].
Qed.

(** The record is there, or nothing was replaced. *)
Definition record_or_idle (v : dview) : Prop := is_Some (v_transaction v) ∨ idle_view v.

Lemma begun_record_or_idle v : begun_view v → record_or_idle v.
Proof using. intros [H _]. left. rewrite H. by eexists. Qed.

Lemma ends75_body r images :
  ends75 ready_view (d_finally (maintain target ob shared r images prev) (reopen ob)) record_or_idle.
Proof using.
  intros s t g s' HP E. unfold d_finally in E.
  pose proof (dt_maintain_record r images s HP) as H1. pose proof (ends75_maintain r images s) as H2.
  destruct (maintain target ob shared r images prev s) as [[[]|t1 c1 g1|] s1]; [| |done].
  - destruct (reopen ob s1) as [[[]|t2 c2 g2|] s2] eqn:E2; simplify_eq.
    apply begun_record_or_idle. by eapply ends75_reopen.
  - pose proof (services_reopen ob idle_view idle_about_services s1) as H3.
    destruct (reopen ob s1) as [[[]|t2 c2 g2|] s2] eqn:E2; simplify_eq.
    + right. apply H3. by eapply H2.
    + destruct H1 as [H1|H1]; [|right; by apply H3]. apply begun_record_or_idle. by eapply ends75_reopen.
Qed.

Lemma ends75_run sha expected :
  ends75 (λ v, idle_view v ∧ v_markers v = []) (run target ob shared sha expected) record_or_idle.
Proof using.
  assert (∀ v, idle_view v ∧ v_markers v = [] → record_or_idle v) as Hacc by (intros v [H _]; by right).
  unfold run. apply ends75_look; [apply looks_archive|done|intros []].
  apply ends75_look; [apply looks_prepare|done|intros r].
  apply ends75_look; [apply looks_load|done|intros image].
  eapply ends75_bind with (R := λ p v, p = prev ∧ idle_view v ∧ v_markers v = []) (E := λ _, True) (X := λ _, True).
  - eapply ends75_triple, dt_look_in; [apply looks_previous|done..].
  - intros s Hs. pose proof (looks_previous target ob s) as Hl. pose proof (previous_reads target ob s) as Hr.
    destruct (previous target ob s) as [[p|t c g|] s']; [|done..]. simpl in Hl. rewrite Hl.
    split; [|exact Hs]. rewrite (Hr p eq_refl). apply Hs.
  - intros p s t g s' [-> HP]. revert s t g s' HP.
    change (ends75 (λ v, idle_view v ∧ v_markers v = []) (busy ← backend_call ob (observe ob (do_busy ob));
      (if busy : bool then d_raise 75 "Active jobs; retry platform deployment later" else mret tt) ;;
      d_modify (set_resume_safe true) ;; d_modify (set_begun false) ;;
      d_finally (maintain target ob shared r (map (λ s, (s, image)) SERVICES) prev) (reopen ob) ;;
      mret (map (λ s, (s, image)) SERVICES)) record_or_idle).
    apply ends75_look; [apply looks_asked|done|intros busy].
    apply ends75_look; [destruct busy; [apply looks_raise|apply looks_ret]|done|intros []].
    eapply ends75_bind with (R := λ _, ready_view) (E := λ _, True) (X := λ _, True);
      [apply never75_ends, fails_modify|apply dt_modify; intros s [(H1 & H2 & H3) H4]; by split_and!|intros []].
    eapply ends75_bind with (R := λ _, ready_view) (E := λ _, True) (X := λ _, True);
      [apply never75_ends, fails_modify|apply dt_modify; auto|intros []].
    eapply ends75_bind with (R := λ _ _, True) (E := λ _, True) (X := λ _, True); [apply ends75_body| |].
    + intros s _. by destruct (d_finally _ _ s) as [[|t c g|] s'].
    + intros []. apply never75_ends, fails_ret.
Qed.
End record.

(** Over a recovery record every rollout is refused. *)
Lemma record_refuses prev (s t : dstate) target' ob' sha' sum' :
  h_transaction (ds_host s) = Some prev → ds_host t = ds_host s →
  deploy target' ob' sha' sum' t = (DExc true 1 refusal, t).
Proof using. intros H Hh. unfold deploy, mbind, d_bind. simpl. rewrite Hh, H. done. Qed.

(** ** No failure has status 0 *)

Section nonzero.
Context (S : Z → Prop) (H1 : S 1) (H75 : S 75) (Hb : ∀ k, S (do_backend_code ob k)).

Ltac fails :=
  repeat first
    [ apply fails_raise; assumption | apply fails_ret | apply fails_get | apply fails_modify
    | apply fails_require; assumption | apply fails_act; assumption | apply fails_observe; assumption
    | apply fails_backend; assumption | apply fails_finally | apply fails_try | apply fails_retry
    | apply fails_bind; [|intros ?] | case_match ].

Lemma fails_wait_polls n : fails_with S (wait_polls ob n).
Proof using H1 H75 Hb. induction n as [|n IH]; cbn [wait_polls]; unfold acknowledged, fence, assert_protected; fails; exact IH. Qed.

Lemma fails_unlink names : fails_with S (unlink_markers ob names).
Proof using H1. induction names as [|n names IH]; cbn [unlink_markers]; fails; exact IH. Qed.

Lemma fails_reopen : fails_with S (reopen ob).
Proof using H1 Hb. unfold reopen, end_drain, finish. fails; apply fails_unlink. Qed.

Lemma fails_deploy sha expected : fails_with S (deploy target ob sha expected).
Proof using H1 H75 Hb.
  unfold deploy, run. apply fails_bind; [apply fails_get|intros s]. case_match; [fails|].
  apply fails_bind; [unfold validate_archive; fails|intros []].
  apply fails_bind; [unfold prepare, assert_platform_environment, assert_product_compatible, check_layout; fails|intros r].
  apply fails_bind; [unfold load; fails|intros image].
  apply fails_bind; [unfold previous, assert_protected; fails|intros p].
  do 4 (apply fails_bind; [fails|intros ?]). apply fails_bind; [|intros []; fails].
  apply fails_finally; [|apply fails_reopen]. unfold maintain, begin_transaction, begin_drain, wait_idle.
  apply fails_bind; [fails|intros []]. apply fails_bind; [fails|intros []]. apply fails_bind; [fails|intros []].
  apply fails_bind; [|intros []].
  { apply fails_bind; [fails|intros []]. apply fails_bind; [unfold fence; fails|intros []; apply fails_wait_polls]. }
  do 2 (apply fails_bind; [fails|intros []]). apply fails_try. unfold rollback.
  apply fails_bind; [apply fails_try|intros []]; fails.
Qed.
End nonzero.

(** Status 75 may be answered by trying again.  Whatever fails and whatever statuses
    the backend's own methods have, when a rollout ends with status 75 either nothing was
    replaced, the recorded platform, the pins and the (missing) recovery record are as
    they were, or the recovery record is there and every further rollout is refused, with a
    status that is not 75. *)
Theorem retry_status_is_safe sha expected s t g s' :
  fresh s → deploy target ob sha expected s = (DExc t 75 g, s') →
  (h_services (ds_host s') = Untouched ∧ h_current (ds_host s') = h_current (ds_host s) ∧
   h_pins (ds_host s') = h_pins (ds_host s) ∧ h_transaction (ds_host s') = h_transaction (ds_host s)) ∨
  ∀ target' ob' sha' sum' u, ds_host u = ds_host s' →
    deploy target' ob' sha' sum' u = (DExc true 1 refusal, u).
Proof using.
  intros [Hs Hm] H. unfold deploy, mbind, d_bind in H. simpl in H.
  destruct (h_transaction (ds_host s)) as [p|] eqn:Ht; [done|].
  destruct (ends75_run (h_current (ds_host s)) (h_pins (ds_host s)) sha expected s t g s') as [[p Hp]|(H1 & H2 & H3)];
    [by split_and!|exact H|..].
  - right. intros target' ob' sha' sum' u Hu. by apply (record_refuses p s').
  - destruct (h_transaction (ds_host s')) as [p|] eqn:Ht'.
    + right. intros target' ob' sha' sum' u Hu. by apply (record_refuses p s').
    + left. by split_and!.
Qed.
End retry.

(** ** A gateway that never drains, and a backend that then cannot be told to resume *)
Definition undrained_status : pyval :=
  PyDict [("protocol", PyInt 1); ("draining", PyBool true); ("drain_id", PyStr "t"); ("active", PyInt 1)]%string.

Definition undrained_obs (faults : nat → fault) : dobs :=
  let o := dev_obs faults 99 in
  mkDObs faults (do_archive o) (do_backend_current o) (do_backend_source o) (do_validator o)
    (do_digests o) (do_pipeline o) (do_head o) (do_dependencies_ok o) (do_source o) (do_layout o)
    (do_label o) (do_image o) (do_container o) (do_backend_image o) (do_busy o) (do_token o)
    (do_backend_idle o) (do_backend_status o) (do_backend_token o) (λ _, 75) (do_metrics o)
    (λ _, undrained_status) (do_worker o)
    (do_worker_env o) (do_ready o) (do_transport o) (do_drain_polls o) (do_health_polls o) (do_late o).

Definition undrained_run : dstate := (deploy dev (undrained_obs (λ _, Smooth)) "c0ffee" "sum" (dev_start [])).2.

Lemma retry_status_is_safe_witness :
  deploy dev (undrained_obs (λ _, Smooth)) "c0ffee" "sum" (dev_start [])
    = (DExc true 75 "Platform did not become idle; old services remain running", undrained_run) ∧
  h_services (ds_host undrained_run) = Untouched.
Proof.
  assert (deploy dev (undrained_obs (λ _, Smooth)) "c0ffee" "sum" (dev_start [])
    = (DExc true 75 "Platform did not become idle; old services remain running", undrained_run)) as H
    by (vm_compute; reflexivity).
  split; [exact H|].
  destruct (retry_status_is_safe dev (undrained_obs (λ _, Smooth)) "c0ffee" "sum" (dev_start []) true
    "Platform did not become idle; old services remain running" undrained_run (conj eq_refl eq_refl) H) as [Hl|Hr].
  - apply Hl.
  - assert (h_transaction (ds_host undrained_run) = None) as Hn by (vm_compute; reflexivity).
    vm_compute. reflexivity.
Defined.
