(* ===== verification/Receiver.v ===== *)
(** The receiver's process, [main] and [Runtime.__init__] of
    [src/deploy/ci/deploy_platform.py]: from the restricted SSH command over the host lock
    and the receipt of the archive to the rollout and the exit status. *)
From S2P Require Import Prelude PyVal Tasks DeployChecks Rollout RolloutFacts RolloutRetry.

(** ** What the process finds *)

Inductive lock_result := LockTaken | LockBusy | LockError.

#[export] Instance lock_result_eq_dec : EqDecision lock_result.
Proof. solve_decision. Defined.

(** Files are [None] when they cannot be read as JSON. *)
Record receiver_obs := mkReceiverObs {
  ro_command : string;                        (* SSH_ORIGINAL_COMMAND *)
  ro_config : Environment → option pyval;     (* the platform's config of an environment *)
  ro_shared : string → option pyval;          (* the backend's, by its path *)
  ro_shared_again : string → option pyval;    (* and as Runtime reads it *)
  ro_path : string → string;                  (* the normal form of a Path *)
  ro_lock : lock_result;
  ro_free : Z;                                (* disk_usage(root).free *)
  ro_blocks : list Z;                         (* the sizes of the blocks on standard input *)
  ro_input_fails : bool;                      (* reading or writing then raises *)
  ro_stored : bool;                           (* os.replace succeeds *)
  ro_receiver_digest : option string;         (* of the backend's receiver *)
  ro_backend_loads : bool;                    (* its module loads and both digests can be read *)
  ro_removed : bool;                          (* archive.unlink succeeds *)
}.

Definition MAX_ARCHIVE : Z := 2 * 1024 ^ 3.
Definition MIN_FREE : Z := 6 * 1024 ^ 3.

(** The two files the process writes, by their size, and the rest of the host. *)
Record receiver_state := mkReceiver {
  rv_partial : option Z;
  rv_archive : option Z;
  rv_rollout : dstate;
}.

Definition with_files (p a : option Z) (s : receiver_state) : receiver_state := mkReceiver p a (rv_rollout s).

(** The exit status, or death by a signal that cannot be caught. *)
Inductive receiver_exit := Exit (status : Z) | Killed.

Section receiver.
Context (ro : receiver_obs) (ob : dobs).

(** ** The steps of [main] *)

(** The requested environment, once both configurations name it. *)
Definition receiver_target : option (Environment * pyval * string * string) :=
  '(name, sha, expected) ← parse_command (ro_command ro);
  env ← environment_of name;
  config ← ro_config ro env;
  match pyval_get config "backend_config" PyNone with
  | PyStr path =>
      shared ← ro_shared ro path;
      match validate_environment (ro_path ro) config shared (Some name) with
      | inl target => Some (target, config, sha, expected)
      | inr _ => None
      end
  | _ => None
  end.

(** The loop over the blocks: the bytes written, and whether the input ended. *)
Fixpoint receive (count : Z) (blocks : list Z) : Z * bool :=
  match blocks with
  | [] => (count, negb (ro_input_fails ro))
  | b :: blocks' =>
      if b =? 0 then (count, true)
      else if MAX_ARCHIVE <? count + b then (count, false)
      else receive (count + b) blocks'
  end.

(** [Runtime(config)], before the check for an unfinished transaction. *)
Definition runtime_init (config : pyval) : option Environment :=
  match pyval_get config "backend_config" PyNone with
  | PyStr path =>
      shared ← ro_shared_again ro path;
      match validate_environment (ro_path ro) config shared None with
      | inr _ => None
      | inl target =>
          digest ← ro_receiver_digest ro;
          if py_eq_str (pyval_get config "backend_receiver_sha256" PyNone) digest && ro_backend_loads ro
          then Some target else None
      end
  | _ => None
  end.

(** [main] with the lock held: the archive, the rollout, and the [finally] clause. *)
Definition receive_and_run (config : pyval) (sha expected : string) (s : receiver_state)
    : receiver_exit * receiver_state :=
  let '(count, whole) := receive 0 (ro_blocks ro) in
  if negb (whole && ro_stored ro) then (Exit 1, with_files None (rv_archive s) s)
  else
    let s := with_files None (Some count) s in
    match runtime_init config with
    | None => (Exit 1, s)
    | Some target =>
        let '(o, d) := deploy target ob sha expected (rv_rollout s) in
        let s := mkReceiver (rv_partial s) (rv_archive s) d in
        match o with
        | DRet _ => if ro_removed ro then (Exit 0, with_files None None s) else (Exit 1, s)
        | DExc _ code _ => (Exit code, s)
        | DDead => (Killed, s)
        end
    end.

(** [main] and the handler of the script. *)
Definition receiver_main (s : receiver_state) : receiver_exit * receiver_state :=
  match receiver_target with
  | None => (Exit 1, s)
  | Some (_, config, sha, expected) =>
      match ro_lock ro with
      | LockError => (Exit 1, s)
      | LockBusy => (Exit 75, s)
      | LockTaken =>
          if ro_free ro <? MIN_FREE then (Exit 1, s)
          else receive_and_run config sha expected s
      end
  end.

(** ** What reaches the rollout *)

Lemma receive_bounds count blocks :
  Forall (λ b, 0 <= b) blocks → 0 <= count <= MAX_ARCHIVE → count <= (receive count blocks).1 <= MAX_ARCHIVE.
Proof using.
  intros H. revert count. induction H as [|b blocks Hb _ IH]; intros count Hc; simpl; [lia|].
  destruct (b =? 0); [simpl; lia|]. destruct (MAX_ARCHIVE <? count + b) eqn:E; [simpl; lia|].
  zbool. specialize (IH (count + b) ltac:(lia)). lia.
Qed.

(** The blocks up to the end of the input. *)
Fixpoint input_bytes (blocks : list Z) : Z :=
  match blocks with b :: blocks' => if b =? 0 then 0 else b + input_bytes blocks' | [] => 0 end.

Lemma receive_whole count blocks n : receive count blocks = (n, true) → n = count + input_bytes blocks.
Proof using.
  revert count. induction blocks as [|b blocks IH]; intros count; simpl.
  - intros [= -> _]. lia.
  - destruct (b =? 0); [intros [= ->]; lia|]. destruct (MAX_ARCHIVE <? count + b); [done|].
    intros H. apply IH in H. lia.
Qed.

(** The environment that was asked for is the configured one. *)
Lemma validate_target sh cfg req t :
  validate_environment (ro_path ro) cfg sh req = inl t →
  ∃ n, pyval_get cfg "environment" (PyStr "dev") = PyStr n ∧ environment_of n = Some t ∧ (req = None ∨ req = Some n).
Proof using.
  unfold validate_environment. destruct (pyval_get cfg "environment" (PyStr "dev")) as [| | | |n| |]; try done.
  destruct (environment_of n) as [e|] eqn:Ee; [|done]. destruct (bool_decide (req ≠ None) && _) eqn:Er; [done|].
  intros H. exists n. split; [done|]. split; [rewrite Ee; clear Er Ee; repeat (case_match; try done); by simplify_eq|].
  apply andb_false_iff in Er as [Er|Er]; [left; apply bool_decide_eq_false in Er; destruct req; [by destruct Er|done]|right].
  by apply negb_false_iff, bool_decide_eq_true in Er.
Qed.

(** The same environment, the second time it is checked. *)
Lemma runtime_init_target target config sha expected target' :
  receiver_target = Some (target, config, sha, expected) → runtime_init config = Some target' → target' = target.
Proof using.
  unfold receiver_target, runtime_init. intros H1 H2.
  destruct (parse_command (ro_command ro)) as [[[name sha0] sum0]|]; [|done]. cbn [mbind option_bind] in H1.
  destruct (environment_of name) as [env|]; [|done]. cbn [mbind option_bind] in H1.
  destruct (ro_config ro env) as [cfg|]; [|done]. cbn [mbind option_bind] in H1.
  destruct (pyval_get cfg "backend_config" PyNone) eqn:Ep; try done.
  destruct (ro_shared ro s) as [sh|]; [|done]. cbn [mbind option_bind] in H1.
  destruct (validate_environment (ro_path ro) cfg sh (Some name)) eqn:E1; [|done].
  injection H1 as <- <- <- <-. rewrite Ep in H2.
  destruct (ro_shared_again ro s) as [sh2|]; [|done]. cbn [mbind option_bind] in H2.
  destruct (validate_environment (ro_path ro) cfg sh2 None) eqn:E2; [|done].
  apply validate_target in E1 as (n1 & H1 & H1' & _). apply validate_target in E2 as (n2 & H3 & H3' & _). rewrite H1 in H3. simplify_eq.
  destruct (ro_receiver_digest ro); [|done]. cbn [mbind option_bind] in H2.
  destruct (_ && _); [|done]. by simplify_eq.
Qed.

(** What a rollout that was started had behind it: an exact command for the environment
    the configuration names, the host lock, free space, and a whole archive within the
    limit. *)
Record admitted (target : Environment) (sha expected : string) (s' : receiver_state) : Prop := {
  ad_command : ∃ name, parse_command (ro_command ro) = Some (name, sha, expected) ∧ environment_of name = Some target;
  ad_lock : ro_lock ro = LockTaken;
  ad_free : MIN_FREE <= ro_free ro;
  ad_size : input_bytes (ro_blocks ro) <= MAX_ARCHIVE;
  ad_archive : rv_archive s' = None ∨ rv_archive s' = Some (input_bytes (ro_blocks ro));
  ad_partial : rv_partial s' = None;
}.

(** Either [main] leaves the rollout's world alone, and raises, or it ran one rollout. *)
Lemma receiver_main_cases s x s' :
  Forall (λ b, 0 <= b) (ro_blocks ro) → receiver_main s = (x, s') →
  (rv_rollout s' = rv_rollout s ∧ (x = Exit 1 ∨ (x = Exit 75 ∧ s' = s))) ∨
  ∃ target sha expected, admitted target sha expected s' ∧
    let '(o, d) := deploy target ob sha expected (rv_rollout s) in
    rv_rollout s' = d ∧
    match o with
    | DRet _ => x = Exit 1 ∨ (x = Exit 0 ∧ rv_archive s' = None)
    | DExc _ code _ => x = Exit code
    | DDead => x = Killed
    end.
Proof using.
  intros Hb H. unfold receiver_main in H.
  destruct receiver_target as [[[[env config] sha] expected]|] eqn:Et; [|simplify_eq; auto].
  destruct (ro_lock ro) eqn:El; [|simplify_eq; auto..].
  destruct (ro_free ro <? MIN_FREE) eqn:Ef; [simplify_eq; auto|]. zbool. unfold receive_and_run in H.
  pose proof (receive_bounds 0 (ro_blocks ro) Hb ltac:(unfold MAX_ARCHIVE; lia)) as Hr.
  pose proof (receive_whole 0 (ro_blocks ro)) as Hw.
  destruct (receive 0 (ro_blocks ro)) as [count whole]. destruct (negb (whole && ro_stored ro)) eqn:En; [simplify_eq; auto|].
  apply negb_false_iff, andb_true_iff in En as [-> _]. specialize (Hw count eq_refl). simpl in Hr.
  destruct (runtime_init config) as [target|] eqn:Ei; [|simplify_eq; auto].
  rewrite (runtime_init_target _ _ _ _ _ Et Ei) in H.
  assert (∃ name, parse_command (ro_command ro) = Some (name, sha, expected) ∧ environment_of name = Some env) as Hn.
  { clear -Et. unfold receiver_target in Et.
    destruct (parse_command (ro_command ro)) as [[[name sha0] sum0]|]; [|done]. cbn [mbind option_bind] in Et.
    destruct (environment_of name) as [e|] eqn:Ee; [|done]. cbn [mbind option_bind] in Et.
    destruct (ro_config ro e) as [cfg|]; [|done]. cbn [mbind option_bind] in Et.
    destruct (pyval_get cfg "backend_config" PyNone); try done.
    destruct (ro_shared ro _) as [sh|]; [|done]. cbn [mbind option_bind] in Et.
    destruct (validate_environment _ _ _ _) as [t|] eqn:Ev; [|done]. simplify_eq.
    apply validate_target in Ev as (n & _ & Hn & [|]); [done|]. simplify_eq. by exists n. }
  right. exists env, sha, expected. simpl in H.
  destruct (deploy env ob sha expected (rv_rollout s)) as [o d].
  assert (∀ a, a = None ∨ a = Some count → admitted env sha expected (mkReceiver None a d)) as Ha.
  { intros a Ha. split; simpl; try done; [lia|]. rewrite Hw in Ha. by rewrite Z.add_0_l in Ha. }
  destruct o as [images|t code g|]; [destruct (ro_removed ro)|..]; simplify_eq; (split; [apply Ha; auto|auto]).
Qed.

(** C26. The exit status of the receiver can be trusted, if the backend's own errors never
    have status 0.  A rollout only starts from an
    exact command for the environment the configuration names, under the host lock, with
    space left and the whole archive received within the limit.  Status 0 means that the
    new platform runs, is recorded and pinned; status 75, the one the pipeline answers by
    trying again, that nothing was replaced or that another try is refused; and whatever
    the status, even if the process is killed, the recorded platform runs or admission is
    closed behind a recovery record, unless an exception arrived after the rollout had set
    [resume_safe] again and before it had left its [try], and then the status is not 0. *)
Theorem receiver_exit_status s x s' :
  (∀ k, do_backend_code ob k ≠ 0) → fresh (rv_rollout s) → Forall (λ b, 0 <= b) (ro_blocks ro) → receiver_main s = (x, s') →
  let before := ds_host (rv_rollout s) in
  let after := ds_host (rv_rollout s') in
  (rv_rollout s' = rv_rollout s ∨ ∃ target sha expected, admitted target sha expected s') ∧
  (x = Exit 0 → rv_archive s' = None ∧ ∃ target r images,
     rollout_done target (h_current before) (h_pins before) r images (view (rv_rollout s'))) ∧
  (x = Exit 75 →
     (h_services after = Untouched ∧ h_current after = h_current before ∧ h_pins after = h_pins before ∧
      h_transaction after = h_transaction before) ∨
     ∀ target' ob' sha' sum' u, ds_host u = after → deploy target' ob' sha' sum' u = (DExc true 1 refusal, u)) ∧
  ((∃ target, secured target (h_current before) (h_pins before) (view (rv_rollout s'))) ∨
   (late_exception ob ∧ x ≠ Exit 0)).
Proof using.
  intros Hcode Hf Hb H before after. pose proof Hf as [Hs Hm]. destruct (receiver_main_cases s x s' Hb H) as [[E Hx]|Hrun].
  - unfold after. rewrite E. split_and!; [by left|by destruct Hx as [->|[-> _]]| |].
    + intros _. left. by split_and!.
    + left. exists (default dev (environment_of "dev")). left. left. split_and!; auto.
  - destruct Hrun as (target & sha & expected & Ha & Hd).
    pose proof (deploy_secured target ob sha expected (rv_rollout s) Hf) as Hsec.
    pose proof (deploy_done target ob sha expected (rv_rollout s)) as Hdone.
    pose proof (fails_deploy target ob (λ n, n ≠ 0) ltac:(done) ltac:(done) Hcode sha expected (rv_rollout s)) as Hnz.
    pose proof (retry_status_is_safe target ob sha expected (rv_rollout s)) as Hretry.
    destruct (deploy target ob sha expected (rv_rollout s)) as [o d]. destruct Hd as [Ed Ho]. simpl in Hsec.
    unfold after. rewrite Ed. split_and!; [right; eauto| | |].
    + intros ->. destruct o as [images|t code g|]; [|injection Ho as <-|done].
      * destruct Ho as [Ho|[_ Ho]]; [done|]. split; [done|]. destruct (Hdone d images Hf eq_refl) as [r Hr]. eauto.
      * by destruct (Hnz t 0 g d eq_refl).
    + intros ->. destruct o as [images|t code g|]; [by destruct Ho as [|[]]|injection Ho as <-|done].
      by eapply Hretry.
    + destruct Hsec as [Hsec|[Hl Ho']]; [left; by exists target|right; split; [done|intros ->]].
      destruct o as [images|t code g|]; [by destruct (Ho' images)|injection Ho as <-|done].
      by destruct (Hnz t 0 g d eq_refl).
Qed.
End receiver.

(** ** A deployment to the development environment, received in two blocks *)
Definition sample_sha : string := "0123456789abcdef0123456789abcdef01234567".
Definition sample_sum : string := "0123456789abcdef0123456789abcdef0123456789abcdef0123456789abcdef".

Definition sample_platform_config : pyval :=
  PyDict [("environment", PyStr "dev"); ("state_dir", PyStr (en_state_dir dev));
          ("backend_config", PyStr (en_backend_config dev)); ("backend_receiver_sha256", PyStr "d")]%string.
Definition sample_backend_config : pyval :=
  PyDict [("state_dir", PyStr (en_backend_state dev)); ("repo", PyStr "/repo")]%string.

Definition sample_receiver : receiver_obs :=
  mkReceiverObs ("deploy-platform " +:+ sample_sha +:+ " " +:+ sample_sum)
    (λ _, Some sample_platform_config) (λ _, Some sample_backend_config) (λ _, Some sample_backend_config)
    (λ s, s) LockTaken (7 * 1024 ^ 3) [1048576; 1000] false true (Some "d"%string) true true.

Definition sample_rollout_obs : dobs :=
  let o := dev_obs (λ _, Smooth) 40 in
  mkDObs (λ _, Smooth)
    (λ _, (sample_sum, Some (PyList [PyDict [("RepoTags", PyList [PyStr ("synthx-platform:" +:+ sample_sha)])]%string])))
    (do_backend_current o) (do_backend_source o) (do_validator o)
    (do_digests o) (do_pipeline o) (λ _, sample_sha) (do_dependencies_ok o)
    (λ _, ("/r/compose.platform.yml"%string, sample_sha)) (do_layout o)
    (λ _, (Some sample_sha, "amd64"%string)) (do_image o) (do_container o) (do_backend_image o) (do_busy o) (do_token o)
    (do_backend_idle o) (do_backend_status o) (do_backend_token o) (do_backend_code o) (do_metrics o)
    (do_gateway o) (do_worker o)
    (do_worker_env o) (do_ready o) (do_transport o) (do_drain_polls o) (do_health_polls o) (do_late o).

Definition sample_before : receiver_state := mkReceiver None None (dev_start []).
Definition sample_after : receiver_state := (receiver_main sample_receiver sample_rollout_obs sample_before).2.

Lemma receiver_exit_status_witness :
  receiver_main sample_receiver sample_rollout_obs sample_before = (Exit 0, sample_after) ∧
  rv_archive sample_after = None ∧
  ∃ target r images, rollout_done target (h_current (ds_host (dev_start []))) (h_pins (ds_host (dev_start []))) r images
    (view (rv_rollout sample_after)).
Proof.
  assert (receiver_main sample_receiver sample_rollout_obs sample_before = (Exit 0, sample_after)) as H
    by (vm_compute; reflexivity).
  split; [exact H|].
  apply (receiver_exit_status sample_receiver sample_rollout_obs sample_before (Exit 0) sample_after); try exact H; try reflexivity.
  - intros k. vm_compute. discriminate.
  - split; reflexivity.
  - repeat constructor; lia.
Defined.
