(* ===== verification/HostPlan.v ===== *)
(** The scripts beside the receiver in [src/deploy/ci/]: [prepare_host.py], which inspects a
    running host and proposes the state the receiver starts from, [release_status.py], which
    turns the results of a release into its status, and the guard of [run_tests.py]. *)
From stdpp Require Import pretty.
From S2P Require Import Prelude PyVal Tasks TextWorker DeployChecks Rollout RolloutFacts Receiver.

(** ** Inspections that raise *)

(** A value, or the exception raised on the way to it. *)
Definition inspection (A : Type) : Type := (A + string)%type.

#[export] Instance inspection_ret : MRet inspection := λ A a, inl a.
#[export] Instance inspection_bind : MBind inspection := λ A B k m,
  match m with inl a => k a | inr e => inr e end.

Definition refuse {A} (e : string) : inspection A := inr e.
Definition expect (b : bool) (e : string) : inspection () := if b then mret tt else refuse e.

Lemma inspection_bind_inl {A B} (m : inspection A) (k : A → inspection B) b :
  m ≫= k = inl b ↔ ∃ a, m = inl a ∧ k a = inl b.
Proof. destruct m as [a|e]; simpl; naive_solver. Qed.

Lemma expect_inl b e u : expect b e = inl u ↔ b = true.
Proof. destruct u, b; simpl; naive_solver. Qed.

(** [v[k]] and [v.get(k, default)] of a decoded document. *)
Definition index (v : pyval) (k : string) : inspection pyval :=
  match v with
  | PyDict d => match dict_lookup d k with Some x => mret x | None => refuse "KeyError" end
  | _ => refuse "TypeError"
  end.
Definition get_item (v : pyval) (k : string) (default : pyval) : inspection pyval :=
  match v with PyDict d => mret (dict_get d k default) | _ => refuse "AttributeError" end.

(** [set(v) == {s}] for a collection of names. *)
Definition only_name (v : pyval) (s : string) : inspection bool :=
  match v with
  | PyDict d => mret (has_exactly d [s])
  | PyList [] | PyStr _ => mret false
  | PyList l => mret (forallb (λ x, py_eq_str x s) l)
  | _ => refuse "TypeError"
  end.

(** ** [adoption_plan] *)

(** The body of the first loop: a container runs on the one network. *)
Definition check_attached (network : string) (item : pyval) : inspection () :=
  let msg := "Existing required services must be running on the selected private network"%string in
  state ← index item "State";
  running ← index state "Running";
  expect (py_truthy running) msg ;;
  settings ← index item "NetworkSettings";
  networks ← index settings "Networks";
  only ← only_name networks network;
  expect only msg.

Fixpoint check_all {A} (check : A → inspection ()) (l : list A) : inspection () :=
  match l with [] => mret tt | x :: l' => check x ;; check_all check l' end.

Definition port_bindings (item : pyval) : inspection pyval :=
  settings ← index item "HostConfig"; get_item settings "PortBindings" PyNone.

(** The one binding the gateway may have. *)
Definition gateway_binding (target : Environment) : pyval :=
  PyDict [("8000/tcp", PyList [PyDict [("HostIp", PyStr "127.0.0.1");
                                       ("HostPort", PyStr (pretty (en_gateway_port target)))]])]%string.

Definition check_ports (target : Environment) (gateway worker : pyval) : inspection () :=
  let msg := "Gateway/text adapter bindings differ from approved private layout"%string in
  bound ← port_bindings gateway;
  expect (py_eq (if py_truthy bound then bound else PyDict []) (gateway_binding target)) msg ;;
  others ← port_bindings worker;
  expect (negb (py_truthy others)) msg.

(** A mount that is bound and not writable. *)
Definition inspected_read_only (m : pyval) : bool :=
  py_eq_str (pyval_get m "Type" PyNone) "bind" &&
  match pyval_get m "RW" PyNone with PyBool false => true | _ => false end.

(** The body of the second loop. *)
Definition check_mounts (control : string) (target : Environment) (name : string) (item : pyval) : inspection () :=
  let msg := "Ready adoption requires approved read-only maintenance and CA mounts"%string in
  let expected := expected_mounts control (bool_decide (en_name target = "staging"%string)) name in
  mounts ← get_item item "Mounts" (PyList []);
  match mounts with
  | PyList l =>
      expect (bool_decide (length l = length expected)) msg ;;
      expect (forallb is_dict l) "AttributeError" ;;
      expect (mounts_match "Source" "Destination" inspected_read_only expected l) msg
  | PyDict d => expect (bool_decide (length d = length expected)) msg ;; refuse "AttributeError"
  | PyStr t => expect (bool_decide (length (chars_of t) = length expected)) msg ;; refuse "AttributeError"
  | _ => refuse "TypeError"
  end.

(** [containers] maps the names to what [docker inspect] says of them. *)
Definition adoption_plan (containers : list (string * pyval)) (protocol_ready : bool) (control : option string)
    (environment : string) : inspection pyval :=
  match environment_of environment with
  | None => refuse "Environment must be staging or dev"
  | Some target =>
      let control := match control with
                     | Some c => if bool_decide (c = EmptyString) then control_dir target else c
                     | None => control_dir target
                     end in
      let inspected name := index (PyDict containers) name in
      let gateway := container_of target "gateway" in
      let worker := container_of target "text-worker" in
      check_all (λ name, item ← inspected name; check_attached (en_network target) item)
        [gateway; worker; en_backend_container target; en_tunnel_container target] ;;
      g ← inspected gateway;
      w ← inspected worker;
      check_ports target g w ;;
      (if protocol_ready
       then check_all (λ s, item ← inspected (container_of target s); check_mounts control target s item)
              ["gateway"; "text-worker"]%string
       else mret tt) ;;
      gateway_image ← index g "Image";
      worker_image ← index w "Image";
      mret (PyDict [("sha", PyStr "adopted");
                    ("compose", PyStr (en_state_dir target +:+ "/bootstrap/compose.platform.yml"));
                    ("images", PyDict [("gateway", gateway_image); ("text-worker", worker_image)]);
                    ("bootstrap_required", PyBool (negb protocol_ready))]%string)
  end.

(** ** [protocol_ready]

    An answer is [None] when it cannot be fetched or is no JSON. *)
Definition status_ready (s : pyval) : inspection bool :=
  protocol ← get_item s "protocol" PyNone;
  if negb (py_eq protocol (PyInt 1)) then mret false
  else
    active ← get_item s "active" PyNone;
    if negb (py_eq active (PyInt 0)) then mret false
    else
      draining ← get_item s "draining" PyNone;
      mret match draining with PyBool false => true | _ => false end.

Definition protocol_ready (gateway worker : option pyval) : inspection bool :=
  match gateway, worker with
  | Some g, Some w => ready ← status_ready g; if (ready : bool) then status_ready w else mret false
  | _, _ => mret false
  end.

(** ** [main] *)

Record host_obs := mkHostObs {
  ho_path : string → string;                    (* the normal form of a Path *)
  ho_backend_config : string → option pyval;    (* the backend's configuration, by its path *)
  ho_receiver_digest : option string;           (* of the backend's receiver *)
  ho_inspect : string → option pyval;           (* what docker says of a container *)
  ho_backend_current : string → option pyval;   (* current.json, by its directory *)
  ho_gateway : option pyval;                    (* /health/deployment of the gateway *)
  ho_worker : option pyval;                     (* and of the adapter *)
  ho_output_exists : bool;
}.

Record proposal := mkProposal {
  pr_config : pyval;             (* config.json *)
  pr_current : pyval;            (* current.json *)
  pr_images : pyval;             (* images.json *)
  pr_copied : list string;
  pr_summary : pyval;
}.

Definition found {A} (o : option A) (e : string) : inspection A :=
  match o with Some a => mret a | None => refuse e end.

Definition REPO : string := "/home/ubuntu/services/Latency-aware-inference-system".
Definition BACKEND_RECEIVER : string := "/usr/local/lib/synthx-ci/deploy_backend.py".

Definition host_config (target : Environment) (digest : string) : pyval :=
  PyDict [("environment", PyStr (en_name target)); ("repo", PyStr REPO);
          ("state_dir", PyStr (en_state_dir target)); ("backend_config", PyStr (en_backend_config target));
          ("backend_receiver", PyStr BACKEND_RECEIVER); ("backend_receiver_sha256", PyStr digest);
          ("drain_timeout_seconds", PyInt 300)]%string.

(** The comprehension over the container names. *)
Fixpoint inspect_all (ob : host_obs) (names : list string) : inspection (list (string * pyval)) :=
  match names with
  | [] => mret []
  | n :: names' =>
      item ← found (ho_inspect ob n) "CalledProcessError";
      rest ← inspect_all ob names';
      mret (dict_set rest n item)
  end.

(** The loop over the backend's pins. *)
Definition check_pins (containers : list (string * pyval)) (pins : pyval) : inspection () :=
  match pins with
  | PyDict d =>
      check_all (λ '(name, image),
        match dict_lookup containers name with
        | Some item =>
            running ← index item "Image";
            expect (py_eq running image) "Platform/tunnel differs from the backend release pins"
        | None => refuse "Platform/tunnel differs from the backend release pins"
        end) d
  | _ => refuse "AttributeError"
  end.

Definition services_of (images : pyval) : list (string * pyval) :=
  match images with PyDict d => map (λ '(s, image), (s, PyDict [("image"%string, image)])) d | _ => [] end.

Definition prepare_host (environment : string) (ob : host_obs) : inspection proposal :=
  target ← found (environment_of environment) "SystemExit";
  shared ← found (ho_backend_config ob (en_backend_config target)) "backend configuration";
  digest ← found (ho_receiver_digest ob) "backend receiver";
  let config := host_config target digest in
  _ ← match validate_environment (ho_path ob) config shared (Some (en_name target)) with
      | inl t => mret t
      | inr e => refuse e
      end;
  containers ← inspect_all ob (dict_values (en_containers target) ++ [en_backend_container target; en_tunnel_container target]);
  pins ← index shared "dependency_images";
  check_pins containers pins ;;
  state_dir ← index shared "state_dir";
  backend ← match state_dir with
            | PyStr d => found (ho_backend_current ob d) "current.json"
            | _ => refuse "TypeError"
            end;
  item ← index (PyDict containers) (en_backend_container target);
  running ← index item "Image";
  recorded ← index backend "image";
  expect (py_eq running recorded) "Backend is not its recorded CI/CD image" ;;
  ready ← protocol_ready (ho_gateway ob) (ho_worker ob);
  current ← adoption_plan containers ready None (en_name target);
  expect (negb (ho_output_exists ob)) "FileExistsError" ;;
  images ← index current "images";
  bootstrap ← index current "bootstrap_required";
  mret (mkProposal config current
          (PyDict [("services", PyDict (services_of images))]%string)
          ("compose.platform.yml" ::
             if bool_decide (en_name target = "staging"%string) then ["compose.platform.staging.yml"] else [])%string
          (PyDict [("bootstrap_required", bootstrap); ("environment", PyStr (en_name target));
                   ("services_changed", PyBool false)]%string)).

(** ** [release_status.py] *)

(** The variables of the job, unset ones being empty or other than [true]. *)
Record release_env := mkReleaseEnv {
  re_target : string;
  re_deploy : string;
  re_image : string;
  re_tests : string;
  re_staging_enabled : bool;     (* STAGING_DEPLOY_ENABLED == 'true' *)
  re_dev_enabled : bool;         (* DEV_DEPLOY_ENABLED *)
  re_dev_ready : bool;           (* DEV_CUTOVER_READY *)
  re_revision : string;
}.

Definition release_reason (e : release_env) : string :=
  if negb (bool_decide (re_target e ∈ ["staging"; "dev"]%string)) then "Unsupported deployment target."
  else if bool_decide (re_target e = "staging"%string) && negb (re_staging_enabled e)
  then "Main was not deployed: INFERENCE_STAGING_DEPLOY_ENABLED is not true."
  else if bool_decide (re_target e = "dev"%string) && (negb (re_dev_enabled e) || negb (re_dev_ready e))
  then "Manual dev deployment requires INFERENCE_DEPLOY_ENABLED and INFERENCE_TEXT_V123_CUTOVER_READY."
  else if existsb (λ r, negb (bool_decide (r = "success"%string))) [re_tests e; re_image e; re_deploy e]
  then "Main was not deployed successfully. Inspect test, image and deployment jobs."
  else EmptyString.

Definition release_summary (e : release_env) : string :=
  let head := ("### " +:+ re_target e +:+ " release" +:+ newline +:+ "Revision: " +:+ re_revision e +:+ newline
    +:+ "Tests: " +:+ re_tests e +:+ newline +:+ "Image build: " +:+ re_image e +:+ newline
    +:+ "Deployment: " +:+ re_deploy e +:+ newline)%string in
  if bool_decide (release_reason e = EmptyString)
  then (head +:+ "The deployment receiver verified the running image and readiness." +:+ newline)%string
  else (head +:+ "This revision has NOT been confirmed running in " +:+ re_target e +:+ "." +:+ newline)%string.

(** The exit status and the text appended to the step's summary. *)
Definition release_main (e : release_env) : Z * string :=
  (if bool_decide (release_reason e = EmptyString) then 0 else 1, release_summary e).

(** ** [run_tests.py] *)

(** [urlsplit]: the scheme, the host name and the path. *)
Definition validate_test_database (urlsplit : string → string * option string * string) (url : string)
    : inspection string :=
  let '(scheme, hostname, path) := urlsplit url in
  if negb (bool_decide (scheme ∈ ["postgres"; "postgresql"]%string))
     || negb match hostname with
             | Some h => bool_decide (h ∈ ["127.0.0.1"; "localhost"; "::1"]%string)
             | None => false
             end
     || negb (String.prefix "/synthx_platform_ci" path)
  then refuse "CI requires a loopback database named synthx_platform_ci*"
  else mret url.

(** What the script does to a database: nothing, or the connections it opens, in order,
    and whether the schema is created; then the exit status. *)
Definition run_tests (urlsplit : string → string * option string * string) (url : string)
    (table_exists : bool) (successful : bool) (skipped : nat) : list string * bool * inspection Z :=
  match validate_test_database urlsplit url with
  | inr e => ([], false, inr e)
  | inl url => ([url], negb table_exists, inl (if successful && (skipped =? 0)%nat then 0 else 1))
  end.

(** ** What a plan says of the host it was made for *)

Lemma check_all_inl {A} (check : A → inspection ()) l :
  check_all check l = inl tt ↔ ∀ x, x ∈ l → check x = inl tt.
Proof.
  induction l as [|x l IH]; simpl; [split; [intros _ x Hx; by apply not_elem_of_nil in Hx|done]|].
  rewrite inspection_bind_inl. setoid_rewrite elem_of_cons. split.
  - intros ([] & Hx & Hl) y [->|Hy]; [done|]. by apply IH.
  - intros H. exists tt. split; [apply H; by left|]. apply IH. intros y Hy. apply H. by right.
Qed.

(** The container runs and its only network is this one. *)
Definition attached (network : string) (item : pyval) : Prop :=
  ∃ state settings networks, index item "State" = inl state ∧ py_truthy (pyval_get state "Running" PyNone) = true ∧
    index item "NetworkSettings" = inl settings ∧ index settings "Networks" = inl networks ∧
    only_name networks network = inl true.

Lemma index_get v k x d : index v k = inl x → pyval_get v k d = x.
Proof.
  destruct v as [| | | | | |l]; simpl; try done. unfold dict_get. destruct (dict_lookup l k); [by intros [= ->]|done].
Qed.

(** Takes a successful inspection apart. *)
Ltac inspect H :=
  repeat (let x := fresh "x" in let Hx := fresh "Hx" in
          apply inspection_bind_inl in H as (x & Hx & H);
          lazymatch type of Hx with expect _ _ = _ => destruct x; apply expect_inl in Hx | _ => idtac end);
  try (apply expect_inl in H).

Lemma check_attached_inl network item : check_attached network item = inl tt → attached network item.
Proof.
  unfold check_attached. intros H. inspect H. simplify_eq. exists x, x1, x2.
  erewrite index_get by eassumption. by split_and!.
Qed.

(** Every mount of the container is an approved one, bound read-only. *)
Definition mounts_approved (target : Environment) (s : string) (item : pyval) : Prop :=
  ∃ mounts, pyval_get item "Mounts" (PyList []) = PyList mounts ∧
    ∀ m, m ∈ mounts → inspected_read_only m = true ∧
      ∃ p, p ∈ expected_mounts (control_dir target) (bool_decide (en_name target = "staging"%string)) s ∧
        pyval_get m "Source" PyNone = PyStr p.1 ∧ pyval_get m "Destination" PyNone = PyStr p.2.

Lemma check_mounts_inl target s item :
  check_mounts (control_dir target) target s item = inl tt → mounts_approved target s item.
Proof.
  unfold check_mounts. intros H. apply inspection_bind_inl in H as (mounts & Hm & H).
  destruct item as [| | | | | |d]; try done. injection Hm as Hm.
  destruct mounts as [| | | |t|l|e]; try done; inspect H; try done.
  exists l. split; [exact Hm|]. intros m Hin. by eapply mounts_match_spec.
Qed.

(** What the plan rests on. *)
Record adopted (containers : list (string * pyval)) (ready : bool) (target : Environment) (plan : pyval) : Prop := {
  ad_attached : ∀ name, name ∈ [container_of target "gateway"; container_of target "text-worker";
                                en_backend_container target; en_tunnel_container target] →
    ∃ item, dict_lookup containers name = Some item ∧ attached (en_network target) item;
  ad_ports : ∃ g w bound others, dict_lookup containers (container_of target "gateway") = Some g ∧
    dict_lookup containers (container_of target "text-worker") = Some w ∧
    port_bindings g = inl bound ∧ py_eq bound (gateway_binding target) = true ∧
    port_bindings w = inl others ∧ py_truthy others = false;
  ad_mounts : ready = true → ∀ s, s ∈ SERVICES →
    ∃ item, dict_lookup containers (container_of target s) = Some item ∧ mounts_approved target s item;
  ad_images : ∃ g w gi wi, dict_lookup containers (container_of target "gateway") = Some g ∧
    dict_lookup containers (container_of target "text-worker") = Some w ∧
    index g "Image" = inl gi ∧ index w "Image" = inl wi ∧
    plan = PyDict [("sha", PyStr "adopted");
                   ("compose", PyStr (en_state_dir target +:+ "/bootstrap/compose.platform.yml"));
                   ("images", PyDict [("gateway", gi); ("text-worker", wi)]);
                   ("bootstrap_required", PyBool (negb ready))]%string;
}.

Lemma index_dict d k x : index (PyDict d) k = inl x ↔ dict_lookup d k = Some x.
Proof. simpl. destruct (dict_lookup d k); (split; [|]); try done; by intros [= ->]. Qed.

Lemma adoption_plan_adopted containers ready environment plan :
  adoption_plan containers ready None environment = inl plan →
  ∃ target, environment_of environment = Some target ∧ adopted containers ready target plan.
Proof.
  unfold adoption_plan. destruct (environment_of environment) as [target|]; [|done]. intros H.
  exists target. split; [done|].
  apply inspection_bind_inl in H as ([] & Ha & H). apply inspection_bind_inl in H as (g & Hg & H).
  apply inspection_bind_inl in H as (w & Hw & H). apply inspection_bind_inl in H as ([] & Hp & H).
  apply inspection_bind_inl in H as ([] & Hm & H). apply inspection_bind_inl in H as (gi & Hgi & H).
  apply inspection_bind_inl in H as (wi & Hwi & H). injection H as <-.
  rewrite index_dict in Hg, Hw. rewrite check_all_inl in Ha. split.
  - intros name Hn. specialize (Ha name Hn). apply inspection_bind_inl in Ha as (item & Hi & Hc).
    exists item. apply index_dict in Hi. eauto using check_attached_inl.
  - unfold check_ports in Hp. inspect Hp. apply negb_true_iff in Hp.
    match goal with Hx : py_eq (if py_truthy ?b then _ else _) _ = true |- _ =>
      exists g, w, b; destruct (py_truthy b); [|done] end.
    eexists. split_and!; eauto.
  - intros -> s Hs. rewrite check_all_inl in Hm. specialize (Hm s Hs).
    apply inspection_bind_inl in Hm as (item & Hi & Hc). exists item. apply index_dict in Hi. eauto using check_mounts_inl.
  - exists g, w, gi, wi. by split_and!.
Qed.

(** ** The receiver on the proposed state

    [current.json] as the receiver reads it. *)
Fixpoint image_items (d : list (string * pyval)) : option image_map :=
  match d with
  | [] => Some []
  | (s, PyStr image) :: d' => rest ← image_items d'; Some ((s, image) :: rest)
  | _ => None
  end.

Definition read_platform (v : pyval) : option platform :=
  match pyval_get v "sha" PyNone, pyval_get v "compose" PyNone, pyval_get v "images" PyNone with
  | PyStr sha, PyStr compose, PyDict d =>
      images ← image_items d;
      Some (mkPlatform (mkRelease sha compose images) (py_truthy (pyval_get v "bootstrap_required" PyNone)) None)
  | _, _, _ => None
  end.

(** Docker still reports the image that was inspected. *)
Definition as_inspected (containers : list (string * pyval)) (running : string → option (string * bool)) : Prop :=
  ∀ name item image, dict_lookup containers name = Some item → index item "Image" = inl (PyStr image) →
    running name = Some (image, true).

Lemma read_adopted containers ready target plan pl :
  adopted containers ready target plan → read_platform plan = Some pl →
  pl_bootstrap pl = negb ready ∧
  ∀ running, as_inspected containers running → images_match target running (ri_images (pl_release pl)) = true.
Proof.
  intros [_ _ _ (g & w & gi & wi & Hg & Hw & Hgi & Hwi & ->)] Hr. unfold read_platform in Hr. cbn in Hr.
  destruct gi as [| | | |gi| |]; try done. destruct wi as [| | | |wi| |]; try done. cbn in Hr. injection Hr as <-.
  split; [done|]. intros running Hrun. unfold images_match. simpl.
  rewrite (Hrun _ _ _ Hg Hgi), (Hrun _ _ _ Hw Hwi). by rewrite !bool_decide_true.
Qed.

(** A rollout of a host that must be bootstrapped first: it raises and changes nothing. *)
Definition refused {A} (m : D A) : Prop :=
  ∀ s, pl_bootstrap (v_current (view s)) = true → (∀ a, (m s).1 ≠ DRet a) ∧ view (m s).2 = view s.

Lemma refused_bind {A B} (m : D A) (k : A → D B) : looks m → (∀ a, refused (k a)) → refused (m ≫= k).
Proof.
  intros Hm Hk s Hs. pose proof (Hm s) as Hv. unfold mbind, d_bind. destruct (m s) as [[a|t c g|] s1] eqn:E; simpl in Hv |- *.
  - destruct (Hk a s1) as [H1 H2]; [by rewrite Hv|]. split; [exact H1|]. by rewrite H2.
  - by rewrite Hv.
  - by rewrite Hv.
Qed.

Lemma refused_first {A B} (m : D A) (k : A → D B) : refused m → refused (m ≫= k).
Proof.
  intros Hm s Hs. destruct (Hm s Hs) as [H1 H2]. unfold mbind, d_bind.
  destruct (m s) as [[a|t c g|] s1]; simpl in *; [by destruct (H1 a)|done..].
Qed.

Lemma refused_previous target ob : refused (previous target ob).
Proof.
  intros s Hs. change (pl_bootstrap (h_current (ds_host s)) = true) in Hs.
  unfold previous, mbind, d_bind, d_get. cbn -[require]. rewrite Hs. done.
Qed.

Lemma refused_run target ob shared sha expected : refused (run target ob shared sha expected).
Proof.
  unfold run. apply refused_bind; [apply looks_archive|intros []]. apply refused_bind; [apply looks_prepare|intros r].
  apply refused_bind; [apply looks_load|intros image]. apply refused_first, refused_previous.
Qed.

Lemma refused_deploy target ob sha expected : refused (deploy target ob sha expected).
Proof.
  intros s Hs. unfold deploy. change (d_get ≫= ?k) with (λ s : dstate, k s s). cbn beta.
  destruct (h_transaction (ds_host s)); [done|]. by apply refused_run.
Qed.

(** What the receiver reads while nothing interferes with a host that is as it was inspected. *)
Record host_calm (target : Environment) (containers : list (string * pyval)) (pins : image_map) (ob : dobs) : Prop := {
  ca_smooth : ∀ k, do_fault ob k = Smooth;
  ca_digests : ∀ k, do_digests ob k = do_digests ob 0%nat;
  ca_running : ∀ k, as_inspected containers (do_container ob k);
  ca_backend : ∀ k j, do_container ob k (en_backend_container target) = Some (do_backend_image ob j, true);
  ca_tunnel : ∀ image, dict_lookup pins (en_tunnel_container target) = Some image →
    ∀ k, do_container ob k (en_tunnel_container target) = Some (image, true);
}.

Lemma previous_accepts target containers ob s tunnel :
  host_calm target containers (h_pins (ds_host s)) ob →
  dict_lookup (h_pins (ds_host s)) (en_tunnel_container target) = Some tunnel →
  pl_bootstrap (h_current (ds_host s)) = false →
  (∀ running, as_inspected containers running →
     images_match target running (ri_images (pl_release (h_current (ds_host s)))) = true) →
  (previous target ob s).1 = DRet (h_current (ds_host s)).
Proof.
  intros [Hf Hd Hr Hb Ht] Hp Hn Hi. unfold previous, assert_protected, mbind, d_bind, d_get, observe, require, mret, d_ret.
  cbn -[images_match]. rewrite Hn. cbn -[images_match]. rewrite Hf. cbn -[images_match].
  rewrite (Hi _ (Hr _)). cbn. rewrite Hf. cbn. rewrite Hp. cbn. rewrite Hf. cbn. rewrite Hd, bool_decide_true by done.
  cbn. rewrite Hf. cbn. rewrite (Hb _ (S (ds_clock s))), (Ht _ Hp), !bool_decide_true by done. done.
Qed.

Lemma inspect_all_lookup ob names containers n item :
  inspect_all ob names = inl containers → dict_lookup containers n = Some item → ho_inspect ob n = Some item.
Proof.
  revert containers. induction names as [|m names IH]; intros containers H; simpl in H.
  { injection H as <-. done. }
  apply inspection_bind_inl in H as (x & Hx & H). apply inspection_bind_inl in H as (rest & Hr & H).
  injection H as <-. unfold found in Hx. destruct (ho_inspect ob m) as [y|] eqn:Em; [|done]. injection Hx as ->.
  destruct (decide (m = n)) as [->|Hne]; [rewrite dict_lookup_set_eq|rewrite dict_lookup_set_ne by done]; [congruence|by apply IH].
Qed.

Lemma validate_any path config shared n t :
  validate_environment path config shared (Some n) = inl t → validate_environment path config shared None = inl t.
Proof.
  unfold validate_environment. destruct (pyval_get config "environment" _); try done.
  destruct (environment_of _) as [e|]; [|done]. by destruct (bool_decide (Some n ≠ None) && _).
Qed.

Lemma found_inl {A} (o : option A) e a : found o e = inl a ↔ o = Some a.
Proof. destruct o; simpl; split; intros [=]; by subst. Qed.

Lemma environment_of_name name target : environment_of name = Some target → en_name target = name.
Proof. unfold environment_of. destruct (negb _); [done|]. by intros [= <-]. Qed.

(** What a successful run of the script read, checked and proposed. *)
Lemma prepare_host_inl name ob p :
  prepare_host name ob = inl p →
  ∃ target shared digest containers ready,
    environment_of name = Some target ∧ ho_backend_config ob (en_backend_config target) = Some shared ∧
    ho_receiver_digest ob = Some digest ∧ pr_config p = host_config target digest ∧
    validate_environment (ho_path ob) (pr_config p) shared (Some name) = inl target ∧
    (∀ n item, dict_lookup containers n = Some item → ho_inspect ob n = Some item) ∧
    protocol_ready (ho_gateway ob) (ho_worker ob) = inl ready ∧ adopted containers ready target (pr_current p).
Proof.
  unfold prepare_host. intros H. apply inspection_bind_inl in H as (target & Ht & H).
  apply inspection_bind_inl in H as (shared & Hs & H). apply inspection_bind_inl in H as (digest & Hd & H).
  apply found_inl in Ht, Hs, Hd. pose proof (environment_of_name _ _ Ht) as Hname. rewrite Hname in H. cbv zeta in H.
  apply inspection_bind_inl in H as (t & Hv & H). apply inspection_bind_inl in H as (containers & Hc & H).
  apply inspection_bind_inl in H as (pins & _ & H). apply inspection_bind_inl in H as ([] & _ & H).
  apply inspection_bind_inl in H as (dir & _ & H). apply inspection_bind_inl in H as (backend & _ & H).
  apply inspection_bind_inl in H as (item & _ & H). apply inspection_bind_inl in H as (running & _ & H).
  apply inspection_bind_inl in H as (recorded & _ & H). apply inspection_bind_inl in H as ([] & _ & H).
  apply inspection_bind_inl in H as (ready & Hr & H). apply inspection_bind_inl in H as (current & Hp & H).
  apply inspection_bind_inl in H as ([] & _ & H). apply inspection_bind_inl in H as (images & _ & H).
  apply inspection_bind_inl in H as (boot & _ & H). injection H as <-.
  destruct (validate_environment _ _ _ _) as [t'|] eqn:Ev; [|done]. injection Hv as ->.
  destruct (validate_target (mkReceiverObs EmptyString (λ _, None) (λ _, None) (λ _, None) (ho_path ob) LockError 0 [] false false
    None false false) _ _ _ _ Ev) as (n & Hn & Hn' & _). cbn in Hn. injection Hn as <-. rewrite Hname, Ht in Hn'. injection Hn' as <-.
  apply adoption_plan_adopted in Hp as (t2 & Ht2 & Ha). rewrite Ht in Ht2. injection Ht2 as <-.
  exists target, shared, digest, containers, ready. split_and!; try done. intros n it. by eapply inspect_all_lookup.
Qed.

(** C37. The state that [prepare_host.py] proposes is one the receiver can start from, and it
    is proposed only for a host that is already private.  The four containers run on the
    environment's one network, the gateway is published on its loopback port only and the
    adapter nowhere; the receiver accepts the proposed configuration for the same
    environment; and with the proposed record installed, either both processes spoke the
    drain protocol, their mounts were approved and read-only, and the next rollout finds
    the platform it expects, or every rollout raises and changes nothing. *)
Theorem proposal_starts_the_receiver (name : string) (ob : host_obs) (p : proposal) :
  prepare_host name ob = inl p →
  ∃ target containers ready,
    environment_of name = Some target ∧ adopted containers ready target (pr_current p) ∧
    (∀ n item, dict_lookup containers n = Some item → ho_inspect ob n = Some item) ∧
    protocol_ready (ho_gateway ob) (ho_worker ob) = inl ready ∧
    (∀ ro, ro_path ro = ho_path ob → ro_shared_again ro = ho_backend_config ob →
       ro_receiver_digest ro = ho_receiver_digest ob → ro_backend_loads ro = true →
       runtime_init ro (pr_config p) = Some target) ∧
    ∀ s, read_platform (pr_current p) = Some (h_current (ds_host s)) →
      if ready
      then ∀ ro tunnel, host_calm target containers (h_pins (ds_host s)) ro →
             dict_lookup (h_pins (ds_host s)) (en_tunnel_container target) = Some tunnel →
             (previous target ro s).1 = DRet (h_current (ds_host s))
      else ∀ ro sha sum, (∀ images, (deploy target ro sha sum s).1 ≠ DRet images) ∧
             view (deploy target ro sha sum s).2 = view s.
Proof.
  intros H. destruct (prepare_host_inl _ _ _ H) as (target & shared & digest & containers & ready & Ht & Hs & Hd & Hc & Hv & Hi & Hr & Ha).
  exists target, containers, ready. split_and!; try done.
  - intros ro Hp Hsh Hdg Hl. unfold runtime_init. rewrite Hc in Hv |- *. unfold host_config at 1. cbn [pyval_get].
    change (dict_get _ "backend_config" PyNone) with (PyStr (en_backend_config target)). cbn iota.
    rewrite Hp, Hsh, Hdg, Hl, Hd, Hs. cbn [mbind option_bind].
    rewrite (validate_any _ _ _ _ _ Hv).
    change (dict_get _ "backend_receiver_sha256" PyNone) with (PyStr digest). by rewrite (proj2 (py_eq_str_true _ _)).
  - intros s Hp. destruct (read_adopted _ _ _ _ _ Ha Hp) as [Hb Hm]. destruct ready.
    + intros ro tunnel Hcalm Ht'. by eapply previous_accepts.
    + intros ro sha sum. by apply refused_deploy.
Qed.

(** ** The status of a release

    The status is 0 exactly when the chosen target was enabled and the tests, the image and
    the deployment all succeeded; the summary claims a verified image exactly then. *)
Theorem release_status_is_success (e : release_env) :
  ((release_main e).1 = 0 ↔
     ((re_target e = "staging"%string ∧ re_staging_enabled e = true) ∨
      (re_target e = "dev"%string ∧ re_dev_enabled e = true ∧ re_dev_ready e = true)) ∧
     re_tests e = "success"%string ∧ re_image e = "success"%string ∧ re_deploy e = "success"%string) ∧
  ((release_main e).1 = 0 ∨ (release_main e).1 = 1).
Proof.
  destruct e as [target dep image tests se de dr rev]. unfold release_main, release_reason. simpl.
  split; [|by case_bool_decide; auto].
  destruct (decide (target = "staging"%string)) as [->|Hs]; [|destruct (decide (target = "dev"%string)) as [->|Hd]].
  - simpl. destruct se; simpl; [|naive_solver].
    repeat case_bool_decide; simpl in *; naive_solver.
  - simpl. destruct de, dr; simpl; try naive_solver.
    repeat case_bool_decide; simpl in *; naive_solver.
  - rewrite (bool_decide_false (target ∈ _)) by set_solver. simpl. naive_solver.
Qed.

(** The tests never touch a database that is not on the loopback under its test name. *)
Theorem tests_touch_test_databases_only urlsplit url table ok skipped :
  let '(opened, created, status) := run_tests urlsplit url table ok skipped in
  (∀ u, u ∈ opened → u = url ∧ ∃ scheme host path, urlsplit u = (scheme, Some host, path) ∧
     host ∈ ["127.0.0.1"; "localhost"; "::1"]%string ∧ String.prefix "/synthx_platform_ci" path = true) ∧
  (created = true → opened = [url] ∧ table = false) ∧
  (status = inl 0 → opened = [url] ∧ ok = true ∧ skipped = 0%nat).
Proof.
  unfold run_tests, validate_test_database. destruct (urlsplit url) as [[scheme hostname] path] eqn:Eu.
  destruct (negb _ || _ || _) eqn:Ec; simpl.
  { split_and!; [intros u Hu; by apply not_elem_of_nil in Hu|done|done]. }
  rewrite !orb_false_iff, !negb_false_iff in Ec. destruct Ec as [[_ Eh] Ep]. split_and!.
  - intros u ->%list_elem_of_singleton. split; [done|]. destruct hostname as [h|]; [|done].
    apply bool_decide_eq_true in Eh. by exists scheme, h, path.
  - intros Ht%negb_true_iff. done.
  - destruct ok, (skipped =? 0)%nat eqn:Es; simpl; intros [=]. by apply Nat.eqb_eq in Es.
Qed.

(** ** The development host, adopted while its processes speak the protocol *)

Definition sample_container (image : string) (bindings mounts : pyval) : pyval :=
  PyDict [("State", PyDict [("Running", PyBool true)]); ("Image", PyStr image);
          ("NetworkSettings", PyDict [("Networks", PyDict [("deploy_default", PyDict [])])]);
          ("HostConfig", PyDict [("PortBindings", bindings)]); ("Mounts", mounts)]%string.

Definition sample_mounts : pyval :=
  PyList [PyDict [("Type", PyStr "bind"); ("Source", PyStr (control_dir dev)); ("Destination", PyStr "/run/synthx-deploy");
                  ("RW", PyBool false)]]%string.

Definition sample_inspect (name : string) : option pyval :=
  if bool_decide (name = "deploy-gateway-1"%string)
  then Some (sample_container "sha256:g" (PyDict [("8000/tcp", PyList [PyDict [("HostIp", PyStr "127.0.0.1"); ("HostPort", PyStr "8100")]])]%string) sample_mounts)
  else if bool_decide (name = "deploy-text-worker-1"%string) then Some (sample_container "sha256:w" PyNone sample_mounts)
  else if bool_decide (name = "deploy-backend-1"%string) then Some (sample_container "sha256:b" PyNone (PyList []))
  else if bool_decide (name = "deploy-vast-tunnel-1"%string) then Some (sample_container "sha256:t" PyNone (PyList []))
  else None.

Definition sample_status (active : Z) : option pyval :=
  Some (PyDict [("protocol", PyInt 1); ("active", PyInt active); ("draining", PyBool false)]%string).

Definition sample_host (active : Z) : host_obs :=
  mkHostObs (λ s, s)
    (λ _, Some (PyDict [("state_dir", PyStr (en_backend_state dev)); ("repo", PyStr "/repo");
                        ("dependency_images", PyDict [("deploy-vast-tunnel-1", PyStr "sha256:t")])]%string))
    (Some "d"%string) sample_inspect (λ _, Some (PyDict [("image", PyStr "sha256:b")]%string))
    (sample_status active) (sample_status 0) false.

Definition sample_proposal (active : Z) : proposal :=
  match prepare_host "dev" (sample_host active) with
  | inl p => p
  | inr _ => mkProposal PyNone PyNone PyNone [] PyNone
  end.

(** With a request in progress the plan asks for a bootstrap; idle, it does not. *)
Example sample_plans :
  pyval_get (pr_current (sample_proposal 1)) "bootstrap_required" PyNone = PyBool true ∧
  pyval_get (pr_current (sample_proposal 0)) "bootstrap_required" PyNone = PyBool false.
Proof. vm_compute. split; reflexivity. Qed.

Lemma proposal_starts_the_receiver_witness :
  prepare_host "dev" (sample_host 0) = inl (sample_proposal 0) ∧
  ∃ target containers, environment_of "dev" = Some target ∧ adopted containers true target (pr_current (sample_proposal 0)).
Proof.
  assert (prepare_host "dev" (sample_host 0) = inl (sample_proposal 0)) as H by (vm_compute; reflexivity).
  destruct (proposal_starts_the_receiver "dev" (sample_host 0) (sample_proposal 0) H)
    as (target & containers & ready & Ht & Ha & _ & Hr & _). split; [exact H|].
  assert (protocol_ready (sample_status 0) (sample_status 0) = inl true) as Hr' by (vm_compute; reflexivity).
  exists target, containers. split; [exact Ht|]. simpl in Hr. change (protocol_ready (sample_status 0) (sample_status 0) = inl ready) in Hr.
  rewrite Hr' in Hr. injection Hr as <-. exact Ha.
Defined.
