(* ===== verification/HostProposal.v ===== *)
(** The end of [main] in [src/deploy/ci/prepare_host.py]: the proposal is written into a new
    directory that only its owner can enter. *)
From S2P Require Import Prelude PyVal DeployChecks AtomicFile HostPlan.

(** Files, and directories with their permissions. *)
Record tree := mkTree { tr_files : disk; tr_dirs : gmap string Z }.

Inductive tree_op :=
| TParent (path : string)                (* [mkdir(parents=True)]: an ancestor, if it is missing *)
| TMkdir (path : string) (mode : Z)      (* [exist_ok=False] *)
| TFile (o : file_op).

Definition tree_step (o : tree_op) (t : tree) : option tree :=
  match o with
  | TParent p =>
      match tr_dirs t !! p, tr_files t !! p with
      | Some _, _ => Some t
      | None, None => Some (mkTree (tr_files t) (<[p := 493]> (tr_dirs t)))
      | None, Some _ => None
      end
  | TMkdir p mode =>
      match tr_dirs t !! p, tr_files t !! p with
      | None, None => Some (mkTree (tr_files t) (<[p := mode]> (tr_dirs t)))
      | _, _ => None
      end
  | TFile o => d ← file_step o (tr_files t); Some (mkTree d (tr_dirs t))
  end.

Fixpoint tree_run (os : list tree_op) (t : tree) : option tree :=
  match os with [] => Some t | o :: os' => t' ← tree_step o t; tree_run os' t' end.

Section writing.
Context (dumps : pyval → string).            (* [json.dumps(value, indent=2)] *)
Context (template : string → string).        (* the bytes of a file beside the script *)
Context (umask_mode : Z).                    (* the permissions of a new file *)

Definition proposal_path (output name : string) : string := (output +:+ "/" +:+ name)%string.

(** [path.write_text(json.dumps(value, indent=2) + "\n"); os.chmod(path, 0o600)]. *)
Definition write_document (output name : string) (v : pyval) : list file_op :=
  let f := proposal_path output name in
  [FOpen f false umask_mode; FWrite f (dumps v +:+ newline)%string; FChmod f 384].

(** [shutil.copyfile]. *)
Definition copy_template (output name : string) : list file_op :=
  let f := proposal_path output name in [FOpen f false umask_mode; FWrite f (template name)].

Definition proposal_documents (p : proposal) : list (string * pyval) :=
  [("config.json", pr_config p); ("current.json", pr_current p); ("images.json", pr_images p)]%string.

Definition proposal_files (output : string) (p : proposal) : list file_op :=
  (proposal_documents p ≫= λ '(name, v), write_document output name v) ++ (pr_copied p ≫= copy_template output).

Definition write_proposal (parents : list string) (output : string) (p : proposal) : list tree_op :=
  (TParent <$> parents) ++ TMkdir output 448 :: (TFile <$> proposal_files output p).

(** ** What is written, and where *)

Definition op_path (o : file_op) : string := match o with FOpen p _ _ | FWrite p _ | FSync p | FChmod p _ | FReplace _ p => p end.

Definition within (output : string) (o : file_op) : Prop :=
  match o with FReplace _ _ => False | _ => ∃ name, op_path o = proposal_path output name end.

Lemma proposal_files_within output p : Forall (within output) (proposal_files output p).
Proof using.
  unfold proposal_files. apply Forall_app. split; apply Forall_bind, Forall_true.
  - intros [name v]. repeat constructor; by exists name.
  - intros name. repeat constructor; by exists name.
Qed.

Lemma file_run_within output os d d' path :
  Forall (within output) os → (∀ name, path ≠ proposal_path output name) → file_run os d = Some d' → d' !! path = d !! path.
Proof using.
  intros Hos Hp. revert d. induction Hos as [|o os Ho _ IH]; intros d; simpl; [by intros [= ->]|].
  destruct (file_step o d) as [d1|] eqn:E; [|done]. intros H. rewrite (IH d1 H). eapply file_step_other; [|exact E].
  destruct o; simpl in *; try done; destruct Ho as [name ->]; intros <-; by eapply Hp.
Qed.

Lemma tree_run_files os t : tree_run (TFile <$> os) t = d ← file_run os (tr_files t); Some (mkTree d (tr_dirs t)).
Proof using.
  revert t. induction os as [|o os IH]; intros t; simpl; [by destruct t|]. destruct (file_step o (tr_files t)) as [d|]; simpl; [|done].
  by rewrite IH.
Qed.

Lemma tree_run_app os1 os2 t : tree_run (os1 ++ os2) t = t' ← tree_run os1 t; tree_run os2 t'.
Proof using. revert t. induction os1 as [|o os1 IH]; intros t; simpl; [done|]. destruct (tree_step o t); simpl; [apply IH|done]. Qed.

Lemma tree_run_parents l t t' : tree_run (TParent <$> l) t = Some t' →
  tr_files t' = tr_files t ∧ (∀ d m, tr_dirs t !! d = Some m → tr_dirs t' !! d = Some m) ∧ (∀ d, d ∉ l → tr_dirs t' !! d = tr_dirs t !! d).
Proof using.
  revert t. induction l as [|q l IH]; intros t; simpl; [by intros [= ->]|].
  destruct (tr_dirs t !! q) as [m|] eqn:Eq; simpl.
  - intros H. destruct (IH _ H) as (H1 & H2 & H3). split_and!; [done|done|]. intros d Hd. apply H3. by intros ?; apply Hd; right.
  - destruct (tr_files t !! q); simpl; [done|]. intros H. destruct (IH _ H) as (H1 & H2 & H3). simpl in *. split_and!; [done| |].
    + intros d m Hd. apply H2. rewrite lookup_insert_ne by congruence. done.
    + intros d Hd. rewrite H3 by (intros ?; apply Hd; by right). apply lookup_insert_ne. intros ->. apply Hd. by left.
Qed.

(** Wherever the writing is cut short: a directory that was there is left alone, with everything
    in it; nothing outside the new one changes, except that missing ancestors appear; and what
    was written so far lies in a directory only its owner can enter. *)
Lemma proposal_is_private parents output p t t' k :
  output ∉ parents → tree_run (take k (write_proposal parents output p)) t = Some t' →
  (∀ f, (∀ name, f ≠ proposal_path output name) → tr_files t' !! f = tr_files t !! f) ∧
  (∀ f, tr_files t' !! f ≠ tr_files t !! f → tr_dirs t !! output = None ∧ tr_dirs t' !! output = Some 448) ∧
  (∀ d m, tr_dirs t !! d = Some m → tr_dirs t' !! d = Some m).
Proof using.
  intros Ho. unfold write_proposal. destruct (decide (k ≤ length (TParent <$> parents))%nat) as [Hk|Hk].
  - rewrite take_app_le by done. rewrite <- fmap_take. intros H%tree_run_parents. destruct H as (Hf & Hd & _).
    split_and!; [intros f _; by rewrite Hf|intros f; by rewrite Hf|exact Hd].
  - rewrite take_app, (take_ge (TParent <$> parents)) by lia. destruct (k - length (TParent <$> parents))%nat as [|k'] eqn:Ek; [lia|].
    rewrite tree_run_app, firstn_cons, <- fmap_take. destruct (tree_run (TParent <$> parents) t) as [t1|] eqn:E1; simpl; [|done].
    apply tree_run_parents in E1 as (Hf & Hd & Hn). specialize (Hn output Ho).
    destruct (tr_dirs t1 !! output) eqn:Eo; simpl; [done|]. destruct (tr_files t1 !! output); simpl; [done|].
    rewrite tree_run_files. simpl. destruct (file_run _ _) as [d|] eqn:Er; simpl; [|done]. intros [= <-]. simpl. split_and!.
    + intros f Hp. rewrite <- Hf. eapply file_run_within; [|exact Hp|exact Er]. apply Forall_take, proposal_files_within.
    + intros f _. split; [congruence|]. by rewrite lookup_insert_eq.
    + intros d' m Hm. rewrite lookup_insert_ne; [by apply Hd|]. intros ->. apply Hd in Hm. congruence.
Qed.

(** ** What is there when it is done *)

Lemma write_document_run output name v d :
  file_run (write_document output name v) d
  = Some (<[proposal_path output name := mkInode (dumps v +:+ newline)%string false 384]> d).
Proof using.
  unfold write_document. cbv zeta. generalize (proposal_path output name). intros f. simpl.
  destruct (d !! f); simpl; rewrite !lookup_insert_eq; simpl; rewrite !lookup_insert_eq; simpl; by rewrite !insert_insert_eq.
Qed.

Lemma copy_template_run output name d :
  ∃ m, file_run (copy_template output name) d = Some (<[proposal_path output name := mkInode (template name) false m]> d).
Proof using.
  unfold copy_template. cbv zeta. generalize (proposal_path output name). intros f. simpl.
  destruct (d !! f) as [i|]; simpl; rewrite lookup_insert_eq; simpl; rewrite insert_insert_eq; eauto.
Qed.

Lemma proposal_path_inj output a b : proposal_path output a = proposal_path output b → a = b.
Proof using. by intros H%string_app_cancel%string_app_cancel. Qed.

Lemma copies_run output names d : ∃ d', file_run (names ≫= copy_template output) d = Some d' ∧
  (∀ f, (∀ name, name ∈ names → f ≠ proposal_path output name) → d' !! f = d !! f) ∧
  (∀ name, name ∈ names → ∃ m, d' !! proposal_path output name = Some (mkInode (template name) false m)).
Proof using.
  revert d. induction names as [|n names IH]; intros d; [exists d; split_and!; [done|done|by intros ? ?%not_elem_of_nil]|].
  rewrite bind_cons, file_run_app. destruct (copy_template_run output n d) as [m ->]. simpl.
  destruct (IH (<[proposal_path output n := mkInode (template n) false m]> d)) as (d' & E & Hother & Hin). exists d'. split_and!; [done| |].
  - intros f Hf. rewrite Hother by (intros name Hname; apply Hf; by right). apply lookup_insert_ne.
    intros <-. by apply (Hf n); [left|].
  - intros name [->|Hname]%elem_of_cons; [|by apply Hin]. destruct (decide (n ∈ names)) as [?|Hnot]; [by apply Hin|].
    exists m. rewrite Hother; [apply lookup_insert_eq|]. intros a Ha E'%proposal_path_inj. congruence.
Qed.

(** The three documents, each readable by its owner only, and the compose files. *)
Lemma proposal_is_complete output p d :
  (∀ name, name ∈ pr_copied p → name ∉ (proposal_documents p).*1) →
  ∃ d', file_run (proposal_files output p) d = Some d' ∧
    (∀ name v, (name, v) ∈ proposal_documents p → d' !! proposal_path output name = Some (mkInode (dumps v +:+ newline)%string false 384)) ∧
    (∀ name, name ∈ pr_copied p → ∃ m, d' !! proposal_path output name = Some (mkInode (template name) false m)).
Proof using.
  intros Hc. unfold proposal_files. rewrite file_run_app. unfold proposal_documents at 1. rewrite !bind_cons, !file_run_app, !write_document_run.
  cbn [mbind option_bind]. rewrite file_run_app, write_document_run. cbn [mbind option_bind]. rewrite file_run_app, write_document_run. cbn.
  set (d0 := <[_ := _]> _). destruct (copies_run output (pr_copied p) d0) as (d' & E & Hother & Hin). exists d'. split_and!; [exact E| |exact Hin].
  intros name v Hnv. rewrite Hother.
  - unfold d0. assert (∀ a b, a ≠ b → proposal_path output a ≠ proposal_path output b) as Hne by (intros a b Hab ?%proposal_path_inj; done).
    unfold proposal_documents in Hnv. rewrite !elem_of_cons in Hnv.
    destruct Hnv as [[= -> ->]|[[= -> ->]|[[= -> ->]|Hnv]]]; [..|by apply not_elem_of_nil in Hnv];
      rewrite ?lookup_insert_eq; try done; rewrite !lookup_insert_ne by (by apply Hne); by rewrite lookup_insert_eq.
  - intros a Ha E'%proposal_path_inj. subst a. apply (Hc name Ha). apply list_elem_of_fmap. by exists (name, v).
Qed.
End writing.
