(* ===== verification/HostCommands.v ===== *)
(** The processes the receiver starts, [Runtime] of [src/deploy/ci/deploy_platform.py]: the
    argument vectors of its Docker, Compose and validator commands and what it reads from
    their output.  [Rollout] takes the answers as observations; here they come from a
    container engine, of which only documented behaviour is assumed. *)
From stdpp Require Import pretty.
From S2P Require Import Prelude PyVal Tasks TextWorker V73Worker DeployChecks Rollout.

(** ** Processes and containers *)

Inductive process_result := Exited (code : Z) (stdout : string) | TimedOut.

Record container := mkContainer { ct_id : string; ct_image : string; ct_running : bool }.

(** [D] is the state of the engine and of whatever else the programs keep.  A process gets its
    arguments, the environment when one is passed, and the [images.json] files. *)
Record engine (D : Type) := mkEngine {
  eg_run : list string → option (list (string * string)) → list (string * image_map) → D → process_result * D;
  eg_containers : D → list (string * container);     (* by name *)
}.
Arguments eg_run {D}.
Arguments eg_containers {D}.

(** ** Commands that raise

    An error is an exception that [healthy] tries again after, or not, with its text. *)
Section commands.
Context {D : Type} (E : engine D).

Definition cstate : Type := D * list (string * image_map).
Definition Cmd (A : Type) : Type := cstate → (A + bool * string) * cstate.

#[export] Instance c_ret : MRet Cmd := λ A a w, (inl a, w).
#[export] Instance c_bind : MBind Cmd := λ A B k m w,
  let '(o, w) := m w in match o with inl a => k a w | inr e => (inr e, w) end.

Definition c_raise {A} (msg : string) : Cmd A := λ w, (inr (true, msg), w).
Definition c_crash {A} (exn : string) : Cmd A := λ w, (inr (false, exn), w).
Definition c_require (b : bool) (msg : string) : Cmd () := if b then mret tt else c_raise msg.

(** [try: m except BaseException as e: h]. *)
Definition c_except {A} (m h : Cmd A) : Cmd A := λ w,
  let '(o, w) := m w in match o with inl a => (inl a, w) | inr _ => h w end.

(** [try: m except (DeployError, OSError, ValueError, TimeoutExpired): h]. *)
Definition c_retry {A} (m h : Cmd A) : Cmd A := λ w,
  let '(o, w) := m w in match o with inr (true, _) => h w | _ => (o, w) end.

(** ** [Runtime.command], [docker], [inspect] *)

(** The last component of a path, and what comes before it. *)
Definition split_path (path : string) : string * string :=
  let r := reverse (String.list_ascii_of_string path) in
  let name := (list_find (λ c, is_char c 47) r) in
  match name with
  | Some (i, _) => (String.string_of_list_ascii (reverse (drop (S i) r)), String.string_of_list_ascii (reverse (take i r)))
  | None => (EmptyString, path)
  end.
Definition path_name (path : string) : string := (split_path path).2.
Definition path_parent (path : string) : string := (split_path path).1.
Definition with_name (path name : string) : string := (path_parent path +:+ "/" +:+ name)%string.

Definition run_command (args : list string) (env : option (list (string * string))) : Cmd string := λ '(d, files),
  match eg_run E args env files d with
  | (Exited 0 out, d) => (inl (py_strip out), (d, files))
  | (Exited code _, d) =>
      (inr (true, "Command failed: " +:+ path_name (default EmptyString (head args)) +:+ " (exit " +:+ pretty code +:+ ")")%string, (d, files))
  | (TimedOut, d) => (inr (true, "TimeoutExpired"%string), (d, files))
  end.

Definition PRESERVED : string :=
  "--preserve-env=SYNTHX_ENV_FILE,PLATFORM_CONTROL_DIR,PLATFORM_MODEL_HOST,PLATFORM_GATEWAY_PORT,PLATFORM_NETWORK".

Definition docker_argv (with_env : bool) (args : list string) : list string :=
  ["sudo"; "-n"]%string ++ (if with_env then [PRESERVED] else []) ++ "docker"%string :: args.

Definition run_docker (args : list string) (env : option (list (string * string))) : Cmd string :=
  run_command (docker_argv (match env with Some _ => true | None => false end) args) env.

Definition docker_inspect (name expression : string) : Cmd string :=
  run_docker ["inspect"; "--format"; expression; name]%string None.

(** ** [compose] *)

Context (target : Environment) (root env_file backend_env_file : string) (os_environ : list (string * string)).
Context (loads : string → pyval + string) (file_digest : string → string).

Definition staging : bool := bool_decide (en_name target = "staging"%string).

Definition compose_options (release : string) : list string :=
  ["compose"; "-p"; en_project target; "--project-directory"; path_parent release;
   "--env-file"; if staging then "/dev/null" else env_file; "-f"; release]%string
  ++ (if staging then ["-f"; with_name release "compose.platform.staging.yml"]%string else [])
  ++ ["-f"; with_name release "images.json"]%string.

(** The variables a Compose file of the platform may interpolate. *)
Definition compose_variables : list (string * string) :=
  [("SYNTHX_ENV_FILE", env_file); ("PLATFORM_CONTROL_DIR", root +:+ "/control");
   ("PLATFORM_MODEL_HOST", en_model_host target); ("PLATFORM_GATEWAY_PORT", pretty (en_gateway_port target));
   ("PLATFORM_NETWORK", en_network target)]%string.

Definition run_compose (release : string) (args : list string) : Cmd string :=
  run_docker (compose_options release ++ args) (Some (foldl (λ d kv, dict_set d kv.1 kv.2) os_environ compose_variables)).

(** ** [environment_digest], [assert_protected] *)

Definition first_word (s : string) : string :=
  match split_pieces is_space [] (chars_of s) with w :: _ => String.string_of_list_ascii w | [] => EmptyString end.

Definition environment_digest (path : string) : Cmd string :=
  if negb staging then mret (file_digest path)
  else
    result ← run_command ["sudo"; "-n"; "sha256sum"; path]%string None;
    let value := first_word result in
    c_require (bool_decide (length (chars_of value) = 64%nat) && forallb is_hex (chars_of value))
      "Cannot verify protected staging environment file" ;;
    mret value.

(** Every container of a dict runs its image. *)
Fixpoint check_protected (protected : list (string * string)) : Cmd () :=
  match protected with
  | [] => mret tt
  | (name, image) :: protected' =>
      current ← docker_inspect name "{{.Image}}";
      running ← (if bool_decide (current = image) then docker_inspect name "{{.State.Running}}" else mret EmptyString);
      c_require (bool_decide (current = image) && bool_decide (running = "true"%string))
        ("Protected dependency changed or stopped: " +:+ name) ;;
      check_protected protected'
  end.

Definition check_host (hashes : string * string) (protected : list (string * string)) : Cmd () :=
  h ← environment_digest env_file;
  (if bool_decide (h = hashes.1) then
     b ← environment_digest backend_env_file;
     c_require (bool_decide (b = hashes.2)) "Selected environment file changed during deployment"
   else c_raise "Selected environment file changed during deployment") ;;
  check_protected protected.

(** ** [assert_platform_environment] *)

Definition VALIDATOR : list string :=
  ["sudo"; "-n"; "/opt/synthx-staging/.venv/bin/python"; "-m"; "backend.scripts.staging_config"; "--manifest";
   "/opt/synthx-staging/.staging-secrets/target.json"; "--runtime-env"; backend_env_file; "--platform-env"; env_file]%string.

(** [current] is the backend's [current.json], [source] whether its source is no symbolic
    link, and the revision file in it. *)
Definition check_backend_release (current : pyval) (source : bool * option string) : Cmd () :=
  if negb staging then mret tt
  else
    let sha := pyval_get current "sha" (PyStr EmptyString) in
    c_require (is_sha1 sha) "Staging backend release must record an immutable revision" ;;
    c_require (match sha with
               | PyStr h => py_eq_str (pyval_get current "compose" PyNone)
                              (backend_source target h +:+ "/deploy/ci/compose.backend-staging.yml")
                            && source.1 && bool_decide (py_strip <$> source.2 = Some h)
               | _ => false
               end) "Staging backend validator source is not its approved release" ;;
    image ← docker_inspect (en_backend_container target) "{{.Image}}";
    c_require (py_eq_str (pyval_get current "image" PyNone) image)
      "Staging backend image differs from its recorded validator release" ;;
    output ← run_command VALIDATOR None;
    c_require (match loads output with
               | inl (PyDict r) => py_eq_str (dict_get r "status" PyNone) "passed"
                                   && is_true (dict_get r "platform_checked" PyNone)
               | _ => false
               end) "Staging platform credentials did not pass backend target validation".

Definition parsed (text : string) : Cmd pyval :=
  match loads text with inl v => mret v | inr _ => c_raise "ValueError" end.

(** [item.split('=', 1)] of every item: [dict] wants pairs. *)
Fixpoint split_equals (before l : chars) : option (string * string) :=
  match l with
  | [] => None
  | c :: l' => if is_char c 61 then Some (String.string_of_list_ascii (rev before), String.string_of_list_ascii l')
               else split_equals (c :: before) l'
  end.
Fixpoint environment_items (l : list pyval) (d : list (string * string)) : option (list (string * string)) :=
  match l with
  | [] => Some d
  | PyStr item :: l' => kv ← split_equals [] (chars_of item); environment_items l' (dict_set d kv.1 kv.2)
  | _ :: _ => None
  end.
Definition container_environment (name : string) : Cmd (list (string * string)) :=
  text ← docker_inspect name "{{json .Config.Env}}";
  v ← parsed text;
  match v with
  | PyList l => match environment_items l [] with Some env => mret env | None => c_raise "ValueError" end
  | _ => c_crash "TypeError"
  end.

(** [assert_product_compatible]. *)
Definition check_product : Cmd () :=
  env ← container_environment (en_backend_container target);
  c_require (bool_decide (dict_lookup env "SYNTHFLOW_TEXT_PIPELINE" = Some "text_v1.2.3"%string))
    "Strict text platform cannot resume a backend sending retired requests; coordinated v1.2.3 cutover is required".

(** ** [load] *)

Definition load_image (sha : string) : Cmd string :=
  let tag := ("synthx-platform:" +:+ sha)%string in
  λ '(d, files),
  match eg_run E ["sudo"; "-n"; "docker"; "load"]%string None files d with
  | (Exited 0 _, d) =>
      (labels ← (text ← docker_inspect tag "{{json .Config.Labels}}"; parsed text);
       let labels := if py_truthy labels then labels else PyDict [] in
       (if negb (py_eq_str (pyval_get labels "org.opencontainers.image.revision" PyNone) sha)
        then c_raise "Image revision/architecture differs from tested release"
        else
          architecture ← docker_inspect tag "{{.Architecture}}";
          c_require (bool_decide (architecture = "amd64"%string)) "Image revision/architecture differs from tested release") ;;
       docker_inspect tag "{{.Id}}") (d, files)
  | (Exited _ _, d) => (inr (true, "Image load failed"%string), (d, files))
  | (TimedOut, d) => (inr (true, "TimeoutExpired"%string), (d, files))
  end.

(** ** [previous] *)

(** [any(inspect(container) != images[s] for s in SERVICES)] is false. *)
Fixpoint images_unchanged (services : list string) (images : image_map) : Cmd bool :=
  match services with
  | [] => mret true
  | s :: services' =>
      current ← docker_inspect (container_of target s) "{{.Image}}";
      match dict_lookup images s with
      | None => c_crash "KeyError"
      | Some image => if bool_decide (current = image) then images_unchanged services' images else mret false
      end
  end.

Definition check_previous (hashes : string * string) (prev : platform) (backend_image tunnel_pin : string) : Cmd () :=
  c_require (negb (pl_bootstrap prev)) "First maintenance-protocol bootstrap requires separate operator approval" ;;
  same ← images_unchanged SERVICES (ri_images (pl_release prev));
  c_require same "Platform changed outside CI; explicitly adopt it before deployment" ;;
  check_host hashes [(en_backend_container target, backend_image); (en_tunnel_container target, tunnel_pin)].

(** ** [stop], [start] *)

Definition find_container (name : string) : Cmd string :=
  run_docker ["container"; "ls"; "--all"; "--filter"; "name=^/" +:+ name +:+ "$"; "--format"; "{{.ID}}"]%string None.
Definition stop_container (id : string) : Cmd string := run_docker ["stop"; "--time"; "120"; id]%string None.

Fixpoint stop_containers (services : list string) : Cmd () :=
  match services with
  | [] => mret tt
  | s :: services' =>
      found ← find_container (container_of target s);
      (if bool_decide (found = EmptyString) then mret EmptyString else stop_container found) ;;
      stop_containers services'
  end.

Definition write_images (release : string) (images : image_map) : Cmd () := λ '(d, files),
  (inl tt, (d, dict_set files (with_name release "images.json") images)).

Definition check_config (release : string) : Cmd () :=
  text ← run_compose release ["config"; "--format"; "json"]%string;
  layout ← parsed text;
  match validate_layout layout (Some (control_dir target)) target with
  | Some msg => c_raise msg
  | None => mret tt
  end.

(** What [start] looks at besides: the backend's release, the digests and pins of start-up. *)
Record host_facts := mkHostFacts {
  hf_current : pyval;
  hf_source : bool * option string;
  hf_hashes : string * string;
  hf_protected : list (string * string);
}.

(** [prepare]: what the backend's [assert_dependencies] says, and the revision file of the
    export, are given. *)
Definition prepare_release (hf : host_facts) (repo release sha : string) (dependencies : bool) (revision : string) : Cmd () :=
  check_backend_release (hf_current hf) (hf_source hf) ;;
  check_product ;;
  run_command ["git"; "-C"; repo; "fetch"; "--no-tags"; "origin"; "main"]%string None ;;
  tip ← run_command ["git"; "-C"; repo; "rev-parse"; "origin/main"]%string None;
  c_require (bool_decide (tip = sha)) "Deployment SHA is not latest origin/main" ;;
  c_require dependencies "Backend maintenance protocol failed" ;;
  c_except (run_command ["git"; "-C"; repo; "archive"; sha; "deploy"]%string None) (c_crash "CalledProcessError") ;;
  c_require (bool_decide (py_strip revision = sha)) "Incomplete release source export" ;;
  write_images release (map (λ s, (s, ("synthx-platform:" +:+ sha)%string)) SERVICES) ;;
  check_config release.

Definition UP : list string := ["up"; "-d"; "--no-deps"; "--no-build"]%string.

Definition start_containers (hf : host_facts) (release : string) (images : image_map) : Cmd () :=
  check_backend_release (hf_current hf) (hf_source hf) ;;
  check_host (hf_hashes hf) (hf_protected hf) ;;
  (if forallb (λ s, bool_decide (is_Some (dict_lookup images s))) SERVICES then mret tt else c_crash "KeyError") ;;
  write_images release (map (λ s, (s, dict_get images s EmptyString)) SERVICES) ;;
  check_config release ;;
  run_compose release (UP ++ ["text-worker"; "gateway"]%string) ;; mret tt.

(** ** [healthy] *)

Definition HEALTH_PROGRAM : string :=
  "import json,urllib.request; print(json.dumps(json.load(urllib.request.urlopen('http://127.0.0.1:16062/health/deployment',timeout=5))))".

(** The transport probe, which reads too. *)
Definition TRANSPORT_PROGRAM : string :=
  "import grpc,json,sys,urllib.request
for address in (sys.argv[4]+':50061','text-worker:50062'):
 c=grpc.insecure_channel(address)
 try: grpc.channel_ready_future(c).result(timeout=10)
 finally: c.close()
h=json.load(urllib.request.urlopen(sys.argv[1]+'/health',timeout=10))
assert h.get('bank_available') and sys.argv[2] in h.get('supported_pipelines',[])
if sys.argv[3]:
 h=json.load(urllib.request.urlopen(sys.argv[3]+'/health',timeout=10))
 assert h.get('bank_available') and h.get('mfcc_assets_available') and 'text_v1.2_refinement' in h.get('supported_pipelines',[])
print('transport-ready')
".

Definition exec_worker_status : Cmd pyval :=
  text ← run_docker ["exec"; container_of target "text-worker"; "python"; "-c"; HEALTH_PROGRAM]%string None;
  parsed text.

(** [acknowledged]. *)
Definition process_idle (token : option string) (state : pyval) : Cmd bool :=
  (match state with PyDict _ => mret tt | _ => c_crash "AttributeError" end) ;;
  c_require (py_eq_int (pyval_get state "protocol" PyNone) 1 && is_true (pyval_get state "draining" PyNone)
             && match token with
                | Some t => py_eq_str (pyval_get state "drain_id" PyNone) t
                | None => match pyval_get state "drain_id" PyNone with PyNone => true | _ => false end
                end)
    "Platform process did not acknowledge this maintenance window" ;;
  mret (py_eq_int (pyval_get state "active" PyNone) 0).

(** Every service runs its image. *)
Fixpoint services_run (services : list string) (images : image_map) : Cmd bool :=
  match services with
  | [] => mret true
  | s :: services' =>
      current ← docker_inspect (container_of target s) "{{.Image}}";
      match dict_lookup images s with
      | None => c_crash "KeyError"
      | Some image =>
          if negb (bool_decide (current = image)) then mret false
          else
            running ← docker_inspect (container_of target s) "{{.State.Running}}";
            if negb (bool_decide (running = "true"%string)) then mret false else services_run services' images
      end
  end.

(** The answers of the gateway's endpoints to one poll: [None] is an [OSError] or no JSON. *)
Record gateway_answers := mkGatewayAnswers { ga_health : option pyval; ga_ready : option pyval }.

Definition observed {A} (o : option A) : Cmd A := match o with Some a => mret a | None => c_raise "OSError" end.

(** One turn of the loop; the last arguments are those of the transport probe. *)
Definition poll_health (hf : host_facts) (token : option string) (images : image_map) (probe : list string)
    (ga : gateway_answers) : Cmd () :=
  check_host (hf_hashes hf) (hf_protected hf) ;;
  g ← observed (ga_health ga);
  gi ← process_idle token g;
  wi ← (if (gi : bool) then w ← exec_worker_status; process_idle token w else mret false);
  c_require wi "Platform handlers are still active" ;;
  up ← services_run SERVICES images;
  c_require up "Platform container image/state mismatch" ;;
  ready ← observed (ga_ready ga);
  (match ready with PyDict _ => mret tt | _ => c_crash "AttributeError" end) ;;
  c_require (py_eq_str (pyval_get ready "status" PyNone) "ready") "Gateway not ready" ;;
  transport ← run_docker (["exec"; container_of target "gateway"; "python"; "-c"; TRANSPORT_PROGRAM]%string ++ probe) None;
  c_require (bool_decide (transport = "transport-ready"%string)) "Model transport not ready".

Fixpoint poll_until_healthy (hf : host_facts) (token : option string) (images : image_map) (probe : list string)
    (polls : list gateway_answers) : Cmd bool :=
  match polls with
  | [] => mret false
  | ga :: polls' => c_retry (poll_health hf token images probe ga ;; mret true)
                            (poll_until_healthy hf token images probe polls')
  end.

Definition check_health (hf : host_facts) (token : option string) (images : image_map)
    (polls : list gateway_answers) : Cmd bool :=
  env ← container_environment (container_of target "text-worker");
  match origin_error target env with
  | Some msg => c_raise msg
  | None =>
      let version := dict_get env "INFERENCE_BACKEND" EmptyString in
      let refinement := if bool_decide (version = "text_v1.2.3"%string) then dict_get env "TEXT_REFINEMENT_SERVICE_URL" EmptyString
                        else EmptyString in
      poll_until_healthy hf token images
        [dict_get env "TEXT_SERVICE_URL" EmptyString; version; refinement; en_model_host target] polls
  end.

(** ** The replacement in [Deployment.run] *)

Definition switch (hf : host_facts) (token : option string) (polls : list gateway_answers)
    (release : string) (images : image_map) (msg : string) : Cmd () :=
  stop_containers SERVICES ;; start_containers hf release images ;;
  ok ← check_health hf token images polls;
  c_require ok msg.

(** [run] from the stop on, with the rollback. *)
Definition replace_platform (hf : host_facts) (token : option string)
    (polls rollback_polls : list gateway_answers) (release : string) (images : image_map) (prev : release_info) : Cmd () :=
  c_except (switch hf token polls release images "Platform health or Vast connectivity check failed")
    (c_except (switch hf token rollback_polls (ri_compose prev) (ri_images prev) "Previous platform is unhealthy")
       (c_raise "Platform rollback failed; admission remains closed for operator recovery") ;;
     c_raise "Platform deployment failed; previous images and pins restored").

(** The processes of a whole rollout; between them [run] writes files, which [Rollout]
    follows. *)
Definition rollout_commands (hf : host_facts) (token : option string) (polls rollback_polls : list gateway_answers)
    (repo release sha : string) (dependencies : bool) (revision backend_image tunnel_pin : string) (prev : platform) : Cmd image_map :=
  prepare_release hf repo release sha dependencies revision ;;
  image ← load_image sha;
  let images := map (λ s, (s, image)) SERVICES in
  check_previous (hf_hashes hf) prev backend_image tunnel_pin ;;
  replace_platform hf token polls rollback_polls release images (pl_release prev) ;;
  mret images.
End commands.
