(* ===== verification/HostCommandsFacts.v ===== *)
(** What a rollout does to the containers of the host: the commands of [HostCommands] over
    any container engine that behaves as Docker documents. *)
From stdpp Require Import pretty.
From S2P Require Import Prelude PyVal Tasks TextWorker V73Worker DeployChecks Rollout RolloutFacts HostCommands.

(** ** The command line of Docker *)

(** The arguments after [docker], if the process is Docker's client run by [sudo]. *)
Definition docker_args (argv : list string) : option (list string) :=
  match argv with
  | "sudo" :: "-n" :: p :: l =>
      if bool_decide (p = "docker") then Some l
      else if bool_decide (p = PRESERVED) then match l with "docker" :: l' => Some l' | _ => None end
      else None
  | _ => None
  end%string.

(** The options of Compose take a value each; then comes the subcommand. *)
Definition is_option (x : string) : bool := bool_decide (x ∈ ["-p"; "--project-directory"; "--env-file"; "-f"]%string).

Fixpoint after_options (l : list string) : list string :=
  match l with
  | x :: ((_ :: l') as l1) => if is_option x then after_options l' else x :: l1
  | _ => l
  end.

(** The processes that leave all containers as they are. *)
Definition reads_only (argv : list string) : bool :=
  match docker_args argv with
  | Some l =>
      match l with
      | "inspect" :: _ => true
      | "container" :: "ls" :: _ => true
      | "load" :: _ => true
      | "exec" :: _ :: "python" :: "-c" :: p :: _ => bool_decide (p ∈ [HEALTH_PROGRAM; TRANSPORT_PROGRAM])
      | "compose" :: l => bool_decide (head (after_options l) = Some "config")
      | _ => false
      end
  | None =>
      match argv with
      | "git" :: _ => true
      | "sudo" :: "-n" :: "sha256sum" :: _ => true
      | "sudo" :: "-n" :: "/opt/synthx-staging/.venv/bin/python" :: _ => true
      | _ => false
      end
  end%string.

(** No character of a regular expression. *)
Definition plain_char (c : Ascii.ascii) : bool :=
  let n := Ascii.nat_of_ascii c in
  ((48 <=? n) && (n <=? 57) || (97 <=? n) && (n <=? 122) || (n =? 45))%nat.
Definition plain_name (s : string) : bool := forallb plain_char (chars_of s).

Definition project_container (project s : string) : string := (project +:+ "-" +:+ s +:+ "-1")%string.

Lemma environment_names name t : environment_of name = Some t → name = "dev"%string ∨ name = "staging"%string.
Proof.
  unfold environment_of. destruct (negb _) eqn:En; [done|]. apply negb_false_iff, bool_decide_eq_true_1 in En. intros _.
  apply elem_of_cons in En as [->|[->|En%not_elem_of_nil]%elem_of_cons]; auto. done.
Qed.

Section laws.
Context {D : Type} (E : engine D).

Definition container_named (d : D) (name : string) : option container := dict_lookup (eg_containers E d) name.

(** What Docker documents. *)
Class EngineLaws : Prop := {
  el_reads : ∀ argv env files d, reads_only argv = true → eg_containers E (eg_run E argv env files d).2 = eg_containers E d;
  el_ids : ∀ d n1 n2 c1 c2, container_named d n1 = Some c1 → container_named d n2 = Some c2 → ct_id c1 = ct_id c2 → n1 = n2;
  el_find : ∀ name files d out d', plain_name name = true →
    eg_run E (docker_argv false ["container"; "ls"; "--all"; "--filter"; "name=^/" +:+ name +:+ "$"; "--format"; "{{.ID}}"]%string)
      None files d = (Exited 0 out, d') →
    match container_named d name with Some c => py_strip out = ct_id c ∧ ct_id c ≠ EmptyString | None => py_strip out = EmptyString end;
  el_inspect : ∀ name expression files d out d',
    eg_run E (docker_argv false ["inspect"; "--format"; expression; name]%string) None files d = (Exited 0 out, d') →
    (expression = "{{.Image}}"%string → ∃ c, container_named d name = Some c ∧ py_strip out = ct_image c) ∧
    (expression = "{{.State.Running}}"%string →
       ∃ c, container_named d name = Some c ∧ py_strip out = if ct_running c then "true"%string else "false"%string);
  el_stop : ∀ t id files d name, let '(r, d') := eg_run E (docker_argv false ["stop"; "--time"; t; id]%string) None files d in
    match container_named d name with
    | None => container_named d' name = None
    | Some c =>
        let stopped := mkContainer (ct_id c) (ct_image c) false in
        (container_named d' name = Some c ∨ ct_id c = id ∧ container_named d' name = Some stopped) ∧
        (∀ out, ct_id c = id → r = Exited 0 out → container_named d' name = Some stopped)
    end;
  el_up : ∀ project options services env files d name,
    after_options (options ++ UP) = UP → name ∉ map (project_container project) services →
    container_named (eg_run E (docker_argv true ("compose" :: "-p" :: project :: options ++ UP ++ services)%string) (Some env) files d).2 name
      = container_named d name;
}.
End laws.

(** ** Commands that only look *)

Section facts.
Context {D : Type} (E : engine D) {HE : EngineLaws E}.
Implicit Types w : cstate (D := D).

#[local] Abbreviation named := (container_named E).

Class Reads {A} (m : Cmd A) : Prop := reads_at : ∀ w, eg_containers E (m w).2.1 = eg_containers E w.1.

#[export] Instance reads_ret {A} (a : A) : Reads (mret a : Cmd A).
Proof using. by intros w. Qed.
#[export] Instance reads_raise {A} b msg : Reads (λ w, (inr (b, msg) : A + _, w)).
Proof using. by intros w. Qed.
#[export] Instance reads_c_raise {A} msg : Reads (c_raise msg : Cmd A).
Proof using. by intros w. Qed.
#[export] Instance reads_c_crash {A} msg : Reads (c_crash msg : Cmd A).
Proof using. by intros w. Qed.
#[export] Instance reads_bind {A B} (m : Cmd A) (k : A → Cmd B) : Reads m → (∀ a, Reads (k a)) → Reads (m ≫= k).
Proof using.
  intros Hm Hk w. unfold mbind, c_bind. pose proof (Hm w) as H. destruct (m w) as [[a|e] w1]; [|done].
  pose proof (Hk a w1) as H1. simpl in *. congruence.
Qed.
#[export] Instance reads_if {A} (b : bool) (m1 m2 : Cmd A) : Reads m1 → Reads m2 → Reads (if b then m1 else m2).
Proof using. by destruct b. Qed.
#[export] Instance reads_require b msg : Reads (c_require b msg : Cmd ()).
Proof using. unfold c_require. apply _. Qed.
#[export] Instance reads_object (v : pyval) : Reads (match v with PyDict _ => mret tt | _ => c_crash "AttributeError" end : Cmd ()).
Proof using. destruct v; apply _. Qed.
#[export] Instance reads_observed {A} (o : option A) : Reads (observed o : Cmd A).
Proof using. destruct o; apply _. Qed.
#[export] Instance reads_except {A} (m h : Cmd A) : Reads m → Reads h → Reads (c_except m h).
Proof using.
  intros Hm Hh w. unfold c_except. pose proof (Hm w) as H. destruct (m w) as [[a|e] w1]; [done|].
  pose proof (Hh w1) as H1. simpl in *. congruence.
Qed.
#[export] Instance reads_write release images : Reads (write_images release images : Cmd ()).
Proof using. by intros [d files]. Qed.

Lemma reads_command argv env : reads_only argv = true → Reads (run_command E argv env).
Proof using HE.
  intros H [d files]. unfold run_command. pose proof (el_reads E argv env files d H) as Hr.
  destruct (eg_run E argv env files d) as [[[|p|p] out|] d']; done.
Qed.

#[local] Hint Extern 1 (Reads (run_command _ _ _)) => apply reads_command; reflexivity : typeclass_instances.
#[local] Hint Extern 1 (Reads (run_docker _ _ _)) => apply reads_command; reflexivity : typeclass_instances.

#[export] Instance reads_inspect name expression : Reads (docker_inspect E name expression).
Proof using HE. by apply reads_command. Qed.

(** An inspection that answers tells how the container is. *)
Lemma inspect_at name expression w a w' :
  docker_inspect E name expression w = (inl a, w') →
  (expression = "{{.Image}}"%string → ∃ c, named w.1 name = Some c ∧ a = ct_image c) ∧
  (expression = "{{.State.Running}}"%string → a = "true"%string → ∃ c, named w.1 name = Some c ∧ ct_running c = true).
Proof using HE.
  unfold docker_inspect, run_docker, run_command. destruct w as [d files].
  destruct (eg_run E _ None files d) as [[[|p|p] out|] d'] eqn:Er; try done. intros [= <- <-].
  destruct (el_inspect E _ _ _ _ _ _ Er) as [H1 H2]. split; [exact H1|]. intros He Ht.
  destruct (H2 He) as (c & Hc & Ho). exists c. split; [done|]. destruct (ct_running c); [done|congruence].
Qed.

Context (target : Environment) (root env_file backend_env_file : string) (os_environ : list (string * string)).
Context (loads : string → pyval + string) (file_digest : string → string).

#[export] Instance reads_parsed text : Reads (parsed loads text : Cmd pyval).
Proof using. unfold parsed. destruct (loads text); apply _. Qed.

#[export] Instance reads_digest path : Reads (environment_digest E target file_digest path).
Proof using HE. unfold environment_digest. apply _. Qed.

#[export] Instance reads_protected protected : Reads (check_protected E protected).
Proof using HE. induction protected as [|[name image] l IH]; simpl; apply _. Qed.

#[export] Instance reads_host hashes protected : Reads (check_host E target env_file backend_env_file file_digest hashes protected).
Proof using HE. unfold check_host. apply _. Qed.

#[export] Instance reads_release current source : Reads (check_backend_release E target env_file backend_env_file loads current source).
Proof using HE.
  unfold check_backend_release. apply _.
Qed.

#[export] Instance reads_environment name : Reads (container_environment E loads name).
Proof using HE.
  unfold container_environment. repeat (apply reads_bind; [apply _|intros ?]).
  destruct a0 as [| | | | |l|]; try apply _. destruct (environment_items l []); apply _.
Qed.

#[export] Instance reads_product : Reads (check_product E target loads).
Proof using HE. unfold check_product. apply _. Qed.

Lemma config_reads_only release :
  reads_only (docker_argv true (compose_options target env_file release ++ ["config"; "--format"; "json"]%string)) = true.
Proof using. unfold compose_options. destruct (staging target); reflexivity. Qed.

#[export] Instance reads_config release : Reads (check_config E target root env_file os_environ loads release).
Proof using HE.
  unfold check_config. apply reads_bind; [by apply reads_command, config_reads_only|intros text].
  apply reads_bind; [apply _|intros layout]. destruct (validate_layout _ _ _); apply _.
Qed.

#[export] Instance reads_load sha : Reads (load_image E loads sha).
Proof using HE.
  intros [d files]. unfold load_image. pose proof (el_reads E ["sudo"; "-n"; "docker"; "load"]%string None files d eq_refl) as Hl.
  destruct (eg_run E _ None files d) as [[[|p|p] out|] d']; [|done..]. simpl in Hl. etrans; [|exact Hl].
  match goal with |- eg_containers E (?m _).2.1 = _ => assert (Reads m) as Hm by apply _ end. apply (Hm (d', files)).
Qed.

#[export] Instance reads_unchanged services images : Reads (images_unchanged E target services images).
Proof using HE.
  induction services as [|s l IH]; simpl; [apply _|]. apply reads_bind; [apply _|intros current].
  destruct (dict_lookup images s); apply _.
Qed.

#[export] Instance reads_previous hashes prev image pin :
  Reads (check_previous E target env_file backend_env_file file_digest hashes prev image pin).
Proof using HE. unfold check_previous. apply _. Qed.

#[export] Instance reads_prepare hf repo release sha dependencies revision :
  Reads (prepare_release E target root env_file backend_env_file os_environ loads hf repo release sha dependencies revision).
Proof using HE.
  unfold prepare_release. apply _.
Qed.

#[export] Instance reads_worker_status : Reads (exec_worker_status E target loads).
Proof using HE. unfold exec_worker_status. apply _. Qed.

#[export] Instance reads_idle token state : Reads (process_idle token state : Cmd bool).
Proof using. unfold process_idle. apply _. Qed.

#[export] Instance reads_services services images : Reads (services_run E target services images).
Proof using HE.
  induction services as [|s l IH]; simpl; [apply _|]. apply reads_bind; [apply _|intros current].
  destruct (dict_lookup images s); apply _.
Qed.

(** The services run these images. *)
Definition running_images (services : list string) (images : image_map) (d : D) : Prop :=
  ∀ s, s ∈ services → ∃ c, named d (container_of target s) = Some c ∧ dict_lookup images s = Some (ct_image c) ∧ ct_running c = true.

Lemma named_same d1 d2 name : eg_containers E d1 = eg_containers E d2 → named d1 name = named d2 name.
Proof using. unfold container_named. by intros ->. Qed.

Lemma running_images_same services images d1 d2 :
  eg_containers E d1 = eg_containers E d2 → running_images services images d1 → running_images services images d2.
Proof using.
  intros H Hr s Hs. destruct (Hr s Hs) as (c & Hc & Hi & Ht). exists c.
  split_and!; [|done|done]. by rewrite <- (named_same _ _ _ H).
Qed.

Lemma bind_inl {A B} (m : Cmd A) (k : A → Cmd B) w b w' :
  (m ≫= k) w = (inl b, w') ↔ ∃ a w1, m w = (inl a, w1) ∧ k a w1 = (inl b, w').
Proof using.
  unfold mbind, c_bind. destruct (m w) as [[a|e] w1]; [|split; [done|by intros (? & ? & [=] & _)]]. split; [by intros H; exists a, w1|]. by intros (? & ? & [= <- <-] & ?).
Qed.

Lemma retry_inl {A} (m h : Cmd A) w a w' :
  c_retry m h w = (inl a, w') → m w = (inl a, w') ∨ ∃ w1, h w1 = (inl a, w').
Proof using. unfold c_retry. destruct (m w) as [[b|[[] e]] w1]; [by left|by right; exists w1|done]. Qed.

Lemma require_inl b msg w u w' : c_require b msg w = (inl u, w') → b = true ∧ w' = w.
Proof using. unfold c_require. destruct b; [|done]. by intros [= _ <-]. Qed.

Lemma services_run_true services images w w' :
  services_run E target services images w = (inl true, w') → running_images services images w'.1.
Proof using HE.
  revert w. induction services as [|s l IH]; intros w; simpl; [intros _ s Hs; by apply not_elem_of_nil in Hs|].
  rewrite bind_inl. intros (current & w1 & E1 & H). destruct (dict_lookup images s) as [image|] eqn:Ei; [|done].
  case_bool_decide as Hc; [subst current|done]. apply bind_inl in H as (running & w2 & E2 & H).
  case_bool_decide as Hr; [|done]. simpl in H.
  pose proof (reads_inspect (container_of target s) "{{.Image}}" w) as R1. rewrite E1 in R1.
  pose proof (reads_inspect (container_of target s) "{{.State.Running}}" w1) as R2. rewrite E2 in R2.
  pose proof (reads_services l images w2) as R3. rewrite H in R3. simpl in R1, R2, R3.
  apply inspect_at in E1 as [E1 _], E2 as [_ E2]. destruct (E1 eq_refl) as (c & Hc1 & Hc2). destruct (E2 eq_refl Hr) as (c' & Hc' & Ht).
  rewrite (named_same _ _ _ R1) in Hc'. assert (c' = c) as -> by congruence.
  intros s' [->|Hs']%elem_of_cons; [|by apply IH in H; apply H]. exists c. split_and!; [|congruence|done].
  rewrite (named_same _ w.1); [done|congruence].
Qed.

#[export] Instance reads_poll hf token images probe ga :
  Reads (poll_health E target env_file backend_env_file loads file_digest hf token images probe ga).
Proof using HE.
  unfold poll_health. apply _.
Qed.

Lemma poll_health_ok hf token images probe ga w u w' :
  poll_health E target env_file backend_env_file loads file_digest hf token images probe ga w = (inl u, w') →
  running_images SERVICES images w'.1.
Proof using HE.
  unfold poll_health. rewrite bind_inl. intros (? & w1 & _ & H). apply bind_inl in H as (? & w2 & _ & H).
  apply bind_inl in H as (? & w3 & _ & H). apply bind_inl in H as (? & w4 & _ & H). apply bind_inl in H as (? & w5 & _ & H).
  apply bind_inl in H as (up & w6 & Hup & H). apply bind_inl in H as (? & w7 & [-> ->]%require_inl & H).
  apply services_run_true in Hup. revert H.
  match goal with |- ?m w6 = _ → _ => assert (Reads m) as Hm end.
  { apply _. }
  intros H. specialize (Hm w6). rewrite H in Hm. by apply (running_images_same _ _ w6.1).
Qed.

(** ** Commands that touch the containers of the target only *)

Definition own_container (name : string) : Prop := name ∈ map snd (en_containers target).

Class Keeps {A} (m : Cmd A) : Prop := keeps_at : ∀ w name, ¬ own_container name → named (m w).2.1 name = named w.1 name.

#[export] Instance keeps_reads {A} (m : Cmd A) : Reads m → Keeps m | 10.
Proof using. intros Hm w name _. apply named_same, Hm. Qed.
#[export] Instance keeps_bind {A B} (m : Cmd A) (k : A → Cmd B) : Keeps m → (∀ a, Keeps (k a)) → Keeps (m ≫= k).
Proof using.
  intros Hm Hk w name Hn. unfold mbind, c_bind. specialize (Hm w name Hn). destruct (m w) as [[a|e] w1]; [|done].
  rewrite (Hk a w1 name Hn). exact Hm.
Qed.
#[export] Instance keeps_if {A} (b : bool) (m1 m2 : Cmd A) : Keeps m1 → Keeps m2 → Keeps (if b then m1 else m2).
Proof using. by destruct b. Qed.
#[export] Instance keeps_except {A} (m h : Cmd A) : Keeps m → Keeps h → Keeps (c_except m h).
Proof using.
  intros Hm Hh w name Hn. unfold c_except. specialize (Hm w name Hn). destruct (m w) as [[a|e] w1]; [done|].
  rewrite (Hh w1 name Hn). exact Hm.
Qed.
#[export] Instance keeps_retry {A} (m h : Cmd A) : Keeps m → Keeps h → Keeps (c_retry m h).
Proof using.
  intros Hm Hh w name Hn. unfold c_retry. specialize (Hm w name Hn). destruct (m w) as [[a|[[] e]] w1]; [done| |done].
  rewrite (Hh w1 name Hn). exact Hm.
Qed.

Context (env_name : string) {Ht : environment_of env_name = Some target}.

(** The names of the two environments. *)
Lemma target_names s : s ∈ SERVICES →
  own_container (container_of target s) ∧ plain_name (container_of target s) = true ∧
  project_container (en_project target) s = container_of target s.
Proof using Ht.
  intros Hs. set (good t s := bool_decide (container_of t s ∈ map snd (en_containers t)) && plain_name (container_of t s)
    && bool_decide (project_container (en_project t) s = container_of t s)).
  assert (forallb (good target) SERVICES = true) as Hg.
  { pose proof (environment_names _ _ Ht) as [->| ->]; injection Ht as <-; vm_compute; reflexivity. }
  rewrite forallb_forall in Hg. specialize (Hg s (proj1 (list_elem_of_In _ _) Hs)). unfold good in Hg.
  rewrite !andb_true_iff, !bool_decide_eq_true in Hg. destruct Hg as [[H1 H2] H3]. by split_and!.
Qed.

Lemma run_command_state argv env w : (run_command E argv env w).2.1 = (eg_run E argv env w.2 w.1).2.
Proof using.
  unfold run_command. destruct w as [d files]. simpl. by destruct (eg_run E argv env files d) as [[[|p|p] out|] d'].
Qed.

#[export] Instance reads_find name : Reads (find_container E name).
Proof using HE. unfold find_container. apply _. Qed.

(** [stop] finds a container by its own name. *)
Lemma find_at name w found w1 :
  plain_name name = true → find_container E name w = (inl found, w1) →
  match named w.1 name with Some c => found = ct_id c ∧ ct_id c ≠ EmptyString | None => found = EmptyString end.
Proof using HE.
  unfold find_container, run_docker, run_command. destruct w as [d files]. intros Hp.
  destruct (eg_run E _ None files d) as [[[|p|p] out|] d'] eqn:Er; try done. intros [= <- _]. exact (el_find E _ _ _ _ _ Hp Er).
Qed.

(** And stops that one. *)
Lemma stop_at id w name :
  (∀ c, named w.1 name = Some c → ct_id c ≠ id) → named (stop_container E id w).2.1 name = named w.1 name.
Proof using HE.
  unfold stop_container, run_docker. rewrite run_command_state.
  pose proof (el_stop E "120" id w.2 w.1 name) as H. destruct (eg_run E _ None w.2 w.1) as [r d']. simpl in *.
  destruct (named w.1 name) as [c|]; [|by intros _]. destruct H as [[H|[H _]] _]; [by intros _|]. intros Hne. by destruct (Hne c).
Qed.

Definition is_down (name : string) (d : D) : Prop := ∀ c, named d name = Some c → ct_running c = false.

Lemma stop_keeps_down id w name : is_down name w.1 → is_down name (stop_container E id w).2.1.
Proof using HE.
  unfold stop_container, run_docker. rewrite run_command_state.
  pose proof (el_stop E "120" id w.2 w.1 name) as H. destruct (eg_run E _ None w.2 w.1) as [r d']. simpl in *.
  intros Hd c' Hc'. specialize (Hd). unfold is_down in Hd. destruct (named w.1 name) as [c|]; [|congruence].
  destruct H as [[H|[_ H]] _]; rewrite H in Hc'; injection Hc' as <-; [by apply Hd|done].
Qed.

Lemma stopped_is_down id w name c u w' :
  named w.1 name = Some c → ct_id c = id → stop_container E id w = (inl u, w') → is_down name w'.1.
Proof using HE.
  unfold stop_container, run_docker, run_command. destruct w as [d files]. intros Hc Hid.
  pose proof (el_stop E "120" id files d name) as H. simpl in Hc. rewrite Hc in H.
  destruct (eg_run E _ None files d) as [[[|p|p] out|] d'] eqn:Er; try done. intros [= _ <-] c' Hc'. simpl in Hc'.
  destruct H as [_ H]. rewrite (H out Hid eq_refl) in Hc'. by injection Hc' as <-.
Qed.

Lemma keeps_stop services : (∀ s, s ∈ services → s ∈ SERVICES) → Keeps (stop_containers E target services).
Proof using Ht HE.
  induction services as [|s l IH]; intros Hin; simpl; [apply _|]. intros w name Hn. unfold mbind at 1, c_bind.
  destruct (target_names s (Hin s (list_elem_of_here _ _))) as (Ho & Hp & _).
  pose proof (find_at (container_of target s) w) as Hf. pose proof (reads_find (container_of target s) w) as Hr.
  destruct (find_container E (container_of target s) w) as [[found|e] w1]; simpl in Hr; [|by apply named_same].
  specialize (Hf found w1 Hp eq_refl). assert (named w1.1 name = named w.1 name) as H1 by by apply named_same.
  rewrite <- H1. unfold mbind, c_bind.
  assert (named ((if bool_decide (found = EmptyString) then mret EmptyString else stop_container E found) w1).2.1 name = named w1.1 name) as H2.
  { case_bool_decide as Hne; [done|]. apply stop_at. intros c Hc Hid. rewrite (named_same _ _ _ Hr) in Hc. apply Hn.
    destruct (named w.1 (container_of target s)) as [c'|] eqn:Hc'; [|done]. destruct Hf as [-> _].
    by rewrite (el_ids E _ _ _ _ _ Hc Hc' Hid). }
  destruct ((if bool_decide (found = EmptyString) then mret EmptyString else stop_container E found) w1) as [[u|e] w2]; simpl in *; [|exact H2].
  rewrite (IH (λ s' Hs', Hin s' (list_elem_of_further _ _ _ Hs')) w2 name Hn). exact H2.
Qed.

Lemma stop_containers_keep_down services w name :
  is_down name w.1 → is_down name (stop_containers E target services w).2.1.
Proof using HE.
  revert w. induction services as [|s l IH]; intros w Hd; simpl; [done|]. unfold mbind at 1, c_bind.
  pose proof (reads_find (container_of target s) w) as Hr.
  destruct (find_container E _ w) as [[found|e] w1]; simpl in Hr; (assert (is_down name w1.1) as H1;
    [intros c Hc; apply Hd; by rewrite <- (named_same _ _ _ Hr)|]); [|exact H1].
  unfold mbind, c_bind. case_bool_decide; simpl; [by apply IH|]. pose proof (stop_keeps_down found w1 name H1) as H2.
  destruct (stop_container E found w1) as [[u|e] w2]; [by apply IH|done].
Qed.

(** After [stop] none of the services runs. *)
Lemma stopped_services_are_down services w u w' :
  (∀ s, s ∈ services → s ∈ SERVICES) → stop_containers E target services w = (inl u, w') →
  ∀ s, s ∈ services → is_down (container_of target s) w'.1.
Proof using Ht HE.
  revert w. induction services as [|s l IH]; intros w Hin; simpl; [by intros _ s Hs%not_elem_of_nil|].
  rewrite bind_inl. intros (found & w1 & Ef & H). apply bind_inl in H as (v & w2 & Es & H).
  destruct (target_names s (Hin s (list_elem_of_here _ _))) as (_ & Hp & _).
  pose proof (find_at _ _ _ _ Hp Ef) as Hf. pose proof (reads_find (container_of target s) w) as Hr. rewrite Ef in Hr. simpl in Hr.
  assert (is_down (container_of target s) w2.1) as Hd.
  { rewrite <- (named_same _ _ _ Hr) in Hf. case_bool_decide as Hne.
    - injection Es as _ <-. intros c Hc. rewrite Hc in Hf. destruct Hf as [-> Hf]. done.
    - destruct (named w1.1 (container_of target s)) as [c|] eqn:Hc; [|done]. destruct Hf as [-> _].
      by eapply stopped_is_down. }
  intros s' [->|Hs']%elem_of_cons; [|by eapply IH; [by intros s'' Hs''; apply Hin; right|exact H|]].
  pose proof (stop_containers_keep_down l w2 _ Hd) as H3. by rewrite H in H3.
Qed.

Lemma up_argv release :
  ∃ options, after_options (options ++ UP) = UP ∧
    compose_options target env_file release ++ UP ++ ["text-worker"; "gateway"]%string
    = "compose"%string :: "-p"%string :: en_project target :: options ++ UP ++ ["text-worker"; "gateway"]%string.
Proof using.
  exists (drop 3 (compose_options target env_file release)).
  unfold compose_options. destruct (staging target); split; reflexivity.
Qed.

#[export] Instance keeps_up release :
  Keeps (run_compose E target root env_file os_environ release (UP ++ ["text-worker"; "gateway"]%string)).
Proof using Ht HE.
  intros w name Hn. unfold run_compose, run_docker. rewrite run_command_state.
  destruct (up_argv release) as (options & Ho & ->). apply (el_up E); [done|]. intros Hin. apply Hn. clear Hn Ho.
  apply list_elem_of_fmap in Hin as (s & -> & Hs).
  assert (s ∈ SERVICES) as Hs'.
  { unfold SERVICES. apply elem_of_cons in Hs as [->|[->|Hs%not_elem_of_nil]%elem_of_cons]; [..|done]; rewrite !elem_of_cons; auto. }
  destruct (target_names s Hs') as (H & _ & ->). exact H.
Qed.

#[export] Instance keeps_start hf release images :
  Keeps (start_containers E target root env_file backend_env_file os_environ loads file_digest hf release images).
Proof using Ht HE. unfold start_containers. apply _. Qed.

#[export] Instance keeps_health hf token images polls :
  Keeps (check_health E target env_file backend_env_file loads file_digest hf token images polls).
Proof using HE.
  unfold check_health. apply keeps_bind; [apply _|intros env]. destruct (origin_error target env); [apply _|].
  induction polls as [|ga polls IH]; simpl; apply _.
Qed.

#[export] Instance keeps_switch hf token polls release images msg :
  Keeps (switch E target root env_file backend_env_file os_environ loads file_digest hf token polls release images msg).
Proof using Ht HE. unfold switch. apply keeps_bind; [by apply keeps_stop|apply _]. Qed.

#[export] Instance keeps_replace hf token polls rollback_polls release images prev :
  Keeps (replace_platform E target root env_file backend_env_file os_environ loads file_digest hf token polls rollback_polls release images prev).
Proof using Ht HE. unfold replace_platform. apply _. Qed.

(** ** What the replacement reports *)

Lemma check_health_true hf token images polls w w' :
  check_health E target env_file backend_env_file loads file_digest hf token images polls w = (inl true, w') →
  running_images SERVICES images w'.1.
Proof using HE.
  unfold check_health. rewrite bind_inl. intros (env & w1 & _ & H). destruct (origin_error target env); [done|].
  revert w1 H. induction polls as [|ga polls IH]; intros w1; simpl; [done|].
  intros [H|(w2 & H)]%retry_inl; [|by eapply IH].
  apply bind_inl in H as (u & w3 & Hp & [= <-]). by eapply poll_health_ok.
Qed.

Lemma switch_done hf token polls release images msg w u w' :
  switch E target root env_file backend_env_file os_environ loads file_digest hf token polls release images msg w = (inl u, w') →
  running_images SERVICES images w'.1.
Proof using HE.
  unfold switch. rewrite bind_inl. intros (? & w1 & _ & H). apply bind_inl in H as (? & w2 & _ & H).
  apply bind_inl in H as (ok & w3 & Hh & [-> ->]%require_inl). by eapply check_health_true.
Qed.

(** What a replacement says is what runs: when it returns, both services run the new image;
    when it reports a rollback, both run the previous one; otherwise it reports that the
    rollback failed. *)
Theorem replacement_reports_what_runs hf token polls rollback_polls release images prev w :
  match replace_platform E target root env_file backend_env_file os_environ loads file_digest hf token polls rollback_polls release images prev w with
  | (inl _, w') => running_images SERVICES images w'.1
  | (inr (_, msg), w') =>
      (msg = "Platform deployment failed; previous images and pins restored"%string ∧ running_images SERVICES (ri_images prev) w'.1) ∨
      msg = "Platform rollback failed; admission remains closed for operator recovery"%string
  end.
Proof using HE.
  unfold replace_platform, c_except. destruct (switch E _ _ _ _ _ _ _ _ _ polls _ _ _ w) as [[u|e] w1] eqn:E1; [by eapply switch_done|].
  unfold mbind, c_bind. destruct (switch E _ _ _ _ _ _ _ _ _ rollback_polls _ _ _ w1) as [[u|e'] w2] eqn:E2.
  - simpl. left. split; [done|]. by eapply switch_done.
  - simpl. by right.
Qed.

Lemma rollout_keeps hf token polls rollback_polls repo release sha dependencies revision backend_image tunnel_pin prev :
  Keeps (rollout_commands E target root env_file backend_env_file os_environ loads file_digest hf token polls rollback_polls
           repo release sha dependencies revision backend_image tunnel_pin prev).
Proof using Ht HE. unfold rollout_commands. apply _. Qed.

Lemma rollout_runs hf token polls rollback_polls repo release sha dependencies revision backend_image tunnel_pin prev w images w' :
  rollout_commands E target root env_file backend_env_file os_environ loads file_digest hf token polls rollback_polls
    repo release sha dependencies revision backend_image tunnel_pin prev w = (inl images, w') →
  (∃ image, images = map (λ s, (s, image)) SERVICES) ∧ running_images SERVICES images w'.1.
Proof using HE.
  unfold rollout_commands. rewrite bind_inl. intros (? & w1 & _ & H). apply bind_inl in H as (image & w2 & _ & H).
  apply bind_inl in H as (? & w3 & _ & H). apply bind_inl in H as (? & w4 & Hr & [= <- <-]).
  split; [by exists image|].
  pose proof (replacement_reports_what_runs hf token polls rollback_polls release (map (λ s, (s, image)) SERVICES) (pl_release prev) w3) as Hp.
  rewrite Hr in Hp. exact Hp.
Qed.
End facts.

(** ** Two environments on one host *)

(** What an environment does not own: its backend and tunnel, and all of the other one. *)
Lemma environments_are_disjoint name1 name2 t1 t2 :
  environment_of name1 = Some t1 → environment_of name2 = Some t2 →
  ¬ own_container t1 (en_backend_container t2) ∧ ¬ own_container t1 (en_tunnel_container t2) ∧
  (name1 ≠ name2 → ∀ name, own_container t2 name → ¬ own_container t1 name).
Proof.
  intros H1 H2. set (foreign t n := bool_decide (n ∉ map snd (en_containers t))).
  assert (foreign t1 (en_backend_container t2) && foreign t1 (en_tunnel_container t2)
          && (bool_decide (name1 = name2) || forallb (foreign t1) (map snd (en_containers t2))) = true) as H.
  { destruct (environment_names _ _ H1) as [->| ->], (environment_names _ _ H2) as [->| ->];
      injection H1 as <-; injection H2 as <-; vm_compute; reflexivity. }
  rewrite !andb_true_iff, orb_true_iff, forallb_forall in H. destruct H as [[Hb Hn] Ho]. unfold foreign in *.
  rewrite !bool_decide_eq_true in *. split_and!; [done|done|]. intros Hne name Hin.
  destruct Ho as [Ho|Ho]; [done|]. apply list_elem_of_In in Hin. specialize (Ho name Hin). by apply bool_decide_eq_true in Ho.
Qed.

(** C24. A rollout touches the two containers of its own environment only: whatever its
    commands answer, and wherever it ends, every other container of the host keeps its image
    and its state, so both backends, both model tunnels and the whole other environment; and a
    rollout that returns leaves both of its services running the one image it reports. *)
Theorem rollout_stays_in_its_environment {D : Type} (E : engine D) `{!EngineLaws E}
    (env_name : string) (target : Environment) (root env_file backend_env_file : string) (os_environ : list (string * string))
    (loads : string → pyval + string) (file_digest : string → string) (hf : host_facts) (token : option string)
    (polls rollback_polls : list gateway_answers) (repo release sha : string) (dependencies : bool)
    (revision backend_image tunnel_pin : string) (prev : platform) (w : cstate) :
  environment_of env_name = Some target →
  let '(o, w') := rollout_commands E target root env_file backend_env_file os_environ loads file_digest hf token polls
                    rollback_polls repo release sha dependencies revision backend_image tunnel_pin prev w in
  (∀ name, ¬ own_container target name → container_named E w'.1 name = container_named E w.1 name) ∧
  (∀ other t, environment_of other = Some t →
     ¬ own_container target (en_backend_container t) ∧ ¬ own_container target (en_tunnel_container t) ∧
     (env_name ≠ other → ∀ name, own_container t name → ¬ own_container target name)) ∧
  (∀ images, o = inl images →
     (∃ image, images = map (λ s, (s, image)) SERVICES) ∧ running_images E target SERVICES images w'.1).
Proof.
  intros Ht.
  pose proof (rollout_keeps E target root env_file backend_env_file os_environ loads file_digest env_name (Ht := Ht) hf token polls
                rollback_polls repo release sha dependencies revision backend_image tunnel_pin prev w) as Hk.
  destruct (rollout_commands E _ _ _ _ _ _ _ _ _ _ _ _ _ _ _ _ _ _ _ w) as [o w'] eqn:Er. split_and!.
  - exact Hk.
  - intros other t Ho. by eapply environments_are_disjoint.
  - intros images ->. by eapply rollout_runs.
Qed.

(** ** A host

    An engine with these laws: a table of containers by name, whose identifiers are their
    names behind a prefix.  What [inspect] and [exec] print is fixed. *)
Definition host_table : Type := list (string * (string * bool)).

Definition table_container (n : string) (c : string * bool) : container := mkContainer ("id-" +:+ n)%string (py_strip c.1) c.2.
Definition table_containers (d : host_table) : list (string * container) := map (λ '(n, c), (n, table_container n c)) d.

Lemma table_lookup d n : dict_lookup (table_containers d) n = table_container n <$> dict_lookup d n.
Proof.
  induction d as [|[m c] d IH]; simpl; [done|]. by case_decide; subst.
Qed.

Lemma table_map_lookup (f : string → string * bool → string * bool) (d : host_table) n :
  dict_lookup (map (λ '(m, c), (m, f m c)) d) n = f n <$> dict_lookup d n.
Proof. induction d as [|[m c] d IH]; simpl; [done|]. by case_decide; subst. Qed.

(** What the processes that only look print. *)
Definition WORKER_ENV : pyval :=
  PyList [PyStr "INFERENCE_BACKEND=text_v1.2.3"; PyStr "TEXT_SERVICE_URL=http://vast-tunnel:18083";
          PyStr "TEXT_REFINEMENT_SERVICE_URL=http://vast-tunnel:18080"; PyStr "SYNTHFLOW_TEXT_PIPELINE=text_v1.2.3"]%string.
Definition IDLE_STATE : pyval :=
  PyDict [("protocol", PyInt 1); ("draining", PyBool true); ("drain_id", PyStr "tok"); ("active", PyInt 0)]%string.

Definition table_inspect (expression name : string) (d : host_table) : process_result :=
  if bool_decide (expression = "{{.Image}}"%string) then
    match dict_lookup d name with Some c => Exited 0 c.1 | None => Exited 1 EmptyString end
  else if bool_decide (expression = "{{.State.Running}}"%string) then
    match dict_lookup d name with Some c => Exited 0 (if c.2 then "true" else "false")%string | None => Exited 1 EmptyString end
  else if bool_decide (expression = "{{json .Config.Env}}"%string) then Exited 0 "env"
  else if bool_decide (expression = "{{json .Config.Labels}}"%string) then Exited 0 "labels"
  else if bool_decide (expression = "{{.Architecture}}"%string) then Exited 0 "amd64" else Exited 0 "sha256:new".

(** And what that means as JSON. *)
Definition table_loads (text : string) : pyval + string :=
  match dict_lookup [("env", WORKER_ENV); ("labels", PyDict [("org.opencontainers.image.revision", PyStr "c0ffee")]);
                     ("state", IDLE_STATE); ("layout", dev_layout)]%string text with
  | Some v => inl v
  | None => inr "Expecting value"%string
  end.

Definition table_find (pattern : string) (d : host_table) : string :=
  match list_find (λ '(n, _), ("name=^/" +:+ n +:+ "$")%string = pattern) d with
  | Some (_, (n, _)) => ("id-" +:+ n)%string
  | None => EmptyString
  end.

Definition table_answer (argv : list string) (d : host_table) : process_result :=
  match docker_args argv with
  | Some ("inspect" :: _ :: e :: [name]) => table_inspect e name d
  | Some ["container"; _; _; _; pattern; _; _] => Exited 0 (table_find pattern d)
  | Some ("exec" :: _ :: _ :: _ :: p :: _) => if bool_decide (p = HEALTH_PROGRAM) then Exited 0 "state" else Exited 0 "transport-ready"
  | Some ("compose" :: _) => Exited 0 "layout"
  | _ => Exited 0 "c0ffee"
  end%string.

(** The override that names the images comes last. *)
Fixpoint last_file (l : list string) (file : string) : string :=
  match l with
  | o :: f :: l' => last_file l' (if bool_decide (o = "-f"%string) then f else file)
  | _ => file
  end.

Definition table_up (project : string) (images : image_map) (d : host_table) (s : string) : host_table :=
  dict_set d (project_container project s) (dict_get images s EmptyString, true).

Definition table_change (argv : list string) (files : list (string * image_map)) (d : host_table) : process_result * host_table :=
  match docker_args argv with
  | Some ["stop"; _; _; id] =>
      (Exited 0 id, map (λ '(n, c), (n, (c.1, if decide (("id-" +:+ n)%string = id) then false else c.2))) d)
  | Some ("compose" :: _ :: project :: l) =>
      (Exited 0 EmptyString, foldl (table_up project (dict_get files (last_file l EmptyString) [])) d (drop 4 (after_options l)))
  | _ => (Exited 1 EmptyString, d)
  end%string.

Definition table_engine : engine host_table :=
  mkEngine _ (λ argv _ files d, if reads_only argv then (table_answer argv d, d) else table_change argv files d) table_containers.

Lemma plain_id n : plain_name n = true → py_strip ("id-" +:+ n) = ("id-" +:+ n)%string.
Proof.
  intros H. apply py_strip_tight. change (forallb (λ c, negb (is_space c)) (chars_of n) = true).
  unfold plain_name in H. rewrite forallb_forall in *. intros c Hc. specialize (H c Hc). clear -H.
  unfold plain_char, is_space in *. set (k := Ascii.nat_of_ascii c) in *. clearbody k. apply negb_true_iff.
  apply not_true_is_false. rewrite !orb_true_iff, !andb_true_iff, !Nat.leb_le, Nat.eqb_eq in *. lia.
Qed.

Lemma find_pattern n m : ("name=^/" +:+ n +:+ "$")%string = ("name=^/" +:+ m +:+ "$")%string → n = m.
Proof.
  intros H%string_app_cancel. apply (f_equal chars_of) in H. rewrite !chars_of_app in H. apply app_inv_tail in H.
  apply (f_equal String.string_of_list_ascii) in H. by rewrite !string_of_chars in H.
Qed.

Lemma after_options_app options services :
  after_options (options ++ UP) = UP → after_options (options ++ UP ++ services) = UP ++ services.
Proof.
  remember (length options) as k eqn:Hk. revert options Hk. induction k as [k IH] using lt_wf_ind. intros [|x [|y options]] Hk; [done| |].
  - simpl. destruct (is_option x); intros H; discriminate H.
  - simpl. destruct (is_option x); [apply (IH (length options)); simpl in Hk; [lia|done]|].
    intros H. apply (f_equal (@length _)) in H. simpl in H. rewrite length_app in H. simpl in H. lia.
Qed.

Lemma table_up_others project images services d name :
  name ∉ map (project_container project) services →
  dict_lookup (foldl (table_up project images) d services) name = dict_lookup d name.
Proof.
  revert d. induction services as [|s l IH]; intros d H; [done|]. simpl in *. apply not_elem_of_cons in H as [H1 H2].
  rewrite IH by done. apply dict_lookup_set_ne. congruence.
Qed.

#[export] Instance table_laws : EngineLaws table_engine.
Proof.
  split; unfold container_named, table_engine; cbn [eg_run eg_containers].
  - intros argv env files d ->. done.
  - intros d n1 n2 c1 c2. rewrite !table_lookup, !fmap_Some. intros (x1 & _ & ->) (x2 & _ & ->). simpl.
    by intros [= H].
  - intros name files d out d' Hp H. simpl in H. injection H as <- <-. rewrite table_lookup. unfold table_find.
    destruct (list_find _ d) as [[i [n c]]|] eqn:Ef.
    + apply list_find_Some in Ef as (Hi & Hn & Hlt). apply find_pattern in Hn as ->.
      destruct (dict_lookup d name) as [c'|] eqn:El; [simpl; split; [by apply plain_id|done]|].
      apply dict_lookup_None in El. exfalso. apply El, list_elem_of_fmap. exists (name, c). split; [done|by eapply list_elem_of_lookup_2].
    + apply list_find_None in Ef. destruct (dict_lookup d name) as [c'|] eqn:El; [|done].
      apply dict_lookup_elem in El. rewrite Forall_forall in Ef. by destruct (Ef _ El).
  - intros name expression files d out d' H. rewrite table_lookup.
    simpl in H. assert (table_inspect expression name d = Exited 0 out) as Hi by by injection H.
    clear H. split; intros ->; unfold table_inspect in Hi; simpl in Hi; destruct (dict_lookup d name) as [c|]; try done;
      injection Hi as <-; (eexists; split; [reflexivity|]); [done|]. by destruct c as [? []].
  - intros t id files d name. simpl. rewrite !table_lookup.
    rewrite (table_map_lookup (λ n c, (c.1, if decide (("id-" +:+ n)%string = id) then false else c.2))).
    destruct (dict_lookup d name) as [[i r]|]; [|done]. simpl. unfold table_container. simpl. split.
    + case_decide; [by right|by left].
    + intros out Hid _. by rewrite decide_True.
  - intros project options services env files d name Ho Hn. apply (after_options_app _ services) in Ho.
    assert (reads_only (docker_argv true ("compose" :: "-p" :: project :: options ++ UP ++ services)%string) = false) as ->.
    { change (bool_decide (head (after_options (options ++ UP ++ services)) = Some "config"%string) = false).
      rewrite Ho. reflexivity. }
    rewrite !table_lookup. f_equal.
    change (dict_lookup (foldl (table_up project (dict_get files (last_file (options ++ UP ++ services) EmptyString) [])) d
              (drop 4 (after_options (options ++ UP ++ services)))) name = dict_lookup d name).
    rewrite Ho. by apply table_up_others.
Qed.

Definition host_before : cstate (D := host_table) :=
  ([("deploy-gateway-1", ("sha256:old", true)); ("deploy-text-worker-1", ("sha256:old", true));
    ("deploy-backend-1", ("sha256:backend", true)); ("deploy-vast-tunnel-1", ("sha256:tunnel", true));
    ("synthx-staging-platform-gateway-1", ("sha256:staging", true))]%string, []).

Definition old_platform : platform :=
  mkPlatform (mkRelease "0ld" "/r/old/compose.platform.yml" [("gateway", "sha256:old"); ("text-worker", "sha256:old")]) false None.

Definition host_rollout (polls rollback_polls : list gateway_answers) :=
  rollout_commands table_engine dev "/home/ubuntu/services/.synthx/platform-cicd" "/b/.env.production" "/b/.env.production" []
    table_loads (λ _, "digest"%string)
    (mkHostFacts PyNone (true, None) ("digest", "digest")%string
       [("deploy-backend-1", "sha256:backend"); ("deploy-vast-tunnel-1", "sha256:tunnel")]%string)
    (Some "tok"%string) polls rollback_polls "/repo" "/r/new/compose.platform.yml" "c0ffee" true "c0ffee"
    "sha256:backend" "sha256:tunnel" old_platform host_before.

Definition healthy_gateway : gateway_answers :=
  mkGatewayAnswers (Some IDLE_STATE) (Some (PyDict [("status", PyStr "ready")]%string)).

(** One poll finds the new containers healthy; without one the old ones come back.  Either way
    nothing else on the host changes. *)
Example host_rollout_succeeds :
  (λ r, (r.1, r.2.1)) (host_rollout [healthy_gateway] [])
  = (inl [("gateway", "sha256:new"); ("text-worker", "sha256:new")]%string,
     [("deploy-gateway-1", ("sha256:new", true)); ("deploy-text-worker-1", ("sha256:new", true));
      ("deploy-backend-1", ("sha256:backend", true)); ("deploy-vast-tunnel-1", ("sha256:tunnel", true));
      ("synthx-staging-platform-gateway-1", ("sha256:staging", true))]%string).
Proof. vm_compute. reflexivity. Qed.

Example host_rollout_reverts :
  (λ r, (r.1, r.2.1)) (host_rollout [] [healthy_gateway])
  = (inr (true, "Platform deployment failed; previous images and pins restored"%string), host_before.1).
Proof. vm_compute. reflexivity. Qed.

Lemma rollout_stays_in_its_environment_witness :
  let '(o, w') := host_rollout [healthy_gateway] [] in
  (∀ name, ¬ own_container dev name → container_named table_engine w'.1 name = container_named table_engine host_before.1 name) ∧
  (∀ other t, environment_of other = Some t →
     ¬ own_container dev (en_backend_container t) ∧ ¬ own_container dev (en_tunnel_container t) ∧
     ("dev"%string ≠ other → ∀ name, own_container t name → ¬ own_container dev name)) ∧
  (∀ images, o = inl images →
     (∃ image, images = map (λ s, (s, image)) SERVICES) ∧ running_images table_engine dev SERVICES images w'.1).
Proof.
  unfold host_rollout. apply (rollout_stays_in_its_environment table_engine "dev"). reflexivity.
Defined.
