(* ===== verification/SmokeTest.v ===== *)
(** The smoke test of a built image, [src/deploy/ci/smoke_image.py], and the application it
    talks to: the routes of [src/system/api_server.py] behind the deployment middleware. *)
From S2P Require Import Prelude PyVal Tasks Queue Config Scheduler LocalWorker GrpcWorker World GrpcPool Deployment JobStore Justified JsonCodec WorkerServer DeployChecks Rollout RolloutFacts Fleet ApiServer ApiServerFacts ServingPath EndToEnd.

(** ** The application *)

Definition http_of (res : api_result) : http_result :=
  match res with
  | ApiOk status body => HttpResponse status body
  | ApiError status detail => HttpResponse status (PyDict [("detail"%string, detail)])
  | ApiCrash exn => HttpRaised exn
  end.

(** [GET /status]. *)
Definition status_page (c : SystemConfig) (q : TaskQueue) : http_result := HttpResponse 200 (api_status c q).

(** [POST /predict] through the middleware: [answer] is the handler's. *)
Definition post_predict (m : marker) (g : DeploymentGate) (answer : api_result) : http_result * DeploymentGate :=
  middleware (λ _ g, (http_of answer, g)) m (mkScope "http" "POST") g.

(** ** The test *)

(** What the test sees: the resolved Compose layout, the adapter's constructor, the polls of
    [/status] ([None]: no answer or no JSON), the answers and the metrics text. *)
Record smoke_obs := mkSmokeObs {
  sk_layout : pyval;
  sk_control : string;
  sk_adapter : worker_backend + string;
  sk_polls : list (option pyval);
  sk_predict : http_result;
  sk_metrics : string;
  sk_health : pyval;
  sk_drained : http_result;
}.

(** The polls until the deadline, which the list ends at; an assertion that fails ends the
    test. *)
Fixpoint smoke_polls (polls : list (option pyval)) : option string :=
  match polls with
  | [] => Some "Image API did not start"%string
  | None :: polls' => smoke_polls polls'
  | Some v :: _ => if py_eq_str (pyval_get v "status" PyNone) "running" then None else Some "AssertionError"%string
  end.

(** [needle in text]. *)
Fixpoint contains (needle text : string) : bool :=
  String.prefix needle text || match text with EmptyString => false | String _ text' => contains needle text' end.

(** [urlopen] raises [HTTPError] for any other answer. *)
Definition urlopen_ok (status : Z) : bool := (200 <=? status) && (status <? 300).

(** The checks before the marker is written. *)
Definition smoke_answers (ob : smoke_obs) : option string :=
  match smoke_polls (sk_polls ob) with
  | Some e => Some e
  | None =>
      match sk_predict ob with
      | HttpResponse status body =>
          if negb (urlopen_ok status) then Some "HTTPError"%string
          else if negb (py_eq (pyval_get (pyval_get body "result" PyNone) "prediction" PyNone) (PyInt 9)) then Some "AssertionError"%string
          else if negb (contains "inference_api_queue_depth" (sk_metrics ob)) then Some "AssertionError"%string
          else None
      | HttpRaised _ => Some "HTTPError"%string
      end
  end.

(** And those after it. *)
Definition smoke_drain (ob : smoke_obs) : option string :=
  if negb (py_truthy (pyval_get (sk_health ob) "draining" PyNone)
           && py_eq (pyval_get (sk_health ob) "active" PyNone) (PyInt 0)) then Some "AssertionError"%string
  else match sk_drained ob with
       | HttpResponse status _ =>
           if urlopen_ok status then Some "Drain admitted new inference"%string
           else if status =? 503 then None else Some "AssertionError"%string
       | HttpRaised _ => Some "AssertionError"%string
       end.

(** [main]: the first error; [None] when the test passes. *)
Definition smoke_main (dev : Environment) (ob : smoke_obs) : option string :=
  match validate_layout (sk_layout ob) (Some (sk_control ob)) dev with
  | Some e => Some e
  | None =>
      match sk_adapter ob with
      | inr e => Some e
      | inl _ => match smoke_answers ob with Some e => Some e | None => smoke_drain ob end
      end
  end.

(** ** The image under test *)

(** The observations of this application: the adapter is started for the text model, the API
    with the in-process pool answers the prediction with [answer], [late] polls fail, and the
    marker is written before the last two requests. *)
Definition image_obs (layout : pyval) (control : string) (text_starts : bool) (late : nat) (c : SystemConfig) (q : TaskQueue)
    (answer second : api_result) (metrics : string) : smoke_obs :=
  let '(r, g) := post_predict MarkerMissing gate_init answer in
  mkSmokeObs layout control (servicer_backend None (Some "text_v1.2.3"%string) false text_starts)
    (replicate late None ++ [Some (api_status c q)]) r metrics
    (match deployment_status (MarkerText "smoke") g with HttpResponse _ b => b | _ => PyNone end)
    (post_predict (MarkerText "smoke") g second).1.

Lemma smoke_polls_late late v :
  py_eq_str (pyval_get v "status" PyNone) "running" = true → smoke_polls (replicate late None ++ [Some v]) = None.
Proof. intros H. induction late as [|n IH]; simpl; [by rewrite H|done]. Qed.

(** The marker turns predictions away, and the test can see that nobody is served. *)
Lemma drained_application text g answer :
  post_predict (MarkerText text) g answer = (draining_response, g) ∧
  gate_active (post_predict MarkerMissing g answer).2 = gate_active g.
Proof. split; [done|]. unfold post_predict, middleware, gate_enter, gate_leave. simpl. lia. Qed.

(** The smoke test tells a sound image: with the reviewed layout, a text adapter that
    starts and the queue metric, an API that gives 200 for the prediction of 3 passes it,
    whatever its scheduler and workers did and however late it came up; and the prediction it
    checked is the square the end-to-end guarantee promises. *)
Theorem sound_image_passes_smoke (dev : Environment) (layout : pyval) (control uuid metrics : string) (late : nat)
    (c : SystemConfig) (q : TaskQueue) (answer second : api_result) :
  validate_layout layout (Some control) dev = None → contains "inference_api_queue_depth" metrics = true →
  square_response (PyInt 3) uuid answer → result_status answer = 200 →
  smoke_main dev (image_obs layout control true late c q answer second metrics) = None.
Proof.
  intros Hl Hm Hs H200. destruct Hs as [->|[(wid & x2 & latency & Hx & ->)|(code & detail & -> & Hc)]]; [done| |].
  - simpl in Hx. injection Hx as <-. unfold smoke_main, smoke_answers, smoke_drain, image_obs. cbn [post_predict]. simpl.
    rewrite Hl, smoke_polls_late by done. simpl. by rewrite Hm.
  - simpl in H200. subst code. rewrite !elem_of_cons in Hc. destruct Hc as [[=]|[[=]|[[=]|Hc]]]. by apply not_elem_of_nil in Hc.
Qed.

(** The test against the in-process system: the answer is that of [local_run], while another
    request is served beside it. *)
Definition smoke_answer : option api_result :=
  fst <$> predict (handler_tick local_pool local_plan point_clock) 10 (PyInt 3) "own" local_start.

Example local_image_passes :
  (λ answer, smoke_main dev (image_obs dev_layout (control_dir dev) true 3 default_config (queue_init 10) answer answer
               "inference_api_queue_depth 0.0")) <$> smoke_answer = Some None.
Proof. vm_compute. reflexivity. Qed.

(** An image whose adapter does not start, or that does not look at the marker, fails. *)
Example broken_images_fail :
  (λ answer, (smoke_main dev (image_obs dev_layout (control_dir dev) false 0 default_config (queue_init 10) answer answer
                "inference_api_queue_depth 0.0"),
              smoke_main dev
                (let ob := image_obs dev_layout (control_dir dev) true 0 default_config (queue_init 10) answer answer
                             "inference_api_queue_depth 0.0" in
                 mkSmokeObs (sk_layout ob) (sk_control ob) (sk_adapter ob) (sk_polls ob) (sk_predict ob) (sk_metrics ob)
                   (sk_health ob) (sk_predict ob)))) <$> smoke_answer
  = Some (Some "TextWorker", Some "Drain admitted new inference")%string.
Proof. vm_compute. reflexivity. Qed.
