(* ===== verification/SmokeCommands.v ===== *)
(** The containers of the smoke test: the Docker commands of [main] in
    [src/deploy/ci/smoke_image.py] over an engine of which only documented behaviour is
    assumed.  What it checks in between is in [SmokeTest]. *)
From S2P Require Import Prelude PyVal Tasks WorkerServer DeployChecks Rollout HostCommands HostCommandsFacts Fleet SmokeTest.

Section smoke.
Context {D : Type} (E : engine D) (loads : string → pyval + string) (dev : Environment).
Context (image name control : string).
Context (os_environ : list (string * string)) (env_file : string).

Definition check_output (argv : list string) (env : option (list (string * string))) : Cmd (D := D) string := λ '(d, files),
  match eg_run E argv env files d with
  | (Exited 0 out, d) => (inl out, (d, files))
  | (Exited _ _, d) => (inr (false, "CalledProcessError"%string), (d, files))
  | (TimedOut, d) => (inr (false, "TimeoutExpired"%string), (d, files))
  end.

Definition smoke_docker (args : list string) : Cmd (D := D) string :=
  out ← check_output ("docker"%string :: args) None; mret (py_strip out).

Definition COMPOSE_CONFIG : list string :=
  ["docker"; "compose"; "-f"; "deploy/ci/compose.platform.yml"; "config"; "--format"; "json"]%string.

Definition THROWAWAY : list string :=
  ["run"; "--rm"; "--network"; "none"; "-e"; "INFERENCE_BACKEND=text_v1.2.3"; "-e"; "TEXT_SERVICE_URL=http://unreachable.invalid";
   image; "python"; "-c";
   "from system.grpc_worker_server import WorkerServicer; assert WorkerServicer(122).backend is not None"]%string.

Definition START : list string :=
  ["run"; "-d"; "--rm"; "--name"; name; "-e"; "USE_GRPC=0"; "-e"; "SYNTHX_JOBS_ENABLED=0"; "-e";
   "PLATFORM_DRAIN_FILE=/tmp/platform-smoke-drain"; "-p"; "127.0.0.1::8000"; image]%string.

Definition PORTS : list string := ["inspect"; "--format"; "{{json .NetworkSettings.Ports}}"; name]%string.

Definition MARK : list string :=
  ["exec"; name; "python"; "-c"; "from pathlib import Path; Path('/tmp/platform-smoke-drain').write_text('smoke')"]%string.

Definition REMOVE : list string := ["docker"; "rm"; "-f"; name]%string.

(** [ports['8000/tcp'][0]['HostPort']], which must be a text. *)
Definition host_port (ports : pyval) : option string :=
  match pyval_get ports "8000/tcp" PyNone with
  | PyList (binding :: _) => match pyval_get binding "HostPort" PyNone with PyStr p => Some p | _ => None end
  | _ => None
  end.

Definition check_smoke (e : option string) : Cmd (D := D) () := match e with Some msg => c_crash msg | None => mret tt end.

(** The layout, with dummy values, and the adapter's constructor in a container without a
    network. *)
Definition smoke_checks : Cmd (D := D) pyval :=
  out ← check_output COMPOSE_CONFIG (Some (dict_set (dict_set os_environ "SYNTHX_ENV_FILE" env_file) "PLATFORM_CONTROL_DIR" control));
  layout ← match loads out with inl v => mret v | inr e => c_crash e end;
  check_smoke (validate_layout layout (Some control) dev) ;;
  smoke_docker THROWAWAY ;; mret layout.

(** What happens while the image serves. *)
Definition smoke_session (ob : smoke_obs) : Cmd (D := D) () :=
  smoke_docker START ;;
  out ← smoke_docker PORTS;
  match loads out with
  | inr e => c_crash e
  | inl ports =>
      match host_port ports with
      | None => c_crash "KeyError"
      | Some _ => check_smoke (smoke_answers ob) ;; smoke_docker MARK ;; check_smoke (smoke_drain ob)
      end
  end.

(** [finally]: the status of the removal is not looked at, but it may time out. *)
Definition remove_smoke : Cmd (D := D) () := λ '(d, files),
  match eg_run E REMOVE None files d with
  | (Exited _ _, d) => (inl tt, (d, files))
  | (TimedOut, d) => (inr (false, "TimeoutExpired"%string), (d, files))
  end.

Definition c_finally {A} (m : Cmd (D := D) A) (f : Cmd (D := D) ()) : Cmd (D := D) A := λ w,
  let '(o, w) := m w in
  match f w with (inl _, w) => (o, w) | (inr e, w) => (inr e, w) end.

Definition smoke_image (ob : smoke_obs) : Cmd (D := D) () :=
  smoke_checks ;; c_finally (smoke_session ob) remove_smoke.

(** ** What it leaves of the host *)

#[local] Abbreviation ct_of := (container_named E).

(** What Docker documents of these commands; a client that is killed may leave its container. *)
Class SmokeLaws : Prop := {
  sl_reads : ∀ argv env files d, argv ∈ [COMPOSE_CONFIG; "docker" :: PORTS; "docker" :: MARK]%string →
    ∀ n, ct_of (eg_run E argv env files d).2 n = ct_of d n;
  sl_throwaway : ∀ files d n c, ct_of d n = Some c →
    ct_of (eg_run E ("docker"%string :: THROWAWAY) None files d).2 n = Some c;
  sl_start : ∀ files d n, n ≠ name → ct_of (eg_run E ("docker"%string :: START) None files d).2 n = ct_of d n;
  sl_remove : ∀ files d, let '(r, d') := eg_run E REMOVE None files d in
    (∀ n, n ≠ name → ct_of d' n = ct_of d n) ∧ (∀ out, r = Exited 0 out → ct_of d' name = None);
}.

Context {HL : SmokeLaws}.

(** The containers of others stay as they were. *)
Definition smoke_spares {A} (m : Cmd (D := D) A) : Prop :=
  ∀ w n c, n ≠ name → ct_of w.1 n = Some c → ct_of (m w).2.1 n = Some c.

Lemma smoke_spares_ret {A} (a : A) : smoke_spares (mret a).
Proof using. by intros w n c. Qed.

Lemma smoke_spares_crash {A} msg : smoke_spares (c_crash msg : Cmd A).
Proof using. by intros w n c. Qed.

Lemma smoke_spares_bind {A B} (m : Cmd A) (k : A → Cmd B) : smoke_spares m → (∀ a, smoke_spares (k a)) → smoke_spares (m ≫= k).
Proof using.
  intros Hm Hk w n c Hn Hc. unfold mbind, c_bind. specialize (Hm w n c Hn Hc). destruct (m w) as [[a|e] w1]; [by apply Hk|done].
Qed.

Lemma smoke_spares_output argv env : (∀ files d n c, n ≠ name → ct_of d n = Some c → ct_of (eg_run E argv env files d).2 n = Some c) →
  smoke_spares (check_output argv env).
Proof using.
  intros H [d files] n c Hn Hc. unfold check_output. specialize (H files d n c Hn Hc).
  destruct (eg_run E argv env files d) as [[[] out|] d1]; exact H.
Qed.

Lemma smoke_spares_docker args : (∀ files d n c, n ≠ name → ct_of d n = Some c → ct_of (eg_run E ("docker"%string :: args) None files d).2 n = Some c) →
  smoke_spares (smoke_docker args).
Proof using. intros H. apply smoke_spares_bind; [by apply smoke_spares_output|intros ?; apply smoke_spares_ret]. Qed.

Lemma smoke_spares_check e : smoke_spares (check_smoke e).
Proof using. destruct e; [apply smoke_spares_crash|apply smoke_spares_ret]. Qed.

Lemma smoke_spares_session ob : smoke_spares (smoke_session ob).
Proof using HL.
  unfold smoke_session. apply smoke_spares_bind; [apply smoke_spares_docker; intros files d n c Hn <-; by apply sl_start|intros ?].
  apply smoke_spares_bind; [apply smoke_spares_docker; intros files d n c _ <-; apply sl_reads; by right; left|intros out].
  destruct (loads out) as [ports|]; [|apply smoke_spares_crash]. destruct (host_port ports); [|apply smoke_spares_crash].
  apply smoke_spares_bind; [apply smoke_spares_check|intros ?].
  apply smoke_spares_bind; [apply smoke_spares_docker; intros files d n c _ <-; apply sl_reads; by right; right; left|intros ?; apply smoke_spares_check].
Qed.

Lemma smoke_spares_checks : smoke_spares smoke_checks.
Proof using HL.
  unfold smoke_checks. apply smoke_spares_bind; [apply smoke_spares_output; intros files d n c _ <-; apply sl_reads; by left|intros out].
  apply smoke_spares_bind; [destruct (loads out); [apply smoke_spares_ret|apply smoke_spares_crash]|intros layout].
  apply smoke_spares_bind; [apply smoke_spares_check|intros ?].
  apply smoke_spares_bind; [apply smoke_spares_docker; intros files d n c _ Hc; by apply sl_throwaway|intros ?; apply smoke_spares_ret].
Qed.

Lemma smoke_spares_remove : smoke_spares remove_smoke.
Proof using HL.
  intros [d files] n c Hn Hc. unfold remove_smoke. pose proof (sl_remove files d) as H. simpl in Hc.
  destruct (eg_run E REMOVE None files d) as [[code out|] d1]; simpl; rewrite (proj1 H n Hn); exact Hc.
Qed.

Lemma finally_run {A} (m : Cmd A) (f : Cmd ()) w : (c_finally m f w).2 = (f (m w).2).2.
Proof using. unfold c_finally. destruct (m w) as [o w1]. simpl. by destruct (f w1) as [[u|e] w2]. Qed.

(** Wherever the test ends, no container that was on the host is touched; and once the image
    was started, its container is gone, unless the removal itself failed. *)
Theorem smoke_test_cleans_up (ob : smoke_obs) w :
  (∀ n c, n ≠ name → ct_of w.1 n = Some c → ct_of (smoke_image ob w).2.1 n = Some c) ∧
  (∀ layout w1, smoke_checks w = (inl layout, w1) →
     let w2 := (smoke_session ob w1).2 in
     (smoke_image ob w).2.1 = (eg_run E REMOVE None w2.2 w2.1).2 ∧
     (∀ out, (eg_run E REMOVE None w2.2 w2.1).1 = Exited 0 out → ct_of (smoke_image ob w).2.1 name = None)).
Proof using HL.
  split.
  - apply smoke_spares_bind; [apply smoke_spares_checks|]. intros _ w1 n c Hn Hc. rewrite finally_run.
    apply smoke_spares_remove; [done|]. by apply smoke_spares_session.
  - intros layout w1 Hck w2. unfold smoke_image, mbind, c_bind. rewrite Hck, finally_run. fold w2. destruct w2 as [d files].
    unfold remove_smoke. simpl. pose proof (sl_remove files d) as Hr. destruct (eg_run E REMOVE None files d) as [[code out|] d1]; simpl.
    + split; [done|]. intros o [= -> ->]. by apply (proj2 Hr o).
    + done.
Qed.

(** A test that passes has passed every check of [smoke_main]. *)
Theorem smoke_image_refines (ob : smoke_obs) w w' : smoke_image ob w = (inl tt, w') →
  ∃ layout, smoke_main dev (mkSmokeObs layout control (inl RealText) (sk_polls ob) (sk_predict ob) (sk_metrics ob) (sk_health ob) (sk_drained ob)) = None.
Proof using.
  intros (layout & w1 & Hc & H)%bind_inl. exists layout. assert (validate_layout layout (Some control) dev = None) as Hl.
  { apply bind_inl in Hc as (out & w2 & _ & Hc). apply bind_inl in Hc as (v & w3 & Hv & Hc).
    apply bind_inl in Hc as (u & w4 & He & Hc). apply bind_inl in Hc as (t & w5 & _ & Hc). injection Hc as <- _.
    destruct (validate_layout v (Some control) dev); [done|done]. }
  unfold c_finally in H. destruct (smoke_session ob w1) as [o w2] eqn:Es. destruct (remove_smoke w2) as [[u|] w3]; [|done].
  injection H as -> _. unfold smoke_main. cbn [sk_layout sk_control sk_adapter]. rewrite Hl.
  apply bind_inl in Es as (? & ? & _ & Es). apply bind_inl in Es as (out & ? & _ & Es).
  destruct (loads out) as [ports|]; [|done]. destruct (host_port ports); [|done].
  apply bind_inl in Es as (? & ? & Ha & Es). apply bind_inl in Es as (? & ? & _ & Hd).
  change (smoke_answers _) with (smoke_answers ob). change (smoke_drain _) with (smoke_drain ob).
  destruct (smoke_answers ob); [done|]. by destruct (smoke_drain ob).
Qed.
End smoke.

(** ** An engine that obeys the laws

    A list of containers; starting adds the one of the test, removing takes it away. *)
Definition list_run (image name : string) (argv : list string) (env : option (list (string * string)))
    (files : list (string * image_map)) (d : list (string * container)) : process_result * list (string * container) :=
  if decide (argv = "docker"%string :: START image name) then (Exited 0 "id", dict_set d name (mkContainer "id" image true))
  else if decide (argv = REMOVE name) then (Exited 0 name, dict_del d name)
  else if decide (argv = "docker"%string :: PORTS name) then (Exited 0 "ports", d)
  else (Exited 0 EmptyString, d).

Definition list_engine (image name : string) : engine (list (string * container)) := mkEngine _ (list_run image name) id.

#[export] Instance list_laws image name : SmokeLaws (list_engine image name) image name.
Proof.
  split.
  - intros argv env files d Hin n. unfold container_named, list_engine, list_run. cbn [eg_run eg_containers].
    rewrite !elem_of_cons in Hin. destruct Hin as [->|[->|[->|?%not_elem_of_nil]]]; [..|done];
      by repeat ((case_decide as He; [discriminate He|]) || case_decide).
  - intros files d n c Hc. unfold list_engine, list_run. cbn [eg_run].
    by repeat (case_decide as He; [discriminate He|]).
  - intros files d n Hn. unfold container_named, list_engine, list_run. cbn [eg_run eg_containers]. rewrite decide_True by done.
    simpl. by apply dict_lookup_set_ne.
  - intros files d. unfold container_named, list_engine, list_run. cbn [eg_run eg_containers].
    rewrite decide_False by discriminate. rewrite decide_True by done. split; [intros n Hn; by apply dict_lookup_del_ne|].
    intros out _. apply dict_lookup_del_eq.
Qed.
