(* ===== verification/Metrics.v ===== *)
(** The statistics of the load experiments, [src/experiments/metrics.py]: request logs,
    percentiles and the metrics of one run.  [numpy.percentile], used when numpy is
    installed, is a parameter with its documented formula as a law; the fallback is
    translated.  [get_metrics] reads the list of logs several times, and the load
    generator's threads may append to it in between: each read is an argument. *)
From S2P Require Import Prelude PyVal.

(** ** Rounding: [round(x, d)]

    Half to even at [d] decimals, on the exact value. *)
Definition round_half_even (x : Q) : Z :=
  let f := Qfloor x in
  match ((x - inject_Z f) ?= (1 # 2))%Q with
  | Lt => f
  | Gt => f + 1
  | Eq => if Z.even f then f else f + 1
  end.

Definition py_round (x : Q) (scale : positive) : Q :=
  (round_half_even (x * inject_Z (Zpos scale)) # scale)%Q.

Lemma Qfloor_bounds x : (inject_Z (Qfloor x) <= x /\ x < inject_Z (Qfloor x) + 1)%Q.
Proof.
  split; [apply Qfloor_le|].
  pose proof (Qlt_floor x) as H. rewrite inject_Z_plus in H. exact H.
Qed.

Lemma round_half_even_mono x y : (x <= y)%Q → round_half_even x <= round_half_even y.
Proof.
  intros Hxy. unfold round_half_even.
  pose proof (Qfloor_resp_le _ _ Hxy) as Hf.
  pose proof (Qfloor_bounds x) as [? ?]. pose proof (Qfloor_bounds y) as [? ?].
  destruct (Z.eq_dec (Qfloor x) (Qfloor y)) as [Heq|Hne].
  - rewrite Heq in *.
    destruct (Qcompare_spec (x - inject_Z (Qfloor y)) (1 # 2)),
      (Qcompare_spec (y - inject_Z (Qfloor y)) (1 # 2));
      try (exfalso; lra); repeat case_match; lia.
  - assert (Qfloor x + 1 <= Qfloor y) as Hlt by lia.
    destruct (Qcompare_spec (x - inject_Z (Qfloor x)) (1 # 2)),
      (Qcompare_spec (y - inject_Z (Qfloor y)) (1 # 2));
      repeat case_match; lia.
Qed.

Lemma py_round_mono x y d : (x <= y)%Q → (py_round x d <= py_round y d)%Q.
Proof.
  intros Hxy. unfold py_round.
  assert (round_half_even (x * inject_Z (Zpos d)) <= round_half_even (y * inject_Z (Zpos d))) as Hr.
  { apply round_half_even_mono. apply Qmult_le_compat_r; [done|]. done. }
  unfold Qle; simpl. nia.
Qed.

Lemma round_half_even_Z z : round_half_even (inject_Z z) = z.
Proof.
  unfold round_half_even. rewrite Qfloor_Z.
  destruct (Qcompare_spec (inject_Z z - inject_Z z) (1 # 2)); [lra|done|lra].
Qed.

Lemma py_round_Z z d : (py_round (inject_Z z) d == inject_Z z)%Q.
Proof.
  unfold py_round. rewrite <- inject_Z_mult, round_half_even_Z. unfold Qeq; simpl. lia.
Qed.

Lemma py_round_ge_Z z x d : (inject_Z z <= x)%Q → (inject_Z z <= py_round x d)%Q.
Proof. intros H%(py_round_mono _ _ d). rewrite <- (py_round_Z z d). exact H. Qed.

Lemma py_round_le_Z z x d : (x <= inject_Z z)%Q → (py_round x d <= inject_Z z)%Q.
Proof. intros H%(py_round_mono _ _ d). rewrite <- (py_round_Z z d). exact H. Qed.

(** ** Sums, minima and maxima of lists of floats *)

Definition py_sum (l : list Q) : Q := foldr Qplus 0%Q l.

(** [min(...)] and [max(...)] of a non-empty list: the first extreme element. *)
Definition py_min (x : Q) (l : list Q) : Q := foldl (λ m y, if y <?q m then y else m) x l.
Definition py_max (x : Q) (l : list Q) : Q := foldl (λ m y, if m <?q y then y else m) x l.

(** [statistics.mean]. *)
Definition py_mean (l : list Q) : Q := (py_sum l / inject_Z (py_len l))%Q.

Lemma py_min_le x l y : y ∈ x :: l → (py_min x l <= y)%Q.
Proof.
  revert x y. induction l as [|z l IH]; intros x y; simpl.
  { intros ->%list_elem_of_singleton. lra. }
  intros Hy. assert ((py_min (if z <?q x then z else x) l <= if z <?q x then z else x)%Q)
    by (apply IH; set_solver).
  apply elem_of_cons in Hy as [->|[->|Hy]%elem_of_cons]; [case_match; qlra..|].
  apply IH. set_solver.
Qed.

Lemma py_min_elem x l : py_min x l ∈ x :: l.
Proof.
  revert x. induction l as [|z l IH]; intros x; simpl; [by left|]. unfold py_min in *. simpl.
  destruct (z <?q x); [right; apply IH|]. destruct (proj1 (elem_of_cons _ _ _) (IH x)) as [->|H]; [by left|by do 2 right].
Qed.

Lemma py_max_elem x l : py_max x l ∈ x :: l.
Proof.
  revert x. induction l as [|z l IH]; intros x; simpl; [by left|]. unfold py_max in *. simpl.
  destruct (x <?q z); [right; apply IH|]. destruct (proj1 (elem_of_cons _ _ _) (IH x)) as [->|H]; [by left|by do 2 right].
Qed.

Lemma py_max_ge x l y : y ∈ x :: l → (y <= py_max x l)%Q.
Proof.
  revert x y. induction l as [|z l IH]; intros x y; simpl.
  { intros ->%list_elem_of_singleton. lra. }
  intros Hy. assert (((if x <?q z then z else x) <= py_max (if x <?q z then z else x) l)%Q)
    by (apply IH; set_solver).
  apply elem_of_cons in Hy as [->|[->|Hy]%elem_of_cons]; [case_match; qlra..|].
  apply IH. set_solver.
Qed.

Lemma py_sum_bounds l lo hi :
  Forall (λ x, lo <= x <= hi)%Q l →
  (inject_Z (py_len l) * lo <= py_sum l /\ py_sum l <= inject_Z (py_len l) * hi)%Q.
Proof.
  induction 1 as [|x l [Hlo Hhi] _ IH].
  { change (inject_Z (@py_len Q [])) with 0%Q. simpl. lra. }
  assert ((inject_Z (py_len (x :: l)) == inject_Z (py_len l) + 1)%Q) as ->.
  { change (x :: l) with ([x] ++ l). rewrite py_len_app, Z.add_comm, inject_Z_plus. done. }
  simpl. lra.
Qed.

Lemma py_mean_between l lo hi :
  l ≠ [] → Forall (λ x, lo <= x <= hi)%Q l → (lo <= py_mean l <= hi)%Q.
Proof.
  intros Hne Hall. destruct (py_sum_bounds l lo hi Hall) as [? ?].
  assert ((0 < inject_Z (py_len l))%Q) as Hpos.
  { destruct l; [done|]. unfold py_len. simpl. unfold Qlt; simpl. lia. }
  unfold py_mean. split; [apply Qle_shift_div_l|apply Qle_shift_div_r]; try done; lra.
Qed.

(** ** Sorted lists of floats *)

Definition sorted_q (l : list Q) : Prop := StronglySorted Qle l.

(** [sorted(values)]. *)
Definition py_sorted (l : list Q) : list Q := py_sort id l.

Lemma py_sorted_sorted l : sorted_q (py_sorted l).
Proof. apply (py_sort_sorted id). Qed.

Lemma py_sorted_perm l : py_sorted l ≡ₚ l.
Proof. apply py_sort_perm. Qed.

Lemma py_sorted_nil l : py_sorted l = [] ↔ l = [].
Proof.
  split; [|by intros ->]. intros H. apply Permutation_nil. by rewrite <- H, py_sorted_perm.
Qed.

Lemma py_sorted_len l : py_len (py_sorted l) = py_len l.
Proof. unfold py_len. by rewrite py_sorted_perm. Qed.

(** [l[i]] for an index in range. *)
Definition q_at (l : list Q) (i : Z) : Q := nth (Z.to_nat i) l 0%Q.

Lemma q_at_elem l i : 0 <= i < py_len l → q_at l i ∈ l.
Proof.
  intros Hi. unfold q_at. apply list_elem_of_In, nth_In. unfold py_len in Hi. lia.
Qed.

Lemma sorted_nth_le (l : list Q) (i j : nat) :
  sorted_q l → (i <= j < length l)%nat → (nth i l 0 <= nth j l 0)%Q.
Proof.
  intros Hs. revert i j. induction Hs as [|x l Hs IH Hx]; intros i j Hij; simpl in *; [lia|].
  destruct i as [|i], j as [|j]; [lra| |lia|apply IH; lia].
  rewrite Forall_forall in Hx. apply Hx, list_elem_of_In, nth_In. lia.
Qed.

Lemma sorted_at_le l i j : sorted_q l → 0 <= i <= j → j < py_len l → (q_at l i <= q_at l j)%Q.
Proof. intros Hs Hij Hj. apply sorted_nth_le; [done|]. unfold py_len in Hj. lia. Qed.

(** ** Percentiles *)

(** The formula numpy documents for [percentile] with its default, linear, method: the
    value at the fractional index [(n - 1) * p / 100]. *)
Definition linear_percentile (l : list Q) (p : Q) : Q :=
  let h := (inject_Z (py_len l - 1) * (p / 100))%Q in
  let i := Qfloor h in
  let lo := q_at l i in
  let hi := q_at l (Z.min (i + 1) (py_len l - 1)) in
  (lo + (h - inject_Z i) * (hi - lo))%Q.

Class NumpyPercentile (np : list Q → Q → Q) : Prop :=
  np_percentile : ∀ l p, l ≠ [] → (0 <= p <= 100)%Q →
    (np l p == linear_percentile (py_sorted l) p)%Q.

(** [_calculate_percentile]; [np] is [numpy.percentile] when numpy is installed. *)
Definition calculate_percentile (np : option (list Q → Q → Q)) (values : list Q) (percentile : Q) : Q :=
  match values with
  | [] => 0%Q
  | _ =>
      match np with
      | Some f => f values percentile
      | None =>
          let sorted_values := py_sorted values in
          let rank := Qfloor ((percentile / 100) * inject_Z (py_len sorted_values)) in
          let rank := Z.max 0 (Z.min rank (py_len sorted_values - 1)) in
          q_at sorted_values rank
      end
  end.

Lemma Qfloor_range x n : (0 <= x <= inject_Z n)%Q → 0 <= Qfloor x <= n.
Proof.
  intros [H0 Hn]. split.
  - rewrite <- (Qfloor_Z 0). by apply Qfloor_resp_le.
  - rewrite <- (Qfloor_Z n). by apply Qfloor_resp_le.
Qed.

Lemma percentile_index (n : Z) p q :
  0 <= n → (0 <= p <= 100)%Q → (p <= q)%Q →
  (0 <= inject_Z n * (p / 100) <= inject_Z n)%Q ∧
  (inject_Z n * (p / 100) <= inject_Z n * (q / 100))%Q.
Proof.
  intros Hn Hp Hpq. assert ((0 <= inject_Z n)%Q) by (unfold Qle; simpl; lia).
  unfold Qdiv. change (/ 100)%Q with (1 # 100)%Q. split; nra.
Qed.

Lemma py_len_pos {A} (l : list A) : l ≠ [] → 0 < py_len l.
Proof. destruct l; [done|]. unfold py_len. simpl. lia. Qed.

Section linear.
Context (l : list Q) (Hs : sorted_q l) (Hne : l ≠ []).

(** Both neighbours of a fractional index are in range, and in order. *)
Lemma linear_cell (h : Q) :
  (0 <= h <= inject_Z (py_len l - 1))%Q →
  let i := Qfloor h in let j := Z.min (i + 1) (py_len l - 1) in
  (0 <= i <= j ∧ j < py_len l) ∧ (q_at l i <= q_at l j)%Q ∧
  (q_at l i ∈ l ∧ q_at l j ∈ l).
Proof using Hs Hne.
  intros Hh i j. pose proof (Qfloor_range h _ Hh). pose proof (py_len_pos l Hne).
  assert (0 <= i <= j ∧ j < py_len l) by (unfold i, j; lia).
  split_and!; try lia; [apply sorted_at_le; [done|lia..]|apply q_at_elem; lia..].
Qed.

Lemma linear_percentile_between p :
  (0 <= p <= 100)%Q →
  ∃ x y, x ∈ l ∧ y ∈ l ∧ (x <= linear_percentile l p <= y)%Q.
Proof using Hs Hne.
  intros Hp. pose proof (py_len_pos l Hne).
  destruct (percentile_index (py_len l - 1) p p ltac:(lia) Hp (Qle_refl _)) as [Hh _].
  pose proof (linear_cell _ Hh) as (_ & Hle & Hi & Hj).
  pose proof (Qfloor_bounds (inject_Z (py_len l - 1) * (p / 100))) as [? ?].
  do 2 eexists. split_and!; [exact Hi|exact Hj|..]; unfold linear_percentile; nra.
Qed.

Lemma linear_percentile_mono p q :
  (0 <= p)%Q → (p <= q)%Q → (q <= 100)%Q → (linear_percentile l p <= linear_percentile l q)%Q.
Proof using Hs Hne.
  intros Hp0 Hpq Hq. pose proof (py_len_pos l Hne) as Hlen.
  destruct (percentile_index (py_len l - 1) p q ltac:(lia) ltac:(lra) Hpq) as [Hh Hle].
  destruct (percentile_index (py_len l - 1) q q ltac:(lia) ltac:(lra) (Qle_refl _)) as [Hh' _].
  unfold linear_percentile. set (h := (_ * (p / 100))%Q) in *. set (k := (_ * (q / 100))%Q) in *.
  pose proof (linear_cell _ Hh) as ([? ?] & Hc & _).
  pose proof (linear_cell _ Hh') as ([? ?] & Hc' & _).
  pose proof (Qfloor_bounds h) as [? ?]. pose proof (Qfloor_bounds k) as [? ?].
  pose proof (Qfloor_resp_le _ _ Hle) as Hf.
  destruct (Z.eq_dec (Qfloor h) (Qfloor k)) as [Heq|Hn].
  - rewrite Heq in *. nra.
  - assert ((q_at l (Z.min (Qfloor h + 1) (py_len l - 1)) <= q_at l (Qfloor k))%Q) as Hmid
      by (apply sorted_at_le; [done|lia..]).
    nra.
Qed.
End linear.

Section percentile.
Context (np : option (list Q → Q → Q)) (Hnp : ∀ f, np = Some f → NumpyPercentile f).

Lemma py_sorted_elem x l : x ∈ py_sorted l ↔ x ∈ l.
Proof using. by rewrite py_sorted_perm. Qed.

Lemma percentile_rank (n : Z) p q :
  0 < n → (0 <= p)%Q → (p <= q)%Q → (q <= 100)%Q →
  let rank r := Z.max 0 (Z.min (Qfloor ((r / 100) * inject_Z n)) (n - 1)) in
  0 <= rank p <= rank q ∧ rank q < n.
Proof using.
  intros Hn Hp Hpq Hq rank.
  destruct (percentile_index n p q ltac:(lia) ltac:(lra) Hpq) as [_ Hle].
  assert (((p / 100) * inject_Z n <= (q / 100) * inject_Z n)%Q) as Hle' by lra.
  pose proof (Qfloor_resp_le _ _ Hle'). unfold rank. lia.
Qed.

Lemma calculate_percentile_between values p :
  values ≠ [] → (0 <= p <= 100)%Q →
  ∃ x y, x ∈ values ∧ y ∈ values ∧ (x <= calculate_percentile np values p <= y)%Q.
Proof using Hnp.
  intros Hne Hp. assert (py_sorted values ≠ []) as Hne' by (by rewrite py_sorted_nil).
  unfold calculate_percentile. destruct values as [|v vs] eqn:E; [done|]. rewrite <- E in *.
  destruct np as [f|].
  - destruct (linear_percentile_between _ (py_sorted_sorted values) Hne' p Hp) as (x & y & Hx & Hy & Hb).
    rewrite py_sorted_elem in Hx, Hy. exists x, y. split_and!; [done..| |];
      rewrite (Hnp f eq_refl values p Hne Hp); apply Hb.
  - pose proof (py_len_pos _ Hne') as Hn.
    destruct (percentile_rank (py_len (py_sorted values)) p p Hn ltac:(lra) ltac:(lra) ltac:(lra)) as [? ?].
    eexists _, _. split_and!; [| |apply Qle_refl|apply Qle_refl];
      apply py_sorted_elem, q_at_elem; lia.
Qed.

Lemma calculate_percentile_mono values p q :
  (0 <= p)%Q → (p <= q)%Q → (q <= 100)%Q →
  (calculate_percentile np values p <= calculate_percentile np values q)%Q.
Proof using Hnp.
  intros Hp Hpq Hq. unfold calculate_percentile. destruct values as [|v vs] eqn:E; [lra|]. rewrite <- E.
  assert (values ≠ []) as Hne by (by subst).
  assert (py_sorted values ≠ []) as Hne' by (by rewrite py_sorted_nil).
  destruct np as [f|].
  - rewrite (Hnp f eq_refl values p Hne), (Hnp f eq_refl values q Hne) by lra.
    by apply linear_percentile_mono; [apply py_sorted_sorted|..].
  - pose proof (py_len_pos _ Hne') as Hn.
    destruct (percentile_rank (py_len (py_sorted values)) p q Hn Hp Hpq Hq) as [? ?].
    apply sorted_at_le; [apply py_sorted_sorted|done|done].
Qed.
End percentile.

(** ** Request logs *)

Record RequestLog := mkLog {
  rl_request_id : string;
  rl_start_time : Q;
  rl_end_time : Q;
  rl_latency : Q;
  rl_success : bool;
  rl_error : option string;
}.

Definition succeeded (l : list RequestLog) : list RequestLog := filter (λ r, rl_success r = true) l.

(** The values one call of [get_metrics] sees of [self.logs], in the order it reads it:
    the emptiness test, [len], the count, the latencies, the earliest start and the
    latest end.  [steady] is a list nobody appends to. *)
Record log_reads := mkReads {
  lr_truth : list RequestLog;
  lr_len : list RequestLog;
  lr_count : list RequestLog;
  lr_latencies : list RequestLog;
  lr_start : list RequestLog;
  lr_end : list RequestLog;
}.

Definition steady (l : list RequestLog) : log_reads := mkReads l l l l l l.

(** The list is only ever appended to. *)
Definition appending (r : log_reads) : Prop :=
  lr_truth r `prefix_of` lr_len r ∧ lr_len r `prefix_of` lr_count r ∧
  lr_count r `prefix_of` lr_latencies r ∧ lr_latencies r `prefix_of` lr_start r ∧
  lr_start r `prefix_of` lr_end r.

(** [_empty_metrics]. *)
Definition empty_metrics (timestamp : string) : list (string * pyval) :=
  [("total_requests", PyInt 0); ("completed_requests", PyInt 0);
   ("failed_requests", PyInt 0); ("avg_latency", PyFloat 0);
   ("p50_latency", PyFloat 0); ("p95_latency", PyFloat 0); ("p99_latency", PyFloat 0);
   ("throughput", PyFloat 0); ("failure_rate", PyFloat 0);
   ("timestamp", PyStr timestamp)]%string.

(** [_failed_metrics]. *)
Definition failed_metrics (total failed : Z) (timestamp : string) : list (string * pyval) :=
  [("total_requests", PyInt total); ("completed_requests", PyInt 0);
   ("failed_requests", PyInt failed); ("avg_latency", PyFloat 0);
   ("p50_latency", PyFloat 0); ("p95_latency", PyFloat 0); ("p99_latency", PyFloat 0);
   ("throughput", PyFloat 0); ("failure_rate", PyFloat 1);
   ("timestamp", PyStr timestamp)]%string.

(** The throughput: completed requests per second between the earliest start and the
    latest end. *)
Definition metrics_throughput (completed : Z) (starts ends : list RequestLog) : Q :=
  match rl_start_time <$> starts, rl_end_time <$> ends with
  | s :: ss, e :: es =>
      let duration := (py_max e es - py_min s ss)%Q in
      if 0 <?q duration then (inject_Z completed / duration)%Q
      else if Qeq_bool duration 0 then inject_Z completed else 0%Q
  | _, _ => 0%Q
  end.

(** [get_metrics]. *)
Definition get_metrics (np : option (list Q → Q → Q)) (timestamp : string) (r : log_reads)
    : list (string * pyval) :=
  match lr_truth r with
  | [] => empty_metrics timestamp
  | _ =>
      let total_requests := py_len (lr_len r) in
      let completed_requests := py_len (succeeded (lr_count r)) in
      let failed_requests := total_requests - completed_requests in
      match rl_latency <$> succeeded (lr_latencies r) with
      | [] => failed_metrics total_requests failed_requests timestamp
      | (_ :: _) as successful_latencies =>
          let sorted_latencies := py_sorted successful_latencies in
          let avg_latency := py_mean successful_latencies in
          let p50_latency := calculate_percentile np sorted_latencies 50 in
          let p95_latency := calculate_percentile np sorted_latencies 95 in
          let p99_latency := calculate_percentile np sorted_latencies 99 in
          let throughput := metrics_throughput completed_requests (lr_start r) (lr_end r) in
          let failure_rate :=
            if 0 <? total_requests
            then (inject_Z failed_requests / inject_Z total_requests)%Q else 0%Q in
          [("total_requests", PyInt total_requests);
           ("completed_requests", PyInt completed_requests);
           ("failed_requests", PyInt failed_requests);
           ("avg_latency", PyFloat (py_round avg_latency 100));
           ("p50_latency", PyFloat (py_round p50_latency 100));
           ("p95_latency", PyFloat (py_round p95_latency 100));
           ("p99_latency", PyFloat (py_round p99_latency 100));
           ("throughput", PyFloat (py_round throughput 100));
           ("failure_rate", PyFloat (py_round failure_rate 10000));
           ("timestamp", PyStr timestamp)]%string
      end
  end.

(** [calculate_metrics_from_logs]. *)
Definition calculate_metrics_from_logs np (timestamp : string) (r : log_reads) (name : string) :=
  get_metrics np timestamp r.

(** ** The shape of the result *)

Definition metrics_schema : list (string * string) :=
  [("total_requests", "int"); ("completed_requests", "int"); ("failed_requests", "int");
   ("avg_latency", "float"); ("p50_latency", "float"); ("p95_latency", "float");
   ("p99_latency", "float"); ("throughput", "float"); ("failure_rate", "float");
   ("timestamp", "str")]%string.

Definition schema_of (d : list (string * pyval)) : list (string * string) :=
  (λ kv, (kv.1, type_name kv.2)) <$> d.

Lemma get_metrics_schema np ts r : schema_of (get_metrics np ts r) = metrics_schema.
Proof. unfold get_metrics. by repeat case_match. Qed.

(** [get_metrics] has one result type: whatever was logged, and however the list
    grows while it is read, the result has the same ten entries in the same order, the
    counts integers and the measures floats, so every reader finds its entry. *)
Theorem metrics_have_one_type np ts r :
  schema_of (get_metrics np ts r) = metrics_schema ∧
  schema_of (empty_metrics ts) = metrics_schema ∧
  ∀ total failed, schema_of (failed_metrics total failed ts) = metrics_schema.
Proof. split_and!; [apply get_metrics_schema|done..]. Qed.

(** ** What the metrics say of the logs *)

Lemma succeeded_len l : 0 <= py_len (succeeded l) <= py_len l.
Proof. unfold py_len, succeeded. pose proof (length_filter (λ r, rl_success r = true) l). lia. Qed.

Lemma succeeded_prefix_len l k :
  l `prefix_of` k → py_len (succeeded k) - py_len (succeeded l) <= py_len k - py_len l.
Proof.
  intros [m ->]. unfold succeeded. rewrite filter_app, !py_len_app.
  pose proof (succeeded_len m). unfold succeeded in *. lia.
Qed.

(** The span of a run: its earliest start and its latest end. *)
Definition run_span (l : list RequestLog) (first last : Q) : Prop :=
  (first ∈ rl_start_time <$> l ∧ ∀ r, r ∈ l → (first <= rl_start_time r)%Q) ∧
  (last ∈ rl_end_time <$> l ∧ ∀ r, r ∈ l → (rl_end_time r <= last)%Q).

(** The throughput is the completed requests per second of the span; all of them, if the span
    has no length; none, if it ends before it starts. *)
Definition throughput_of (ok : Z) (first last x : Q) : Prop :=
  ((first < last)%Q → x = py_round (inject_Z ok / (last - first)) 100) ∧
  ((first == last)%Q → x = py_round (inject_Z ok) 100) ∧ ((last < first)%Q → x = py_round 0 100).

Lemma metrics_throughput_span ok l :
  l ≠ [] → ∃ first last, run_span l first last ∧ throughput_of ok first last (py_round (metrics_throughput ok l l) 100).
Proof.
  destruct l as [|x l]; [done|]. intros _. unfold metrics_throughput.
  change (rl_start_time <$> x :: l) with (rl_start_time x :: (rl_start_time <$> l)).
  change (rl_end_time <$> x :: l) with (rl_end_time x :: (rl_end_time <$> l)).
  cbv beta iota zeta. set (first := py_min _ _). set (last := py_max _ _).
  exists first, last. split; [split; split|].
  - change (first ∈ rl_start_time x :: (rl_start_time <$> l)). exact (py_min_elem _ _).
  - intros r Hr. apply py_min_le. exact (list_elem_of_fmap_2 rl_start_time (x :: l) r Hr).
  - change (last ∈ rl_end_time x :: (rl_end_time <$> l)). exact (py_max_elem _ _).
  - intros r Hr. apply py_max_ge. exact (list_elem_of_fmap_2 rl_end_time (x :: l) r Hr).
  - unfold throughput_of. split_and!; intros H.
    + rewrite (proj2 (Qltb_true _ _)) by lra. done.
    + destruct (0 <?q last - first) eqn:E; [qlra|]. rewrite Qeq_eq_bool by lra. done.
    + destruct (0 <?q last - first) eqn:E; [qlra|]. destruct (Qeq_bool _ _) eqn:E2; [apply Qeq_bool_eq in E2; lra|done].
Qed.

Definition all_latencies (P : Q → Prop) (l : list RequestLog) : Prop :=
  ∀ x, x ∈ l → rl_success x = true → P (rl_latency x).

Lemma all_latencies_elem P l x : all_latencies P l → x ∈ rl_latency <$> succeeded l → P x.
Proof.
  intros Hall (r & -> & Hr)%list_elem_of_fmap. apply list_elem_of_filter in Hr as [? ?].
  by apply Hall.
Qed.

Section account.
Context (np : option (list Q → Q → Q)) (Hnp : ∀ f, np = Some f → NumpyPercentile f).

Lemma percentile_in_range l lo hi p :
  l ≠ [] → (∀ x, x ∈ l → (lo <= x <= hi)%Q) → (0 <= p <= 100)%Q →
  (py_round lo 100 <= py_round (calculate_percentile np (py_sorted l) p) 100 <= py_round hi 100)%Q.
Proof using Hnp.
  intros Hne Hall Hp.
  destruct (calculate_percentile_between np Hnp (py_sorted l) p) as (x & y & Hx & Hy & Hb);
    [by rewrite py_sorted_nil|done|].
  rewrite py_sorted_elem in Hx, Hy. apply Hall in Hx, Hy.
  split; apply py_round_mono; lra.
Qed.

Lemma get_metrics_none ts l :
  l ≠ [] → rl_latency <$> succeeded l = [] →
  get_metrics np ts (steady l) = failed_metrics (py_len l) (py_len l) ts.
Proof using.
  intros Hne E. unfold get_metrics. simpl. rewrite E. destruct l; [done|].
  apply fmap_nil_inv in E. by rewrite E, Z.sub_0_r.
Qed.

Lemma get_metrics_some ts l :
  l ≠ [] → rl_latency <$> succeeded l ≠ [] →
  let total := py_len l in let ok := py_len (succeeded l) in
  let lats := rl_latency <$> succeeded l in
  get_metrics np ts (steady l) =
    [("total_requests", PyInt total); ("completed_requests", PyInt ok);
     ("failed_requests", PyInt (total - ok));
     ("avg_latency", PyFloat (py_round (py_mean lats) 100));
     ("p50_latency", PyFloat (py_round (calculate_percentile np (py_sorted lats) 50) 100));
     ("p95_latency", PyFloat (py_round (calculate_percentile np (py_sorted lats) 95) 100));
     ("p99_latency", PyFloat (py_round (calculate_percentile np (py_sorted lats) 99) 100));
     ("throughput", PyFloat (py_round (metrics_throughput ok l l) 100));
     ("failure_rate", PyFloat (py_round (inject_Z (total - ok) / inject_Z total) 10000));
     ("timestamp", PyStr ts)]%string.
Proof using.
  intros Hne Hl total ok lats. pose proof (py_len_pos l Hne).
  unfold get_metrics. simpl. fold lats in Hl |- *. destruct lats as [|x xs]; [done|].
  fold total ok. rewrite (proj2 (Z.ltb_lt 0 total)) by done. by destruct l.
Qed.

(** C35. The metrics of a finished run are right: the counts are exact and add up; when
    something succeeded, P50, P95 and P99 are in order and they and the mean lie between
    the rounded extremes of the successful latencies, the failure rate is the rounded
    fraction and lies in [0, 1], and the throughput is the rounded number of completed
    requests per second between the earliest start and the latest end, with numpy or
    without; when nothing succeeded the measures are zero and the failure rate one. *)
Theorem metrics_of_a_finished_run ts l lo hi :
  l ≠ [] → all_latencies (λ x, lo <= x <= hi)%Q l →
  let total := py_len l in let ok := py_len (succeeded l) in
  0 <= ok <= total ∧
  ((ok = 0 ∧ get_metrics np ts (steady l) = failed_metrics total total ts) ∨
   (0 < ok ∧ ∃ avg p50 p95 p99 throughput failure,
     get_metrics np ts (steady l) =
       [("total_requests", PyInt total); ("completed_requests", PyInt ok);
        ("failed_requests", PyInt (total - ok)); ("avg_latency", PyFloat avg);
        ("p50_latency", PyFloat p50); ("p95_latency", PyFloat p95); ("p99_latency", PyFloat p99);
        ("throughput", PyFloat throughput); ("failure_rate", PyFloat failure);
        ("timestamp", PyStr ts)]%string ∧
     (py_round lo 100 <= avg <= py_round hi 100)%Q ∧
     (py_round lo 100 <= p50 /\ p50 <= p95 /\ p95 <= p99 /\ p99 <= py_round hi 100)%Q ∧
     (∃ first last, run_span l first last ∧ throughput_of ok first last throughput) ∧ (0 <= failure <= 1)%Q ∧
     failure = py_round (inject_Z (total - ok) / inject_Z total) 10000)).
Proof using Hnp.
  intros Hne Hall total ok. pose proof (succeeded_len l) as Hok. split; [done|].
  pose proof (py_len_pos l Hne) as Ht. fold total in Ht, Hok. fold ok in Hok.
  set (lats := rl_latency <$> succeeded l).
  assert (py_len lats = ok) as Hlen by (unfold py_len, lats, ok, py_len; by rewrite length_fmap).
  assert (∀ x, x ∈ lats → (lo <= x <= hi)%Q) as Hin by (intros x Hx; exact (all_latencies_elem _ _ _ Hall Hx)).
  destruct (decide (ok = 0)) as [H0|Hpos].
  { left. split; [done|]. apply get_metrics_none; [done|].
    destruct lats eqn:E; [done|]. fold lats in E. unfold py_len in Hlen. simpl in Hlen. lia. }
  right. assert (lats ≠ []) as Hlne by (intros E; rewrite E in Hlen; by apply Hpos).
  split; [lia|]. do 6 eexists. split; [by apply get_metrics_some|].
  destruct (py_mean_between lats lo hi Hlne) as [? ?]; [by apply Forall_forall|].
  pose proof (percentile_in_range lats lo hi 50 Hlne Hin) as H50.
  pose proof (percentile_in_range lats lo hi 99 Hlne Hin) as H99.
  fold lats total ok. split_and!; try (apply py_round_mono; lra); try (apply py_round_mono, calculate_percentile_mono; [done|lra..]).
  all: try (apply H50; lra); try (apply H99; lra); try done.
  - by apply metrics_throughput_span.
  - apply (py_round_ge_Z 0), Qle_shift_div_l; unfold Qlt, Qle; simpl; lia.
  - apply (py_round_le_Z 1), Qle_shift_div_r; unfold Qlt, Qle; simpl; lia.
Qed.
End account.

(** ** Reading a list that still grows

    [LoadTester.run] returns the list its threads append to, and waits five seconds for
    each thread while a request may take thirty: the list can grow during [get_metrics]. *)

Definition metric_int (d : list (string * pyval)) (k : string) : Z :=
  match dict_lookup d k with Some (PyInt z) => z | _ => 0 end.

(** Each entry is right for the moment it was read; the number of failures is off by at
    most the entries appended between [len] and the count, and only downwards. *)
Lemma metrics_of_a_growing_list np ts r :
  appending r → lr_truth r ≠ [] →
  let m := get_metrics np ts r in
  let growth := py_len (lr_count r) - py_len (lr_len r) in
  metric_int m "total_requests" = py_len (lr_len r) ∧
  py_len (lr_len r) - py_len (succeeded (lr_len r)) - growth <= metric_int m "failed_requests"
    <= py_len (lr_len r) - py_len (succeeded (lr_len r)).
Proof.
  intros (_ & H1 & H2 & _) Hne m growth.
  pose proof (succeeded_prefix_len _ _ H1) as Hg. pose proof (succeeded_len (lr_len r)).
  assert (py_len (succeeded (lr_len r)) <= py_len (succeeded (lr_count r))) as Hle.
  { destruct H1 as [k ->]. unfold succeeded. rewrite filter_app, py_len_app.
    pose proof (py_len_nonneg (filter (λ r, rl_success r = true) k)). lia. }
  unfold m, get_metrics. destruct (lr_truth r); [done|].
  case_match; unfold metric_int; simpl; split; lia.
Qed.

(** One failed request logged, one success arriving between the two reads: the report
    counts no failure. *)
Definition late_log (ok : bool) : RequestLog :=
  mkLog "r" 0 1 1000 ok (if ok then None else Some "Timeout"%string).

Definition growing_reads : log_reads :=
  let l := [late_log true] in let k := [late_log true; late_log true] in
  mkReads l l k k k k.

(** Two successes and no failure: the count of failures is negative, and so is the rate. *)
Example growing_list_reports_negative_failures :
  appending growing_reads ∧
  metric_int (get_metrics None "t" growing_reads) "failed_requests" = -1 ∧
  dict_lookup (get_metrics None "t" growing_reads) "failure_rate"%string
    = Some (PyFloat (-10000 # 10000)).
Proof. split_and!; [unfold appending; simpl; split_and!; try (by eexists []); by eexists [_]|done|done]. Qed.

(** ** The fallback and the nearest rank

    The docstring calls the fallback the nearest-rank method.  The nearest rank of [p] is
    the smallest position whose share of the list reaches [p]; the code uses that position
    unless [p * n / 100] is a whole number, where it takes the next larger element. *)
Definition nearest_rank (values : list Q) (p : Q) : Q :=
  let s := py_sorted values in
  q_at s (Z.max 0 (- Qfloor (- ((p / 100) * inject_Z (py_len s))) - 1)).

Lemma Qfloor_unique x z : (inject_Z z <= x)%Q → (x < inject_Z z + 1)%Q → Qfloor x = z.
Proof.
  intros H1 H2. pose proof (Qfloor_bounds x) as [H3 H4].
  assert (inject_Z z < inject_Z (Qfloor x + 1))%Q as Ha by (rewrite inject_Z_plus; change (inject_Z 1) with 1%Q; lra).
  assert (inject_Z (Qfloor x) < inject_Z (z + 1))%Q as Hb by (rewrite inject_Z_plus; change (inject_Z 1) with 1%Q; lra).
  rewrite <- Zlt_Qlt in Ha, Hb. lia.
Qed.

Lemma fallback_is_nearest_rank_off_integers values p :
  values ≠ [] → (0 <= p)%Q → (p < 100)%Q →
  let x := ((p / 100) * inject_Z (py_len values))%Q in
  ¬ (x == inject_Z (Qfloor x))%Q →
  calculate_percentile None values p = nearest_rank values p.
Proof.
  intros Hne Hp0 Hp x Hx. unfold calculate_percentile, nearest_rank.
  rewrite py_sorted_len. fold x. pose proof (Qfloor_bounds x) as [H1 H2].
  pose proof (py_len_pos values Hne) as Hn.
  assert (0 < inject_Z (py_len values))%Q by (unfold Qlt; simpl; lia).
  assert ((0 <= x)%Q ∧ (x < inject_Z (py_len values))%Q) as [Hx0 Hxn].
  { unfold x, Qdiv. change (/ 100)%Q with (1 # 100)%Q. split; nra. }
  assert (Qfloor (- x) = - Qfloor x - 1) as ->.
  { apply Qfloor_unique; replace (- Qfloor x - 1) with (- (Qfloor x + 1)) by lia;
      rewrite inject_Z_opp, inject_Z_plus; change (inject_Z 1) with 1%Q; [lra|].
    destruct (Qlt_le_dec (inject_Z (Qfloor x)) x); [lra|]. destruct Hx. lra. }
  destruct values as [|v vs] eqn:E; [done|]. rewrite <- E in *.
  assert (0 <= Qfloor x) by (rewrite <- (Qfloor_Z 0); by apply Qfloor_resp_le).
  assert (inject_Z (Qfloor x) < inject_Z (py_len values))%Q as Hlt by lra.
  rewrite <- Zlt_Qlt in Hlt. f_equal. lia.
Qed.

(** The median of two values is their maximum. *)
Example fallback_differs_from_nearest_rank :
  calculate_percentile None [1; 2]%Q 50 = 2%Q ∧ nearest_rank [1; 2]%Q 50 = 1%Q.
Proof. done. Qed.

(** Four requests, one failed; with the linear method of numpy. *)
Definition sample_logs : list RequestLog :=
  [mkLog "a" 0 (1#10) 100 true None; mkLog "b" (1#10) (4#10) 300 true None;
   mkLog "c" (2#10) 1 800 false (Some "Timeout"%string);
   mkLog "d" (5#10) (7#10) 200 true None].

Definition sample_numpy (l : list Q) (p : Q) : Q := linear_percentile (py_sorted l) p.

#[export] Instance sample_numpy_percentile : NumpyPercentile sample_numpy.
Proof. intros l p _ _. unfold sample_numpy. reflexivity. Qed.

Lemma metrics_of_a_finished_run_witness :
  0 < 3 ∧ ∃ m, get_metrics (Some sample_numpy) "t" (steady sample_logs) = m ∧
    metric_int m "completed_requests" = 3.
Proof.
  assert (∀ f, Some sample_numpy = Some f → NumpyPercentile f) as Hnp.
  { intros f [= <-]. apply sample_numpy_percentile. }
  assert (all_latencies (λ x, 100 <= x <= 300)%Q sample_logs) as Hall.
  { intros x Hx Hok. unfold sample_logs in Hx. rewrite !elem_of_cons in Hx.
    destruct Hx as [->|[->|[->|[->|Hx]]]]; [..|by apply not_elem_of_nil in Hx]; simpl in *;
      [split; unfold Qle; simpl; lia..|done|split; unfold Qle; simpl; lia]. }
  destruct (metrics_of_a_finished_run (Some sample_numpy) Hnp "t" sample_logs 100 300
    ltac:(done) Hall) as [_ [[Hc _]|[_ (a & p50 & p95 & p99 & t & f & Heq & _)]]]; [done|].
  split; [lia|]. eexists. split; [exact Heq|]. reflexivity.
Defined.
