(* ===== verification/LoadTest.v ===== *)
(** The load generator, [src/experiments/load_test.py]: the constructor's checks, the loop
    of its client threads and [run], as atomic steps over the state they share, for every
    interleaving.  A thread's step ends where it reads the clock, takes or releases a lock,
    or waits for the server. *)
From stdpp Require Import pretty.
From S2P Require Import Prelude PyVal Metrics.

(** ** The constructor *)

Record LoadTester := mkTester {
  lt_url : string;
  lt_request_rate : Q;
  lt_duration : Z;
  lt_num_threads : Z;
  lt_timeout : Z;
  lt_request_body : pyval;
}.

Definition default_request_body : pyval := PyDict [("x", PyInt 1)]%string.

(** The messages carry the value; only their constant part is kept. *)
Definition load_tester (url : string) (request_rate : Q) (duration num_threads : Z)
    (request_body : pyval) (timeout : Z) : LoadTester + string :=
  if request_rate <=?q 0 then inr "request_rate must be > 0"%string
  else if duration <=? 0 then inr "duration must be > 0"%string
  else if num_threads <=? 0 then inr "num_threads must be > 0"%string
  else inl (mkTester url request_rate duration num_threads timeout
              (if py_truthy request_body then request_body else default_request_body)).

Lemma load_tester_ok url rate d n body t tester :
  load_tester url rate d n body t = inl tester →
  (0 < lt_request_rate tester)%Q ∧ 0 < lt_duration tester ∧ 0 < lt_num_threads tester.
Proof. unfold load_tester. intros H. repeat case_match; simplify_eq/=; zbool; split_and!; first [lia|qlra]. Qed.

(** [1.0 / rate_per_thread if rate_per_thread > 0 else 0.0] with
    [rate_per_thread = request_rate / num_threads]. *)
Definition rate_per_thread (t : LoadTester) : Q := (lt_request_rate t / inject_Z (lt_num_threads t))%Q.
Definition inter_request_delay (t : LoadTester) : Q :=
  if 0 <?q rate_per_thread t then (1 / rate_per_thread t)%Q else 0%Q.

(** ** State *)

Record load_stats := mkStats { st_sent : Z; st_completed : Z; st_failed : Z }.

(** Where a client thread is: not started, before its first clock reading, at the head of
    the loop, past the rate limit, waiting for the server, about to log.  [PcLogged] holds [logs_lock]: the entry is appended and the
    counters are not yet updated. *)
Inductive client_pc :=
| PcNew
| PcStarted
| PcWait (last : Q)
| PcReady
| PcSending (rid : string) (start : Q)
| PcRecord (entry : RequestLog)
| PcLogged (success : bool)
| PcCounted
| PcTimed (last : Q)
| PcExited.

(** [cl_rounds] counts the requests the thread has begun; the program does not keep it. *)
Record client := mkClient { cl_pc : client_pc; cl_rounds : nat }.

(** Where [run] is: about to start ([run_with_progress] only), the probe, starting thread [k], sleeping since the start of the test,
    waiting for thread [k] since a time, returned. *)
Inductive main_pc :=
| MBegin
| MProbe
| MSpawn (k : nat)
| MSleep (since : Q)
| MStop
| MJoin (k : nat) (since : Q)
| MReturned
| MRaised (msg : string).

Record load_state := mkLoad {
  ls_clock : Q;
  ls_clients : list client;
  ls_logs : list RequestLog;
  ls_lock : option nat;
  ls_stats : load_stats;
  ls_stop : bool;
  ls_start : option Q;
  ls_end : option Q;
  ls_main : main_pc;
}.

(** A fresh tester on which [run], or [run_with_progress], is called. *)
Definition load_init (progress : bool) (t : LoadTester) (now : Q) : load_state :=
  mkLoad now (replicate (Z.to_nat (lt_num_threads t)) (mkClient PcNew 0)) [] None
    (mkStats 0 0 0) false None None (if progress then MBegin else MProbe).

(** What a request does: a response, a timeout, another [RequestException], or an
    exception the thread does not catch. *)
Inductive http_outcome :=
| HttpResponse (status : Z)
| HttpTimeout
| HttpError (type : string)
| HttpCrash (msg : string).

(** The log entry of a request that ended, if its end is logged. *)
Definition log_entry (rid : string) (start now : Q) (o : http_outcome) : option RequestLog :=
  let latency_ms := ((now - start) * 1000)%Q in
  match o with
  | HttpResponse status =>
      let success := (200 <=? status) && (status <? 300) in
      Some (mkLog rid start now latency_ms success
              (if success then None else Some ("HTTP " +:+ pretty status)%string))
  | HttpTimeout => Some (mkLog rid start now latency_ms false (Some "Timeout"%string))
  | HttpError type => Some (mkLog rid start now latency_ms false (Some type))
  | HttpCrash _ => None
  end.

Definition set_client (i : nat) (c : client) (s : load_state) : load_state :=
  mkLoad (ls_clock s) (<[i := c]> (ls_clients s)) (ls_logs s) (ls_lock s) (ls_stats s)
    (ls_stop s) (ls_start s) (ls_end s) (ls_main s).

Definition set_main (m : main_pc) (s : load_state) : load_state :=
  mkLoad (ls_clock s) (ls_clients s) (ls_logs s) (ls_lock s) (ls_stats s)
    (ls_stop s) (ls_start s) (ls_end s) m.

Definition set_record (logs : list RequestLog) (lock : option nat) (st : load_stats) (s : load_state)
    : load_state :=
  mkLoad (ls_clock s) (ls_clients s) logs lock st (ls_stop s) (ls_start s) (ls_end s) (ls_main s).

(** ** One step of [_send_request_batch] *)
Definition client_step (t : LoadTester) (i : nat) (rid : string) (o : http_outcome) (s : load_state)
    : option load_state :=
  c ← ls_clients s !! i;
  let n := cl_rounds c in
  let now := ls_clock s in
  let st := ls_stats s in
  let go pc := Some (set_client i (mkClient pc n) s) in
  match cl_pc c with
  | PcNew | PcExited => None
  | PcStarted => go (PcWait now)
  | PcWait last =>
      if ls_stop s then go PcExited
      else if (now - last)%Q <?q inter_request_delay t then Some s
      else go PcReady
  | PcReady => Some (set_client i (mkClient (PcSending rid now) (S n)) s)
  | PcSending rid start =>
      match log_entry rid start now o with
      | Some entry => go (PcRecord entry)
      | None => go PcExited
      end
  | PcRecord entry =>
      match ls_lock s with
      | None =>
          Some (set_record (ls_logs s ++ [entry]) (Some i) st
                  (set_client i (mkClient (PcLogged (rl_success entry)) n) s))
      | Some _ => None
      end
  | PcLogged success =>
      Some (set_record (ls_logs s) None
              (mkStats (st_sent st) (st_completed st + 1)
                 (if success then st_failed st else st_failed st + 1))
              (set_client i (mkClient PcCounted n) s))
  | PcCounted => go (PcTimed now)
  | PcTimed last =>
      Some (set_record (ls_logs s) (ls_lock s)
              (mkStats (st_sent st + 1) (st_completed st) (st_failed st))
              (set_client i (mkClient (PcWait last) n) s))
  end.

(** ** One step of [run] and of [run_with_progress]

    They differ in when the start of the test is noted: after the probe, or before it.
    The progress loop waits as long as the sleep does. *)
Definition client_exited (s : load_state) (k : nat) : bool :=
  match ls_clients s !! k with Some c => match cl_pc c with PcExited => true | _ => false end | None => true end.

Definition main_step (progress : bool) (t : LoadTester) (probe : http_outcome) (s : load_state) : option load_state :=
  let now := ls_clock s in
  let n := length (ls_clients s) in
  match ls_main s with
  | MBegin =>
      Some (mkLoad now (ls_clients s) (ls_logs s) (ls_lock s) (ls_stats s) false (Some now)
              (ls_end s) MProbe)
  | MProbe =>
      match probe with
      | HttpResponse _ =>
          if progress then Some (set_main (MSpawn 0) s)
          else Some (mkLoad now (ls_clients s) (ls_logs s) (ls_lock s) (ls_stats s) false (Some now)
                       (ls_end s) (MSpawn 0))
      | _ => Some (set_main (MRaised ("ERROR: Cannot reach API server at " +:+ lt_url t)%string) s)
      end
  | MSpawn k =>
      if (k <? n)%nat
      then Some (set_main (MSpawn (S k))
             (set_client k (mkClient PcStarted 0) s))
      else Some (set_main (MSleep now) s)
  | MSleep since =>
      if (now - since)%Q <?q inject_Z (lt_duration t) then None else Some (set_main MStop s)
  | MStop =>
      Some (mkLoad now (ls_clients s) (ls_logs s) (ls_lock s) (ls_stats s) true (ls_start s)
              (ls_end s) (MJoin 0 now))
  | MJoin k since =>
      if (k <? n)%nat then
        if client_exited s k || (5 <=?q (now - since)%Q) then Some (set_main (MJoin (S k) now) s)
        else None
      else
        Some (mkLoad now (ls_clients s) (ls_logs s) (ls_lock s) (ls_stats s) (ls_stop s)
                (ls_start s) (Some now) MReturned)
  | MReturned | MRaised _ => None
  end.

(** Time passes, a client moves, [run] moves. *)
Inductive load_event :=
| EvTick (dt : Q)
| EvClient (i : nat) (rid : string) (o : http_outcome)
| EvMain (probe : http_outcome).

Definition load_step (progress : bool) (t : LoadTester) (e : load_event) (s : load_state) : option load_state :=
  match e with
  | EvTick dt =>
      if 0 <=?q dt then
        Some (mkLoad (ls_clock s + dt)%Q (ls_clients s) (ls_logs s) (ls_lock s) (ls_stats s)
                (ls_stop s) (ls_start s) (ls_end s) (ls_main s))
      else None
  | EvClient i rid o => client_step t i rid o s
  | EvMain probe => main_step progress t probe s
  end.

Fixpoint load_run (progress : bool) (t : LoadTester) (es : list load_event) (s : load_state) : option load_state :=
  match es with
  | [] => Some s
  | e :: es' => s' ← load_step progress t e s; load_run progress t es' s'
  end.

(** ** Sums over the client threads *)

Definition client_sum (f : client → Z) (l : list client) : Z := foldr (λ c a, f c + a) 0 l.

Lemma client_sum_insert f l i c c' :
  l !! i = Some c → client_sum f (<[i := c']> l) = client_sum f l - f c + f c'.
Proof.
  revert i. induction l as [|d l IH]; intros [|i] Hi; simplify_eq/=; [lia|].
  rewrite (IH i Hi). lia.
Qed.

Lemma client_sum_bounds f l (k : Z) :
  (∀ c, 0 <= f c <= k) → 0 <= client_sum f l <= k * py_len l.
Proof.
  intros Hf. induction l as [|d l IH]; [unfold py_len; simpl; lia|].
  change (d :: l) with ([d] ++ l). rewrite py_len_app. unfold py_len at 1. simpl.
  pose proof (Hf d). lia.
Qed.

Lemma client_sum_lookup f l i c :
  (∀ c, 0 <= f c) → l !! i = Some c → f c <= client_sum f l.
Proof.
  intros Hf. revert i. induction l as [|d l IH]; intros [|i] Hi; simplify_eq/=.
  - enough (0 <= client_sum f l) by lia. clear IH. induction l as [|e l IH]; simpl; [done|].
    pose proof (Hf e). lia.
  - pose proof (Hf d). pose proof (IH i Hi). lia.
Qed.

Lemma client_sum_zero f l : Forall (λ c, f c = 0) l → client_sum f l = 0.
Proof. induction 1; simpl; lia. Qed.

Definition is_logged (c : client) : Z := match cl_pc c with PcLogged _ => 1 | _ => 0 end.
Definition is_logged_failure (c : client) : Z := match cl_pc c with PcLogged false => 1 | _ => 0 end.
Definition is_counted (c : client) : Z := match cl_pc c with PcCounted | PcTimed _ => 1 | _ => 0 end.
Definition is_in_flight (c : client) : Z :=
  match cl_pc c with PcSending _ _ | PcRecord _ => 1 | _ => 0 end.
Definition is_pending (c : client) : Z :=
  match cl_pc c with PcReady | PcSending _ _ | PcRecord _ => 1 | _ => 0 end.
Definition rounds (c : client) : Z := Z.of_nat (cl_rounds c).

#[local] Arguments rounds !_ /.
#[local] Arguments is_logged !_ /.
#[local] Arguments is_logged_failure !_ /.
#[local] Arguments is_counted !_ /.
#[local] Arguments is_in_flight !_ /.
#[local] Arguments is_pending !_ /.

Definition failures (l : list RequestLog) : list RequestLog := filter (λ r, rl_success r = false) l.

(** ** The counters *)

Definition lock_holders (lock : option nat) : Z := match lock with Some _ => 1 | None => 0 end.


Record counts_ok (s : load_state) : Prop := {
  co_logs : py_len (ls_logs s) = st_completed (ls_stats s) + client_sum is_logged (ls_clients s);
  co_failed : py_len (failures (ls_logs s))
    = st_failed (ls_stats s) + client_sum is_logged_failure (ls_clients s);
  co_sent : st_completed (ls_stats s) = st_sent (ls_stats s) + client_sum is_counted (ls_clients s);
  co_lock : client_sum is_logged (ls_clients s) = lock_holders (ls_lock s);
  co_rounds : py_len (ls_logs s) + client_sum is_in_flight (ls_clients s)
    <= client_sum rounds (ls_clients s);
}.

Lemma failures_snoc l e :
  py_len (failures (l ++ [e])) = py_len (failures l) + (if rl_success e then 0 else 1).
Proof.
  unfold failures. rewrite filter_app, py_len_app, filter_cons. destruct (rl_success e); simpl; done.
Qed.

Ltac csums Hi :=
  repeat match goal with |- context [client_sum ?f (<[_ := ?c']> _)] =>
    rewrite (client_sum_insert f _ _ _ c' Hi) end; simpl.

Lemma client_step_counts t i rid o s s' :
  client_step t i rid o s = Some s' → counts_ok s → counts_ok s'.
Proof.
  unfold client_step. intros Hs [H1 H2 H3 H4 H5].
  destruct (ls_clients s !! i) as [[pc n]|] eqn:Hi; simplify_eq/=.
  assert (∀ f, (∀ c, 0 <= f c) → f (mkClient pc n) <= client_sum f (ls_clients s)) as Hge
    by (intros f Hf; by apply (client_sum_lookup f _ i)).
  destruct pc; simplify_eq/=; repeat case_match; simplify_eq/=; try by constructor.
  all: constructor; simpl; csums Hi; rewrite ?py_len_snoc, ?failures_snoc; try lia.
  all: try (match goal with |- context [rl_success ?e] => destruct (rl_success e) end; simpl; lia).
  all: try (destruct success; lia).
  all: pose proof (Hge is_logged ltac:(intros [[] ?]; simpl; lia)) as Hg;
    simpl in *; destruct (ls_lock _); simpl in *; lia.
Qed.

(** What a client's step leaves alone. *)
Lemma client_step_frame t i rid o s s' :
  client_step t i rid o s = Some s' →
  (∃ c c', ls_clients s !! i = Some c ∧ cl_pc c ≠ PcNew ∧ ls_clients s' = <[i := c']> (ls_clients s)) ∧
  ls_clock s' = ls_clock s ∧ ls_stop s' = ls_stop s ∧ ls_start s' = ls_start s ∧
  ls_main s' = ls_main s.
Proof.
  unfold client_step. intros H.
  destruct (ls_clients s !! i) as [[pc n]|] eqn:Hi; simplify_eq/=.
  destruct pc; simplify_eq/=; repeat case_match; simplify_eq/=;
    (split; [|done]); eexists _, _; (split; [reflexivity|]); (split; [done|]); try done.
  symmetry. by apply list_insert_id.
Qed.

(** ** The phases of [run] *)

Definition new_client : client := mkClient PcNew 0.
Definition new_from (k : nat) (s : load_state) : Prop :=
  ∀ j c, (k <= j)%nat → ls_clients s !! j = Some c → c = new_client.

Record phase_ok (progress : bool) (s : load_state) : Prop := {
  ph_fresh : match ls_main s with
             | MBegin | MProbe | MRaised _ => new_from 0 s
             | MSpawn k => new_from k s
             | _ => True
             end;
  ph_stop : ls_stop s = match ls_main s with MJoin _ _ | MReturned => true | _ => false end;
  ph_start : match ls_main s with
             | MBegin | MRaised _ => True
             | MProbe => progress = true → is_Some (ls_start s)
             | _ => is_Some (ls_start s)
             end;
}.

Lemma fresh_from_step k i c c' s s' :
  new_from k s → ls_clients s !! i = Some c → cl_pc c ≠ PcNew →
  ls_clients s' = <[i := c']> (ls_clients s) → new_from k s'.
Proof.
  intros Hf Hi Hc Heq j d Hj Hd. rewrite Heq in Hd.
  apply list_lookup_insert_Some in Hd as [(-> & _ & _)|[_ Hd]]; [|by apply (Hf j)].
  by rewrite (Hf _ _ Hj Hi) in Hc.
Qed.

Lemma client_step_phase progress t i rid o s s' :
  client_step t i rid o s = Some s' → phase_ok progress s → phase_ok progress s'.
Proof.
  intros ((c & c' & Hi & Hc & Heq) & _ & Hst & Hs & Hm)%client_step_frame [H1 H2 H3].
  constructor; rewrite Hm, ?Hst, ?Hs; [|done..].
  destruct (ls_main s); try done; by eapply fresh_from_step.
Qed.

Lemma main_step_phase progress t probe s s' :
  main_step progress t probe s = Some s' → phase_ok progress s → phase_ok progress s'.
Proof.
  unfold main_step. intros H [H1 H2 H3].
  destruct (ls_main s) eqn:Em; simplify_eq/=.
  - constructor; simpl; done.
  - destruct probe; simplify_eq/=; [destruct progress; simplify_eq/=|..];
      constructor; simpl; rewrite ?Em; try done. by apply H3.
  - case_match; simplify_eq/=; constructor; simpl; try done.
    intros j c Hj Hd. simpl in Hd. rewrite list_lookup_insert_ne in Hd by lia. apply (H1 j); [lia|done].
  - case_match; simplify_eq/=. constructor; simpl; done.
  - constructor; simpl; done.
  - repeat case_match; simplify_eq/=; constructor; simpl; done.
Qed.

Lemma main_step_counts progress t probe s s' :
  main_step progress t probe s = Some s' → phase_ok progress s → counts_ok s → counts_ok s'.
Proof.
  unfold main_step. intros H [H1 _ _] [? ? ? ? ?].
  destruct (ls_main s) eqn:Em; simplify_eq/=; repeat case_match; simplify_eq/=; try by constructor.
  match goal with Hk : (_ <? _)%nat = true |- _ => apply Nat.ltb_lt in Hk;
    destruct (lookup_lt_is_Some_2 _ _ Hk) as [c Hc] end.
  pose proof (H1 _ _ ltac:(done) Hc) as ->.
  constructor; simpl; csums Hc; lia.
Qed.

(** ** The pace of the clients *)

Definition pace (d t0 now : Q) (c : client) : Prop :=
  let due := (inject_Z (rounds c) * d)%Q in
  match cl_pc c with
  | PcNew | PcStarted => cl_rounds c = 0%nat
  | PcWait last | PcTimed last => (t0 + due <= last)%Q ∧ (last <= now)%Q
  | PcReady => (t0 + due + d <= now)%Q
  | _ => (t0 + due <= now)%Q
  end.

Definition pace_ok (t : LoadTester) (s : load_state) : Prop :=
  ∀ t0, ls_start s = Some t0 → (t0 <= ls_clock s)%Q ∧
    ∀ i c, ls_clients s !! i = Some c → pace (inter_request_delay t) t0 (ls_clock s) c.

Lemma rounds_succ pc pc' n :
  (inject_Z (rounds (mkClient pc (S n))) == inject_Z (rounds (mkClient pc' n)) + 1)%Q.
Proof. unfold rounds. simpl cl_rounds. rewrite Nat2Z.inj_succ, <- Z.add_1_r, inject_Z_plus. done. Qed.

Lemma client_step_pace t i rid o s s' :
  client_step t i rid o s = Some s' → pace_ok t s → pace_ok t s'.
Proof.
  intros H Hp t0 Ht0. pose proof (client_step_frame _ _ _ _ _ _ H) as (_ & Hc & _ & Hs & _).
  rewrite Hc. rewrite Hs in Ht0. destruct (Hp t0 Ht0) as [Hle Hall]. split; [done|].
  unfold client_step in H.
  destruct (ls_clients s !! i) as [[pc n]|] eqn:Hi; simplify_eq/=.
  pose proof (Hall _ _ Hi) as Hpc. set (d := inter_request_delay t) in *.
  assert (∀ c', pace d t0 (ls_clock s) c' → ∀ j c,
    <[i := c']> (ls_clients s) !! j = Some c → pace d t0 (ls_clock s) c) as Hins.
  { intros c' Hc' j c [(-> & <- & _)|[_ Hj]]%list_lookup_insert_Some; [done|by eapply Hall]. }
  destruct pc; simplify_eq/=; repeat case_match; simplify_eq/=; try (apply Hall);
    apply Hins; unfold pace in Hpc |- *; simpl in *; try (subst n; simpl); try done; qbool; try lra.
  - change (inject_Z (Z.of_nat 0)) with 0%Q. lra.
  - pose proof (rounds_succ (PcSending rid (ls_clock s)) PcReady n) as Hr.
    unfold rounds in *. simpl in *. rewrite Hr. lra.
Qed.

Lemma pace_new d t0 now : pace d t0 now new_client.
Proof. done. Qed.

Lemma main_step_pace progress t probe s s' :
  main_step progress t probe s = Some s' → phase_ok progress s → pace_ok t s → pace_ok t s'.
Proof.
  unfold main_step. intros H [H1 _ _] Hp.
  assert (∀ s2, ls_clock s2 = ls_clock s → ls_clients s2 = ls_clients s → new_from 0 s →
    ls_start s2 = Some (ls_clock s) → pace_ok t s2) as Hnew.
  { intros s2 Hc Hl Hf Hst t0 Ht0. rewrite Hst in Ht0. simplify_eq. rewrite Hc, Hl.
    split; [lra|]. intros i c Hi. rewrite (Hf i c ltac:(lia) Hi). apply pace_new. }
  destruct (ls_main s) eqn:Em; simplify_eq/=; repeat case_match; simplify_eq/=;
    try (by apply Hnew); try done.
  intros t0 Ht0. destruct (Hp t0 Ht0) as [Hle Hall]. split; [done|].
  intros i c [(-> & <- & _)|[_ Hi]]%list_lookup_insert_Some; [done|by apply (Hall i)].
Qed.

Record load_ok (progress : bool) (t : LoadTester) (s : load_state) : Prop := {
  lo_counts : counts_ok s;
  lo_phase : phase_ok progress s;
  lo_pace : pace_ok t s;
  lo_len : length (ls_clients s) = Z.to_nat (lt_num_threads t);
}.

Lemma load_init_ok progress t now : load_ok progress t (load_init progress t now).
Proof.
  assert (new_from 0 (load_init progress t now)) as Hf.
  { intros j c _ [-> _]%lookup_replicate. done. }
  assert (∀ f, f new_client = 0 → client_sum f (ls_clients (load_init progress t now)) = 0) as Hz.
  { intros f H0. apply client_sum_zero, Forall_lookup. intros i c Hi.
    by rewrite (Hf i c ltac:(lia) Hi). }
  constructor.
  - constructor; rewrite ?Hz by done; done.
  - constructor; simpl; destruct progress; done.
  - intros t0 Ht0. done.
  - apply length_replicate.
Qed.

Lemma client_step_length t i rid o s s' :
  client_step t i rid o s = Some s' → length (ls_clients s') = length (ls_clients s).
Proof.
  intros ((c & c' & _ & _ & ->) & _)%client_step_frame. apply length_insert.
Qed.

Lemma load_step_ok progress t e s s' :
  load_step progress t e s = Some s' → load_ok progress t s → load_ok progress t s'.
Proof.
  intros H [Hc Hph Hp Hl]. destruct e as [dt|i rid o|probe]; simpl in H.
  - destruct (0 <=?q dt) eqn:Edt; simplify_eq.
    constructor; [by destruct Hc; constructor|by destruct Hph; constructor| |done].
    intros t0 Ht0. simpl in *. destruct (Hp t0 Ht0) as [? Hall]. qbool. split; [lra|].
    intros i c Hi. specialize (Hall i c Hi). unfold pace in *. destruct (cl_pc c); simpl in *; first [done|lra].
  - constructor; [by eapply client_step_counts|by eapply client_step_phase|by eapply client_step_pace|].
    by rewrite (client_step_length _ _ _ _ _ _ H).
  - constructor; [by eapply main_step_counts|by eapply main_step_phase|by eapply main_step_pace|].
    rewrite <- Hl. unfold main_step in H. repeat case_match; simplify_eq/=; try done.
    apply length_insert.
Qed.

Lemma load_run_ok progress t es s s' :
  load_run progress t es s = Some s' → load_ok progress t s → load_ok progress t s'.
Proof.
  revert s. induction es as [|e es IH]; intros s; simpl; [by intros [= <-]|].
  destruct (load_step progress t e s) as [s1|] eqn:E; simpl; [|done].
  intros H Hs. eapply IH; [exact H|by eapply load_step_ok].
Qed.

(** The load generator's counters agree with its log under every interleaving of its
    threads: the counters never run ahead of the log, at most one entry is logged and not
    counted, each thread is at most one request behind, and once every thread has ended
    the three counters are exactly the requests, the log and its failures. *)
Theorem load_counters_agree progress t now es s :
  load_run progress t es (load_init progress t now) = Some s →
  let st := ls_stats s in
  st_sent st <= st_completed st <= st_sent st + py_len (ls_clients s) ∧
  st_completed st <= py_len (ls_logs s) <= st_completed st + 1 ∧
  st_failed st <= py_len (failures (ls_logs s)) <= st_failed st + 1 ∧
  ((∀ k, client_exited s k = true) →
     st_sent st = py_len (ls_logs s) ∧ st_completed st = py_len (ls_logs s) ∧
     st_failed st = py_len (failures (ls_logs s))).
Proof.
  intros H st. destruct (load_run_ok _ _ _ _ _ H (load_init_ok _ _ _)) as [[H1 H2 H3 H4 _] _ _ _].
  fold st in H1, H2, H3.
  pose proof (client_sum_bounds is_counted (ls_clients s) 1
    ltac:(intros [[] ?]; simpl; lia)) as Hc.
  pose proof (client_sum_bounds is_logged (ls_clients s) 1 ltac:(intros [[] ?]; simpl; lia)) as Hl.
  assert (0 <= client_sum is_logged_failure (ls_clients s) <= client_sum is_logged (ls_clients s)) as Hf.
  { clear. induction (ls_clients s) as [|[[] ?] l IH]; simpl; try case_match; lia. }
  assert (client_sum is_logged (ls_clients s) <= 1) as H1'.
  { rewrite H4. destruct (ls_lock s); simpl; lia. }
  split_and!; try lia. intros Hex.
  assert (∀ f, (∀ c, cl_pc c = PcExited → f c = 0) → client_sum f (ls_clients s) = 0) as Hz.
  { intros f Hf0. apply client_sum_zero, Forall_lookup. intros i c Hi. apply Hf0.
    specialize (Hex i). unfold client_exited in Hex. rewrite Hi in Hex. by destruct (cl_pc c). }
  rewrite (Hz is_logged) in * by (intros [] ?; simplify_eq/=; done).
  rewrite (Hz is_counted) in * by (intros [] ?; simplify_eq/=; done). lia.
Qed.

(** ** The offered load *)

Lemma pace_rounds d t0 now c :
  (0 <= d)%Q → (t0 <= now)%Q → pace d t0 now c → (inject_Z (rounds c) * d <= now - t0)%Q.
Proof.
  unfold pace. destruct c as [pc n]. simpl. intros Hd Ht H.
  destruct pc; simpl in *; try lra; subst n; change (inject_Z (Z.of_nat 0)) with 0%Q; lra.
Qed.

Lemma client_sum_rounds d x l :
  (∀ i c, l !! i = Some c → (inject_Z (rounds c) * d <= x)%Q) →
  (inject_Z (client_sum rounds l) * d <= inject_Z (py_len l) * x)%Q.
Proof.
  induction l as [|c l IH]; intros Hall.
  { change (inject_Z (@py_len client [])) with 0%Q. simpl. change (inject_Z 0) with 0%Q. lra. }
  assert (py_len (c :: l) = py_len l + 1) as -> by (unfold py_len; simpl; lia).
  change (client_sum rounds (c :: l)) with (rounds c + client_sum rounds l).
  rewrite !inject_Z_plus. change (inject_Z 1) with 1%Q.
  pose proof (Hall 0%nat c eq_refl). pose proof (IH (λ i d Hi, Hall (S i) d Hi)). lra.
Qed.

(** The generator never offers more than the rate it was asked for: at every moment
    of a test the requests logged, and those counted as sent, are at most the request
    rate times the time since the start, whatever the threads' interleaving and the
    server's latencies. *)
Theorem load_rate_bounded url rate dur n body timeout t progress now es s t0 :
  load_tester url rate dur n body timeout = inl t →
  load_run progress t es (load_init progress t now) = Some s →
  ls_start s = Some t0 →
  (inject_Z (py_len (ls_logs s)) <= rate * (ls_clock s - t0))%Q ∧
  st_sent (ls_stats s) <= py_len (ls_logs s).
Proof.
  intros Ht H Hst. pose proof (load_tester_ok _ _ _ _ _ _ _ Ht) as (Hr & _ & Hn).
  assert (lt_request_rate t = rate) as Hrate.
  { unfold load_tester in Ht. repeat case_match; by simplify_eq/=. }
  destruct (load_run_ok _ _ _ _ _ H (load_init_ok _ _ _)) as [[H1 _ H3 _ H5] _ Hp Hlen].
  destruct (Hp t0 Hst) as [Hle Hall].
  pose proof (client_sum_bounds is_in_flight (ls_clients s) 1 ltac:(intros [[] ?]; simpl; lia)).
  pose proof (client_sum_bounds is_logged (ls_clients s) 1 ltac:(intros [[] ?]; simpl; lia)).
  pose proof (client_sum_bounds is_counted (ls_clients s) 1 ltac:(intros [[] ?]; simpl; lia)).
  split; [|lia].
  assert (0 < inject_Z (lt_num_threads t))%Q as HnQ by (unfold Qlt; simpl; lia).
  assert (0 < rate_per_thread t)%Q as Hrpt by (unfold rate_per_thread; apply Qlt_shift_div_l; lra).
  assert (inter_request_delay t = 1 / rate_per_thread t)%Q as Hd.
  { unfold inter_request_delay. by rewrite (proj2 (Qltb_true _ _) Hrpt). }
  assert (0 <= inter_request_delay t)%Q as Hd0.
  { rewrite Hd. apply Qle_shift_div_l; lra. }
  pose proof (client_sum_rounds (inter_request_delay t) (ls_clock s - t0) (ls_clients s)
    (λ i c Hi, pace_rounds _ _ _ _ Hd0 Hle (Hall i c Hi))) as Hsum.
  assert (inject_Z (py_len (ls_clients s)) == inject_Z (lt_num_threads t))%Q as Hl.
  { unfold py_len. rewrite Hlen. unfold Qeq; simpl. lia. }
  assert (inject_Z (py_len (ls_logs s)) <= inject_Z (client_sum rounds (ls_clients s)))%Q as Hlog
    by (rewrite <- Zle_Qle; lia).
  rewrite Hl, Hd in Hsum. rewrite <- Hrate.
  apply (Qle_trans _ _ _ Hlog).
  apply (Qmult_le_compat_r _ _ (rate_per_thread t)) in Hsum; [|lra].
  unfold rate_per_thread in *. field_simplify in Hsum; try lra.
Qed.

(** ** After the stop signal *)

Definition in_hand (s : load_state) : Z := client_sum is_pending (ls_clients s).

Lemma client_step_stopped t i rid o s s' :
  client_step t i rid o s = Some s' → ls_stop s = true →
  ls_logs s `prefix_of` ls_logs s' ∧ py_len (ls_logs s') + in_hand s' <= py_len (ls_logs s) + in_hand s.
Proof.
  unfold client_step, in_hand. intros H Hstop. rewrite Hstop in H.
  destruct (ls_clients s !! i) as [[pc n]|] eqn:Hi; simplify_eq/=.
  destruct pc; simplify_eq/=; repeat case_match; simplify_eq/=; csums Hi;
    (split; [by first [done|eexists [_]]|]); rewrite ?py_len_snoc; lia.
Qed.

Lemma load_step_stopped progress t e s s' :
  load_step progress t e s = Some s' → phase_ok progress s → ls_stop s = true →
  ls_stop s' = true ∧ ls_logs s `prefix_of` ls_logs s' ∧
  py_len (ls_logs s') + in_hand s' <= py_len (ls_logs s) + in_hand s.
Proof.
  intros H [_ Hph _] Hstop. destruct e as [dt|i rid o|probe]; simpl in H.
  - destruct (0 <=?q dt); simplify_eq. split_and!; done.
  - pose proof (client_step_frame _ _ _ _ _ _ H) as (_ & _ & Hs & _). rewrite Hs.
    split; [done|]. by eapply client_step_stopped.
  - unfold main_step in H. rewrite Hstop in Hph. destruct (ls_main s) eqn:Em; try done.
    repeat case_match; simplify_eq/=; split_and!; done.
Qed.

Lemma load_run_stopped progress t es s s' :
  load_run progress t es s = Some s' → load_ok progress t s → ls_stop s = true →
  ls_logs s `prefix_of` ls_logs s' ∧ py_len (ls_logs s') + in_hand s' <= py_len (ls_logs s) + in_hand s.
Proof.
  revert s. induction es as [|e es IH]; intros s; simpl; [by intros [= <-]|].
  destruct (load_step progress t e s) as [s1|] eqn:E; simpl; [|done].
  intros H Hs Hstop.
  destruct (load_step_stopped _ _ _ _ _ E (lo_phase _ _ _ Hs) Hstop) as (Hstop1 & Hp1 & Hl1).
  destruct (IH s1 H ltac:(by eapply load_step_ok) Hstop1) as [Hp2 Hl2].
  split; [by etrans|lia].
Qed.

Lemma in_hand_nonneg s : 0 <= in_hand s.
Proof. apply (client_sum_bounds is_pending _ 1). intros [[] ?]; simpl; lia. Qed.

Lemma in_hand_exited s : (∀ k, client_exited s k = true) → in_hand s = 0.
Proof.
  intros Hex. apply client_sum_zero, Forall_lookup. intros i c Hi.
  specialize (Hex i). unfold client_exited in Hex. rewrite Hi in Hex.
  destruct c as [[] ?]; done.
Qed.

(** Measuring a test that was not joined: [run] returns the list its threads still
    hold.  When the metrics are computed from it while those threads finish, the total is
    exact for the moment it was read and the failures are undercounted by at most the
    requests that were in flight when [run] returned; when every thread had ended, the
    metrics are those of the finished list. *)
Theorem metrics_after_run np ts progress t now es0 es1 es2 s0 s1 s2 r :
  load_run progress t es0 (load_init progress t now) = Some s0 → ls_main s0 = MReturned →
  load_run progress t es1 s0 = Some s1 → load_run progress t es2 s1 = Some s2 →
  lr_len r = ls_logs s1 → lr_count r = ls_logs s2 → lr_truth r ≠ [] → appending r →
  let m := get_metrics np ts r in
  metric_int m "total_requests" = py_len (ls_logs s1) ∧
  py_len (failures (ls_logs s1)) - in_hand s0 <= metric_int m "failed_requests"
    <= py_len (failures (ls_logs s1)) ∧
  ((∀ k, client_exited s0 k = true) → ls_logs s1 = ls_logs s0 ∧ ls_logs s2 = ls_logs s0).
Proof.
  intros H0 Hret H1 H2 Hr1 Hr2 Hne Happ m.
  pose proof (load_run_ok _ _ _ _ _ H0 (load_init_ok _ _ _)) as Hok0.
  pose proof (load_run_ok _ _ _ _ _ H1 Hok0) as Hok1.
  assert (∀ s, load_ok progress t s → ls_main s = MReturned → ls_stop s = true) as Hst.
  { intros s [_ [_ Hs _] _ _] Hm. by rewrite Hs, Hm. }
  assert (load_run progress t (es1 ++ es2) s0 = Some s2) as H12.
  { clear -H1 H2. revert s0 H1. induction es1 as [|e es IH]; intros s0; simpl; [by intros [= ->]|].
    destruct (load_step progress t e s0); simpl; [apply IH|done]. }
  destruct (load_run_stopped _ _ _ _ _ H1 Hok0 (Hst s0 Hok0 Hret)) as [Hp1 Hl1].
  destruct (load_run_stopped _ _ _ _ _ H12 Hok0 (Hst s0 Hok0 Hret)) as [Hp2 Hl2].
  destruct (metrics_of_a_growing_list np ts r Happ Hne) as [Htot Hfail].
  rewrite Hr1, Hr2 in *. fold m in Htot, Hfail.
  assert (py_len (ls_logs s1) - py_len (succeeded (ls_logs s1)) = py_len (failures (ls_logs s1))) as Hf.
  { unfold succeeded, failures, py_len.
    pose proof (Permutation_length (filter_partition_perm rl_success (ls_logs s1))) as Hp.
    rewrite length_app in Hp. lia. }
  rewrite Hf in Hfail.
  pose proof (in_hand_nonneg s1). pose proof (in_hand_nonneg s2).
  assert (py_len (ls_logs s0) <= py_len (ls_logs s1)) by (destruct Hp1 as [k ->]; rewrite py_len_app; pose proof (py_len_nonneg k); lia).
  split_and!; [done|lia|lia|]. intros Hex%in_hand_exited.
  assert (∀ s, ls_logs s0 `prefix_of` ls_logs s → py_len (ls_logs s) <= py_len (ls_logs s0) →
    ls_logs s = ls_logs s0) as Heq.
  { intros s Hp Hlen. symmetry. eapply prefix_length_eq; [done|]. unfold py_len in Hlen. lia. }
  split; apply Heq; try done; lia.
Qed.

(** ** [run] returns *)

Definition main_rank (n : nat) (m : main_pc) : nat :=
  match m with
  | MBegin => 2 * n + 6
  | MProbe => 2 * n + 5
  | MSpawn k => (n - k) + n + 4
  | MSleep _ => n + 3
  | MStop => n + 2
  | MJoin k _ => (n - k) + 1
  | MReturned | MRaised _ => 0
  end.

Definition load_rank (s : load_state) : nat := main_rank (length (ls_clients s)) (ls_main s).

(** The longest wait of [run]: the test itself, or one [join]. *)
Definition longest_wait (t : LoadTester) : Q := Qmax (inject_Z (lt_duration t)) 5.

(** A step that is not enabled is skipped. *)
Definition load_try (progress : bool) (t : LoadTester) (s : load_state) (e : load_event) : load_state :=
  default s (load_step progress t e s).

(** A turn of [run]: anything happens, then at least [longest_wait] passes, then [run]
    gets to move. *)
Definition load_turn (progress : bool) (t : LoadTester) (s : load_state)
    (turn : list load_event * http_outcome) : load_state :=
  let s := foldl (load_try progress t) s turn.1 in
  load_try progress t (load_try progress t s (EvTick (longest_wait t))) (EvMain turn.2).

Definition waits_since (now : Q) (m : main_pc) : Prop :=
  match m with MSleep since | MJoin _ since => (since <= now)%Q | _ => True end.

Lemma load_try_rank progress t e s :
  waits_since (ls_clock s) (ls_main s) →
  (load_rank (load_try progress t s e) <= load_rank s)%nat ∧
  waits_since (ls_clock (load_try progress t s e)) (ls_main (load_try progress t s e)).
Proof.
  intros Hw. unfold load_try, load_rank. destruct (load_step progress t e s) as [s'|] eqn:E; simpl; [|done].
  destruct e as [dt|i rid o|probe]; simpl in E.
  - destruct (0 <=?q dt) eqn:Edt; simplify_eq/=. split; [lia|]. qbool.
    destruct (ls_main s); simpl in *; try done; lra.
  - pose proof (client_step_length _ _ _ _ _ _ E) as ->.
    pose proof (client_step_frame _ _ _ _ _ _ E) as (_ & -> & _ & _ & ->). done.
  - unfold main_step in E. destruct (ls_main s) eqn:Em; simplify_eq/=; repeat case_match;
      simplify_eq/=; rewrite ?length_insert; zbool; split; simpl; try done; try lra;
      rewrite ?Nat.ltb_lt, ?Nat.ltb_ge in *; lia.
Qed.

Lemma load_turn_rank progress t s turn :
  waits_since (ls_clock s) (ls_main s) →
  (load_rank (load_turn progress t s turn) <= pred (load_rank s))%nat ∧
  waits_since (ls_clock (load_turn progress t s turn)) (ls_main (load_turn progress t s turn)).
Proof.
  intros Hw. unfold load_turn. destruct turn as [es probe]. simpl.
  assert ((load_rank (foldl (load_try progress t) s es) <= load_rank s)%nat ∧
    waits_since (ls_clock (foldl (load_try progress t) s es)) (ls_main (foldl (load_try progress t) s es))) as [Hr Hw1].
  { clear probe. revert s Hw. induction es as [|e es IH]; intros s Hw; simpl; [done|].
    destruct (load_try_rank progress t e s Hw) as [H1 H2]. destruct (IH _ H2). split; [lia|done]. }
  set (s1 := foldl _ s es) in *. clearbody s1.
  assert (load_try progress t s1 (EvTick (longest_wait t)) =
    mkLoad (ls_clock s1 + longest_wait t)%Q (ls_clients s1) (ls_logs s1) (ls_lock s1) (ls_stats s1)
      (ls_stop s1) (ls_start s1) (ls_end s1) (ls_main s1)) as Htick.
  { unfold load_try. simpl. unfold longest_wait.
    pose proof (Q.le_max_r (inject_Z (lt_duration t)) 5).
    by rewrite (proj2 (Qleb_true 0 _)) by lra. }
  pose proof (load_try_rank progress t (EvTick (longest_wait t)) s1 Hw1) as [H2 Hw2].
  pose proof (load_try_rank progress t (EvMain probe) _ Hw2) as [_ Hw3].
  split; [|done]. clear Hw2 Hw3 H2. rewrite Htick. unfold load_try, load_rank in *. simpl.
  pose proof (Q.le_max_l (inject_Z (lt_duration t)) 5).
  pose proof (Q.le_max_r (inject_Z (lt_duration t)) 5). fold (longest_wait t) in *.
  unfold main_step. simpl. destruct (ls_main s1) eqn:Em; simpl in *; repeat case_match; simplify_eq/=;
    qbool; rewrite ?length_insert, ?Nat.ltb_lt, ?Nat.ltb_ge in *; try lia; try (exfalso; lra).
  match goal with Hor : _ || _ = false |- _ => apply orb_false_iff in Hor as [_ Hor] end.
  qbool. exfalso; lra.
Qed.

(** The load test ends: once [run] has had twice as many turns as threads, and six
    more, it has returned its log or raised that the server is unreachable, whatever the
    threads and the server do meanwhile. *)
Theorem load_test_returns progress t now turns :
  (2 * Z.to_nat (lt_num_threads t) + 6 <= length turns)%nat →
  let s := foldl (load_turn progress t) (load_init progress t now) turns in
  ls_main s = MReturned ∨ ∃ msg, ls_main s = MRaised msg.
Proof.
  intros Hlen s.
  assert (∀ turns s0, waits_since (ls_clock s0) (ls_main s0) →
    (load_rank (foldl (load_turn progress t) s0 turns) <= load_rank s0 - length turns)%nat) as Hall.
  { clear. induction turns as [|x turns IH]; intros s0 Hw; simpl; [lia|].
    destruct (load_turn_rank progress t s0 x Hw) as [H1 H2]. specialize (IH _ H2). lia. }
  assert (waits_since now (ls_main (load_init progress t now))) as Hw by (by destruct progress).
  specialize (Hall turns _ Hw). fold s in Hall.
  assert (load_rank (load_init progress t now) <= 2 * Z.to_nat (lt_num_threads t) + 6)%nat as Hi.
  { unfold load_rank, load_init. simpl. rewrite length_replicate. destruct progress; simpl; lia. }
  unfold load_rank in Hall at 1. destruct (ls_main s) eqn:Em; simpl in *; try lia; [by left|right; eauto].
Qed.

(** [run_simple_load_test]: the tester with the default body and timeout, about to run. *)
Definition run_simple_load_test (url : string) (request_rate : Q) (duration num_threads : Z)
    (now : Q) : (LoadTester * load_state) + string :=
  match load_tester url request_rate duration num_threads PyNone 30 with
  | inl t => inl (t, load_init false t now)
  | inr err => inr err
  end.

(** ** A run of two threads at ten requests per second: one request succeeds, one is still
    in flight when [run] gives up waiting, and arrives afterwards. *)
Definition sample_tester : LoadTester := mkTester "u" 10 1 2 30 default_request_body.

Definition sample_ok : http_outcome := HttpResponse 200.
Definition sample_turn (i : nat) : load_event := EvClient i "r" sample_ok.
Definition sample_main : load_event := EvMain sample_ok.

Definition sample_load : list load_event :=
  [sample_main; sample_main; sample_main; sample_main; sample_turn 0; sample_turn 1; EvTick (1#2);
   sample_turn 0; sample_turn 1; sample_turn 0; sample_turn 1; EvTick (1#10); sample_turn 0;
   sample_turn 0; sample_turn 0; sample_turn 0; sample_turn 0; EvTick 1;
   sample_main; sample_main; sample_turn 0; sample_main; EvTick 5; sample_main; sample_main].

Definition sample_late : list load_event :=
  [EvTick 10; sample_turn 1; sample_turn 1].

Definition sample_load_run (es : list load_event) (s : load_state) : load_state :=
  default s (load_run false sample_tester es s).

Definition sample_start : load_state := load_init false sample_tester 100.
Definition sample_returned : load_state := sample_load_run sample_load sample_start.
Definition sample_later : load_state := sample_load_run sample_late sample_returned.

Definition sample_reads : log_reads :=
  let l := ls_logs sample_returned in let k := ls_logs sample_later in mkReads l l k k k k.

Lemma load_counters_agree_witness :
  load_run false sample_tester sample_load sample_start = Some sample_returned ∧
  st_sent (ls_stats sample_returned) <= st_completed (ls_stats sample_returned).
Proof.
  assert (load_run false sample_tester sample_load sample_start = Some sample_returned) as H
    by (vm_compute; reflexivity).
  split; [exact H|]. apply (load_counters_agree false sample_tester 100 sample_load _ H).
Defined.

Lemma load_rate_bounded_witness :
  load_run false sample_tester sample_load sample_start = Some sample_returned ∧
  (inject_Z (py_len (ls_logs sample_returned)) <= 10 * (ls_clock sample_returned - 100))%Q.
Proof.
  assert (load_run false sample_tester sample_load sample_start = Some sample_returned) as H
    by (vm_compute; reflexivity).
  split; [exact H|].
  apply (load_rate_bounded "u" 10 1 2 PyNone 30 sample_tester false 100 sample_load _ 100);
    [reflexivity|exact H|vm_compute; reflexivity].
Defined.

Lemma load_test_returns_witness :
  let turns := replicate 10 ([sample_turn 0], sample_ok) in
  let s := foldl (load_turn false sample_tester) (load_init false sample_tester 0) turns in
  (2 * Z.to_nat (lt_num_threads sample_tester) + 6 <= length turns)%nat ∧
  (ls_main s = MReturned ∨ ∃ msg, ls_main s = MRaised msg).
Proof.
  intros turns s.
  assert (2 * Z.to_nat (lt_num_threads sample_tester) + 6 <= length turns)%nat as H by (vm_compute; lia).
  split; [exact H|]. apply (load_test_returns false sample_tester 0 turns H).
Defined.

(** The late success is counted and not in the total: no failure is reported as minus one. *)
Lemma metrics_after_run_witness :
  ls_main sample_returned = MReturned ∧
  metric_int (get_metrics None "t" sample_reads) "failed_requests" = -1 ∧
  py_len (failures (ls_logs sample_returned)) - in_hand sample_returned
    <= metric_int (get_metrics None "t" sample_reads) "failed_requests".
Proof.
  split; [vm_compute; reflexivity|]. split; [vm_compute; reflexivity|].
  apply (metrics_after_run None "t" false sample_tester 100 sample_load [] sample_late
    sample_returned sample_returned sample_later sample_reads); try (vm_compute; reflexivity).
  - vm_compute. done.
  - repeat split; first [by exists []; vm_compute|by exists (drop 1 (ls_logs sample_later)); vm_compute].
Defined.
