(* ===== verification/Plots.v ===== *)
(** What the plots of [src/experiments/plot_results.py] show: for each plot function the
    points it extracts from the results, in drawing order.  Styling and rendering are
    matplotlib's.  [None] stands for the [KeyError] of a missing entry, or for the error of
    formatting or comparing a value that is no number. *)
From S2P Require Import Prelude PyVal.

Abbreviation row := (list (string * pyval)).

(** One line or one group of bars: its label, its points. *)
Abbreviation series := (list (string * list (pyval * pyval))).

(** A value that [f"{y:.1f}"] formats and that orders with other numbers has a [py_number]. *)
Definition number_item (r : row) (k : string) : option pyval :=
  v ← dict_lookup r k; _ ← py_number v; Some v.

(** The points [(x, y)], where [y] is also written next to its point. *)
Definition points (x : row → option pyval) (y : string) (results : list row)
    : option (list (pyval * pyval)) :=
  mapM (λ r, a ← x r; b ← number_item r y; Some (a, b)) results.

Section plots.
(** Python's [str], which makes the labels of the bars. *)
Context (str : pyval → string).

Definition item (k : string) (r : row) : option pyval := dict_lookup r k.
Definition str_item (k : string) (r : row) : option pyval :=
  v ← dict_lookup r k; Some (PyStr (str v)).

Definition plot_load_vs_latency (results : list row) : option series :=
  p ← points (item "request_rate") "p99_latency" results; Some [(EmptyString, p)].

Definition plot_batch_size_vs_throughput (results : list row) : option series :=
  p ← points (str_item "batch_size") "throughput" results; Some [(EmptyString, p)].

Definition plot_batch_size_vs_p99 (results : list row) : option series :=
  p ← points (str_item "batch_size") "p99_latency" results; Some [(EmptyString, p)].

Definition plot_scheduler_comparison (results : list row) : option series :=
  p ← points (item "scheduler") "p99_latency" results; Some [(EmptyString, p)].

(** [r.get("config_failure_rate", r.get("failure_rate", 0))]. *)
Definition failure_rate_item (r : row) : option pyval :=
  Some (dict_get r "config_failure_rate" (dict_get r "failure_rate" (PyInt 0))).

Definition plot_failure_rate_vs_p99 (results : list row) : option series :=
  p ← points failure_rate_item "p99_latency" results; Some [(EmptyString, p)].

Definition plot_failure_rate_vs_throughput (results : list row) : option series :=
  p ← points failure_rate_item "throughput" results; Some [(EmptyString, p)].

(** The rows of one scheduler with their keys, sorted by request rate. *)
Definition rate_key (r : row) : Q := default 0%Q (number_item r "request_rate" ≫= py_number).

Definition scheduler_rows (scheduler : string) (results : list row) : option (list row) :=
  keyed ← mapM (λ r, s ← dict_lookup r "scheduler"; Some (py_eq_str s scheduler, r)) results;
  let rows := (filter (λ kr, kr.1 = true) keyed).*2 in
  _ ← mapM (λ r, number_item r "request_rate") rows;
  Some (py_sort rate_key rows).

Definition sweep_line (results : list row) (scheduler : string) : option series :=
  rows ← scheduler_rows scheduler results;
  match rows with
  | [] => Some []
  | _ =>
      p ← mapM (λ r, a ← dict_lookup r "request_rate"; b ← dict_lookup r "p99_latency"; Some (a, b)) rows;
      Some [(scheduler, p)]
  end.

Definition sweep_schedulers : list string := ["fifo"; "batching"; "latency_aware"]%string.

Definition plot_latency_sweep (results : list row) : option series :=
  lines ← mapM (sweep_line results) sweep_schedulers; Some (mjoin lines).

Definition plot_bursty_comparison (results : list row) : option series :=
  p ← points (item "scheduler") "p99_latency" results; Some [(EmptyString, p)].

(** Three panels; the error rate is shown in percent. *)
Definition plot_fault_tolerance (results : list row) : option series :=
  let percent r := v ← dict_lookup r "failure_rate_actual"; q ← py_number v; Some (PyFloat (q * 100)%Q) in
  a ← points (item "phase") "p99_latency" results;
  b ← points (item "phase") "throughput" results;
  c ← mapM (λ r, x ← item "phase" r; y ← percent r; Some (x, y)) results;
  Some [("P99 Latency", a); ("Throughput", b); ("Error Rate", c)]%string.

Definition plot_dynamic_scaling (results : list row) : option series :=
  a ← points (str_item "num_workers") "throughput" results;
  b ← points (str_item "num_workers") "p99_latency" results;
  Some [("Throughput", a); ("P99 Latency", b)]%string.

Definition plot_latency_percentiles (x_field : string) (results : list row) : option series :=
  let line y := mapM (λ r, a ← dict_lookup r x_field; b ← dict_lookup r y; Some (a, b)) results in
  p50 ← line "p50_latency"%string; p95 ← line "p95_latency"%string; p99 ← line "p99_latency"%string;
  Some [("P50", p50); ("P95", p95); ("P99", p99)]%string.
End plots.

(** ** Every result is drawn *)

(** A row in which the entries [ks] are there and are numbers. *)
Definition has_numbers (ks : list string) (r : row) : Prop :=
  ∀ k, k ∈ ks → is_Some (number_item r k).

Definition has_items (ks : list string) (r : row) : Prop := ∀ k, k ∈ ks → is_Some (dict_lookup r k).

Lemma mapM_fmap {A B} (f : A → option B) (g : A → B) (l : list A) :
  (∀ x, x ∈ l → f x = Some (g x)) → mapM f l = Some (g <$> l).
Proof.
  induction l as [|x l IH]; intros H; [done|]. cbn [mapM].
  rewrite (H x) by set_solver. cbn. rewrite IH by set_solver. done.
Qed.

Lemma mapM_total {A B} (f : A → option B) (l : list A) :
  (∀ x, x ∈ l → is_Some (f x)) → is_Some (mapM f l).
Proof. intros H. by apply mapM_is_Some, Forall_forall. Qed.

Lemma points_total x y results :
  (∀ r, r ∈ results → is_Some (x r) ∧ is_Some (number_item r y)) →
  ∃ p, points x y results = Some p ∧ length p = length results.
Proof.
  intros H. unfold points.
  destruct (mapM_total (λ r, a ← x r; b ← number_item r y; Some (a, b)) results) as [p Hp].
  { intros r Hr. destruct (H r Hr) as [[a Ha] [b Hb]]. rewrite Ha. cbn. rewrite Hb. by eexists. }
  exists p. split; [done|]. by eapply eq_sym, length_mapM.
Qed.

Lemma number_item_lookup r k v : number_item r k = Some v → dict_lookup r k = Some v.
Proof.
  unfold number_item. destruct (dict_lookup r k) as [w|]; simpl; [|done].
  by destruct (py_number w); simpl.
Qed.

Lemma filter_keyed {A} (f : A → bool) (l : list A) :
  (filter (λ kr, kr.1 = true) ((λ x, (f x, x)) <$> l)).*2 = filter (λ x, f x = true) l.
Proof.
  induction l as [|x l IH]; [done|]. rewrite fmap_cons, !filter_cons. cbn [fst].
  destruct (f x); [rewrite !decide_True by done|by rewrite !decide_False by done].
  by rewrite fmap_cons, IH.
Qed.

(** [r["scheduler"] == scheduler]. *)
Definition under (scheduler : string) (r : row) : bool :=
  match dict_lookup r "scheduler" with Some v => py_eq_str v scheduler | None => false end.

Lemma scheduler_rows_total scheduler results :
  (∀ r, r ∈ results → (∃ s, dict_lookup r "scheduler" = Some (PyStr s)) ∧
     is_Some (number_item r "request_rate")) →
  ∃ rows, scheduler_rows scheduler results = Some rows ∧
    StronglySorted (key_le rate_key) rows ∧
    rows ≡ₚ filter (λ r, under scheduler r = true) results.
Proof.
  intros H. unfold scheduler_rows.
  rewrite (mapM_fmap _ (λ r, (under scheduler r, r))).
  2:{ intros r Hr. destruct (H r Hr) as [[s Hs] _]. unfold under. by rewrite Hs. }
  cbn [mbind option_bind].
  rewrite filter_keyed.
  set (rows := filter _ results).
  destruct (mapM_total (λ r, number_item r "request_rate") rows) as [p ->].
  { intros r [_ Hr]%list_elem_of_filter. by apply H. }
  eexists. split; [reflexivity|]. split; [apply py_sort_sorted|apply py_sort_perm].
Qed.

Definition sweep_point (r : row) : pyval * pyval :=
  (dict_get r "request_rate" PyNone, dict_get r "p99_latency" PyNone).

Definition sweep_row (r : row) : Prop :=
  (∃ s, s ∈ sweep_schedulers ∧ dict_lookup r "scheduler" = Some (PyStr s)) ∧
  is_Some (number_item r "request_rate") ∧ is_Some (dict_lookup r "p99_latency").

(** One line of the plot, and what it contributes to the points. *)
Lemma sweep_line_total results s :
  (∀ r, r ∈ results → sweep_row r) →
  ∃ rows line, sweep_line results s = Some line ∧ StronglySorted (key_le rate_key) rows ∧
    rows ≡ₚ filter (λ r, under s r = true) results ∧
    mjoin (line.*2) = sweep_point <$> rows ∧ ∀ s' p, (s', p) ∈ line → s' = s ∧ p = sweep_point <$> rows.
Proof.
  intros H. destruct (scheduler_rows_total s results) as (rows & Hrows & Hs & Hp).
  { intros r Hr. destruct (H r Hr) as [(s' & _ & ?) [? _]]. eauto. }
  unfold sweep_line. rewrite Hrows. cbn [mbind option_bind].
  rewrite (mapM_fmap _ sweep_point).
  2:{ intros r Hr. rewrite Hp in Hr. apply list_elem_of_filter in Hr as [_ Hr].
      destruct (H r Hr) as (_ & [v Hv%number_item_lookup] & [w Hw]).
      unfold sweep_point, dict_get. by rewrite Hv, Hw. }
  exists rows. destruct rows as [|r rows]; eexists; (split; [reflexivity|]); (split; [done|]);
    (split; [done|]).
  - split; [done|]. intros ? ? []%not_elem_of_nil.
  - split; [cbn; by rewrite app_nil_r|]. intros s' p Hin%list_elem_of_singleton. by simplify_eq.
Qed.

Lemma sweep_partition results :
  (∀ r, r ∈ results → sweep_row r) →
  filter (λ r, under "fifo" r = true) results ++ filter (λ r, under "batching" r = true) results
    ++ filter (λ r, under "latency_aware" r = true) results ≡ₚ results.
Proof.
  induction results as [|r results IH]; intros H; [done|].
  specialize (IH ltac:(set_solver)). destruct (H r ltac:(set_solver)) as [(s & Hs & Hr) _].
  assert (∀ s', under s' r = py_eq_str (PyStr s) s') as Hu by (intros s'; unfold under; by rewrite Hr).
  rewrite !filter_cons, !Hu.
  unfold sweep_schedulers in Hs. rewrite !elem_of_cons in Hs.
  destruct Hs as [->|[->|[->|[]%not_elem_of_nil]]]; simpl.
  - by rewrite IH.
  - rewrite <- Permutation_middle. by rewrite IH.
  - rewrite app_assoc, <- Permutation_middle, <- app_assoc. by rewrite IH.
Qed.

(** The sweep plot shows every result once, under its own scheduler, each line in
    ascending request rate: for results that name one of the three schedulers and carry
    their rate and P99, the plot is drawn and its points are exactly the results'. *)
Theorem sweep_plot_shows_every_result results :
  (∀ r, r ∈ results → sweep_row r) →
  ∃ lines, plot_latency_sweep results = Some lines ∧
    (∀ s p, (s, p) ∈ lines → ∃ rows, StronglySorted (key_le rate_key) rows ∧
       rows ≡ₚ filter (λ r, under s r = true) results ∧ p = sweep_point <$> rows) ∧
    mjoin (lines.*2) ≡ₚ sweep_point <$> results.
Proof.
  intros H. unfold plot_latency_sweep, sweep_schedulers. cbn [mapM].
  destruct (sweep_line_total results "fifo" H) as (r1 & l1 & -> & Hs1 & Hp1 & Hj1 & Hl1).
  destruct (sweep_line_total results "batching" H) as (r2 & l2 & -> & Hs2 & Hp2 & Hj2 & Hl2).
  destruct (sweep_line_total results "latency_aware" H) as (r3 & l3 & -> & Hs3 & Hp3 & Hj3 & Hl3).
  cbn. eexists. split; [reflexivity|]. split.
  - intros s p Hin. rewrite app_nil_r, !elem_of_app in Hin.
    destruct Hin as [Hin|[Hin|Hin]]; [destruct (Hl1 _ _ Hin)|destruct (Hl2 _ _ Hin)|destruct (Hl3 _ _ Hin)];
      subst; eauto.
  - rewrite app_nil_r, !fmap_app, !join_app.
    rewrite Hj1, Hj2, Hj3, <- !fmap_app, Hp1, Hp2, Hp3. by rewrite sweep_partition.
Qed.

Definition sample_sweep : list row :=
  [[("scheduler", PyStr "fifo"); ("request_rate", PyInt 200); ("p99_latency", PyFloat 90)];
   [("scheduler", PyStr "batching"); ("request_rate", PyInt 100); ("p99_latency", PyFloat 70)];
   [("scheduler", PyStr "fifo"); ("request_rate", PyInt 100); ("p99_latency", PyFloat 60)]]%string.

Lemma sweep_plot_shows_every_result_witness :
  plot_latency_sweep sample_sweep =
    Some [("fifo", [(PyInt 100, PyFloat 60); (PyInt 200, PyFloat 90)]);
          ("batching", [(PyInt 100, PyFloat 70)])]%string ∧
  ∃ lines, plot_latency_sweep sample_sweep = Some lines ∧
    mjoin (lines.*2) ≡ₚ sweep_point <$> sample_sweep.
Proof.
  split; [vm_compute; reflexivity|].
  destruct (sweep_plot_shows_every_result sample_sweep) as (lines & Hl & _ & Hp); [|by exists lines].
  intros r Hr. unfold sample_sweep in Hr. rewrite !elem_of_cons in Hr.
  destruct Hr as [->|[->|[->|[]%not_elem_of_nil]]]; (split; [|split; eexists; reflexivity]);
    eexists; (split; [|reflexivity]); unfold sweep_schedulers; set_solver.
Defined.
