(* ===== verification/PlotDrawing.v ===== *)
(** The drawing of [src/experiments/plot_results.py]: each plot function as the sequence of
    matplotlib calls it makes, up to where an exception ends it.  Sizes, colours of lines and
    fonts are left out; [Plots] says which points are shown. *)
From S2P Require Import Prelude PyVal Plots.

(** ** Calls *)

Inductive draw_cmd :=
| DStyle                                                          (* setup_plot_style *)
| DMakeDir (directory : string)                                   (* os.makedirs *)
| DFigure (panels : nat)                                          (* plt.subplots *)
| DLine (panel : nat) (marker label : string) (pts : list (pyval * pyval))
| DBars (panel : nat) (colors : list string) (bars : list (pyval * pyval))
| DNote (panel : nat) (at_point : pyval * pyval) (text : string)  (* annotate, above a point *)
| DText (panel index : nat) (y : pyval) (text : string)           (* text at the number index *)
| DOnBar (panel bar : nat) (text : string)                        (* text above a given bar *)
| DXLabel (panel : nat) (text : string)
| DYLabel (panel : nat) (text : string)
| DTitle (panel : nat) (text : string)
| DPercentAxis (panel : nat)
| DLegend (panel : nat)
| DGrid (panel : nat) (horizontal_only : bool)
| DSupTitle (text : string)
| DLayout
| DSave (path : string)
| DClose.

(** A program that draws and may raise: the calls so far are kept. *)
Definition Drawing (A : Type) : Type := list draw_cmd → option A * list draw_cmd.

#[export] Instance drawing_ret : MRet Drawing := λ A a cs, (Some a, cs).
#[export] Instance drawing_bind : MBind Drawing := λ A B k m cs,
  match m cs with (Some a, cs) => k a cs | (None, cs) => (None, cs) end.

Definition emit (c : draw_cmd) : Drawing unit := λ cs, (Some tt, cs ++ [c]).
Definition d_opt {A} (o : option A) : Drawing A := λ cs, (o, cs).

Fixpoint d_each {A} (f : nat → A → Drawing unit) (i : nat) (l : list A) : Drawing unit :=
  match l with [] => mret tt | x :: l' => f i x ;; d_each f (S i) l' end.

(** ** Directories *)

(** What is up to the last slash, which is included. *)
Fixpoint path_head (l : list Ascii.ascii) : list Ascii.ascii :=
  match l with
  | [] => []
  | c :: l' => match path_head l' with [] => if is_char c 47 then [c] else [] | r => c :: r end
  end.

(** [os.path.dirname]. *)
Definition dirname (path : string) : string :=
  let head := path_head (String.list_ascii_of_string path) in
  String.string_of_list_ascii (match rstrip_slash head with [] => head | r => r end).

Section drawing.
(** Python's [str] and ["{:.1f}"], what directories exist, and whether saving succeeds. *)
Context (str : pyval → string) (fmt : Q → string) (exists_dir : string → bool) (saves : string → bool).

(** [ensure_dir_exists]; the empty name cannot be made. *)
Definition ensure_dir_exists (directory : string) : Drawing unit :=
  if exists_dir directory then mret tt
  else if bool_decide (directory = EmptyString) then d_opt None
  else emit (DMakeDir directory).

(** [f"{y:.1f}"]. *)
Definition format_value (v : pyval) : Drawing string := q ← d_opt (py_number v); mret (fmt q).

Definition save_figure (path : string) : Drawing unit := if saves path then emit (DSave path) else d_opt None.

(** The frame of every plot: the rows are read, then the figure is made, drawn, saved and
    closed. *)
Definition render {A} (output_file : string) (panels : nat) (extract : option A) (body : A → Drawing unit) : Drawing unit :=
  a ← d_opt extract;
  emit (DFigure panels) ;;
  body a ;;
  emit DLayout ;;
  save_figure output_file ;;
  emit DClose.
Definition figure {A} (output_file : string) (panels : nat) (extract : option A) (body : A → Drawing unit) : Drawing unit :=
  emit DStyle ;;
  ensure_dir_exists (dirname output_file) ;;
  render output_file panels extract body.

Definition decorate (panel : nat) (xlabel ylabel title : string) (horizontal_only : bool) : Drawing unit :=
  emit (DXLabel panel xlabel) ;; emit (DYLabel panel ylabel) ;; emit (DTitle panel title) ;; emit (DGrid panel horizontal_only).

(** [[r[k] for r in results]]. *)
Definition column (k : string) (results : list row) : option (list pyval) := mapM (λ r, dict_lookup r k) results.
Definition columns (x y : list row → option (list pyval)) (results : list row) : option (list (pyval * pyval)) :=
  xs ← x results; ys ← y results; Some (zip xs ys).

(** The labels of the points of a line, and of the bars of a chart, with their unit. *)
Definition note_points (panel : nat) (suffix : string) (pts : list (pyval * pyval)) : Drawing unit :=
  d_each (λ _ xy, t ← format_value xy.2; emit (DNote panel xy (t +:+ suffix)%string)) 0 pts.
Definition text_bars (panel : nat) (suffix : string) (ys : list pyval) : Drawing unit :=
  d_each (λ i y, t ← format_value y; emit (DText panel i y (t +:+ suffix)%string)) 0 ys.
Definition text_on_bars (panel : nat) (suffix : string) (ys : list pyval) : Drawing unit :=
  d_each (λ i y, t ← format_value y; emit (DOnBar panel i (t +:+ suffix)%string)) 0 ys.

Definition str_column (k : string) (results : list row) : option (list pyval) := map (λ v, PyStr (str v)) <$> column k results.
Definition failure_rates (results : list row) : option (list pyval) := mapM failure_rate_item results.

(** ** The plots *)

Definition draw_load_vs_latency (results : list row) (output_file : string) : Drawing unit :=
  figure output_file 1 (columns (column "request_rate") (column "p99_latency") results) (λ pts,
    emit (DLine 0 "o" EmptyString pts) ;;
    decorate 0 "Request Rate (requests/sec)" "P99 Latency (ms)" "Load vs P99 Latency" false ;;
    note_points 0 "ms" pts).

Definition draw_batch_size_vs_throughput (results : list row) (output_file : string) : Drawing unit :=
  figure output_file 1 (columns (str_column "batch_size") (column "throughput") results) (λ pts,
    emit (DBars 0 ["#2ca02c"%string] pts) ;;
    decorate 0 "Batch Size" "Throughput (requests/sec)" "Batch Size vs Throughput" true ;;
    text_bars 0 EmptyString pts.*2).

Definition draw_batch_size_vs_p99 (results : list row) (output_file : string) : Drawing unit :=
  figure output_file 1 (columns (str_column "batch_size") (column "p99_latency") results) (λ pts,
    emit (DBars 0 ["#ff7f0e"%string] pts) ;;
    decorate 0 "Batch Size" "P99 Latency (ms)" "Batch Size vs P99 Latency" true ;;
    text_bars 0 "ms" pts.*2).

Definition palette : list string := ["#1f77b4"; "#ff7f0e"; "#2ca02c"]%string.

Definition draw_scheduler_comparison (results : list row) (output_file : string) : Drawing unit :=
  figure output_file 1 (columns (column "scheduler") (column "p99_latency") results) (λ pts,
    emit (DBars 0 (take (length pts) palette) pts) ;;
    decorate 0 "Scheduler Strategy" "P99 Latency (ms)" "Scheduler Comparison - P99 Latency" true ;;
    text_bars 0 "ms" pts.*2).

Definition draw_failure_rate_vs_p99 (results : list row) (output_file : string) : Drawing unit :=
  figure output_file 1 (columns failure_rates (column "p99_latency") results) (λ pts,
    emit (DLine 0 "s" EmptyString pts) ;;
    decorate 0 "Injected Failure Rate" "P99 Latency (ms)" "Failure Injection - P99 Latency Impact" false ;;
    emit (DPercentAxis 0) ;; note_points 0 "ms" pts).

Definition draw_failure_rate_vs_throughput (results : list row) (output_file : string) : Drawing unit :=
  figure output_file 1 (columns failure_rates (column "throughput") results) (λ pts,
    emit (DLine 0 "o" EmptyString pts) ;;
    decorate 0 "Injected Failure Rate" "Throughput (requests/sec)" "Failure Injection - Throughput Impact" false ;;
    emit (DPercentAxis 0) ;; note_points 0 EmptyString pts).

(** The rows of the sweep are read while it is drawn. *)
Definition sweep_markers : list (string * string) := [("fifo", "o"); ("batching", "s"); ("latency_aware", "^")]%string.

Definition draw_latency_sweep (results : list row) (output_file : string) : Drawing unit :=
  figure output_file 1 (Some tt) (λ _,
    d_each (λ _ sm, lines ← d_opt (sweep_line results sm.1);
                    d_each (λ _ line, emit (DLine 0 sm.2 line.1 line.2)) 0 lines) 0 sweep_markers ;;
    emit (DXLabel 0 "Request Rate (req/s)") ;; emit (DYLabel 0 "P99 Latency (ms)") ;;
    emit (DTitle 0 "Request Rate Sweep — P99 Latency by Scheduler") ;; emit (DLegend 0) ;; emit (DGrid 0 false)).

Definition scheduler_color (s : pyval) : string :=
  match s with
  | PyStr s => default "#999999"%string (dict_lookup [("fifo", "#1f77b4"); ("batching", "#ff7f0e"); ("latency_aware", "#2ca02c")]%string s)
  | _ => "#999999"
  end.

Definition draw_bursty_comparison (results : list row) (output_file : string) : Drawing unit :=
  figure output_file 1 (columns (column "scheduler") (column "p99_latency") results) (λ pts,
    emit (DBars 0 (scheduler_color <$> pts.*1) pts) ;;
    text_bars 0 "ms" pts.*2 ;;
    decorate 0 "Scheduler Strategy" "P99 Latency (ms)" "Bursty Traffic — P99 Latency by Scheduler" true).

(** [r["failure_rate_actual"] * 100]. *)
Definition error_percents (results : list row) : option (list pyval) :=
  mapM (λ r, v ← dict_lookup r "failure_rate_actual"; q ← py_number v; Some (PyFloat (q * 100)%Q)) results.

Definition fault_panel (phases : list pyval) (panel : nat) (values : list pyval) (title ylabel : string) : Drawing unit :=
  emit (DBars panel ["#2ca02c"; "#d62728"]%string (zip phases values)) ;;
  text_on_bars panel ylabel values ;;
  emit (DTitle panel title) ;; emit (DYLabel panel ylabel) ;; emit (DGrid panel true).

Definition draw_fault_tolerance (results : list row) (output_file : string) : Drawing unit :=
  figure output_file 3 (phases ← column "phase" results; p99s ← column "p99_latency" results;
                        throughputs ← column "throughput" results; error_rates ← error_percents results;
                        Some (phases, p99s, throughputs, error_rates)) (λ '(phases, p99s, throughputs, error_rates),
    fault_panel phases 0 p99s "P99 Latency" "ms" ;;
    fault_panel phases 1 throughputs "Throughput" "req/s" ;;
    fault_panel phases 2 error_rates "Error Rate" "%" ;;
    emit (DSupTitle "Fault Tolerance: Worker Failure & Recovery")).

Definition scaling_panel (counts : list pyval) (panel : nat) (values : list pyval) (color suffix ylabel title : string) : Drawing unit :=
  emit (DBars panel [color] (zip counts values)) ;; text_bars panel suffix values ;;
  decorate panel "Number of Workers" ylabel title true.

Definition draw_dynamic_scaling (results : list row) (output_file : string) : Drawing unit :=
  figure output_file 2 (counts ← str_column "num_workers" results; throughputs ← column "throughput" results;
                        p99s ← column "p99_latency" results; Some (counts, throughputs, p99s)) (λ '(counts, throughputs, p99s),
    scaling_panel counts 0 throughputs "#1f77b4" EmptyString "Throughput (req/s)" "Throughput vs Worker Count" ;;
    scaling_panel counts 1 p99s "#ff7f0e" "ms" "P99 Latency (ms)" "P99 Latency vs Worker Count" ;;
    emit (DSupTitle "Horizontal Scaling: Throughput & Latency")).

Definition draw_latency_percentiles (x_field x_label title_prefix : string) (results : list row) (output_file : string) : Drawing unit :=
  figure output_file 1 (xs ← column x_field results; p50 ← column "p50_latency" results;
                        p95 ← column "p95_latency" results; p99 ← column "p99_latency" results;
                        Some (zip xs p50, zip xs p95, zip xs p99)) (λ '(p50, p95, p99),
    emit (DLine 0 "o" "P50" p50) ;; emit (DLine 0 "s" "P95" p95) ;; emit (DLine 0 "^" "P99" p99) ;;
    emit (DXLabel 0 x_label) ;; emit (DYLabel 0 "Latency (ms)") ;;
    emit (DTitle 0 (title_prefix +:+ " - Latency Percentiles")) ;; emit (DLegend 0) ;; emit (DGrid 0 false)).

(** ** Every figure is saved once and closed, or none is left but by an exception *)

Definition drawing_only (c : draw_cmd) : Prop :=
  match c with DStyle | DMakeDir _ | DFigure _ | DLayout | DSave _ | DClose => False | _ => True end.

(** The calls a program adds satisfy [P]. *)
Definition adds (P : draw_cmd → Prop) {A} (m : Drawing A) : Prop := ∀ cs, ∃ more, (m cs).2 = cs ++ more ∧ Forall P more.

Lemma adds_ret P {A} (a : A) : adds P (mret a).
Proof using. intros cs. exists []. by rewrite app_nil_r. Qed.
Lemma adds_opt P {A} (o : option A) : adds P (d_opt o).
Proof using. intros cs. exists []. by rewrite app_nil_r. Qed.
Lemma adds_emit (P : draw_cmd → Prop) c : P c → adds P (emit c).
Proof using. intros H cs. exists [c]. by repeat constructor. Qed.
Lemma adds_bind P {A B} (m : Drawing A) (k : A → Drawing B) : adds P m → (∀ a, adds P (k a)) → adds P (m ≫= k).
Proof using.
  intros Hm Hk cs. destruct (Hm cs) as (more & E & H). unfold mbind, drawing_bind. destruct (m cs) as [[a|] cs1]; simpl in *; subst; [|eauto].
  destruct (Hk a (cs ++ more)) as (more' & -> & H'). exists (more ++ more'). rewrite app_assoc. split; [done|by apply Forall_app].
Qed.
Lemma adds_each P {A} (f : nat → A → Drawing unit) i l : (∀ i x, adds P (f i x)) → adds P (d_each f i l).
Proof using. intros H. revert i. induction l as [|x l IH]; intros i; simpl; [apply adds_ret|]. apply adds_bind; [apply H|intros _; apply IH]. Qed.
Lemma adds_format P v : adds P (format_value v).
Proof using. apply adds_bind; [apply adds_opt|intros q; apply adds_ret]. Qed.

(** What a plot leaves behind. *)
Definition figure_shape (output_file : string) (panels : nat) (r : option unit) (cs : list draw_cmd) : Prop :=
  ∃ before body, Forall (λ c, c = DStyle ∨ ∃ d, c = DMakeDir d) before ∧ Forall drawing_only body ∧
    if r is Some _ then cs = before ++ [DFigure panels] ++ body ++ [DLayout; DSave output_file; DClose]
    else cs = before ∨ cs = before ++ [DFigure panels] ++ body ∨ cs = before ++ [DFigure panels] ++ body ++ [DLayout].

Lemma render_shaped {A} output_file panels (extract : option A) body before r cs :
  (∀ a, adds drawing_only (body a)) → Forall (λ c, c = DStyle ∨ ∃ d, c = DMakeDir d) before →
  render output_file panels extract body before = (r, cs) →
  figure_shape output_file panels r cs.
Proof using.
  intros Hb Hbf. unfold render, figure_shape, mbind, drawing_bind, d_opt.
  destruct extract as [a|]; [|intros [= <- <-]; exists before, []; by auto]. cbn [emit].
  destruct (Hb a (before ++ [DFigure panels])) as (more & E & Hm). unfold emit.
  destruct (body a _) as [[u|] cs1]; simpl in E; subst cs1.
  2:{ intros [= <- <-]. exists before, more. split_and!; [done|done|]. right. left. by rewrite <- app_assoc. }
  unfold save_figure. destruct (saves output_file); simpl; intros [= <- <-]; exists before, more; (split_and!; [done|done|]); simpl.
  - by rewrite <- !app_assoc.
  - right. right. by rewrite <- !app_assoc.
Qed.

Lemma figure_shaped {A} output_file panels (extract : option A) body r cs :
  (∀ a, adds drawing_only (body a)) →
  figure output_file panels extract body [] = (r, cs) →
  figure_shape output_file panels r cs.
Proof using.
  intros Hb. unfold figure, mbind at 1 2, drawing_bind at 1 2, emit at 1, ensure_dir_exists. cbn [app].
  assert (Forall (λ c, c = DStyle ∨ ∃ d, c = DMakeDir d) [DStyle]) as H1 by (repeat constructor).
  destruct (exists_dir (dirname output_file)); [by apply render_shaped|]. case_bool_decide as Hd.
  - intros [= <- <-]. exists [DStyle], []. split_and!; [done|done|by left].
  - apply render_shaped; [done|]. constructor; [by left|]. constructor; [right; by eexists|done].
Qed.

Create HintDb drawing.
#[local] Hint Resolve adds_ret adds_opt adds_format : drawing.
#[local] Hint Extern 1 (drawing_only _) => exact I : drawing.
#[local] Hint Resolve adds_emit adds_bind adds_each : drawing.

Lemma decorate_adds panel x y t g : adds drawing_only (decorate panel x y t g).
Proof using. unfold decorate. auto 10 with drawing. Qed.
Lemma labels_add panel suffix pts ys :
  adds drawing_only (note_points panel suffix pts) ∧ adds drawing_only (text_bars panel suffix ys) ∧
  adds drawing_only (text_on_bars panel suffix ys).
Proof using. unfold note_points, text_bars, text_on_bars. split_and!; apply adds_each; intros i x; auto with drawing. Qed.

(** The plot functions, those with further arguments at any of them. *)
Inductive plot_function : (list row → string → Drawing unit) → Prop :=
| pf_load : plot_function draw_load_vs_latency
| pf_throughput : plot_function draw_batch_size_vs_throughput
| pf_p99 : plot_function draw_batch_size_vs_p99
| pf_scheduler : plot_function draw_scheduler_comparison
| pf_failure_p99 : plot_function draw_failure_rate_vs_p99
| pf_failure_throughput : plot_function draw_failure_rate_vs_throughput
| pf_sweep : plot_function draw_latency_sweep
| pf_bursty : plot_function draw_bursty_comparison
| pf_fault : plot_function draw_fault_tolerance
| pf_scaling : plot_function draw_dynamic_scaling
| pf_percentiles x l t : plot_function (draw_latency_percentiles x l t).

(** Every plot function that returns has made one figure, drawn into it, saved it once under
    the name it was given and closed it; one that raises has saved nothing, and leaves a
    figure open exactly when it raises after making it. *)
Theorem plots_save_and_close plot results output_file r cs :
  plot_function plot → plot results output_file [] = (r, cs) → ∃ panels, figure_shape output_file panels r cs.
Proof using.
  intros Hp H. destruct Hp; eexists; (eapply figure_shaped; [|exact H]).
  1-6, 8: intros pts; repeat (apply adds_bind; [|intros _]); auto using decorate_adds with drawing; apply labels_add; exact [].
  - intros []. repeat (apply adds_bind; [|intros _]); auto with drawing.
  - intros [[[phases p99s] throughputs] errors]. repeat (apply adds_bind; [|intros _]); auto with drawing; apply labels_add; exact [].
  - intros [[counts throughputs] p99s]. repeat (apply adds_bind; [|intros _]); auto with drawing; apply labels_add; exact [].
  - intros [[p50 p95] p99]. repeat (apply adds_bind; [|intros _]); auto with drawing.
Qed.

(** ** What is shown is what [Plots] extracts *)

(** The points of the lines and bars, in drawing order. *)
Definition shown (cs : list draw_cmd) : list (list (pyval * pyval)) :=
  omap (λ c, match c with DLine _ _ _ pts | DBars _ _ pts => Some pts | _ => None end) cs.

Lemma shown_app cs cs' : shown (cs ++ cs') = shown cs ++ shown cs'.
Proof using. apply omap_app. Qed.

Lemma drawing_bind_inv {A B} (m : Drawing A) (k : A → Drawing B) cs b cs' :
  (m ≫= k) cs = (Some b, cs') → ∃ a cs1, m cs = (Some a, cs1) ∧ k a cs1 = (Some b, cs').
Proof using. unfold mbind, drawing_bind. destruct (m cs) as [[a|] cs1]; [eauto|done]. Qed.

Lemma drawing_opt_inv {A} (o : option A) cs a cs' : d_opt o cs = (Some a, cs') → o = Some a ∧ cs' = cs.
Proof using. by intros [= -> ->]. Qed.
Lemma emit_inv c cs u cs' : emit c cs = (Some u, cs') → cs' = cs ++ [c].
Proof using. by intros [= _ <-]. Qed.

(** A loop of labels succeeds when each value is a number, and shows no points. *)
Lemma labels_inv {A} (value : A → pyval) (label : nat → A → string → draw_cmd) suffix i l cs u cs' :
  (∀ i x t, shown [label i x t] = []) →
  d_each (λ i x, t ← format_value (value x); emit (label i x (t +:+ suffix)%string)) i l cs = (Some u, cs') →
  Forall (λ x, is_Some (py_number (value x))) l ∧ shown cs' = shown cs.
Proof using.
  intros Hl. revert i cs. induction l as [|x l IH]; intros i cs; cbn [d_each]; [by intros [= _ <-]|].
  intros ([] & cs1 & (t & cs2 & (q & cs3 & [Hq ->]%drawing_opt_inv & [= _ <-])%drawing_bind_inv & ->%emit_inv)%drawing_bind_inv & H)%drawing_bind_inv.
  apply IH in H as [Hn ->]. split; [constructor; [by eexists|done]|]. by rewrite shown_app, Hl, app_nil_r.
Qed.

Lemma note_points_inv panel suffix pts cs u cs' :
  note_points panel suffix pts cs = (Some u, cs') → Forall (λ xy, is_Some (py_number xy.2)) pts ∧ shown cs' = shown cs.
Proof using. by apply (labels_inv snd (λ _ xy, DNote panel xy)). Qed.
Lemma text_bars_inv panel suffix ys cs u cs' :
  text_bars panel suffix ys cs = (Some u, cs') → Forall (λ y, is_Some (py_number y)) ys ∧ shown cs' = shown cs.
Proof using. by apply (labels_inv id (λ i y, DText panel i y)). Qed.
Lemma text_on_bars_inv panel suffix ys cs u cs' :
  text_on_bars panel suffix ys cs = (Some u, cs') → Forall (λ y, is_Some (py_number y)) ys ∧ shown cs' = shown cs.
Proof using. by apply (labels_inv id (λ i _, DOnBar panel i)). Qed.

Lemma decorate_inv panel x y t g cs u cs' : decorate panel x y t g cs = (Some u, cs') → shown cs' = shown cs.
Proof using.
  unfold decorate.
  intros ([] & cs1 & ->%emit_inv & ([] & cs2 & ->%emit_inv & ([] & cs3 & ->%emit_inv & ->%emit_inv)%drawing_bind_inv)%drawing_bind_inv)%drawing_bind_inv.
  rewrite !shown_app. by rewrite !app_nil_r.
Qed.

(** A figure that succeeds shows what its body shows. *)
Lemma figure_inv {A} output_file panels (extract : option A) body u cs' :
  figure output_file panels extract body [] = (Some u, cs') →
  ∃ a cs1 cs2, extract = Some a ∧ body a cs1 = (Some tt, cs2) ∧ shown cs1 = [] ∧ shown cs' = shown cs2.
Proof using.
  unfold figure, render. intros ([] & cs1 & ->%emit_inv & ([] & cs2 & Hd & (a & cs3 & [-> ->]%drawing_opt_inv & H)%drawing_bind_inv)%drawing_bind_inv)%drawing_bind_inv.
  assert (shown cs2 = []) as Hs.
  { unfold ensure_dir_exists in Hd. destruct (exists_dir _); [by injection Hd as <-|]. case_bool_decide; [done|]. by apply emit_inv in Hd as ->. }
  apply drawing_bind_inv in H as ([] & cs4 & ->%emit_inv & ([] & cs5 & Hb & ([] & cs6 & ->%emit_inv & ([] & cs7 & Hv & ->%emit_inv)%drawing_bind_inv)%drawing_bind_inv)%drawing_bind_inv).
  exists a, (cs2 ++ [DFigure panels]), cs5. split_and!; [done|done|by rewrite shown_app, Hs|].
  unfold save_figure in Hv. destruct (saves output_file); [|done]. apply emit_inv in Hv as ->. rewrite !shown_app. by rewrite !app_nil_r.
Qed.

(** Reading two columns and then checking the second is reading the points. *)
Lemma columns_points x y results pts :
  columns (mapM x) (column y) results = Some pts → Forall (λ xy, is_Some (py_number xy.2)) pts →
  points x y results = Some pts.
Proof using.
  unfold columns, column, points. revert pts. induction results as [|r results IH]; intros pts; [by intros [= <-]|]. simpl.
  destruct (x r) as [a|]; [|done]. simpl. destruct (mapM x results) as [xs|]; [|done]. simpl.
  destruct (dict_lookup r y) as [b|] eqn:Ed; [|done]. simpl.
  destruct (mapM (λ r0, dict_lookup r0 y) results) as [ys|]; [|done]. simpl. intros [= <-] Hn.
  apply Forall_cons in Hn as [[q Hq] Hn]. simpl in Hq.
  assert (number_item r y = Some b) as -> by (unfold number_item; rewrite Ed; simpl; by rewrite Hq).
  simpl. by rewrite (IH _ eq_refl Hn).
Qed.

Lemma str_column_items k results : str_column k results = mapM (str_item str k) results.
Proof using.
  unfold str_column, column, str_item. induction results as [|r results IH]; [done|]. simpl in *.
  destruct (dict_lookup r k) as [v|]; [|done]. simpl. rewrite <- IH. by destruct (mapM _ results).
Qed.

Lemma zip_parts (xs ys : list pyval) : length xs = length ys → (zip xs ys).*1 = xs ∧ (zip xs ys).*2 = ys.
Proof using. intros H. split; [apply fst_zip|apply snd_zip]; lia. Qed.

Lemma numbers_snd (pts : list (pyval * pyval)) :
  Forall (λ y, is_Some (py_number y)) pts.*2 → Forall (λ xy, is_Some (py_number xy.2)) pts.
Proof using. by rewrite Forall_fmap. Qed.

Ltac d_steps :=
  repeat match goal with
  | u : unit |- _ => destruct u
  | H : (_ ≫= _) _ = (Some _, _) |- _ => apply drawing_bind_inv in H as (? & ? & ? & ?)
  | H : emit _ _ = (Some _, _) |- _ => apply emit_inv in H; subst
  | H : d_opt _ _ = (Some _, _) |- _ => apply drawing_opt_inv in H as [? ->]
  | H : decorate _ _ _ _ _ _ = (Some _, _) |- _ => apply decorate_inv in H
  | H : note_points _ _ _ _ = (Some _, _) |- _ => apply note_points_inv in H as [? ?]
  | H : text_bars _ _ _ _ = (Some _, _) |- _ => apply text_bars_inv in H as [? ?]
  | H : text_on_bars _ _ _ _ = (Some _, _) |- _ => apply text_on_bars_inv in H as [? ?]
  end;
  rewrite ?shown_app in *; simpl in *.

Ltac shown_done :=
  repeat match goal with H : shown ?cs = _ |- context [shown ?cs] => rewrite H; clear H end; by rewrite <- ?app_assoc.

(** The plots of one series. *)
Lemma single_series plot x y results output_file panels body cs :
  (∀ pts, points x y results = Some pts → plot results = Some [(EmptyString, pts)]) →
  (∀ pts cs1 cs2, body pts cs1 = (Some tt, cs2) → Forall (λ xy, is_Some (py_number xy.2)) pts ∧ shown cs2 = shown cs1 ++ [pts]) →
  figure output_file panels (columns (mapM x) (column y) results) body [] = (Some tt, cs) →
  ∃ s, plot results = Some s ∧ shown cs = s.*2.
Proof using.
  intros Hplot Hbody (pts & cs1 & cs2 & E & Hb & H1 & H2)%figure_inv. apply Hbody in Hb as [Hn Hs].
  exists [(EmptyString, pts)]. split; [by apply Hplot, columns_points|]. by rewrite H2, Hs, H1.
Qed.

Lemma load_shows results output_file cs :
  draw_load_vs_latency results output_file [] = (Some tt, cs) → ∃ s, plot_load_vs_latency results = Some s ∧ shown cs = s.*2.
Proof using.
  apply (single_series _ (item "request_rate") "p99_latency").
  - intros pts E. unfold plot_load_vs_latency. by rewrite E.
  - intros pts cs1 cs2 H. d_steps. split; [first [done|by apply numbers_snd]|congruence].
Qed.

Lemma batch_shows results output_file cs :
  (draw_batch_size_vs_throughput results output_file [] = (Some tt, cs) →
     ∃ s, plot_batch_size_vs_throughput str results = Some s ∧ shown cs = s.*2) ∧
  (draw_batch_size_vs_p99 results output_file [] = (Some tt, cs) →
     ∃ s, plot_batch_size_vs_p99 str results = Some s ∧ shown cs = s.*2).
Proof using.
  unfold draw_batch_size_vs_throughput, draw_batch_size_vs_p99, columns. rewrite str_column_items. split.
  - apply (single_series _ (str_item str "batch_size") "throughput").
    + intros pts E. unfold plot_batch_size_vs_throughput. by rewrite E.
    + intros pts cs1 cs2 H. d_steps. split; [first [done|by apply numbers_snd]|congruence].
  - apply (single_series _ (str_item str "batch_size") "p99_latency").
    + intros pts E. unfold plot_batch_size_vs_p99. by rewrite E.
    + intros pts cs1 cs2 H. d_steps. split; [first [done|by apply numbers_snd]|congruence].
Qed.

Lemma scheduler_shows results output_file cs :
  (draw_scheduler_comparison results output_file [] = (Some tt, cs) →
     ∃ s, plot_scheduler_comparison results = Some s ∧ shown cs = s.*2) ∧
  (draw_bursty_comparison results output_file [] = (Some tt, cs) →
     ∃ s, plot_bursty_comparison results = Some s ∧ shown cs = s.*2).
Proof using.
  split; apply (single_series _ (item "scheduler") "p99_latency").
  - intros pts E. unfold plot_scheduler_comparison. by rewrite E.
  - intros pts cs1 cs2 H. d_steps. split; [first [done|by apply numbers_snd]|congruence].
  - intros pts E. unfold plot_bursty_comparison. by rewrite E.
  - intros pts cs1 cs2 H. d_steps. split; [first [done|by apply numbers_snd]|congruence].
Qed.

Lemma failure_shows results output_file cs :
  (draw_failure_rate_vs_p99 results output_file [] = (Some tt, cs) →
     ∃ s, plot_failure_rate_vs_p99 results = Some s ∧ shown cs = s.*2) ∧
  (draw_failure_rate_vs_throughput results output_file [] = (Some tt, cs) →
     ∃ s, plot_failure_rate_vs_throughput results = Some s ∧ shown cs = s.*2).
Proof using.
  split; [apply (single_series _ failure_rate_item "p99_latency")|apply (single_series _ failure_rate_item "throughput")].
  - intros pts E. unfold plot_failure_rate_vs_p99. by rewrite E.
  - intros pts cs1 cs2 H. d_steps. rewrite ?app_nil_r in *. split; [first [done|by apply numbers_snd]|congruence].
  - intros pts E. unfold plot_failure_rate_vs_throughput. by rewrite E.
  - intros pts cs1 cs2 H. d_steps. rewrite ?app_nil_r in *. split; [first [done|by apply numbers_snd]|congruence].
Qed.

(** Two columns read one after the other are the pairs read row by row. *)
Lemma zip_mapM (f g : row → option pyval) results xs ys :
  mapM f results = Some xs → mapM g results = Some ys →
  mapM (λ r, x ← f r; y ← g r; Some (x, y)) results = Some (zip xs ys).
Proof using.
  revert xs ys. induction results as [|r results IH]; intros xs ys; simpl; [by intros [= <-] [= <-]|].
  destruct (f r) as [x|]; [|done]. destruct (g r) as [y|]; [|intros _; done]. simpl.
  destruct (mapM f results) as [xs'|]; [|done]. destruct (mapM g results) as [ys'|]; [|intros _; done]. simpl.
  intros [= <-] [= <-]. by rewrite (IH _ _ eq_refl eq_refl).
Qed.

Lemma zip_points x y results xs ys :
  mapM x results = Some xs → column y results = Some ys → Forall (λ v, is_Some (py_number v)) ys →
  points x y results = Some (zip xs ys).
Proof using.
  intros Hx Hy Hn. apply columns_points.
  - unfold columns. by rewrite Hx; simpl; rewrite Hy.
  - apply numbers_snd. apply length_mapM in Hx, Hy. rewrite (proj2 (zip_parts xs ys ltac:(congruence))). done.
Qed.

Lemma fault_shows results output_file cs :
  draw_fault_tolerance results output_file [] = (Some tt, cs) → ∃ s, plot_fault_tolerance results = Some s ∧ shown cs = s.*2.
Proof using.
  intros ([[[phases p99s] throughputs] errors] & cs1 & cs2 & E & Hb & H1 & H2)%figure_inv. unfold fault_panel in Hb.
  destruct (column "phase" results) as [ph|] eqn:Eph; [|done]. destruct (column "p99_latency" results) as [ps|] eqn:Eps; [|done].
  destruct (column "throughput" results) as [ts|] eqn:Ets; [|done]. destruct (error_percents results) as [es|] eqn:Ees; [|done].
  simpl in E. injection E as -> -> -> ->. d_steps. rewrite ?app_nil_r in *.
  exists [("P99 Latency", zip phases p99s); ("Throughput", zip phases throughputs); ("Error Rate", zip phases errors)]%string.
  split; [|shown_done]. unfold plot_fault_tolerance. erewrite (zip_points (item "phase") "p99_latency"), (zip_points (item "phase") "throughput") by eassumption.
  simpl. erewrite zip_mapM by eassumption. done.
Qed.

Lemma scaling_shows results output_file cs :
  draw_dynamic_scaling results output_file [] = (Some tt, cs) → ∃ s, plot_dynamic_scaling str results = Some s ∧ shown cs = s.*2.
Proof using.
  intros ([[counts throughputs] p99s] & cs1 & cs2 & E & Hb & H1 & H2)%figure_inv. unfold scaling_panel in Hb.
  rewrite str_column_items in E. destruct (mapM (str_item str "num_workers") results) as [ns|] eqn:En; [|done].
  destruct (column "throughput" results) as [ts|] eqn:Ets; [|done]. destruct (column "p99_latency" results) as [ps|] eqn:Eps; [|done].
  simpl in E. injection E as -> -> ->. d_steps. rewrite ?app_nil_r in *.
  exists [("Throughput", zip counts throughputs); ("P99 Latency", zip counts p99s)]%string.
  split; [|shown_done]. unfold plot_dynamic_scaling.
  erewrite (zip_points (str_item str "num_workers") "throughput"), (zip_points (str_item str "num_workers") "p99_latency") by eassumption. done.
Qed.

Lemma percentiles_show x l t results output_file cs :
  draw_latency_percentiles x l t results output_file [] = (Some tt, cs) →
  ∃ s, plot_latency_percentiles x results = Some s ∧ shown cs = s.*2.
Proof using.
  intros ([[a b] c] & cs1 & cs2 & E & Hb & H1 & H2)%figure_inv.
  destruct (column x results) as [xs|] eqn:Ex; [|done]. destruct (column "p50_latency" results) as [p50|] eqn:E50; [|done].
  destruct (column "p95_latency" results) as [p95|] eqn:E95; [|done]. destruct (column "p99_latency" results) as [p99|] eqn:E99; [|done].
  simpl in E. injection E as <- <- <-. d_steps. rewrite ?app_nil_r, ?H1 in *.
  exists [("P50", zip xs p50); ("P95", zip xs p95); ("P99", zip xs p99)]%string. split; [|shown_done]. unfold plot_latency_percentiles.
  erewrite (zip_mapM (λ r, dict_lookup r x) (λ r, dict_lookup r "p50_latency")) by eassumption. simpl.
  erewrite (zip_mapM (λ r, dict_lookup r x) (λ r, dict_lookup r "p95_latency")) by eassumption. simpl.
  by erewrite (zip_mapM (λ r, dict_lookup r x) (λ r, dict_lookup r "p99_latency")) by eassumption.
Qed.

Lemma lines_inv m i (lines : series) cs u cs' :
  d_each (λ _ line, emit (DLine 0 m line.1 line.2)) i lines cs = (Some u, cs') → shown cs' = shown cs ++ lines.*2.
Proof using.
  revert i cs. induction lines as [|l lines IH]; intros i cs; cbn [d_each]; [intros [= _ <-]; by rewrite app_nil_r|].
  intros ([] & cs1 & ->%emit_inv & H)%drawing_bind_inv. rewrite (IH _ _ H), shown_app, <- app_assoc. done.
Qed.

Lemma sweep_shows results output_file cs :
  draw_latency_sweep results output_file [] = (Some tt, cs) → ∃ s, plot_latency_sweep results = Some s ∧ shown cs = s.*2.
Proof using.
  intros ([] & cs1 & cs2 & E & Hb & H1 & H2)%figure_inv. unfold sweep_markers in Hb. cbn [d_each] in Hb. d_steps.
  repeat match goal with H : d_each _ _ _ _ = (Some _, _) |- _ => apply lines_inv in H end.
  repeat match goal with H : mret _ _ = (Some _, _) |- _ => injection H as <- end. rewrite ?app_nil_r in *.
  unfold plot_latency_sweep, sweep_schedulers. cbn [mapM]. repeat match goal with H : sweep_line _ _ = _ |- _ => rewrite H; clear H end. simpl.
  eexists. split; [reflexivity|]. rewrite app_nil_r, !fmap_app. shown_done.
Qed.

(** Each plot function with the points [Plots] gives it. *)
Inductive plot_of : (list row → string → Drawing unit) → (list row → option series) → Prop :=
| po_load : plot_of draw_load_vs_latency plot_load_vs_latency
| po_throughput : plot_of draw_batch_size_vs_throughput (plot_batch_size_vs_throughput str)
| po_p99 : plot_of draw_batch_size_vs_p99 (plot_batch_size_vs_p99 str)
| po_scheduler : plot_of draw_scheduler_comparison plot_scheduler_comparison
| po_failure_p99 : plot_of draw_failure_rate_vs_p99 plot_failure_rate_vs_p99
| po_failure_throughput : plot_of draw_failure_rate_vs_throughput plot_failure_rate_vs_throughput
| po_sweep : plot_of draw_latency_sweep plot_latency_sweep
| po_bursty : plot_of draw_bursty_comparison plot_bursty_comparison
| po_fault : plot_of draw_fault_tolerance plot_fault_tolerance
| po_scaling : plot_of draw_dynamic_scaling (plot_dynamic_scaling str)
| po_percentiles x l t : plot_of (draw_latency_percentiles x l t) (plot_latency_percentiles x).

(** A plot that returns has drawn exactly the points of [Plots], series by series; results
    from which they cannot be read are not plotted. *)
Theorem plots_show_their_points drawing plot results output_file cs :
  plot_of drawing plot → drawing results output_file [] = (Some tt, cs) → ∃ s, plot results = Some s ∧ shown cs = s.*2.
Proof using.
  intros []; [apply load_shows|apply (proj1 (batch_shows _ _ _))|apply (proj2 (batch_shows _ _ _))|apply (proj1 (scheduler_shows _ _ _))
    |apply (proj1 (failure_shows _ _ _))|apply (proj2 (failure_shows _ _ _))|apply sweep_shows|apply (proj2 (scheduler_shows _ _ _))|apply fault_shows|apply scaling_shows|apply percentiles_show].
Qed.
End drawing.

(** ** Where the labels of the bars are

    A bar chart over texts puts a bar at the number of its text, in the order in which the
    texts first appear; the labels are put at the numbers of the rows. *)
Fixpoint category_order (cats : list string) : list string :=
  match cats with [] => [] | c :: cats' => c :: filter (λ d, d ≠ c) (category_order cats') end.

Definition bar_position (cats : list string) (i : nat) : option nat :=
  c ← cats !! i; fst <$> list_find (c =.) (category_order cats).

Lemma category_order_nodup cats : NoDup cats → category_order cats = cats.
Proof.
  induction 1 as [|c cats Hc _ IH]; [done|]. simpl. rewrite IH. f_equal. clear IH.
  induction cats as [|d cats IH]; [done|]. rewrite filter_cons_True by (intros ->; apply Hc; by left).
  f_equal. apply IH. intros H. apply Hc. by right.
Qed.

(** Every label stands on its own bar exactly when no two rows have the same text. *)
Theorem labels_stand_on_their_bars (cats : list string) :
  (∀ i, (i < length cats)%nat → bar_position cats i = Some i) ↔ NoDup cats.
Proof.
  unfold bar_position. split.
  - intros H. apply NoDup_alt. intros i j c Hi Hj.
    pose proof (H i (lookup_lt_Some _ _ _ Hi)) as Pi. pose proof (H j (lookup_lt_Some _ _ _ Hj)) as Pj.
    rewrite Hi in Pi. rewrite Hj in Pj. simpl in Pi, Pj. congruence.
  - intros Hnd i Hi. rewrite category_order_nodup by done. destruct (lookup_lt_is_Some_2 cats i Hi) as [c Hc].
    rewrite Hc. simpl. assert (list_find (c =.) cats = Some (i, c)) as ->; [|done].
    apply list_find_Some. split_and!; [done|done|]. intros j d Hj Hlt <-.
    assert (j = i) by (eapply NoDup_lookup; eauto). lia.
Qed.

(** Two runs with the batch size 4: their bars are drawn over each other, and the second label
    stands beside them. *)
Example repeated_batch_size : map (bar_position ["1"; "4"; "4"]%string) [0; 1; 2]%nat = [Some 0; Some 1; Some 1]%nat.
Proof. vm_compute. reflexivity. Qed.

Example plot_without_directory :
  (draw_load_vs_latency (λ _, EmptyString) (λ _, false) (λ _, true) [] "plot.png" []).1 = None ∧
  draw_load_vs_latency (λ _, "1.0"%string) (λ _, false) (λ _, true)
    [[("request_rate", PyInt 50); ("p99_latency", PyInt 1)]%string] "out/plot.png" [] =
  (Some tt, [DStyle; DMakeDir "out"; DFigure 1; DLine 0 "o" EmptyString [(PyInt 50, PyInt 1)];
     DXLabel 0 "Request Rate (requests/sec)"; DYLabel 0 "P99 Latency (ms)"; DTitle 0 "Load vs P99 Latency"; DGrid 0 false;
     DNote 0 (PyInt 50, PyInt 1) "1.0ms"; DLayout; DSave "out/plot.png"; DClose]%string).
Proof. split; vm_compute; reflexivity. Qed.
