(* ===== verification/Experiments.v ===== *)
(** The experiments, [src/experiments/run_experiments.py]: a configuration is posted to the
    API, a load test runs, its metrics become one row of a CSV file, the rows are plotted.
    The HTTP client, the load tests, the clock, the file system's faults, matplotlib and
    subprocesses are the fields of an environment over an arbitrary world. *)
From stdpp Require Import pretty.
From S2P Require Import Prelude PyVal Metrics LoadTest Plots.

(** ** The experiments' own monad: a world, the CSV files, exceptions *)

Inductive exn := PyExc (msg : string) | PyInterrupt.

Abbreviation csv := (list (list pyval)).

Record exp_state (W : Type) := mkExp { es_world : W; es_files : gmap string csv }.
#[global] Arguments mkExp {W}.
#[global] Arguments es_world {W}.
#[global] Arguments es_files {W}.

Definition E (W A : Type) : Type := exp_state W → (A + exn) * exp_state W.

#[export] Instance e_ret {W} : MRet (E W) := λ A a s, (inl a, s).
#[export] Instance e_bind {W} : MBind (E W) := λ A B k m s,
  let '(r, s) := m s in match r with inl a => k a s | inr e => (inr e, s) end.

Definition e_raise {W A} (e : exn) : E W A := λ s, (inr e, s).

(** An effect on the world alone. *)
Definition e_world {W A} (f : W → A * W) : E W A := λ s,
  let '(a, w) := f (es_world s) in (inl a, mkExp w (es_files s)).

Definition e_opt {W A} (e : exn) (o : option A) : E W A :=
  match o with Some a => mret a | None => e_raise e end.

(** ** The environment *)

(** [requests.post]: a response, a [RequestException], or another exception. *)
Inductive post_reply :=
| PostReply (status : Z)
| PostFails (msg : string)
| PostRaises (e : exn).

(** What the file system does to one [open(path, "a")] with its writes: everything is
    written, the file does not open, or closing it fails after some rows. *)
Inductive csv_write := CsvOk | CsvOpenFails | CsvCloseFails (written : nat).

Record exp_env (W : Type) := mkExpEnv {
  ee_post : string → pyval → W → post_reply * W;
  ee_load : bool → LoadTester → W → (log_reads + exn) * W;
  ee_now : W → string;
  ee_numpy : option (list Q → Q → Q);
  ee_csv : W → csv_write;
  ee_str : pyval → string;
  ee_draw : string → series → W → option exn * W;
  ee_run : string → W → option exn * W;
}.
#[global] Arguments mkExpEnv {W}.
#[global] Arguments ee_post {W}.
#[global] Arguments ee_load {W}.
#[global] Arguments ee_now {W}.
#[global] Arguments ee_numpy {W}.
#[global] Arguments ee_csv {W}.
#[global] Arguments ee_str {W}.
#[global] Arguments ee_draw {W}.
#[global] Arguments ee_run {W}.

(** ** Configurations and paths *)

Record ExperimentConfig := mkExpConfig {
  ec_name : string;
  ec_request_rate : Z;
  ec_batch_size : Z;
  ec_scheduler : string;
  ec_failure_rate : Q;
  ec_duration : Z;
  ec_num_threads : Z;
}.

(** The part of [s] before its last occurrence of [sep]. *)
Fixpoint before_last (sep s : string) : option string :=
  match s with
  | EmptyString => if String.prefix sep s then Some EmptyString else None
  | String c s' =>
      match before_last sep s' with
      | Some h => Some (String c h)
      | None => if String.prefix sep s then Some EmptyString else None
      end
  end.

(** [url.rsplit("/predict", 1)[0]]. *)
Definition base_url (url : string) : string := default url (before_last "/predict" url).

(** [os.path.join] of a directory and a relative name. *)
Fixpoint ends_with_slash (s : string) : bool :=
  match s with
  | EmptyString => false
  | String c EmptyString => String.eqb s "/"
  | String _ s' => ends_with_slash s'
  end.

Definition path_join (dir name : string) : string :=
  if String.eqb dir EmptyString then name
  else if ends_with_slash dir then (dir +:+ name)%string else (dir +:+ "/" +:+ name)%string.

Record ExperimentRunner := mkRunner {
  er_api_url : string;
  er_results_dir : string;
  er_plots_dir : string;
}.

(** ** The rows *)

Definition experiment_fields : list string :=
  ["experiment_name"; "setting_name"; "request_rate"; "batch_size"; "scheduler"; "failure_rate";
   "config_failure_rate"; "total_requests"; "completed_requests"; "failed_requests";
   "avg_latency"; "p50_latency"; "p95_latency"; "p99_latency"; "throughput";
   "failure_rate_actual"; "timestamp"]%string.

Definition setting_name (c : ExperimentConfig) : string :=
  ("rate_" +:+ pretty (ec_request_rate c) +:+ "_batch_" +:+ pretty (ec_batch_size c)
    +:+ "_sched_" +:+ ec_scheduler c)%string.

(** The result dict of [run_single_experiment]; [None] is the [KeyError] of a metric. *)
Definition experiment_row (c : ExperimentConfig) (m : list (string * pyval)) : option row :=
  total ← dict_lookup m "total_requests"; completed ← dict_lookup m "completed_requests";
  failed ← dict_lookup m "failed_requests"; avg ← dict_lookup m "avg_latency";
  p50 ← dict_lookup m "p50_latency"; p95 ← dict_lookup m "p95_latency";
  p99 ← dict_lookup m "p99_latency"; throughput ← dict_lookup m "throughput";
  failure ← dict_lookup m "failure_rate"; timestamp ← dict_lookup m "timestamp";
  Some [("experiment_name", PyStr (ec_name c)); ("setting_name", PyStr (setting_name c));
        ("request_rate", PyInt (ec_request_rate c)); ("batch_size", PyInt (ec_batch_size c));
        ("scheduler", PyStr (ec_scheduler c)); ("failure_rate", PyFloat (ec_failure_rate c));
        ("config_failure_rate", PyFloat (ec_failure_rate c));
        ("total_requests", total); ("completed_requests", completed); ("failed_requests", failed);
        ("avg_latency", avg); ("p50_latency", p50); ("p95_latency", p95); ("p99_latency", p99);
        ("throughput", throughput); ("failure_rate_actual", failure); ("timestamp", timestamp)]%string.

(** [csv.DictWriter.writerow]: the row in the order of the field names, or the
    [ValueError] for a key that is none of them; a missing key is written as empty. *)
Definition dict_writer_row (fieldnames : list string) (d : row) : option (list pyval) :=
  if forallb (λ k, bool_decide (k ∈ fieldnames)) (dict_keys d)
  then Some ((λ k, dict_get d k (PyStr EmptyString)) <$> fieldnames) else None.

Definition csv_header (fieldnames : list string) : list pyval := PyStr <$> fieldnames.

Section runner.
Context {W : Type} (env : exp_env W) (runner : ExperimentRunner).

(** ** [_apply_configuration_to_server] *)

Definition config_endpoints (c : ExperimentConfig) : list (string * pyval) :=
  [("batch_size", PyDict [("batch_size", PyInt (ec_batch_size c))]);
   ("scheduler", PyDict [("scheduler", PyStr (ec_scheduler c))]);
   ("failure_rate", PyDict [("failure_rate", PyFloat (ec_failure_rate c))])]%string.

(** The loop over the endpoints.  A [RequestException], from the connection or from
    [raise_for_status], ends it with a warning; another exception leaves the method. *)
Fixpoint post_endpoints (base : string) (eps : list (string * pyval)) : E W unit :=
  match eps with
  | [] => mret tt
  | (endpoint, payload) :: eps' =>
      reply ← e_world (ee_post env (base +:+ "/config/" +:+ endpoint) payload);
      match reply with
      | PostReply status => if (400 <=? status) && (status <? 600) then mret tt else post_endpoints base eps'
      | PostFails _ => mret tt
      | PostRaises e => e_raise e
      end
  end.

Definition apply_configuration_to_server (c : ExperimentConfig) : E W unit :=
  post_endpoints (base_url (er_api_url runner)) (config_endpoints c).

(** ** [run_single_experiment] *)

(** [LoadTester(...)] with the defaults of the constructor, and its run. *)
Definition run_load (verbose : bool) (rate : Q) (duration num_threads : Z) : E W log_reads :=
  match load_tester (er_api_url runner) rate duration num_threads PyNone 30 with
  | inr err => e_raise (PyExc err)
  | inl tester =>
      logs ← e_world (ee_load env verbose tester);
      match logs with inl reads => mret reads | inr e => e_raise e end
  end.

Definition metrics_of (reads : log_reads) : E W (list (string * pyval)) := λ s,
  (inl (get_metrics (ee_numpy env) (ee_now env (es_world s)) reads), s).

Definition run_single_experiment (verbose : bool) (c : ExperimentConfig) : E W row :=
  _ ← apply_configuration_to_server c;
  reads ← run_load verbose (inject_Z (ec_request_rate c)) (ec_duration c) (ec_num_threads c);
  m ← metrics_of reads;
  e_opt (PyExc "KeyError") (experiment_row c m).

(** ** [run_experiments_batch] *)

Definition csv_append (path : string) (rows : list (list pyval)) (s : exp_state W) : exp_state W :=
  mkExp (es_world s) (<[path := default [] (es_files s !! path) ++ rows]> (es_files s)).

(** [with open(path, "a") as f]: the header when it is due, and the row.  The result says
    whether the header counts as written. *)
Definition csv_save (path : string) (fieldnames : list string) (header_due : bool) (result : row)
    (s : exp_state W) : bool * exp_state W :=
  let header := if header_due then [csv_header fieldnames] else [] in
  let rows := match dict_writer_row fieldnames result with Some r => header ++ [r] | None => header end in
  match ee_csv env (es_world s) with
  | CsvOpenFails => (false, s)
  | CsvOk => (true, csv_append path rows s)
  | CsvCloseFails n => (true, csv_append path (take n rows) s)
  end.

(** The loop over the configurations: any [Exception] of one is logged and skipped; what
    is no [Exception] leaves the loop.  The header is due while it was not written. *)
Fixpoint batch_loop (path : string) (verbose : bool) (i : nat) (configs : list ExperimentConfig)
    (file_exists : bool) (results : list row) (s : exp_state W) : (list row + exn) * exp_state W :=
  match configs with
  | [] => (inl results, s)
  | config :: configs' =>
      match run_single_experiment verbose config s with
      | (inl result, s) =>
          let header_due := negb file_exists || Nat.eqb i 0 in
          let '(written, s) := csv_save path experiment_fields header_due result s in
          batch_loop path verbose (S i) configs' (file_exists || written) (results ++ [result]) s
      | (inr (PyExc _), s) => batch_loop path verbose (S i) configs' file_exists results s
      | (inr PyInterrupt, s) => (inr PyInterrupt, s)
      end
  end.

Definition run_experiments_batch (configs : list ExperimentConfig) (csv_file : string)
    (verbose : bool) : E W (list row) := λ s,
  let path := path_join (er_results_dir runner) csv_file in
  batch_loop path verbose 0 configs false [] (mkExp (es_world s) (delete path (es_files s))).

(** ** The experiments *)

(** [if results:] and one plot after the other. *)
Definition draw (plot : list row → option series) (name : string) (results : list row) : E W unit :=
  points ← e_opt (PyExc "KeyError") (plot results);
  failed ← e_world (ee_draw env (path_join (er_plots_dir runner) name) points);
  match failed with None => mret tt | Some e => e_raise e end.

Fixpoint draw_all (plots : list ((list row → option series) * string)) (results : list row) : E W unit :=
  match plots with
  | [] => mret tt
  | (plot, name) :: plots' => _ ← draw plot name results; draw_all plots' results
  end.

Definition batch_experiment (configs : list ExperimentConfig) (csv_file : string)
    (plots : list ((list row → option series) * string)) : E W (list row) :=
  results ← run_experiments_batch configs csv_file false;
  _ ← (match results with [] => mret tt | _ => draw_all plots results end);
  mret results.

Definition load_configs (request_rates : option (list Z)) (batch_size : Z) (scheduler : string)
    (duration num_threads : Z) : list ExperimentConfig :=
  (λ rate, mkExpConfig "load_vs_latency" rate batch_size scheduler 0 duration num_threads)
    <$> default [50; 100; 200; 400; 800] request_rates.

Definition experiment_load_vs_latency (request_rates : option (list Z)) (batch_size : Z)
    (scheduler : string) (duration num_threads : Z) : E W (list row) :=
  batch_experiment (load_configs request_rates batch_size scheduler duration num_threads)
    "load_vs_latency.csv" [(plot_load_vs_latency, "load_vs_latency.png"%string)].

Definition batch_configs (request_rate : Z) (batch_sizes : option (list Z)) (scheduler : string)
    (duration num_threads : Z) : list ExperimentConfig :=
  (λ batch, mkExpConfig "batch_size_tradeoff" request_rate batch scheduler 0 duration num_threads)
    <$> default [1; 4; 8; 16] batch_sizes.

Definition experiment_batch_size_tradeoff (request_rate : Z) (batch_sizes : option (list Z))
    (scheduler : string) (duration num_threads : Z) : E W (list row) :=
  batch_experiment (batch_configs request_rate batch_sizes scheduler duration num_threads)
    "batch_size_tradeoff.csv"
    [(plot_batch_size_vs_throughput (ee_str env), "batch_size_vs_throughput.png"%string);
     (plot_batch_size_vs_p99 (ee_str env), "batch_size_vs_p99.png"%string)].

Definition scheduler_configs (request_rate batch_size : Z) (schedulers : option (list string))
    (duration num_threads : Z) : list ExperimentConfig :=
  (λ sched, mkExpConfig "scheduler_comparison" request_rate batch_size sched 0 duration num_threads)
    <$> default ["fifo"; "batching"; "latency_aware"]%string schedulers.

Definition experiment_scheduler_comparison (request_rate batch_size : Z)
    (schedulers : option (list string)) (duration num_threads : Z) : E W (list row) :=
  batch_experiment (scheduler_configs request_rate batch_size schedulers duration num_threads)
    "scheduler_comparison.csv"
    [(plot_scheduler_comparison, "scheduler_comparison_p99.png"%string)].

Definition failure_configs (request_rate batch_size : Z) (scheduler : string)
    (failure_rates : option (list Q)) (duration num_threads : Z) : list ExperimentConfig :=
  (λ failure, mkExpConfig "failure_injection" request_rate batch_size scheduler failure duration num_threads)
    <$> default [0; 1#10; 2#10]%Q failure_rates.

Definition experiment_failure_injection (request_rate batch_size : Z) (scheduler : string)
    (failure_rates : option (list Q)) (duration num_threads : Z) : E W (list row) :=
  batch_experiment (failure_configs request_rate batch_size scheduler failure_rates duration num_threads)
    "failure_injection.csv"
    [(plot_failure_rate_vs_p99, "failure_rate_vs_p99.png"%string);
     (plot_failure_rate_vs_throughput, "failure_rate_vs_throughput.png"%string)].

Definition sweep_configs (request_rates : option (list Z)) (batch_size duration num_threads : Z)
    : list ExperimentConfig :=
  sched ← ["fifo"; "batching"; "latency_aware"]%string;
  (λ rate, mkExpConfig "latency_sweep" rate batch_size sched 0 duration num_threads)
    <$> default [100; 150; 200; 250; 300] request_rates.

Definition experiment_latency_sweep (request_rates : option (list Z))
    (batch_size duration num_threads : Z) : E W (list row) :=
  batch_experiment (sweep_configs request_rates batch_size duration num_threads)
    "latency_sweep.csv" [(plot_latency_sweep, "latency_sweep.png"%string)].

(** *** Experiments in phases: their exceptions are not caught *)

Definition remove_csv (csv_file : string) : E W string := λ s,
  let path := path_join (er_results_dir runner) csv_file in
  (inl path, mkExp (es_world s) (delete path (es_files s))).

(** [open(path, mode)] with the given rows, the exception leaving the method. *)
Definition csv_write_rows (path : string) (rows : option (list (list pyval))) : E W unit := λ s,
  match rows with
  | None => (inr (PyExc "ValueError"), s)
  | Some rows =>
      match ee_csv env (es_world s) with
      | CsvOk => (inl tt, csv_append path rows s)
      | CsvOpenFails => (inr (PyExc "OSError"), s)
      | CsvCloseFails n => (inr (PyExc "OSError"), csv_append path (take n rows) s)
      end
  end.

(** [writer.writeheader()] and [writer.writerows(results)] into a fresh file. *)
Definition csv_table (fieldnames : list string) (results : list row) : option (list (list pyval)) :=
  rows ← mapM (dict_writer_row fieldnames) results; Some (csv_header fieldnames :: rows).

(** One load test of a phase and its metrics. *)
Definition load_phase (rate duration num_threads : Z) : E W (list (string * pyval)) :=
  reads ← run_load false (inject_Z rate) duration num_threads;
  metrics_of reads.

Definition run_process (command : string) : E W unit :=
  failed ← e_world (ee_run env command);
  match failed with None => mret tt | Some e => e_raise e end.

Definition scaling_row (num_workers : Z) (m : list (string * pyval)) : option row :=
  p99 ← dict_lookup m "p99_latency"; throughput ← dict_lookup m "throughput";
  Some [("num_workers", PyInt num_workers); ("p99_latency", p99); ("throughput", throughput)]%string.

Definition fault_row (name : string) (num_workers : Z) (m : list (string * pyval)) : option row :=
  r ← scaling_row num_workers m; failure ← dict_lookup m "failure_rate";
  Some (("phase", PyStr name) :: r ++ [("failure_rate_actual", failure)])%string.

Definition experiment_fault_tolerance (request_rate batch_size phase_duration num_threads : Z)
    : E W (list row) :=
  let cfg := mkExpConfig "fault_tolerance" request_rate batch_size "fifo" 0 phase_duration num_threads in
  _ ← apply_configuration_to_server cfg;
  m1 ← load_phase request_rate phase_duration num_threads;
  _ ← run_process "kill -9 $(lsof -ti TCP:50052 -sTCP:LISTEN)";
  m2 ← load_phase request_rate phase_duration num_threads;
  r1 ← e_opt (PyExc "KeyError") (fault_row "Before Failure" 4 m1);
  r2 ← e_opt (PyExc "KeyError") (fault_row "After Failure" 3 m2);
  path ← remove_csv "fault_tolerance.csv";
  _ ← csv_write_rows path (csv_table
        ["phase"; "num_workers"; "p99_latency"; "throughput"; "failure_rate_actual"]%string [r1; r2]);
  _ ← draw plot_fault_tolerance "fault_tolerance.png" [r1; r2];
  mret [r1; r2].

Definition experiment_dynamic_scaling (request_rate batch_size phase_duration num_threads : Z)
    : E W (list row) :=
  let cfg := mkExpConfig "dynamic_scaling" request_rate batch_size "fifo" 0 phase_duration num_threads in
  _ ← apply_configuration_to_server cfg;
  m1 ← load_phase request_rate phase_duration num_threads;
  _ ← run_process "python -m system.grpc_worker_server --worker-id 2 --port 50053";
  m2 ← load_phase request_rate phase_duration num_threads;
  r1 ← e_opt (PyExc "KeyError") (scaling_row 2 m1);
  r2 ← e_opt (PyExc "KeyError") (scaling_row 3 m2);
  path ← remove_csv "dynamic_scaling.csv";
  _ ← csv_write_rows path (csv_table ["num_workers"; "p99_latency"; "throughput"]%string [r1; r2]);
  _ ← draw (plot_dynamic_scaling (ee_str env)) "dynamic_scaling.png" [r1; r2];
  mret [r1; r2].

(** *** Bursty traffic *)

Definition bursty_fields : list string :=
  ["experiment_name"; "scheduler"; "normal_rate"; "burst_rate"; "total_requests";
   "completed_requests"; "failed_requests"; "avg_latency"; "p50_latency"; "p95_latency";
   "p99_latency"; "throughput"; "timestamp"]%string.

Definition bursty_row (scheduler : string) (normal_rate burst_rate : Z) (m : list (string * pyval))
    : option row :=
  total ← dict_lookup m "total_requests"; completed ← dict_lookup m "completed_requests";
  failed ← dict_lookup m "failed_requests"; avg ← dict_lookup m "avg_latency";
  p50 ← dict_lookup m "p50_latency"; p95 ← dict_lookup m "p95_latency";
  p99 ← dict_lookup m "p99_latency"; throughput ← dict_lookup m "throughput";
  timestamp ← dict_lookup m "timestamp";
  Some [("experiment_name", PyStr "bursty"); ("scheduler", PyStr scheduler);
        ("normal_rate", PyInt normal_rate); ("burst_rate", PyInt burst_rate);
        ("total_requests", total); ("completed_requests", completed); ("failed_requests", failed);
        ("avg_latency", avg); ("p50_latency", p50); ("p95_latency", p95); ("p99_latency", p99);
        ("throughput", throughput); ("timestamp", timestamp)]%string.

(** [all_logs.extend(tester.run())]: a copy of the list as it is when [run] returns. *)
Definition extend_logs (all_logs : list RequestLog) (rate duration num_threads : Z)
    : E W (list RequestLog) :=
  reads ← run_load false (inject_Z rate) duration num_threads;
  mret (all_logs ++ lr_truth reads).

Fixpoint bursty_cycles (cycles : nat) (normal_rate burst_rate normal_duration burst_duration
    num_threads : Z) (all_logs : list RequestLog) : E W (list RequestLog) :=
  match cycles with
  | O => mret all_logs
  | S n =>
      all_logs ← extend_logs all_logs normal_rate normal_duration num_threads;
      all_logs ← extend_logs all_logs burst_rate burst_duration num_threads;
      bursty_cycles n normal_rate burst_rate normal_duration burst_duration num_threads all_logs
  end.

Fixpoint bursty_loop (path : string) (normal_rate burst_rate normal_duration burst_duration : Z)
    (cycles : nat) (batch_size num_threads : Z) (schedulers : list string) (results : list row)
    : E W (list row) :=
  match schedulers with
  | [] => mret results
  | scheduler :: rest =>
      _ ← apply_configuration_to_server
            (mkExpConfig "bursty" normal_rate batch_size scheduler 0 normal_duration num_threads);
      all_logs ← bursty_cycles cycles normal_rate burst_rate normal_duration burst_duration num_threads [];
      m ← metrics_of (steady all_logs);
      result ← e_opt (PyExc "KeyError") (bursty_row scheduler normal_rate burst_rate m);
      let header := if bool_decide (scheduler = "fifo"%string) then [csv_header bursty_fields] else [] in
      _ ← csv_write_rows path (r ← dict_writer_row bursty_fields result; Some (header ++ [r]));
      bursty_loop path normal_rate burst_rate normal_duration burst_duration cycles batch_size
        num_threads rest (results ++ [result])
  end.

Definition experiment_bursty (normal_rate burst_rate normal_duration burst_duration : Z)
    (cycles : nat) (batch_size num_threads : Z) : E W (list row) :=
  path ← remove_csv "bursty.csv";
  results ← bursty_loop path normal_rate burst_rate normal_duration burst_duration cycles batch_size
    num_threads ["fifo"; "batching"; "latency_aware"]%string [];
  _ ← (match results with
       | [] => mret tt
       | _ => draw plot_bursty_comparison "bursty_comparison.png" results
       end);
  mret results.
End runner.
