(* ===== verification/ExperimentsFacts.v ===== *)
(** The experiments' guarantees: what a result row says, what a batch leaves in its CSV
    file, that its plots find their entries in the rows it measured, that the configurations reach the API of [api_server.py] and what is recorded
    when they do not. *)
From stdpp Require Import pretty.
From S2P Require Import Prelude PyVal Config ApiServer Metrics LoadTest Plots Experiments.

Section facts.
Context {W : Type} (env : exp_env W) (runner : ExperimentRunner).

(** ** Operations that leave the files alone *)

Definition keeps_files {A} (m : E W A) : Prop := ∀ s, es_files (m s).2 = es_files s.

Lemma keeps_ret {A} (a : A) : keeps_files (mret a).
Proof using. done. Qed.

Lemma keeps_raise {A} e : keeps_files (e_raise e : E W A).
Proof using. done. Qed.

Lemma keeps_world {A} (f : W → A * W) : keeps_files (e_world f).
Proof using. intros s. unfold e_world. by destruct (f _). Qed.

Lemma keeps_opt {A} e (o : option A) : keeps_files (e_opt e o : E W A).
Proof using. by destruct o. Qed.

Lemma keeps_bind {A B} (m : E W A) (k : A → E W B) :
  keeps_files m → (∀ a, keeps_files (k a)) → keeps_files (m ≫= k).
Proof using.
  intros Hm Hk s. unfold mbind, e_bind. specialize (Hm s).
  destruct (m s) as [[a|e] s1]; simpl in *; [|done]. by rewrite Hk.
Qed.

Lemma keeps_post_endpoints base eps : keeps_files (post_endpoints env base eps).
Proof using.
  induction eps as [|[endpoint payload] eps IH]; simpl; [apply keeps_ret|].
  apply keeps_bind; [apply keeps_world|]. intros [status|msg|e]; [case_match|..];
    auto using keeps_ret, keeps_raise.
Qed.

Lemma keeps_run_load verbose rate duration n : keeps_files (run_load env runner verbose rate duration n).
Proof using.
  unfold run_load. case_match; [|apply keeps_raise].
  apply keeps_bind; [apply keeps_world|]. intros [reads|e]; [apply keeps_ret|apply keeps_raise].
Qed.

Lemma keeps_metrics_of reads : keeps_files (metrics_of env reads).
Proof using. done. Qed.

Lemma keeps_single verbose c : keeps_files (run_single_experiment env runner verbose c).
Proof using.
  unfold run_single_experiment, apply_configuration_to_server.
  apply keeps_bind; [apply keeps_post_endpoints|intros _].
  apply keeps_bind; [apply keeps_run_load|intros reads].
  apply keeps_bind; [apply keeps_metrics_of|intros m]. apply keeps_opt.
Qed.

(** ** Rows *)

Definition experiment_schema : list (string * string) :=
  [("experiment_name", "str"); ("setting_name", "str"); ("request_rate", "int");
   ("batch_size", "int"); ("scheduler", "str"); ("failure_rate", "float");
   ("config_failure_rate", "float"); ("total_requests", "int"); ("completed_requests", "int");
   ("failed_requests", "int"); ("avg_latency", "float"); ("p50_latency", "float");
   ("p95_latency", "float"); ("p99_latency", "float"); ("throughput", "float");
   ("failure_rate_actual", "float"); ("timestamp", "str")]%string.

(** The line of a row whose entries are in the order of the fields. *)
Definition csv_line (r : row) : list pyval := dict_values r.

(** The row is complete, typed, and names the configuration [c]. *)
Definition row_of (c : ExperimentConfig) (r : row) : Prop :=
  schema_of r = experiment_schema ∧
  dict_lookup r "experiment_name" = Some (PyStr (ec_name c)) ∧
  dict_lookup r "request_rate" = Some (PyInt (ec_request_rate c)) ∧
  dict_lookup r "batch_size" = Some (PyInt (ec_batch_size c)) ∧
  dict_lookup r "scheduler" = Some (PyStr (ec_scheduler c)) ∧
  dict_lookup r "failure_rate" = Some (PyFloat (ec_failure_rate c)).

(** Metrics of the one type [get_metrics] has, seen through their entries. *)
Lemma metrics_entries m :
  schema_of m = metrics_schema →
  ∃ v1 v2 v3 v4 v5 v6 v7 v8 v9 v10,
    m = [("total_requests", v1); ("completed_requests", v2); ("failed_requests", v3);
         ("avg_latency", v4); ("p50_latency", v5); ("p95_latency", v6); ("p99_latency", v7);
         ("throughput", v8); ("failure_rate", v9); ("timestamp", v10)]%string ∧
    type_name <$> [v1; v2; v3; v4; v5; v6; v7; v8; v9; v10]
      = ["int"; "int"; "int"; "float"; "float"; "float"; "float"; "float"; "float"; "str"]%string.
Proof using.
  unfold schema_of, metrics_schema. intros H.
  do 10 (destruct m as [|[? ?] m]; [done|]; rewrite fmap_cons in H; injection H as ?? H).
  apply fmap_nil_inv in H. subst. cbn [fst snd] in *.
  do 10 eexists. split; [reflexivity|]. rewrite !fmap_cons, fmap_nil. congruence.
Qed.

Lemma experiment_row_of c np ts reads :
  ∃ r, experiment_row c (get_metrics np ts reads) = Some r ∧ row_of c r.
Proof using.
  destruct (metrics_entries _ (get_metrics_schema np ts reads))
    as (v1 & v2 & v3 & v4 & v5 & v6 & v7 & v8 & v9 & v10 & -> & Ht).
  eexists. split; [reflexivity|]. rewrite !fmap_cons in Ht. injection Ht as ??????????.
  split_and!; [|reflexivity..]. unfold schema_of. rewrite !fmap_cons, fmap_nil. cbn [fst snd].
  unfold experiment_schema. cbn [type_name]. congruence.
Qed.

Lemma row_of_writes c r : row_of c r → dict_writer_row experiment_fields r = Some (csv_line r).
Proof using.
  intros (Hs & _). unfold schema_of, experiment_schema in Hs.
  do 17 (destruct r as [|[? ?] r]; [done|]; rewrite fmap_cons in Hs; injection Hs as ?? Hs).
  apply fmap_nil_inv in Hs. subst. cbn [fst snd] in *. subst. vm_compute. reflexivity.
Qed.
(** A finished experiment's row names its configuration. *)
Lemma single_row verbose c s r s' :
  run_single_experiment env runner verbose c s = (inl r, s') → row_of c r.
Proof using.
  unfold run_single_experiment, mbind, e_bind. intros H.
  destruct (apply_configuration_to_server _ _ _ _) as [[[]|] s1]; [|done].
  destruct (run_load _ _ _ _ _ _ s1) as [[reads|] s2]; [|done]. unfold metrics_of in H.
  destruct (experiment_row_of c (ee_numpy env) (ee_now env (es_world s2)) reads) as (r' & Hr & Hok).
  simpl in H. rewrite Hr in H. unfold e_opt, mret, e_ret in H. by injection H as <- _.
Qed.

(** ** The CSV file of a batch *)

Definition csv_of (fieldnames : list string) (rows : list row) : option csv :=
  match rows with [] => None | _ => Some (csv_header fieldnames :: (csv_line <$> rows)) end.

(** Between two configurations: the file has the header once and then rows of results, in
    order; all of them if every write succeeded. *)
Record batch_inv (path : string) (fs : gmap string csv) (file_exists : bool) (results : list row)
    (s : exp_state W) : Prop := {
  bi_written : ∃ written, written `sublist_of` results ∧
    es_files s !! path = csv_of experiment_fields written ∧
    (file_exists = match written with [] => false | _ => true end) ∧
    ((∀ w, ee_csv env w = CsvOk) → written = results);
  bi_others : ∀ p, p ≠ path → es_files s !! p = fs !! p;
}.

Lemma csv_of_snoc written r :
  default [] (csv_of experiment_fields written)
    ++ ((if match written with [] => true | _ => false end then [csv_header experiment_fields] else [])
        ++ [csv_line r])
  = csv_header experiment_fields :: (csv_line <$> written ++ [r]).
Proof using. destruct written; [done|]. simpl. by rewrite fmap_app. Qed.

Lemma csv_save_inv path fs fe results r c s b s' :
  (∀ w n, ee_csv env w ≠ CsvCloseFails n) → row_of c r →
  batch_inv path fs fe results s →
  csv_save env path experiment_fields (negb fe) r s = (b, s') →
  batch_inv path fs (fe || b) (results ++ [r]) s'.
Proof using.
  intros Hc Hr [(written & Hsub & Hfile & Hfe & Hall) Hoth]. unfold csv_save.
  rewrite (row_of_writes _ _ Hr).
  destruct (ee_csv env (es_world s)) eqn:Ew; [| |by destruct (Hc _ _ Ew)]; intros [= <- <-].
  - constructor.
    + exists (written ++ [r]). simpl. split; [by apply sublist_app|].
      rewrite lookup_insert_eq, Hfile. rewrite orb_true_r. split; [|split].
      * rewrite Hfe. replace (negb match written with [] => false | _ => true end)
          with (match written with [] => true | _ => false end) by (by destruct written).
        rewrite csv_of_snoc. by destruct written.
      * by destruct written.
      * intros Hok. by rewrite (Hall Hok).
    + intros p Hp. simpl. rewrite lookup_insert_ne by done. by apply Hoth.
  - rewrite orb_false_r. constructor; [|done]. exists written. split_and!; try done.
    + by apply sublist_inserts_r.
    + intros Hok. by rewrite Hok in Ew.
Qed.

Lemma batch_loop_inv path verbose fs configs i fe results s o s' :
  (∀ w n, ee_csv env w ≠ CsvCloseFails n) → (i = 0%nat → fe = false) →
  batch_inv path fs fe results s →
  batch_loop env runner path verbose i configs fe results s = (o, s') →
  ∃ fe' done new, (o = inl (results ++ new) ∨ o = inr PyInterrupt) ∧
    done `sublist_of` configs ∧ Forall2 row_of done new ∧ batch_inv path fs fe' (results ++ new) s'.
Proof using.
  intros Hc. revert i fe results s.
  induction configs as [|c configs IH]; intros i fe results s Hi Hinv H; simpl in H.
  { simplify_eq. exists fe, [], []. rewrite app_nil_r. split_and!; auto. }
  pose proof (keeps_single verbose c s) as Hk.
  destruct (run_single_experiment env runner verbose c s) as [[r|[msg|]] s1] eqn:Es; simpl in Hk.
  all: assert (batch_inv path fs fe results s1) as Hinv1
    by (destruct Hinv; constructor; by rewrite Hk).
  - apply single_row in Es. replace (negb fe || Nat.eqb i 0) with (negb fe) in H.
    2:{ destruct i; [rewrite Hi by done; done|by rewrite orb_false_r]. }
    destruct (csv_save _ _ _ _ _ _) as [b s2] eqn:Ew.
    pose proof (csv_save_inv _ _ _ _ _ _ _ _ _ Hc Es Hinv1 Ew) as Hinv2.
    destruct (IH (S i) (fe || b) _ _ ltac:(done) Hinv2 H) as (fe' & cs & new & Ho & Hs & Hf & Hi').
    exists fe', (c :: cs), (r :: new). rewrite <- app_assoc in *. split_and!; auto. by constructor.
  - destruct (IH (S i) fe _ _ ltac:(done) Hinv1 H) as (fe' & cs & new & Ho & Hs & Hf & Hi').
    exists fe', cs, new. split_and!; auto. by constructor.
  - simplify_eq. exists fe, [], []. rewrite app_nil_r. split_and!; auto. apply sublist_nil_l.
Qed.

(** A batch keeps what it measured: whatever fails on the way, [run_experiments_batch]
    returns unless it is interrupted, with one row per experiment that succeeded, in the
    order of the configurations and naming its own; even when it is interrupted the CSV
    file has the header once and below it the rows whose write opened, in order, stale
    rows gone and other files untouched, and all the rows if every write succeeded. *)
Theorem batch_keeps_its_results configs csv_file verbose s o s' :
  (∀ w n, ee_csv env w ≠ CsvCloseFails n) →
  run_experiments_batch env runner configs csv_file verbose s = (o, s') →
  let path := path_join (er_results_dir runner) csv_file in
  ∃ done results written,
    (o = inl results ∨ o = inr PyInterrupt) ∧
    done `sublist_of` configs ∧ Forall2 row_of done results ∧
    written `sublist_of` results ∧ ((∀ w, ee_csv env w = CsvOk) → written = results) ∧
    es_files s' !! path = csv_of experiment_fields written ∧
    (∀ p, p ≠ path → es_files s' !! p = es_files s !! p).
Proof using.
  intros Hc H path. unfold run_experiments_batch in H. fold path in H.
  assert (batch_inv path (es_files s) false [] (mkExp (es_world s) (delete path (es_files s)))) as Hinv.
  { constructor; simpl.
    - exists []. split_and!; try done. apply lookup_delete_eq.
    - intros p Hp. by apply lookup_delete_ne. }
  destruct (batch_loop_inv _ _ _ _ _ _ _ _ _ _ Hc ltac:(done) Hinv H)
    as (fe & cs & new & Ho & Hs & Hf & [(written & Hsub & Hfile & _ & Hall) Hoth]).
  exists cs, new, written. split_and!; done.
Qed.
End facts.

(** ** The plots find their fields *)

Lemma typed_lookup (sch : list (string * string)) d k ty :
  schema_of d = sch → dict_lookup sch k = Some ty → ∃ v, dict_lookup d k = Some v ∧ type_name v = ty.
Proof.
  intros <-. unfold schema_of. induction d as [|[j v] d IH]; [done|].
  rewrite fmap_cons. simpl. case_decide; [|done]. intros [= <-]. eauto.
Qed.

Lemma row_item c r k ty :
  row_of c r → dict_lookup experiment_schema k = Some ty → is_Some (dict_lookup r k).
Proof. intros [Hs _] Hk. destruct (typed_lookup _ _ _ _ Hs Hk) as (v & -> & _). eauto. Qed.

Lemma row_number c r k ty :
  row_of c r → dict_lookup experiment_schema k = Some ty → ty = "int"%string ∨ ty = "float"%string →
  is_Some (number_item r k).
Proof.
  intros [Hs _] Hk Hty. destruct (typed_lookup _ _ _ _ Hs Hk) as (v & Hv & Ht).
  unfold number_item. rewrite Hv. cbn. destruct v; simpl in *; try (by destruct Hty; simplify_eq);
    eexists; reflexivity.
Qed.

Definition rows_of (results : list row) : Prop := ∀ r, r ∈ results → ∃ c, row_of c r.

Lemma rows_of_Forall2 cs results : Forall2 row_of cs results → rows_of results.
Proof.
  intros H r [i Hi]%list_elem_of_lookup_1. destruct (Forall2_lookup_r _ _ _ _ _ H Hi) as (c & _ & Hc). eauto.
Qed.

(** The plots of the experiments that run in batches. *)
Definition batch_plots (str : pyval → string) : list (list row → option series) :=
  [plot_load_vs_latency; plot_batch_size_vs_throughput str; plot_batch_size_vs_p99 str;
   plot_scheduler_comparison; plot_failure_rate_vs_p99; plot_failure_rate_vs_throughput;
   plot_latency_sweep; plot_latency_percentiles "request_rate"].

Lemma points_rows x y results :
  rows_of results → (∀ r, (∃ c, row_of c r) → is_Some (x r) ∧ is_Some (number_item r y)) →
  is_Some (points x y results).
Proof.
  intros Hrows H. destruct (points_total x y results) as (p & Hp & _); [|by exists p].
  intros r Hr. by apply H, Hrows.
Qed.

Lemma sweep_line_rows results s : rows_of results → is_Some (sweep_line results s).
Proof.
  intros H. destruct (scheduler_rows_total s results) as (rows & Hrows & _ & Hp).
  { intros r Hr. destruct (H r Hr) as [c Hc]. split; [destruct Hc as (_ & _ & _ & _ & ? & _); eauto|].
    eapply row_number; [exact Hc|reflexivity|by left]. }
  unfold sweep_line. rewrite Hrows. cbn [mbind option_bind]. destruct rows as [|r0 rows]; [by eexists|].
  destruct (mapM_total (λ r, a ← dict_lookup r "request_rate"; b ← dict_lookup r "p99_latency"; Some (a, b))
    (r0 :: rows)) as [p Hl]; [|rewrite Hl; by eexists].
  intros r Hr. rewrite Hp in Hr. apply list_elem_of_filter in Hr as [_ Hr]. destruct (H r Hr) as [c Hc].
  destruct (row_item c r "request_rate" _ Hc eq_refl) as [v ->].
  destruct (row_item c r "p99_latency" _ Hc eq_refl) as [w ->]. by eexists.
Qed.

Lemma rows_plot str results :
  rows_of results → Forall (λ plot, is_Some (plot results)) (batch_plots str).
Proof.
  intros H.
  assert (∀ k ty c r, row_of c r → dict_lookup experiment_schema k = Some ty →
    is_Some (item k r) ∧ is_Some (str_item str k r)) as Hitem.
  { intros k ty c r Hc Hk. destruct (row_item c r k ty Hc Hk) as [v Hv].
    unfold item, str_item. rewrite Hv. split; by eexists. }
  assert (∀ x y, (∀ r, (∃ c, row_of c r) → is_Some (x r) ∧ is_Some (number_item r y)) →
    is_Some (p ← points x y results; Some [(EmptyString, p)])) as Hpoints.
  { intros x y Hxy. destruct (points_rows x y results H Hxy) as [p ->]. by eexists. }
  repeat constructor.
  1-6: apply Hpoints; intros r [c Hc]; split;
    [first [by eapply Hitem|by eexists]|eapply row_number; [exact Hc|reflexivity|by right]].
  - destruct (mapM_total (sweep_line results) sweep_schedulers) as [l Hl].
    { intros s _. by apply sweep_line_rows. }
    unfold plot_latency_sweep. rewrite Hl. by eexists.
  - unfold plot_latency_percentiles.
    assert (∀ y ty, dict_lookup experiment_schema y = Some ty →
      is_Some (mapM (λ r, a ← dict_lookup r "request_rate"; b ← dict_lookup r y; Some (a, b)) results)) as Hline.
    { intros y ty Hy. apply mapM_total. intros r Hr. destruct (H r Hr) as [c Hc].
      destruct (row_item c r "request_rate" _ Hc eq_refl) as [v ->].
      destruct (row_item c r y _ Hc Hy) as [w ->]. by eexists. }
    destruct (Hline "p50_latency" _ eq_refl) as [a ->]. destruct (Hline "p95_latency" _ eq_refl) as [b ->].
    destruct (Hline "p99_latency" _ eq_refl) as [d ->]. by eexists.
Qed.

(** ** From a batch to its figures *)

Section figures.
Context {W : Type} (env : exp_env W) (runner : ExperimentRunner).

(** The entries of a row that are copied from the metrics under their own name. *)
Definition measured_fields : list string :=
  ["total_requests"; "completed_requests"; "failed_requests"; "avg_latency"; "p50_latency";
   "p95_latency"; "p99_latency"; "throughput"; "timestamp"]%string.

(** The row [r] describes a load test of [c] with metrics [m]. *)
Definition describes (c : ExperimentConfig) (m : list (string * pyval)) (r : row) : Prop :=
  row_of c r ∧ (∀ k, k ∈ measured_fields → dict_lookup r k = dict_lookup m k) ∧
  dict_lookup r "failure_rate_actual" = dict_lookup m "failure_rate".

(** A row of the batch over [configs]: metrics that one of its load tests computed. *)
Definition of_batch (configs : list ExperimentConfig) (r : row) : Prop :=
  ∃ c w reads, c ∈ configs ∧ describes c (get_metrics (ee_numpy env) (ee_now env w) reads) r.

Lemma experiment_row_describes c np ts reads :
  ∃ r, experiment_row c (get_metrics np ts reads) = Some r ∧ describes c (get_metrics np ts reads) r.
Proof using.
  destruct (experiment_row_of c np ts reads) as (r & Hr & Hok). exists r. split; [done|].
  split; [done|]. revert Hr. clear Hok.
  destruct (metrics_entries _ (get_metrics_schema np ts reads))
    as (v1 & v2 & v3 & v4 & v5 & v6 & v7 & v8 & v9 & v10 & -> & _). intros [= <-].
  split; [|reflexivity]. apply Forall_forall. repeat constructor.
Qed.

Lemma single_of_batch verbose c s r s' configs :
  c ∈ configs → run_single_experiment env runner verbose c s = (inl r, s') → of_batch configs r.
Proof using.
  unfold run_single_experiment, mbind, e_bind. intros Hc H.
  destruct (apply_configuration_to_server _ _ _ _) as [[[]|] s1]; [|done].
  destruct (run_load _ _ _ _ _ _ s1) as [[reads|] s2]; [|done]. unfold metrics_of in H.
  destruct (experiment_row_describes c (ee_numpy env) (ee_now env (es_world s2)) reads) as (r' & Hr & Hok).
  simpl in H. rewrite Hr in H. unfold e_opt, mret, e_ret in H. injection H as <- _.
  by exists c, (es_world s2), reads.
Qed.

Lemma batch_loop_rows path verbose configs all i fe results s results' s' :
  configs ⊆ all → Forall (of_batch all) results →
  batch_loop env runner path verbose i configs fe results s = (inl results', s') →
  Forall (of_batch all) results'.
Proof using.
  revert i fe results s. induction configs as [|c configs IH]; intros i fe results s Hc Hf H; simpl in H.
  { by injection H as <- _. }
  destruct (run_single_experiment env runner verbose c s) as [[r|[msg|]] s1] eqn:Es; [| |done].
  - destruct (csv_save _ _ _ _ _ _) as [b s2]. eapply IH; [|..|exact H]; [set_solver|].
    apply Forall_app_2; [done|]. constructor; [|done]. eapply single_of_batch; [|exact Es]. set_solver.
  - eapply IH; [|exact Hf|exact H]. set_solver.
Qed.

Lemma draw_all_returns plots results s :
  (∀ plot name, (plot, name) ∈ plots → is_Some (plot results)) →
  (∀ name points w, (ee_draw env name points w).1 = None) →
  ∃ s', draw_all env runner plots results s = (inl tt, s').
Proof using.
  intros Hp Hd. revert s. induction plots as [|[plot name] plots IH]; intros s; [by eexists|].
  destruct (Hp plot name ltac:(set_solver)) as [points Hpts].
  cbn [draw_all]. unfold draw. rewrite Hpts. unfold e_opt, mbind, e_bind, mret, e_ret, e_world.
  specialize (Hd (path_join (er_plots_dir runner) name) points (es_world s)).
  destruct (ee_draw _ _ _ _) as [failed w]. cbn in Hd. subst failed. apply IH. set_solver.
Qed.

(** C36. The figures of a batch are drawn from what it measured: every row that
    [run_experiments_batch] returns carries the settings of one of the configurations it
    was given and, field by field, the metrics of a load test; each of the plots of the
    batch experiments finds its entries in these rows, with the types it formats and
    compares; so an experiment whose batch returns and whose figures can be drawn returns
    its rows, and no missing entry ends it. *)
Theorem batch_plots_find_their_fields configs csv_file s results s' :
  run_experiments_batch env runner configs csv_file false s = (inl results, s') →
  (∀ r, r ∈ results → ∃ c w reads, c ∈ configs ∧
     describes c (get_metrics (ee_numpy env) (ee_now env w) reads) r) ∧
  Forall (λ plot, is_Some (plot results)) (batch_plots (ee_str env)) ∧
  (∀ plots, (∀ plot name, (plot, name) ∈ plots → plot ∈ batch_plots (ee_str env)) →
     (∀ name points w, (ee_draw env name points w).1 = None) →
     ∃ s2, batch_experiment env runner configs csv_file plots s = (inl results, s2)).
Proof using.
  intros H. assert (Forall (of_batch configs) results) as Hrows.
  { eapply batch_loop_rows; [..|exact H]; [done|constructor]. }
  rewrite Forall_forall in Hrows.
  assert (Forall (λ plot, is_Some (plot results)) (batch_plots (ee_str env))) as Hplots.
  { apply rows_plot. intros r Hr. destruct (Hrows r Hr) as (c & _ & _ & _ & Hd & _). by exists c. }
  split_and!; [exact Hrows|exact Hplots|]. intros plots Hin Hd. rewrite Forall_forall in Hplots.
  unfold batch_experiment, mbind at 1, e_bind at 1. rewrite H.
  destruct results as [|r rs]; [by eexists|].
  destruct (draw_all_returns plots (r :: rs) s') as [s2 H2]; [naive_solver|done|].
  exists s2. unfold mbind, e_bind. by rewrite H2.
Qed.
End figures.

(** ** The configuration reaches the API *)

(** The configuration endpoints of [api_server.py] behind [base]: the routes, the parsing
    of the JSON body, the handlers of [ApiServer]. *)
Definition api_post (p : api_pool) (base url : string) (payload : pyval) (c : SystemConfig)
    : post_reply * SystemConfig :=
  let answer (rc : api_result * SystemConfig) := (PostReply (result_status rc.1), rc.2) in
  if String.eqb url (base +:+ "/config/batch_size") then
    match payload with
    | PyDict [(k, PyInt n)] =>
        if String.eqb k "batch_size" then answer (set_batch_size n c) else (PostReply 422, c)
    | _ => (PostReply 422, c)
    end
  else if String.eqb url (base +:+ "/config/scheduler") then
    match payload with
    | PyDict [(k, PyStr s)] =>
        if String.eqb k "scheduler" then answer (set_scheduler s c) else (PostReply 422, c)
    | _ => (PostReply 422, c)
    end
  else if String.eqb url (base +:+ "/config/failure_rate") then
    match payload with
    | PyDict [(k, PyFloat x)] =>
        if String.eqb k "failure_rate" then answer (set_failure_rate p x c) else (PostReply 422, c)
    | _ => (PostReply 422, c)
    end
  else (PostReply 404, c).

Lemma before_last_suffix base : before_last "/predict" (base +:+ "/predict") = Some base.
Proof. induction base as [|c base IH]; [reflexivity|]. cbn [String.app before_last]. simpl. by rewrite IH. Qed.

(** What the API accepts, and what [LoadTester] accepts. *)
Definition valid_config (c : ExperimentConfig) : bool :=
  (1 <=? ec_batch_size c) && (ec_batch_size c <=? 512) &&
  bool_decide (ec_scheduler c ∈ ["fifo"; "batching"; "latency_aware"]%string) &&
  (0 <=?q ec_failure_rate c) && (ec_failure_rate c <=?q 1) &&
  (0 <? ec_request_rate c) && (0 <? ec_duration c) && (0 <? ec_num_threads c).

(** The server's configuration with the experiment's settings. *)
Definition configured (c : ExperimentConfig) (sc : SystemConfig) : SystemConfig :=
  (config_update [KwBatchSize (ec_batch_size c); KwStrategy (ec_scheduler c);
                  KwFailureRate (ec_failure_rate c)] sc).1.

Section server.
Context {V : Type} (env : exp_env (SystemConfig * V)) (runner : ExperimentRunner).
Context (base : string) (p : api_pool).
Context (Hurl : er_api_url runner = (base +:+ "/predict")%string).
Context (Hpost : ∀ url payload w,
  ee_post env url payload w =
    let '(r, sc) := api_post p base url payload w.1 in (r, (sc, w.2))).

Lemma String_eqb_app_l s a b : String.eqb (s +:+ a) (s +:+ b) = String.eqb a b.
Proof using. induction s as [|c s IH]; [done|]. simpl. by rewrite Ascii.eqb_refl. Qed.

Lemma apply_configuration_step s c :
  apply_configuration_to_server env runner c s =
  post_endpoints env base (config_endpoints c) s.
Proof using Hurl.
  unfold apply_configuration_to_server, base_url. by rewrite Hurl, before_last_suffix.
Qed.

(** The three posts, one after the other; the first that is refused ends them. *)
Lemma apply_configuration_posts c sc v fs :
  apply_configuration_to_server env runner c (mkExp (sc, v) fs) =
  (inl tt, mkExp (
    let '(r1, sc1) := set_batch_size (ec_batch_size c) sc in
    if 400 <=? result_status r1 then (sc1, v) else
    let '(r2, sc2) := set_scheduler (ec_scheduler c) sc1 in
    if 400 <=? result_status r2 then (sc2, v) else
    ((set_failure_rate p (ec_failure_rate c) sc2).2, v)) fs).
Proof using Hurl Hpost.
  rewrite apply_configuration_step. unfold post_endpoints, config_endpoints.
  unfold mbind, e_bind, e_world, mret, e_ret. cbn [es_world es_files].
  rewrite Hpost. unfold api_post. rewrite !String_eqb_app_l. simpl String.eqb. cbn iota beta.
  unfold set_batch_size. destruct ((1 <=? _) && _); [|reflexivity].
  destruct sc as [bs nw lat st fr thr mq ho po]. cbn.
  rewrite Hpost. unfold api_post. rewrite !String_eqb_app_l. simpl String.eqb. cbn iota beta.
  unfold set_scheduler. case_bool_decide; [|reflexivity]. cbn.
  rewrite Hpost. unfold api_post. rewrite !String_eqb_app_l. simpl String.eqb. cbn iota beta.
  unfold set_failure_rate. destruct ((0 <=?q _) && _); [|reflexivity]. destruct p; reflexivity.
Qed.

(** [run_single_experiment] after its configuration was posted. *)
Definition measure (verbose : bool) (c : ExperimentConfig) : E (SystemConfig * V) row :=
  reads ← run_load env runner verbose (inject_Z (ec_request_rate c)) (ec_duration c) (ec_num_threads c);
  m ← metrics_of env reads;
  e_opt (PyExc "KeyError") (experiment_row c m).

Lemma run_single_measures verbose c sc v fs :
  run_single_experiment env runner verbose c (mkExp (sc, v) fs) =
  measure verbose c (apply_configuration_to_server env runner c (mkExp (sc, v) fs)).2.
Proof using Hurl Hpost.
  unfold run_single_experiment, mbind at 1, e_bind at 1.
  by rewrite apply_configuration_posts.
Qed.

(** An experiment measures the server it describes: when its settings are within the
    API's ranges the three posts leave the server configured with exactly them, on either
    kind of pool, before the load test starts, and the row that is recorded names them. *)
Theorem experiment_measures_its_configuration verbose c sc v fs :
  valid_config c = true →
  run_single_experiment env runner verbose c (mkExp (sc, v) fs) =
    measure verbose c (mkExp (configured c sc, v) fs) ∧
  batch_size (configured c sc) = ec_batch_size c ∧
  scheduler_strategy (configured c sc) = ec_scheduler c ∧
  failure_rate (configured c sc) = ec_failure_rate c ∧
  ∀ r s', measure verbose c (mkExp (configured c sc, v) fs) = (inl r, s') → row_of c r.
Proof using Hurl Hpost.
  intros Hv. unfold valid_config in Hv. rewrite !andb_true_iff in Hv.
  destruct Hv as [[[[[[[H1 H2] H3] H4] H5] H6] H7] H8]. apply bool_decide_eq_true in H3.
  assert (run_single_experiment env runner verbose c (mkExp (sc, v) fs) =
    measure verbose c (mkExp (configured c sc, v) fs)) as Heq.
  { rewrite run_single_measures, apply_configuration_posts. f_equal. destruct sc. unfold set_batch_size.
    rewrite H1, H2. cbn. unfold set_scheduler. rewrite bool_decide_true by done. cbn.
    unfold set_failure_rate. rewrite H4, H5. by destruct p. }
  split_and!; [done|by destruct sc..|]. intros r s' Hr. rewrite <- Heq in Hr. by eapply single_row.
Qed.

(** A refused configuration goes unnoticed: when the API refuses the batch size, the
    method only warns; the load test measures the server as it was before, and the row
    records the refused settings all the same. *)
Theorem refused_configuration_is_recorded verbose c sc v fs r s' :
  (ec_batch_size c < 1 ∨ 512 < ec_batch_size c) →
  run_single_experiment env runner verbose c (mkExp (sc, v) fs) = (inl r, s') →
  row_of c r ∧ measure verbose c (mkExp (sc, v) fs) = (inl r, s').
Proof using Hurl Hpost.
  intros Hbad H. split; [by eapply single_row|].
  rewrite run_single_measures, apply_configuration_posts in H.
  unfold set_batch_size in H.
  destruct ((1 <=? ec_batch_size c) && (ec_batch_size c <=? 512)) eqn:E; [zbool; lia|]. exact H.
Qed.
End server.

(** The experiments as shipped ask for nothing the API or the load generator refuses. *)
Definition shipped_configs : list ExperimentConfig :=
  load_configs None 4 "fifo" 20 64 ++ batch_configs 200 None "batching" 20 16 ++
  scheduler_configs 150 8 None 20 16 ++ failure_configs 100 4 "latency_aware" None 10 4 ++
  sweep_configs None 4 20 16.

Lemma shipped_configs_valid : Forall (λ c, valid_config c = true) shipped_configs.
Proof. apply Forall_forall. intros c Hc. unfold shipped_configs in Hc. revert c Hc. apply Forall_forall.
  repeat constructor. Qed.

(** The sweep is the full grid, each point once. *)
Lemma sweep_configs_grid rates bs d n c :
  c ∈ sweep_configs rates bs d n ↔
  ∃ sched rate, sched ∈ sweep_schedulers ∧ rate ∈ default [100; 150; 200; 250; 300] rates ∧
    c = mkExpConfig "latency_sweep" rate bs sched 0 d n.
Proof.
  unfold sweep_configs. rewrite list_elem_of_bind. split.
  - intros (sched & Hc & Hs). apply list_elem_of_fmap in Hc as (rate & -> & Hr). eauto 6.
  - intros (sched & rate & Hs & Hr & ->). exists sched. split; [|done].
    apply list_elem_of_fmap. eauto.
Qed.

(** ** Bursty traffic *)

Section bursty.
Context {W : Type} (env : exp_env W) (runner : ExperimentRunner).

Definition bursty_row_of (scheduler : string) (r : row) : Prop :=
  dict_lookup r "scheduler" = Some (PyStr scheduler) ∧
  dict_writer_row bursty_fields r = Some (csv_line r).

Lemma bursty_row_ok scheduler n b np ts reads :
  ∃ r, bursty_row scheduler n b (get_metrics np ts reads) = Some r ∧ bursty_row_of scheduler r.
Proof using.
  destruct (metrics_entries _ (get_metrics_schema np ts reads))
    as (v1 & v2 & v3 & v4 & v5 & v6 & v7 & v8 & v9 & v10 & -> & Ht).
  eexists. split; [reflexivity|]. split; [reflexivity|]. vm_compute. reflexivity.
Qed.

Lemma keeps_extend_logs logs rate d n : keeps_files (extend_logs env runner logs rate d n).
Proof using. apply keeps_bind; [apply keeps_run_load|intros reads; apply keeps_ret]. Qed.

Lemma keeps_bursty_cycles cycles n b nd bd th logs :
  keeps_files (bursty_cycles env runner cycles n b nd bd th logs).
Proof using.
  revert logs. induction cycles as [|k IH]; intros logs; simpl; [apply keeps_ret|].
  apply keeps_bind; [apply keeps_extend_logs|intros l1].
  apply keeps_bind; [apply keeps_extend_logs|intros l2]. apply IH.
Qed.

Lemma keeps_out {A} (m : E W A) s r s' : keeps_files m → m s = (r, s') → es_files s' = es_files s.
Proof using. intros Hk H. specialize (Hk s). by rewrite H in Hk. Qed.

(** What [inl] of a sequence of two operations comes from. *)
Lemma e_bind_inl {A B} (m : E W A) (k : A → E W B) s b s' :
  (m ≫= k) s = (inl b, s') → ∃ a s1, m s = (inl a, s1) ∧ k a s1 = (inl b, s').
Proof using. unfold mbind, e_bind. destruct (m s) as [[a|e] s1]; [eauto|done]. Qed.

Lemma csv_write_rows_inl path rows s u s' :
  csv_write_rows env path rows s = (inl u, s') →
  ∃ l, rows = Some l ∧ s' = csv_append path l s.
Proof using. unfold csv_write_rows. destruct rows as [l|]; [|done]. destruct (ee_csv _ _); naive_solver. Qed.

Lemma bursty_loop_ok path n b nd bd cycles bs th schedulers results s results' s' :
  (results = [] ↔ ∃ rest, schedulers = "fifo"%string :: rest) → "fifo"%string ∉ drop 1 schedulers →
  es_files s !! path = csv_of bursty_fields results →
  bursty_loop env runner path n b nd bd cycles bs th schedulers results s = (inl results', s') →
  schedulers ≠ [] →
  ∃ new, results' = results ++ new ∧ Forall2 bursty_row_of schedulers new ∧
    es_files s' !! path = csv_of bursty_fields results'.
Proof using.
  revert results s. induction schedulers as [|sched rest IH]; intros results s Hh Hn Hf H Hne; [done|].
  cbn [bursty_loop] in H. simpl in Hn.
  apply e_bind_inl in H as (u & s1 & H1%keeps_out & H); [|apply keeps_post_endpoints].
  apply e_bind_inl in H as (logs & s2 & H2%keeps_out & H); [|apply keeps_bursty_cycles].
  apply e_bind_inl in H as (m & s3 & H3 & H). unfold metrics_of in H3. injection H3 as <- <-.
  apply e_bind_inl in H as (r & s4 & H4 & H).
  destruct (bursty_row_ok sched n b (ee_numpy env) (ee_now env (es_world s2)) (steady logs)) as (r' & Hr & Hok).
  rewrite Hr in H4. injection H4 as <- <-.
  apply e_bind_inl in H as (u' & s5 & H5 & H).
  apply csv_write_rows_inl in H5 as (l & Hl & ->). rewrite (proj2 Hok) in Hl. cbn in Hl. injection Hl as <-.
  assert (es_files (csv_append path ((if bool_decide (sched = "fifo"%string) then [csv_header bursty_fields] else [])
     ++ [csv_line r']) s2) !! path = csv_of bursty_fields (results ++ [r'])) as Hf'.
  { simpl. rewrite lookup_insert_eq, H2, H1, Hf. destruct results as [|r0 results].
    - destruct (proj1 Hh eq_refl) as [? [= -> _]]. rewrite bool_decide_true by done. done.
    - rewrite bool_decide_false; [simpl; by rewrite fmap_app|].
      intros Hs. assert (r0 :: results = []) by (apply Hh; rewrite Hs; eauto). done. }
  destruct rest as [|sched2 rest].
  { simpl in H. injection H as <- <-. exists [r']. split_and!; [done|constructor; [done|constructor]|exact Hf']. }
  assert (results ++ [r'] = [] ↔ ∃ rest', sched2 :: rest = "fifo"%string :: rest') as Ha.
  { split; [by destruct results|]. intros [rest' [= -> _]]. set_solver. }
  destruct (IH _ _ Ha ltac:(set_solver) Hf' H ltac:(done)) as (new & -> & Hall & Hfile).
  exists (r' :: new). rewrite <- app_assoc in *. split_and!; [done|by constructor|done].
Qed.

Lemma keeps_draw plot name results : keeps_files (draw env runner plot name results).
Proof using.
  apply keeps_bind; [apply keeps_opt|intros pts].
  apply keeps_bind; [apply keeps_world|intros [e|]]; [apply keeps_raise|apply keeps_ret].
Qed.

(** The bursty comparison is all or nothing: when [experiment_bursty] returns it has
    one row for each of the three schedulers, in order, and its file is the header once
    followed by exactly these rows, whatever the file held before. *)
Theorem bursty_is_complete n b nd bd cycles bs th s results s' :
  experiment_bursty env runner n b nd bd cycles bs th s = (inl results, s') →
  Forall2 bursty_row_of sweep_schedulers results ∧
  es_files s' !! path_join (er_results_dir runner) "bursty.csv" = csv_of bursty_fields results.
Proof using.
  unfold experiment_bursty. intros H.
  apply e_bind_inl in H as (path & s1 & H1 & H). unfold remove_csv in H1. injection H1 as <- <-.
  apply e_bind_inl in H as (rs & s2 & H2 & H).
  apply bursty_loop_ok in H2 as (new & -> & Hall & Hfile);
    [|by split; [eexists|]|set_solver|apply lookup_delete_eq|done].
  apply e_bind_inl in H as (u & s3 & H3 & H). injection H as <- <-. simpl in *. split; [done|].
  rewrite <- Hfile. f_equal. eapply keeps_out; [|exact H3].
  destruct new; [apply keeps_ret|apply keeps_draw].
Qed.
End bursty.

(** ** A run against the API with a remote pool; the load test at 100 requests per second
    does not reach the server. *)
Definition sample_exp_env : exp_env (SystemConfig * unit) :=
  mkExpEnv
    (λ url payload w, let '(r, sc) := api_post (PoolGrpc true) "http://h" url payload w.1 in (r, (sc, w.2)))
    (λ _ tester w, (if Qeq_bool (lt_request_rate tester) 100 then inr (PyExc "unreachable")
                    else inl (steady sample_logs), w))
    (λ _, "t"%string) None (λ _, CsvOk) (λ _, "label"%string) (λ _ _ w, (None, w)) (λ _ w, (None, w)).

Definition sample_runner : ExperimentRunner := mkRunner "http://h/predict" "results" "plots".

Definition sample_config (rate batch : Z) : ExperimentConfig :=
  mkExpConfig "load_vs_latency" rate batch "batching" (1#10) 20 4.

Definition sample_exp_state : exp_state (SystemConfig * unit) :=
  mkExp (default_config, tt) {[ "results/load.csv"%string := [[PyStr "stale"]] ]}.

Definition sample_batch : (list row + exn) * exp_state (SystemConfig * unit) :=
  run_experiments_batch sample_exp_env sample_runner [sample_config 50 8; sample_config 100 8; sample_config 200 16]
    "load.csv" false sample_exp_state.

Definition outcome_of {A} (d : A) (o : A + exn) : A := match o with inl a => a | inr _ => d end.

Lemma outcome_inl {A B} (a a' : A) (e : B) : (inl a : A + B) = inl a' ∨ (inl a : A + B) = inr e → a' = a.
Proof. intros [H|H]; congruence. Qed.

Definition sample_results : list row := outcome_of [] sample_batch.1.

Lemma batch_keeps_its_results_witness :
  (∀ w n, ee_csv sample_exp_env w ≠ CsvCloseFails n) ∧
  sample_batch.1 = inl sample_results ∧ length sample_results = 2%nat ∧
  es_files sample_batch.2 !! path_join (er_results_dir sample_runner) "load.csv"
    = csv_of experiment_fields sample_results.
Proof.
  assert (sample_batch = (sample_batch.1, sample_batch.2)) as H by (by destruct sample_batch).
  assert (sample_batch.1 = inl sample_results) as Hr by (vm_compute; reflexivity).
  split; [done|]. split; [exact Hr|]. split; [vm_compute; reflexivity|].
  destruct (batch_keeps_its_results sample_exp_env sample_runner _ _ _ _ _ _ ltac:(done) H)
    as (done & results & written & Ho & _ & _ & _ & Hw & Hf & _).
  rewrite (Hw (λ _, eq_refl)) in Hf. rewrite Hr in Ho.
  apply outcome_inl in Ho. rewrite Ho in Hf. exact Hf.
Defined.

Definition sample_load_configs : list ExperimentConfig :=
  load_configs (Some [50; 100; 200]) 8 "batching" 20 4.

Definition sample_load_batch : (list row + exn) * exp_state (SystemConfig * unit) :=
  run_experiments_batch sample_exp_env sample_runner sample_load_configs "load_vs_latency.csv" false
    sample_exp_state.

Definition sample_load_results : list row := outcome_of [] sample_load_batch.1.

Definition sample_single (batch : Z) : (row + exn) * exp_state (SystemConfig * unit) :=
  run_single_experiment sample_exp_env sample_runner false (sample_config 50 batch) sample_exp_state.
Definition sample_row (batch : Z) : row := outcome_of [] (sample_single batch).1.

Lemma sample_load_run : sample_load_batch.1 = inl sample_load_results.
Proof. vm_compute. reflexivity. Qed.

(** The figures of the batch of three configurations, one of which fails. *)
Lemma batch_plots_find_their_fields_witness :
  (∃ s2, experiment_load_vs_latency sample_exp_env sample_runner (Some [50; 100; 200]) 8 "batching" 20 4
           sample_exp_state = (inl sample_load_results, s2)) ∧
  length sample_load_results = 2%nat ∧
  Forall (λ plot, is_Some (plot sample_load_results)) (batch_plots (λ _, "label"%string)).
Proof.
  assert (run_experiments_batch sample_exp_env sample_runner sample_load_configs "load_vs_latency.csv" false
    sample_exp_state = (inl sample_load_results, sample_load_batch.2)) as H.
  { rewrite <- sample_load_run. apply (surjective_pairing sample_load_batch). }
  destruct (batch_plots_find_their_fields sample_exp_env sample_runner sample_load_configs
    "load_vs_latency.csv" sample_exp_state _ _ H) as (_ & Hplots & Hrun).
  split; [|split; [vm_compute; reflexivity|exact Hplots]].
  apply Hrun; [|done]. intros plot name Hin. apply list_elem_of_singleton in Hin.
  apply (f_equal fst) in Hin. simpl in Hin. subst plot. by left.
Defined.

Lemma experiment_measures_its_configuration_witness :
  valid_config (sample_config 50 8) = true ∧
  sample_single 8 =
    measure sample_exp_env sample_runner false (sample_config 50 8)
      (mkExp (configured (sample_config 50 8) default_config, tt) (es_files sample_exp_state)).
Proof.
  assert (valid_config (sample_config 50 8) = true) as Hv by reflexivity. split; [exact Hv|].
  apply (experiment_measures_its_configuration sample_exp_env sample_runner "http://h" (PoolGrpc true)
    eq_refl (λ _ _ _, eq_refl) false (sample_config 50 8) default_config tt _ Hv).
Defined.

(** A batch of 1000 is refused; the row says 1000, the server batches by 4. *)
Lemma refused_configuration_is_recorded_witness :
  sample_single 1000 = (inl (sample_row 1000), (sample_single 1000).2) ∧
  row_of (sample_config 50 1000) (sample_row 1000) ∧
  dict_lookup (sample_row 1000) "batch_size" = Some (PyInt 1000) ∧
  batch_size (es_world (sample_single 1000).2).1 = 4.
Proof.
  assert (sample_single 1000 = (inl (sample_row 1000), (sample_single 1000).2)) as H
    by (vm_compute; reflexivity).
  split; [exact H|]. split; [|split; vm_compute; reflexivity].
  apply (refused_configuration_is_recorded sample_exp_env sample_runner "http://h" (PoolGrpc true)
    eq_refl (λ _ _ _, eq_refl) false (sample_config 50 1000) default_config tt
    (es_files sample_exp_state) _ (sample_single 1000).2); [right; reflexivity|exact H].
Defined.

Definition sample_bursty : (list row + exn) * exp_state (SystemConfig * unit) :=
  experiment_bursty sample_exp_env sample_runner 50 300 5 2 3 4 16 sample_exp_state.

Lemma bursty_is_complete_witness :
  sample_bursty = (inl (outcome_of [] sample_bursty.1), sample_bursty.2) ∧
  Forall2 bursty_row_of sweep_schedulers (outcome_of [] sample_bursty.1).
Proof.
  assert (sample_bursty = (inl (outcome_of [] sample_bursty.1), sample_bursty.2)) as H
    by (vm_compute; reflexivity).
  split; [exact H|].
  apply (bursty_is_complete sample_exp_env sample_runner 50 300 5 2 3 4 16 sample_exp_state _ _ H).
Defined.
