(* ===== verification/Sustained.v ===== *)
(** The sustained load generator, [src/experiments/sustained_load_test.py]: arrivals paced
    at a fixed rate whatever the responses do, with a bounded number of requests in
    flight.  The requests run in threads of their own; between two turns of the pacing
    loop any of them may record its result or give back its slot. *)
From stdpp Require Import pretty.
From S2P Require Import Prelude PyVal Metrics DeployChecks.

(** ** [percentile] *)

(** [sorted(values)[ceil(n * fraction) - 1]], rounded; a negative index counts from the end. *)
Definition stage_percentile (values : list Q) (fraction : Q) : option Q :=
  match values with
  | [] => None
  | _ =>
      let s := py_sorted values in
      let i := Qceiling (inject_Z (py_len values) * fraction) - 1 in
      Some (py_round (q_at s (if i <? 0 then i + py_len values else i)) 100)
  end.

(** ** [send] *)

Inductive send_outcome := SendResponse (status : Z) | SendHttpError (code : Z) | SendRaised.

Definition send_status (o : send_outcome) : string :=
  match o with
  | SendResponse status => pretty status
  | SendHttpError code => pretty code
  | SendRaised => "client_error"
  end.

(** [sg_slots] is the semaphore, [sg_running] counts the requests sent and not recorded,
    [sg_recorded] those recorded that still hold their slot; [sg_sends] has the index and
    the clock of every request sent, in order. *)
Record stage := mkStage {
  sg_slots : Z;
  sg_running : nat;
  sg_recorded : nat;
  sg_results : list (string * Q);
  sg_started : Z;
  sg_skipped : Z;
  sg_sends : list (Z * Q);
}.

(** The end of [send]: the result under the lock, then the slot. *)
Inductive send_event := SeRecord (o : send_outcome) (elapsed : Q) | SeRelease.

Section stage.
Context (rate duration : Q) (concurrency : Z).

Definition stage_start : stage := mkStage concurrency 0 0 [] 0 0 [].

Definition send_step (e : send_event) (s : stage) : option stage :=
  match e with
  | SeRecord o elapsed =>
      match sg_running s with
      | O => None
      | S n => Some (mkStage (sg_slots s) n (S (sg_recorded s)) (sg_results s ++ [(send_status o, elapsed)])
                       (sg_started s) (sg_skipped s) (sg_sends s))
      end
  | SeRelease =>
      match sg_recorded s with
      | O => None
      | S n =>
          (* a bounded semaphore raises ValueError above its initial value *)
          if concurrency <=? sg_slots s then None
          else Some (mkStage (sg_slots s + 1) (sg_running s) n (sg_results s)
                       (sg_started s) (sg_skipped s) (sg_sends s))
      end
  end.

Fixpoint send_steps (es : list send_event) (s : stage) : option stage :=
  match es with
  | [] => Some s
  | e :: es' => s' ← send_step e s; send_steps es' s'
  end.

(** ** The pacing loop of [run_stage] *)

(** One turn: what the requests in flight do before it, the clock before the sleep and
    after it. *)
Record turn_obs := mkTurnObs { to_events : list send_event; to_before : Q; to_now : Q }.

Definition due_at (start : Q) (index : Z) : Q := (start + inject_Z index / rate)%Q.

(** The clock moves on, and the sleep lasts until the request is due. *)
Definition slept (start : Q) (index : Z) (o : turn_obs) : Prop :=
  (to_before o <= to_now o)%Q ∧ ((to_before o < due_at start index)%Q → (due_at start index <= to_now o)%Q).

Definition skip (s : stage) : stage :=
  mkStage (sg_slots s) (sg_running s) (sg_recorded s) (sg_results s) (sg_started s) (sg_skipped s + 1) (sg_sends s).

Definition submit (index : Z) (now : Q) (s : stage) : stage :=
  mkStage (sg_slots s - 1) (S (sg_running s)) (sg_recorded s) (sg_results s) (sg_started s + 1) (sg_skipped s)
    (sg_sends s ++ [(index, now)]).

Definition stage_turn (start : Q) (index : Z) (o : turn_obs) (s : stage) : option stage :=
  s ← send_steps (to_events o) s;
  let now := to_now o in
  if (start + duration <=?q now)%Q || (1 / rate <=?q now - due_at start index)%Q then Some (skip s)
  else if sg_slots s <=? 0 then Some (skip s)
  else Some (submit index now s).

Fixpoint stage_loop (start : Q) (index : Z) (n : nat) (obs : Z → turn_obs) (s : stage) : option stage :=
  match n with
  | O => Some s
  | S n' => s ← stage_turn start index (obs index) s; stage_loop start (index + 1) n' obs s
  end.

Definition planned : Z := Qceiling (rate * duration).

(** ** The report *)

(** [Counter]. *)
Definition counter (l : list string) : list (string * Z) :=
  foldl (λ d k, dict_set d k (dict_get d k 0 + 1)) [] l.

Definition counted (k : string) (l : list string) : Z := py_len (filter (λ x, x = k) l).

Definition percent_of (part whole : Z) : option Q :=
  if whole =? 0 then None else Some (py_round (100 * inject_Z part / inject_Z whole) 100).

Record stage_report := mkReport {
  sr_target_rps : Q;
  sr_actual_sent_rps : Q;
  sr_requests : Z;
  sr_skipped : Z;
  sr_statuses : list (string * Z);
  sr_success_percent : option Q;
  sr_503_percent : option Q;
  sr_p50 : option Q;
  sr_p95 : option Q;
  sr_p99 : option Q;
}.

Definition stage_report_of (send_window : Q) (s : stage) : stage_report :=
  let counts := counter (sg_results s).*1 in
  let latencies := (filter (λ r, r.1 = "200"%string) (sg_results s)).*2 in
  mkReport rate (py_round (inject_Z (sg_started s) / send_window) 100) (sg_started s) (sg_skipped s) counts
    (percent_of (dict_get counts "200"%string 0) (sg_started s))
    (percent_of (dict_get counts "503"%string 0) (sg_started s))
    (stage_percentile latencies (1#2)) (stage_percentile latencies (19#20)) (stage_percentile latencies (99#100)).

(** The executor's shutdown waits for the requests in flight. *)
Definition run_stage (start : Q) (obs : Z → turn_obs) (finish : Q) (tail : list send_event) : option stage_report :=
  s ← stage_loop start 0 (Z.to_nat planned) obs stage_start;
  s' ← send_steps tail s;
  match sg_running s', sg_recorded s' with
  | O, O => Some (stage_report_of (finish - start)%Q s')
  | _, _ => None
  end.
End stage.

(** ** [main]: the parameters, and one stage per rate *)

Definition finite_positive (x : pyfloat) : option Q :=
  match x with FNum q => if (0 <?q q)%Q then Some q else None | _ => None end.

(** [None] is the error of the parser; otherwise the stages it runs. *)
Definition sustained_main (rates : list pyfloat) (duration : pyfloat) (concurrency : Z) : option (list (Q * Q * Z)) :=
  d ← finite_positive duration;
  if concurrency <=? 0 then None
  else rs ← mapM finite_positive rates; Some ((λ r, (r, d, concurrency)) <$> rs).
