(* ===== verification/SustainedFacts.v ===== *)
(** Properties of the sustained load generator: what it reports is exact, it never sends a
    burst to catch up, its slots are never lost or given back twice, and its percentiles
    are the nearest-rank ones. *)
From Stdlib Require Import Permutation.
From S2P Require Import Prelude PyVal Metrics DeployChecks Sustained.

(** ** Nearest rank *)

(** How many of [l] are at most [x]. *)
Definition at_most (x : Q) (l : list Q) : Z := py_len (filter (λ y, (y <=?q x) = true) l).

Lemma at_most_perm x l k : l ≡ₚ k → at_most x l = at_most x k.
Proof. intros H. unfold at_most, py_len. by rewrite H. Qed.

Lemma at_most_app x l k : at_most x (l ++ k) = at_most x l + at_most x k.
Proof. unfold at_most. by rewrite filter_app, py_len_app. Qed.

Lemma at_most_cons x y l : at_most x (y :: l) = (if y <=?q x then 1 else 0) + at_most x l.
Proof.
  unfold at_most. rewrite filter_cons. case_decide as H; destruct (y <=?q x); try done; unfold py_len; simpl; lia.
Qed.

Lemma at_most_all x l : Forall (λ y, (y <= x)%Q) l → at_most x l = py_len l.
Proof.
  induction 1 as [|y l Hy _ IH]; [done|]. rewrite at_most_cons, IH, (proj2 (Qleb_true _ _)) by done.
  unfold py_len. simpl. lia.
Qed.

Lemma at_most_none x l : Forall (λ y, (x < y)%Q) l → at_most x l = 0.
Proof.
  induction 1 as [|y l Hy _ IH]; [done|]. rewrite at_most_cons, IH. by rewrite (proj2 (Qleb_false _ _)).
Qed.

Lemma at_most_bounds x l : 0 <= at_most x l <= py_len l.
Proof. unfold at_most, py_len. pose proof (length_filter (λ y, (y <=?q x) = true) l). lia. Qed.

(** In a sorted list, the elements up to a position and those from it on. *)
Lemma sorted_take_le s i : sorted_q s → (i < length s)%nat → Forall (λ y, (y <= nth i s 0)%Q) (take (S i) s).
Proof.
  intros Hs Hi. apply Forall_forall. intros y Hy%list_elem_of_In.
  apply (In_nth _ _ 0%Q) in Hy as (j & Hj & <-). rewrite length_take in Hj.
  rewrite <- (firstn_skipn (S i) s) at 2. rewrite app_nth1 by (rewrite length_take; lia).
  assert (nth j (take (S i) s) 0%Q = nth j s 0%Q) as ->.
  { rewrite <- (firstn_skipn (S i) s) at 2. by rewrite app_nth1 by (rewrite length_take; lia). }
  assert (nth i (take (S i) s) 0%Q = nth i s 0%Q) as ->.
  { rewrite <- (firstn_skipn (S i) s) at 2. by rewrite app_nth1 by (rewrite length_take; lia). }
  apply sorted_nth_le; [done|lia].
Qed.

Lemma sorted_drop_ge s i : sorted_q s → (i < length s)%nat → Forall (λ y, (nth i s 0 <= y)%Q) (drop i s).
Proof.
  intros Hs Hi. apply Forall_forall. intros y Hy%list_elem_of_In.
  apply (In_nth _ _ 0%Q) in Hy as (j & Hj & <-). rewrite length_drop in Hj.
  rewrite nth_skipn. apply sorted_nth_le; [done|lia].
Qed.

Lemma at_most_position s i :
  sorted_q s → (i < length s)%nat →
  Z.of_nat i + 1 <= at_most (nth i s 0%Q) s ∧ ∀ y, (y < nth i s 0)%Q → at_most y s <= Z.of_nat i.
Proof.
  intros Hs Hi. split.
  - rewrite <- (firstn_skipn (S i) s) at 2. rewrite at_most_app, at_most_all by (by apply sorted_take_le).
    pose proof (at_most_bounds (nth i s 0%Q) (drop (S i) s)). unfold py_len. rewrite length_take. lia.
  - intros y Hy. rewrite <- (firstn_skipn i s). rewrite at_most_app, (at_most_none y (drop i s)).
    + pose proof (at_most_bounds y (take i s)) as Hb. unfold py_len in Hb. rewrite length_take in Hb. lia.
    + eapply Forall_impl; [by apply sorted_drop_ge|]. intros z Hz. simpl in Hz. lra.
Qed.

Lemma Qceiling_bounds x : (x <= inject_Z (Qceiling x) /\ inject_Z (Qceiling x) < x + 1)%Q.
Proof.
  unfold Qceiling. pose proof (Qfloor_bounds (- x)) as [H1 H2]. rewrite inject_Z_opp. split; lra.
Qed.

Lemma stage_percentile_cons values fraction :
  values ≠ [] →
  stage_percentile values fraction =
    (let i := Qceiling (inject_Z (py_len values) * fraction) - 1 in
     Some (py_round (q_at (py_sorted values) (if i <? 0 then i + py_len values else i)) 100)).
Proof. by destruct values. Qed.

(** The percentiles of a stage are the nearest-rank ones: the value reported is that of a
    sample, at least the asked share of the samples are no larger, and of no smaller
    sample is that so. *)
Theorem stage_percentile_is_nearest_rank values fraction :
  values ≠ [] → (0 < fraction)%Q → (fraction <= 1)%Q →
  ∃ x, stage_percentile values fraction = Some (py_round x 100) ∧ x ∈ values ∧
    (fraction * inject_Z (py_len values) <= inject_Z (at_most x values))%Q ∧
    ∀ y, (y < x)%Q → (inject_Z (at_most y values) < fraction * inject_Z (py_len values))%Q.
Proof.
  intros Hne Hf0 Hf1. pose proof (py_len_pos values Hne) as Hn.
  assert (0 < inject_Z (py_len values))%Q as Hnq by (unfold Qlt; simpl; lia).
  set (h := (inject_Z (py_len values) * fraction)%Q). set (i := Qceiling h - 1).
  pose proof (Qceiling_bounds h) as [H1 H2].
  assert ((0 < h)%Q ∧ (h <= inject_Z (py_len values))%Q) as [Hh0 Hh1] by (unfold h; split; nra).
  assert (0 <= i < py_len values) as Hi.
  { assert (inject_Z 0 < inject_Z (Qceiling h))%Q as Ha by (change (inject_Z 0) with 0%Q; lra).
    assert (inject_Z (Qceiling h) < inject_Z (py_len values + 1))%Q as Hb
      by (rewrite inject_Z_plus; change (inject_Z 1) with 1%Q; lra).
    rewrite <- Zlt_Qlt in Ha, Hb. unfold i. lia. }
  exists (q_at (py_sorted values) i). split.
  { rewrite stage_percentile_cons by done. cbv zeta. fold h. fold i. by rewrite (proj2 (Z.ltb_ge i 0)) by lia. }
  split; [apply py_sorted_elem, q_at_elem; by rewrite py_sorted_len|].
  destruct (at_most_position (py_sorted values) (Z.to_nat i) (py_sorted_sorted values)) as [Ha Hb].
  { rewrite (Permutation_length (py_sorted_perm values)). unfold py_len in Hi. lia. }
  rewrite Z2Nat.id in Ha, Hb by lia. fold (q_at (py_sorted values) i) in Ha, Hb.
  assert (fraction * inject_Z (py_len values) == h)%Q as Eh by (unfold h; ring). rewrite Eh. split.
  - rewrite (at_most_perm _ _ _ (py_sorted_perm values)) in Ha.
    assert (i + 1 = Qceiling h) as Ei by (unfold i; lia). rewrite Ei, Zle_Qle in Ha. lra.
  - intros y Hy. specialize (Hb y Hy). rewrite (at_most_perm _ _ _ (py_sorted_perm values)) in Hb.
    assert (at_most y values + 1 <= Qceiling h) as Hc by (unfold i in Hb; lia).
    rewrite Zle_Qle, inject_Z_plus in Hc. change (inject_Z 1) with 1%Q in Hc. lra.
Qed.

(** ** [Counter] *)

Lemma counter_lookup l k :
  dict_lookup (counter l) k = if counted k l =? 0 then None else Some (counted k l).
Proof.
  unfold counter. induction l as [|x l IH] using rev_ind; [done|].
  rewrite foldl_app. simpl. set (d := foldl _ [] l) in *.
  assert (counted k (l ++ [x]) = counted k l + if decide (x = k) then 1 else 0) as ->.
  { unfold counted. rewrite filter_app, py_len_app, filter_cons. by destruct (decide (x = k)). }
  assert (0 <= counted k l) by (unfold counted, py_len; lia).
  destruct (decide (x = k)) as [->|Hne].
  - rewrite dict_lookup_set_eq. unfold dict_get. rewrite IH.
    destruct (counted k l =? 0) eqn:E; zbool.
    + by rewrite E.
    + destruct (counted k l + 1 =? 0) eqn:E2; zbool; [lia|done].
  - rewrite dict_lookup_set_ne by done. by rewrite IH, Z.add_0_r.
Qed.

Lemma counter_get l k : dict_get (counter l) k 0 = counted k l.
Proof. unfold dict_get. rewrite counter_lookup. destruct (counted k l =? 0) eqn:E; zbool; done. Qed.

Lemma percent_of_range part whole p :
  0 <= part <= whole → percent_of part whole = Some p → (0 <= p <= 100)%Q.
Proof.
  unfold percent_of. intros Hp H. destruct (whole =? 0) eqn:E; [done|]. zbool. injection H as <-.
  assert (0 < inject_Z whole)%Q as Hw by (unfold Qlt; simpl; lia).
  assert (0 <= inject_Z part)%Q as H0 by (change 0%Q with (inject_Z 0); rewrite <- Zle_Qle; lia).
  assert (inject_Z part <= inject_Z whole)%Q as H1 by (rewrite <- Zle_Qle; lia).
  split.
  - apply (py_round_ge_Z 0). apply Qle_shift_div_l; [done|]. change (inject_Z 0) with 0%Q. lra.
  - apply (py_round_le_Z 100). apply Qle_shift_div_r; [done|]. change (inject_Z 100) with 100%Q. lra.
Qed.

(** ** The pacing loop *)

(** The report tallies one status per request. *)
Definition tallies (r : stage_report) (statuses : list string) : Prop :=
  py_len statuses = sr_requests r ∧
  ∀ k, dict_lookup (sr_statuses r) k = if counted k statuses =? 0 then None else Some (counted k statuses).

Section stage.
Context (rate duration : Q) (concurrency : Z).
Context (Hrate : (0 < rate)%Q).

(** Every slot is free, or held by a request in flight or one that is done. *)
Definition slots_ok (s : stage) : Prop :=
  0 <= sg_slots s ∧ sg_slots s + Z.of_nat (sg_running s) + Z.of_nat (sg_recorded s) = concurrency.

(** Every request sent is in flight or has its result. *)
Definition results_ok (s : stage) : Prop :=
  sg_started s = Z.of_nat (sg_running s) + py_len (sg_results s) ∧ py_len (sg_sends s) = sg_started s ∧
  0 <= sg_skipped s.

(** A request is sent in its own slot of time, before the stage is over. *)
Definition on_time (start : Q) (send : Z * Q) : Prop :=
  (due_at rate start send.1 <= send.2)%Q ∧ (send.2 < due_at rate start send.1 + 1 / rate)%Q ∧
  (send.2 < start + duration)%Q.

Record stage_inv (start : Q) (index : Z) (s : stage) : Prop := {
  si_slots : slots_ok s;
  si_results : results_ok s;
  si_total : sg_started s + sg_skipped s = index;
  si_on_time : Forall (on_time start) (sg_sends s);
  si_order : StronglySorted Z.lt (sg_sends s).*1;
  si_before : Forall (λ i, i < index) (sg_sends s).*1;
}.

(** What the requests in flight may change. *)
Lemma send_step_kept e s s' :
  send_step concurrency e s = Some s' → slots_ok s → results_ok s →
  slots_ok s' ∧ results_ok s' ∧ sg_started s' = sg_started s ∧ sg_skipped s' = sg_skipped s ∧ sg_sends s' = sg_sends s.
Proof using.
  intros H [Hs1 Hs2] (Hr1 & Hr2 & Hr3). destruct e as [o x|]; simpl in H.
  - destruct (sg_running s) eqn:E; [done|]. injection H as <-. unfold slots_ok, results_ok. simpl.
    rewrite py_len_snoc. split_and!; (done || lia).
  - destruct (sg_recorded s) eqn:E; [done|]. destruct (concurrency <=? sg_slots s); [done|].
    injection H as <-. unfold slots_ok, results_ok. simpl. split_and!; (done || lia).
Qed.

Lemma send_steps_kept es s s' :
  send_steps concurrency es s = Some s' → slots_ok s → results_ok s →
  slots_ok s' ∧ results_ok s' ∧ sg_started s' = sg_started s ∧ sg_skipped s' = sg_skipped s ∧ sg_sends s' = sg_sends s.
Proof using.
  revert s. induction es as [|e es IH]; simpl; intros s H Hs Hr; [by simplify_eq|].
  destruct (send_step concurrency e s) as [s1|] eqn:E; [|done]. simpl in H.
  destruct (send_step_kept e s s1 E Hs Hr) as (H1 & H2 & H3 & H4 & H5).
  destruct (IH s1 H H1 H2) as (? & ? & ? & ? & ?). split_and!; congruence || done.
Qed.

Lemma send_steps_inv start index es s s' :
  send_steps concurrency es s = Some s' → stage_inv start index s → stage_inv start index s'.
Proof using.
  intros H [H1 H2 H3 H4 H5 H6]. destruct (send_steps_kept es s s' H H1 H2) as (? & ? & E1 & E2 & E3).
  split; rewrite ?E1, ?E2, ?E3; done.
Qed.

Lemma stage_turn_inv start index o s s' :
  slept rate start index o → stage_turn rate duration concurrency start index o s = Some s' →
  stage_inv start index s → stage_inv start (index + 1) s'.
Proof using.
  intros [Hb Hs] H Hi. unfold stage_turn in H.
  destruct (send_steps concurrency (to_events o) s) as [s1|] eqn:E; [|done]. cbn [mbind option_bind] in H.
  apply (send_steps_inv start index _ _ _ E) in Hi. destruct Hi as [[H1 H2] (H3 & H4 & H4') H5 H6 H7 H8].
  assert (Forall (λ i, i < index + 1) (sg_sends s1).*1) as H8' by (eapply Forall_impl; [exact H8|]; simpl; lia).
  assert (due_at rate start index <= to_now o)%Q as Hdue.
  { destruct (Qlt_le_dec (to_before o) (due_at rate start index)); [auto|lra]. }
  destruct (_ || _) eqn:Eo; [|destruct (sg_slots s1 <=? 0) eqn:Ez]; simplify_eq.
  1,2: split; unfold slots_ok, results_ok; simpl; split_and?; (done || lia).
  apply orb_false_iff in Eo as [Eo1 Eo2]. zbool. split; unfold slots_ok, results_ok; simpl.
  - split; lia.
  - rewrite py_len_snoc. split_and!; lia.
  - lia.
  - apply Forall_app. split; [done|]. constructor; [|done]. split_and!; simpl; qlra.
  - rewrite fmap_app. simpl. apply StronglySorted_app. split_and!; [|done|repeat constructor].
    intros x y Hx ->%list_elem_of_singleton. rewrite Forall_forall in H8. by apply H8.
  - rewrite fmap_app, Forall_app. split; [done|]. constructor; [simpl; lia|done].
Qed.

Lemma stage_loop_inv start n obs index s s' :
  (∀ i, index <= i < index + Z.of_nat n → slept rate start i (obs i)) →
  stage_loop rate duration concurrency start index n obs s = Some s' →
  stage_inv start index s → stage_inv start (index + Z.of_nat n) s'.
Proof using.
  revert index s. induction n as [|n IH]; intros index s Ho H Hi; cbn [stage_loop] in H.
  - simplify_eq. by rewrite Z.add_0_r.
  - destruct (stage_turn _ _ _ _ _ _ _) as [s1|] eqn:E; [|done]. cbn [mbind option_bind] in H.
    replace (index + Z.of_nat (S n)) with (index + 1 + Z.of_nat n) by lia.
    eapply IH; [|exact H|]; [intros i Hin; apply Ho; lia|].
    eapply stage_turn_inv; [apply Ho; lia|exact E|exact Hi].
Qed.

Lemma stage_start_inv start : 0 <= concurrency → stage_inv start 0 (stage_start concurrency).
Proof using. intros Hc. split; unfold slots_ok, results_ok; simpl; split_and?; try constructor; lia || done. Qed.

Lemma planned_pos : (0 < duration)%Q → 0 <= planned rate duration.
Proof using Hrate.
  intros Hd. unfold planned. pose proof (Qceiling_bounds (rate * duration)) as [H _].
  assert (0 < rate * duration)%Q by nra. assert (inject_Z 0 < inject_Z (Qceiling (rate * duration)))%Q as Hlt
    by (change (inject_Z 0) with 0%Q; lra). rewrite <- Zlt_Qlt in Hlt. lia.
Qed.

Lemma sorted_lt_lookup (l : list Z) i j a b :
  StronglySorted Z.lt l → l !! i = Some a → l !! j = Some b → (i < j)%nat → a < b.
Proof using.
  intros Hs. revert i j. induction Hs as [|x l Hs IH Hx]; intros i j Ha Hb Hij; [done|].
  destruct i as [|i], j as [|j]; simpl in *; try lia.
  - simplify_eq. rewrite Forall_lookup in Hx. by eapply Hx.
  - eapply IH; [exact Ha|exact Hb|lia].
Qed.

(** Two sends that are [n] sends apart lie [n] slots of time apart, or nearly. *)
Lemma sends_apart start l i j a b :
  Forall (on_time start) l → StronglySorted Z.lt l.*1 → l !! i = Some a → l !! (i + S j)%nat = Some b →
  (inject_Z (Z.of_nat j) / rate < b.2 - a.2)%Q.
Proof using Hrate.
  intros Ht Hs Ha Hb.
  assert (a.1 + Z.of_nat (S j) <= b.1) as Hab.
  { revert i l a Ht Hs Ha Hb. induction j as [|j IH]; intros i l a Ht Hs Ha Hb.
    - assert (a.1 < b.1); [|lia]. apply (sorted_lt_lookup l.*1 i (i + 1)); rewrite ?list_lookup_fmap, ?Ha, ?Hb; done || lia.
    - destruct (l !! (i + 1)%nat) as [c|] eqn:Ec.
      + assert (a.1 < c.1).
        { apply (sorted_lt_lookup l.*1 i (i + 1)); rewrite ?list_lookup_fmap, ?Ha, ?Ec; done || lia. }
        enough (c.1 + Z.of_nat (S j) <= b.1) by lia. apply (IH (i + 1)%nat l c Ht Hs Ec).
        by replace (i + 1 + S j)%nat with (i + S (S j))%nat by lia.
      + apply lookup_ge_None in Ec. apply lookup_lt_Some in Hb. lia. }
  rewrite Forall_lookup in Ht. destruct (Ht _ _ Ha) as (_ & Ha2 & _). destruct (Ht _ _ Hb) as (Hb1 & _).
  unfold due_at in *. assert (0 < / rate)%Q by (by apply Qinv_lt_0_compat).
  assert (inject_Z (a.1 + Z.of_nat (S j)) <= inject_Z b.1)%Q as Hq by (by rewrite <- Zle_Qle).
  rewrite inject_Z_plus, Nat2Z.inj_succ in Hq. unfold Z.succ in Hq. rewrite inject_Z_plus in Hq.
  change (inject_Z 1) with 1%Q in Hq. unfold Qdiv in *. nra.
Qed.

(** No burst to catch up: whatever the requests do and however late the loop wakes, a
    request is only sent in its own slot of time and before the stage is over, so that
    among any [j + 2] consecutive sends the last comes more than [j] slots after the
    first; and never are more requests in flight than asked for. *)
Theorem no_catch_up_burst start obs n s :
  0 <= concurrency → (∀ i, 0 <= i < Z.of_nat n → slept rate start i (obs i)) →
  stage_loop rate duration concurrency start 0 n obs (stage_start concurrency) = Some s →
  Forall (on_time start) (sg_sends s) ∧ Z.of_nat (sg_running s) <= concurrency ∧
  ∀ i j a b, sg_sends s !! i = Some a → sg_sends s !! (i + S j)%nat = Some b →
    (inject_Z (Z.of_nat j) / rate < b.2 - a.2)%Q.
Proof using Hrate.
  intros Hc Ho H. destruct (stage_loop_inv start n obs 0 _ _ Ho H (stage_start_inv start Hc)) as [[H1 H2] _ _ H4 H5 _].
  split_and!; [done|lia|]. intros i j a b. by apply (sends_apart start).
Qed.

(** The requests in flight can always end: the bounded semaphore never raises, and the
    executor's shutdown returns once each has recorded its result and left. *)
Theorem stage_can_finish start index s o elapsed :
  stage_inv start index s → ∃ s', send_steps concurrency
    (replicate (sg_running s) (SeRecord o elapsed) ++ replicate (sg_running s + sg_recorded s) SeRelease) s = Some s' ∧
    sg_running s' = 0%nat ∧ sg_recorded s' = 0%nat ∧ sg_slots s' = concurrency.
Proof using.
  intros [[H1 H2] _ _ _ _ _].
  assert (∀ m s, 0 <= sg_slots s → sg_recorded s = m → sg_running s = 0%nat → sg_slots s + Z.of_nat m = concurrency →
    ∃ s', send_steps concurrency (replicate m SeRelease) s = Some s' ∧ sg_running s' = 0%nat ∧ sg_recorded s' = 0%nat ∧
      sg_slots s' = concurrency) as Hrel.
  { clear. induction m as [|m IH]; intros s H0 Hm Hr Hc; simpl.
    - exists s. split_and!; try done. lia.
    - rewrite Hm. destruct (concurrency <=? sg_slots s) eqn:E; zbool; [lia|]. cbn [mbind option_bind].
      apply IH; simpl; try done; lia. }
  remember (sg_running s) as n eqn:En. symmetry in En. revert s En H1 H2.
  induction n as [|n IH]; intros s En H1 H2; cbn [replicate app Nat.add].
  - apply Hrel; try done. lia.
  - cbn [send_steps send_step]. rewrite En. cbn [mbind option_bind].
    destruct (IH (mkStage (sg_slots s) n (S (sg_recorded s)) (sg_results s ++ [(send_status o, elapsed)])
      (sg_started s) (sg_skipped s) (sg_sends s))) as (s' & Hs & Hf); [done|done|simpl; lia|].
    exists s'. split; [|done]. rewrite <- Hs. simpl. by rewrite Nat.add_succ_r.
Qed.

(** The report of a stage is exact.  Whatever the requests answer and however late
    the loop wakes, when [run_stage] returns, every planned slot of time was either used
    or reported as skipped, every request that was sent is counted under the one status
    it ended with, and the percentages are within bounds, absent exactly when nothing was
    sent. *)
Theorem stage_report_is_exact start obs finish tail r :
  (0 < duration)%Q → 0 <= concurrency →
  (∀ i, 0 <= i < planned rate duration → slept rate start i (obs i)) →
  run_stage rate duration concurrency start obs finish tail = Some r →
  sr_requests r + sr_skipped r = planned rate duration ∧ 0 <= sr_requests r ∧ 0 <= sr_skipped r ∧
  (∃ statuses, tallies r statuses) ∧
  (sr_success_percent r = None ↔ sr_requests r = 0) ∧ (sr_503_percent r = None ↔ sr_requests r = 0) ∧
  ∀ p, sr_success_percent r = Some p ∨ sr_503_percent r = Some p → (0 <= p <= 100)%Q.
Proof using Hrate.
  intros Hd Hc Ho H. unfold run_stage in H. pose proof (planned_pos Hd) as Hp.
  destruct (stage_loop _ _ _ _ _ _ _ _) as [s|] eqn:E; [|done]. cbn [mbind option_bind] in H.
  destruct (send_steps concurrency tail s) as [s'|] eqn:E2; [|done]. cbn [mbind option_bind] in H.
  apply stage_loop_inv in E; [|intros i Hi; apply Ho; lia|by apply stage_start_inv].
  apply (send_steps_inv start _ _ _ _ E2) in E. destruct E as [_ (H1 & _ & H2) H3 _ _ _].
  destruct (sg_running s') eqn:Er; [|done]. destruct (sg_recorded s'); [|done]. injection H as <-.
  cbn [sr_requests sr_skipped sr_statuses sr_success_percent sr_503_percent stage_report_of].
  set (l := (sg_results s').*1) in *. assert (py_len l = sg_started s') as Hl
    by (unfold l, py_len in *; rewrite length_fmap; lia).
  assert (∀ k, 0 <= counted k l <= sg_started s') as Hk.
  { intros k. rewrite <- Hl. unfold counted, py_len. pose proof (length_filter (λ x, x = k) l). lia. }
  rewrite !counter_get. split_and!.
  - lia.
  - pose proof (py_len_nonneg (sg_results s')). lia.
  - done.
  - exists l. split; [done|]. intros k. apply counter_lookup.
  - unfold percent_of. destruct (sg_started s' =? 0) eqn:E0; zbool; by split.
  - unfold percent_of. destruct (sg_started s' =? 0) eqn:E0; zbool; by split.
  - intros p [Hq|Hq]; (eapply percent_of_range; [apply Hk|exact Hq]).
Qed.
End stage.

(** ** Two slots of time and one request at a time *)
Definition sample_stage_obs (i : Z) : turn_obs :=
  mkTurnObs [] (inject_Z i / 2) (inject_Z i / 2 + (1#8)).

Definition sample_report : stage_report :=
  default (mkReport 0 0 0 0 [] None None None None None)
    (run_stage 2 1 1 0 sample_stage_obs 1 [SeRecord (SendResponse 200) 12; SeRelease]).

Lemma stage_report_is_exact_witness :
  sr_requests sample_report = 1 ∧ sr_skipped sample_report = 1 ∧ sr_statuses sample_report = [("200"%string, 1)] ∧
  sr_requests sample_report + sr_skipped sample_report = planned 2 1.
Proof.
  assert (run_stage 2 1 1 0 sample_stage_obs 1 [SeRecord (SendResponse 200) 12; SeRelease] = Some sample_report) as H
    by (vm_compute; reflexivity).
  split; [vm_compute; reflexivity|]. split; [vm_compute; reflexivity|]. split; [vm_compute; reflexivity|].
  apply (stage_report_is_exact 2 1 1 ltac:(reflexivity) 0 sample_stage_obs 1
    [SeRecord (SendResponse 200) 12; SeRelease] sample_report); [reflexivity|lia| |exact H].
  intros i Hi. split; unfold sample_stage_obs, due_at; simpl; [lra|]. intros _. lra.
Defined.
