(* ===== verification/CommandLine.v ===== *)
(** The programs from their command lines: [main] of [src/experiments/run_experiments.py] with
    the runner it creates and the summary it prints, and the options of
    [sustained_load_test.py], [grpc_worker_server.py] and [prepare_host.py]. *)
From stdpp Require Import pretty.
From S2P Require Import Prelude PyVal DeployChecks ArgParse WorkerLifecycle HostPlan Metrics LoadTest Plots Experiments Sustained.

(** ** Options *)

Abbreviation opt flag dest arity type choices required default :=
  (mkArgument [flag%string] dest%string arity type choices required default).

Definition text_of_arg (v : option arg_value) : option string := match v with Some (ArgStr s) => Some s | _ => None end.
Definition int_of_arg (v : option arg_value) : option Z := match v with Some (ArgInt z) => Some z | _ => None end.

(** An option without a value is [None]. *)
Definition optional {A} (f : option arg_value → option A) (v : option arg_value) : option (option A) :=
  match v with Some ArgNone => Some None | _ => Some <$> f v end.

Definition list_of_arg {A} (f : option arg_value → option A) (v : option arg_value) : option (list A) :=
  match v with Some (ArgList l) => mapM (λ x, f (Some x)) l | _ => None end.

(** ** [run_experiments.py] *)

Definition EXPERIMENTS : list string :=
  ["load"; "batch"; "scheduler"; "failure"; "sweep"; "bursty"; "fault"; "scaling"; "all"]%string.

Definition opt_experiment := opt "--experiment" "experiment" One StrArg (Some EXPERIMENTS) false (ArgStr "load").
Definition opt_url := opt "--url" "url" One StrArg None false (ArgStr "http://localhost:8000/predict").
Definition opt_duration := opt "--duration" "duration" One IntArg None false (ArgInt 10).
Definition opt_threads := opt "--threads" "threads" One IntArg None false (ArgInt 4).
Definition opt_request_rates := opt "--request-rates" "request_rates" Many IntArg None false ArgNone.
Definition opt_batch_sizes := opt "--batch-sizes" "batch_sizes" Many IntArg None false ArgNone.
Definition opt_schedulers := opt "--schedulers" "schedulers" Many StrArg None false ArgNone.
Definition opt_output_dir := opt "--output-dir" "output_dir" One StrArg None false ArgNone.
Definition opt_plot_dir := opt "--plot-dir" "plot_dir" One StrArg None false ArgNone.

Definition experiments_parser : list argument :=
  [help_argument; opt_experiment; opt_url; opt_duration; opt_threads; opt_request_rates; opt_batch_sizes; opt_schedulers;
   opt_output_dir; opt_plot_dir].

(** What [main] reads of the namespace. *)
Record cli_args := mkArgs {
  arg_experiment : string;
  arg_url : string;
  arg_duration : Z;
  arg_threads : Z;
  arg_request_rates : option (list Z);
  arg_batch_sizes : option (list Z);
  arg_schedulers : option (list string);
  arg_output_dir : option string;
  arg_plot_dir : option string;
}.

Definition args_of (n : list (string * arg_value)) : option cli_args :=
  let get := dict_lookup n in
  experiment ← text_of_arg (get "experiment"%string);
  url ← text_of_arg (get "url"%string);
  duration ← int_of_arg (get "duration"%string);
  threads ← int_of_arg (get "threads"%string);
  rates ← optional (list_of_arg int_of_arg) (get "request_rates"%string);
  sizes ← optional (list_of_arg int_of_arg) (get "batch_sizes"%string);
  schedulers ← optional (list_of_arg text_of_arg) (get "schedulers"%string);
  output ← optional text_of_arg (get "output_dir"%string);
  plots ← optional text_of_arg (get "plot_dir"%string);
  Some (mkArgs experiment url duration threads rates sizes schedulers output plots).

(** [s.endswith(suffix)]. *)
Definition ends_with (suffix s : string) : bool := is_prefix (rev (chars_of suffix)) (rev (chars_of s)).

(** What the file system answers: a directory that is missing is created, unless that fails;
    the names in a directory, and the size of a file. *)
Record dir_env (W : Type) := mkDirEnv {
  de_ensure : string → W → bool * W;
  de_list : string → W → option (list string);
  de_size : string → W → option Z;
}.
#[global] Arguments mkDirEnv {W}.
#[global] Arguments de_ensure {W}.
#[global] Arguments de_list {W}.
#[global] Arguments de_size {W}.

Section program.
Context {W : Type} (env : exp_env W) (dirs : dir_env W) (here : string).

(** [results_dir or os.path.join(_HERE, "results")]. *)
Definition dir_or (given : option string) (name : string) : string :=
  match given with
  | Some d => if bool_decide (d = EmptyString) then path_join here name else d
  | None => path_join here name
  end.

Definition ensure_dir (d : string) : E W unit :=
  there ← e_world (de_ensure dirs d);
  if there : bool then mret tt else e_raise (PyExc "OSError").

Definition runner_init (a : cli_args) : E W ExperimentRunner :=
  let results := dir_or (arg_output_dir a) "results" in
  let plots := dir_or (arg_plot_dir a) "plots" in
  ensure_dir results ;; ensure_dir plots ;; mret (mkRunner (arg_url a) results plots).

(** ** [_print_summary]: the lines that name files *)

Definition summary_line (dir name : string) : E W string := λ s,
  match de_size dirs (path_join dir name) (es_world s) with
  | Some size => (inl ("  - " +:+ name +:+ " (" +:+ pretty size +:+ " bytes)")%string, s)
  | None => (inr (PyExc "OSError"), s)
  end.

Fixpoint summary_lines (dir suffix : string) (names : list string) : E W (list string) :=
  match names with
  | [] => mret []
  | n :: ns =>
      if ends_with suffix n then l ← summary_line dir n; ls ← summary_lines dir suffix ns; mret (l :: ls)
      else summary_lines dir suffix ns
  end.

Definition list_dir (dir : string) : E W (list string) := λ s,
  match de_list dirs dir (es_world s) with Some l => (inl l, s) | None => (inr (PyExc "OSError"), s) end.

Definition print_summary (r : ExperimentRunner) : E W (list string) :=
  csvs ← list_dir (er_results_dir r);
  lines ← summary_lines (er_results_dir r) ".csv" (sorted_strings csvs);
  pngs ← list_dir (er_plots_dir r);
  more ← summary_lines (er_plots_dir r) ".png" (sorted_strings pngs);
  mret (lines ++ more).

(** ** [run_all_experiments] and [main] *)

Definition run_all_experiments (r : ExperimentRunner) : E W unit :=
  experiment_load_vs_latency env r None 4 "fifo" 20 64 ;;
  experiment_batch_size_tradeoff env r 200 None "batching" 20 16 ;;
  experiment_scheduler_comparison env r 150 8 None 20 16 ;;
  experiment_failure_injection env r 100 4 "latency_aware" None 10 4 ;;
  experiment_latency_sweep env r None 4 20 16 ;;
  experiment_bursty env r 50 300 5 2 3 4 16 ;;
  print_summary r ;; mret tt.

Definition run_dispatch (r : ExperimentRunner) (a : cli_args) : E W unit :=
  let x := arg_experiment a in
  if bool_decide (x = "load"%string) then
    experiment_load_vs_latency env r (arg_request_rates a) 4 "fifo" (arg_duration a) (arg_threads a) ;; mret tt
  else if bool_decide (x = "batch"%string) then
    experiment_batch_size_tradeoff env r 200 (arg_batch_sizes a) "batching" (arg_duration a) (arg_threads a) ;; mret tt
  else if bool_decide (x = "scheduler"%string) then
    experiment_scheduler_comparison env r 150 8 (arg_schedulers a) (arg_duration a) (arg_threads a) ;; mret tt
  else if bool_decide (x = "failure"%string) then
    experiment_failure_injection env r 100 4 "latency_aware" None (arg_duration a) (arg_threads a) ;; mret tt
  else if bool_decide (x = "bursty"%string) then
    experiment_bursty env r 50 300 5 2 3 4 (arg_threads a) ;; mret tt
  else if bool_decide (x = "fault"%string) then
    experiment_fault_tolerance env r 50 4 15 (arg_threads a) ;; mret tt
  else if bool_decide (x = "scaling"%string) then
    experiment_dynamic_scaling env r 100 4 15 (arg_threads a) ;; mret tt
  else if bool_decide (x = "sweep"%string) then
    experiment_latency_sweep env r (arg_request_rates a) 4 (arg_duration a) (arg_threads a) ;; mret tt
  else if bool_decide (x = "all"%string) then run_all_experiments r
  else mret tt.

(** The exit status: 1 for an interrupt and for any exception, also for one while the runner
    is created. *)
Definition experiments_main (a : cli_args) (s : exp_state W) : Z * exp_state W :=
  match (r ← runner_init a; run_dispatch r a ;; print_summary r) s with
  | (inl _, s) => (0, s)
  | (inr _, s) => (1, s)
  end.

(** The whole program; the parser ends it with status 2, or 0 after the help text.  A
    namespace without one of the attributes would be an [AttributeError]. *)
Definition experiments_program (words : list string) (s : exp_state W) : Z * exp_state W :=
  match parse_args experiments_parser words with
  | Exits status _ => (status, s)
  | Args n => match args_of n with Some a => experiments_main a s | None => (1, s) end
  end.
End program.

(** The command line of a configuration. *)
Definition given_as {A} (o : argument) (f : A → list string * arg_value) (x : option A) : list (setting * arg_value) :=
  match x with Some a => [((o, (f a).1), (f a).2)] | None => [] end.

Definition word_arg (s : string) : list string * arg_value := ([s], ArgStr s).
Definition int_arg (z : Z) : list string * arg_value := ([pretty z], ArgInt z).
Definition ints_arg (l : list Z) : list string * arg_value := (pretty <$> l, ArgList (ArgInt <$> l)).
Definition words_arg (l : list string) : list string * arg_value := (l, ArgList (ArgStr <$> l)).

Definition experiments_settings (a : cli_args) : list (setting * arg_value) :=
  given_as opt_experiment word_arg (Some (arg_experiment a)) ++ given_as opt_url word_arg (Some (arg_url a)) ++
  given_as opt_duration int_arg (Some (arg_duration a)) ++ given_as opt_threads int_arg (Some (arg_threads a)) ++
  given_as opt_request_rates ints_arg (arg_request_rates a) ++ given_as opt_batch_sizes ints_arg (arg_batch_sizes a) ++
  given_as opt_schedulers words_arg (arg_schedulers a) ++ given_as opt_output_dir word_arg (arg_output_dir a) ++
  given_as opt_plot_dir word_arg (arg_plot_dir a).

Definition experiments_words (a : cli_args) : list string := (experiments_settings a).*1 ≫= write_setting.

(** The configurations that a command line can express: a known experiment, and lists that are
    not empty when they are given; of several names of schedulers none may look like an option
    ([--schedulers=-x] gives a single one that does). *)
Record expressible (a : cli_args) : Prop := {
  ex_experiment : arg_experiment a ∈ EXPERIMENTS;
  ex_rates : arg_request_rates a ≠ Some [];
  ex_sizes : arg_batch_sizes a ≠ Some [];
  ex_schedulers : ∀ l, arg_schedulers a = Some l → sayable experiments_parser l;
}.

(** ** [sustained_load_test.py] *)

Definition opt_rates := opt "--rates" "rates" Many FloatArg None false (ArgList (ArgInt <$> [10; 30; 60; 100])).
Definition opt_stage_duration := opt "--duration" "duration" One FloatArg None false (ArgInt 30).
Definition opt_concurrency := opt "--concurrency" "concurrency" One IntArg None false (ArgInt 128).

Definition sustained_parser : list argument := [help_argument; opt_url; opt_rates; opt_stage_duration; opt_concurrency].

(** A number, the defaults being integers. *)
Definition float_of_arg (v : option arg_value) : option pyfloat :=
  match v with Some (ArgFloat x) => Some x | Some (ArgInt z) => Some (FNum (inject_Z z)) | _ => None end.

(** The stages to run, with the URL; or the status of the parser, whose [error] also answers
    for parameters that are not positive and finite. *)
Definition sustained_program (words : list string) : string * list (Q * Q * Z) + Z :=
  match parse_args sustained_parser words with
  | Exits status _ => inr status
  | Args n =>
      match url ← text_of_arg (dict_lookup n "url"%string);
            rates ← list_of_arg float_of_arg (dict_lookup n "rates"%string);
            duration ← float_of_arg (dict_lookup n "duration"%string);
            concurrency ← int_of_arg (dict_lookup n "concurrency"%string);
            Some (url, sustained_main rates duration concurrency) with
      | Some (url, Some stages) => inl (url, stages)
      | Some (_, None) => inr 2
      | None => inr 1
      end
  end.

(** ** [grpc_worker_server.py] *)

Definition opt_worker_id := opt "--worker-id" "worker_id" One IntArg None true ArgNone.
Definition opt_port := opt "--port" "port" One IntArg None true ArgNone.
Definition opt_zk_hosts := opt "--zk-hosts" "zk_hosts" One StrArg None false (ArgStr "localhost:2181").
Definition opt_no_zookeeper := opt "--no-zookeeper" "no_zookeeper" Switch StrArg None false ArgFalse.
Definition opt_bind := opt "--bind" "bind" One StrArg None false ArgNone.

Definition worker_parser : list argument :=
  [help_argument; opt_worker_id; opt_port; opt_zk_hosts; opt_no_zookeeper; opt_bind].

Definition flag_of_arg (v : option arg_value) : option bool :=
  match v with Some ArgTrue => Some true | Some ArgFalse => Some false | _ => None end.

(** The arguments of [serve], beside the environment variables it reads. *)
Definition serve_args (n : list (string * arg_value)) (bind_env backend health advertise : option string)
    : option (serve_settings * string) :=
  worker_id ← int_of_arg (dict_lookup n "worker_id"%string);
  port ← int_of_arg (dict_lookup n "port"%string);
  zk ← text_of_arg (dict_lookup n "zk_hosts"%string);
  static ← flag_of_arg (dict_lookup n "no_zookeeper"%string);
  bind ← optional text_of_arg (dict_lookup n "bind"%string);
  Some (mkServeSettings worker_id port (negb static) bind bind_env backend health advertise, zk).

Definition reaches_serve (words : list string) (worker_id port : Z) (zk : string) (register : bool) (bind : option string) : Prop :=
  ∀ bind_env backend health advertise, ∃ n, parse_args worker_parser words = Args n ∧
    serve_args n bind_env backend health advertise
    = Some (mkServeSettings worker_id port register bind bind_env backend health advertise, zk).

(** ** [prepare_host.py] *)

Definition opt_output := opt "--output" "output" One StrArg None true ArgNone.
Definition opt_environment := opt "--environment" "environment" One StrArg (Some ["staging"; "dev"]%string) false (ArgStr "staging").

Definition prepare_parser : list argument := [help_argument; opt_output; opt_environment].

(** Where the proposal goes and what it is, or how the inspection ends. *)
Definition prepare_program (words : list string) (ob : host_obs) : (string * inspection proposal) + Z :=
  match parse_args prepare_parser words with
  | Exits status _ => inr status
  | Args n =>
      match output ← text_of_arg (dict_lookup n "output"%string);
            environment ← text_of_arg (dict_lookup n "environment"%string);
            Some (output, environment) with
      | Some (output, environment) => inl (output, prepare_host environment ob)
      | None => inr 1
      end
  end.

(** ** Reading back what was written *)

Lemma get_list_ints o l : ag_type o = IntArg → get_list o (pretty <$> l) = inl (ArgInt <$> l).
Proof. intros Ht. induction l as [|z l IH]; [done|]. rewrite !fmap_cons. cbn [get_list]. unfold convert. rewrite Ht, py_int_of_pretty. cbn [fmap option_fmap option_map]. by rewrite IH. Qed.

Lemma get_list_words o l : ag_type o = StrArg → get_list o l = inl (ArgStr <$> l).
Proof. intros Ht. induction l as [|w l IH]; [done|]. rewrite !fmap_cons. cbn [get_list]. unfold convert. by rewrite Ht, IH. Qed.

Lemma check_list_free o words l : ag_choices o = None → check_list o words l = None.
Proof.
  intros Hc. revert l. induction words as [|w words IH]; intros [|v l]; simpl; try done. unfold is_choice. by rewrite Hc.
Qed.

Lemma get_values_ints o l : ag_type o = IntArg → ag_choices o = None → get_values o (pretty <$> l) = inl (ArgList (ArgInt <$> l)).
Proof. intros Ht Hc. unfold get_values. by rewrite get_list_ints, check_list_free. Qed.

Lemma get_values_words o l : ag_type o = StrArg → ag_choices o = None → get_values o l = inl (ArgList (ArgStr <$> l)).
Proof. intros Ht Hc. unfold get_values. by rewrite get_list_words, check_list_free. Qed.

Lemma get_value_int o z : ag_type o = IntArg → ag_choices o = None → get_value o (pretty z) = inl (ArgInt z).
Proof. intros Ht Hc. unfold get_value, is_choice. rewrite Ht, Hc. unfold convert. by rewrite py_int_of_pretty. Qed.

Lemma get_value_word o w : ag_type o = StrArg → ag_choices o = None → get_value o w = inl (ArgStr w).
Proof. intros Ht Hc. unfold get_value, is_choice. by rewrite Ht, Hc. Qed.

Lemma mapM_arg {A} (f : option arg_value → option A) (c : A → arg_value) l :
  (∀ x, f (Some (c x)) = Some x) → list_of_arg f (Some (ArgList (c <$> l))) = Some l.
Proof.
  intros Hf. simpl. apply mapM_Some. induction l as [|x l IH]; simpl; constructor; auto.
Qed.

Section given_as.
Context (p : list argument) (o : argument) (Hflag : find_flag p (flag_of o) = Some o) (Hfree : ag_choices o = None).

Lemma given_word x : ag_arity o = One → ag_type o = StrArg → Forall (λ g, stores p g.1 g.2) (given_as o word_arg x).
Proof using Hflag Hfree.
  intros Ha Ht. destruct x as [w|]; [|constructor]. constructor; [|constructor]. split; [exact Hflag|]. simpl. rewrite Ha.
  exists w. split; [done|by apply get_value_word].
Qed.

Lemma given_int x : ag_arity o = One → ag_type o = IntArg → Forall (λ g, stores p g.1 g.2) (given_as o int_arg x).
Proof using Hflag Hfree.
  intros Ha Ht. destruct x as [z|]; [|constructor]. constructor; [|constructor]. split; [exact Hflag|]. simpl. rewrite Ha.
  exists (pretty z). split; [done|by apply get_value_int].
Qed.

Lemma given_ints x : ag_arity o = Many → ag_type o = IntArg → no_number_flags p = true → x ≠ Some [] →
  Forall (λ g, stores p g.1 g.2) (given_as o ints_arg x).
Proof using Hflag Hfree.
  intros Ha Ht Hp Hx. destruct x as [l|]; [|constructor]. constructor; [|constructor]. split; [exact Hflag|]. simpl. rewrite Ha.
  split; [|by apply get_values_ints]. split; [by destruct l|]. right.
  apply Forall_fmap, Forall_true. intros z. by apply plain_number.
Qed.

Lemma given_words x : ag_arity o = Many → ag_type o = StrArg →
  (∀ l, x = Some l → sayable p l) → Forall (λ g, stores p g.1 g.2) (given_as o words_arg x).
Proof using Hflag Hfree.
  intros Ha Ht Hx. destruct x as [l|]; [|constructor]. constructor; [|constructor]. split; [exact Hflag|]. simpl. rewrite Ha.
  split; [by apply Hx|by apply get_values_words].
Qed.
End given_as.

Lemma experiments_settings_stored a : expressible a → Forall (λ g, stores experiments_parser g.1 g.2) (experiments_settings a).
Proof.
  intros [Hx Hr Hs Hn]. unfold experiments_settings. rewrite !Forall_app. split_and!.
  2-9: first [by apply given_word|by apply given_int|by apply given_ints|by apply given_words].
  constructor; [|constructor]. split; [done|]. exists (arg_experiment a). split; [done|].
  unfold get_value, is_choice. simpl. by rewrite bool_decide_eq_true_2.
Qed.

Lemma optional_given {A B} (f : option arg_value → option B) (c : A → arg_value) (x : option A) (g : A → B) :
  (∀ y, x = Some y → f (Some (c y)) = Some (g y)) → (∀ y, c y ≠ ArgNone) →
  optional f (Some (match x with Some y => c y | None => ArgNone end)) = Some (g <$> x).
Proof.
  intros Hf Hc. destruct x as [y|]; [|done]. unfold optional. simpl. specialize (Hf y eq_refl). specialize (Hc y).
  destruct (c y); try done; by rewrite Hf.
Qed.

Lemma args_of_settings a : args_of (applied (experiments_settings a) (defaults experiments_parser)) = Some a.
Proof.
  destruct a as [x u d t rates sizes scheds out plots]. set (n := applied _ _).
  assert (dict_lookup n "experiment" = Some (ArgStr x) ∧ dict_lookup n "url" = Some (ArgStr u) ∧
    dict_lookup n "duration" = Some (ArgInt d) ∧ dict_lookup n "threads" = Some (ArgInt t) ∧
    dict_lookup n "request_rates" = Some (match rates with Some l => ArgList (ArgInt <$> l) | None => ArgNone end) ∧
    dict_lookup n "batch_sizes" = Some (match sizes with Some l => ArgList (ArgInt <$> l) | None => ArgNone end) ∧
    dict_lookup n "schedulers" = Some (match scheds with Some l => ArgList (ArgStr <$> l) | None => ArgNone end) ∧
    dict_lookup n "output_dir" = Some (match out with Some w => ArgStr w | None => ArgNone end) ∧
    dict_lookup n "plot_dir" = Some (match plots with Some w => ArgStr w | None => ArgNone end))%string as H.
  { subst n. destruct rates, sizes, scheds, out, plots; vm_compute; repeat split. }
  destruct H as (H1 & H2 & H3 & H4 & H5 & H6 & H7 & H8 & H9). unfold args_of. rewrite H1, H2, H3, H4, H5, H6, H7, H8, H9. cbn [mbind option_bind text_of_arg int_of_arg].
  rewrite !(optional_given (list_of_arg int_of_arg) _ _ id) by (try done; intros; by apply mapM_arg). cbn [mbind option_bind].
  rewrite (optional_given (list_of_arg text_of_arg) _ _ id) by (try done; intros; by apply mapM_arg). cbn [mbind option_bind].
  rewrite !(optional_given text_of_arg _ _ id) by done. cbn [mbind option_bind]. by rewrite !option_fmap_id.
Qed.

(** ** Any command line *)

Lemma parse_args_exits p words status e : parse_args p words = Exits status e → status = 0 ∧ e = None ∨ status = 2 ∧ is_Some e.
Proof.
  assert (∀ o x rest st, consume o x rest = inr st → (∃ n, st = Args n) ∨ st = Exits 0 None ∨ ∃ e, st = parser_error e) as Hc.
  { intros o x rest st. unfold consume. repeat case_match; intros [= <-]; eauto. }
  assert (∀ items skip st x, parse_items skip items st = inr x → (∃ n, x = Args n) ∨ x = Exits 0 None ∨ ∃ e, x = parser_error e) as Hi.
  { induction items as [|[w m] items IH]; intros skip st x; simpl; [done|]. destruct skip; [|apply IH].
    destruct m; try apply IH. destruct (consume _ _ _) as [[v n]|y] eqn:E; [apply IH|]. intros [= <-]. by eapply Hc. }
  unfold parse_args. destruct (classify_all p words); [|intros [= <- <-]; eauto].
  destruct (parse_items 0 _ _) eqn:E; [|intros ->; apply Hi in E as [[n [=]]|[[= <- <-]|[e' [= -> ->]]]]; eauto].
  destruct (missing p _); [|intros [= <- <-]; eauto]. destruct (pr_extras _); [done|intros [= <- <-]; eauto].
Qed.

Lemma given_str {p} o v : ag_arity o = One → ag_type o = StrArg → given p o v →
  ∃ w, v = ArgStr w ∧ match ag_choices o with Some l => w ∈ l | None => True end.
Proof.
  intros Ha Ht. unfold given. rewrite Ha. intros [w Hw]. unfold get_value in Hw. rewrite Ht in Hw. simpl in Hw.
  destruct (is_choice o (ArgStr w)) eqn:Ec; [|done]. injection Hw as <-. exists w. split; [done|]. unfold is_choice in Ec.
  destruct (ag_choices o); [by apply bool_decide_eq_true_1 in Ec|done].
Qed.

Lemma given_z {p} o v : ag_arity o = One → ag_type o = IntArg → given p o v → ∃ z, v = ArgInt z.
Proof.
  intros Ha Ht. unfold given. rewrite Ha. intros [w Hw]. unfold get_value in Hw. rewrite Ht in Hw. simpl in Hw.
  destruct (py_int_of w) as [z|]; [|done]. simpl in Hw. destruct (is_choice _ _); [|done]. injection Hw as <-. by exists z.
Qed.

Lemma given_many {p} o v : ag_arity o = Many → given p o v → ∃ ws l, v = ArgList l ∧ sayable p ws ∧ get_list o ws = inl l ∧ length l = length ws.
Proof.
  intros Ha. unfold given. rewrite Ha. intros (ws & Hne & Hw). unfold get_values in Hw. destruct (get_list o ws) as [l|] eqn:E; [|done].
  destruct (check_list o ws l); [done|]. injection Hw as <-. exists ws, l. split_and!; try done. clear Hne. revert l E.
  induction ws as [|w ws IH]; simpl; intros l; [by intros [= <-]|]. destruct (convert _ w); [|done].
  destruct (get_list o ws) as [k|]; [|done]. intros [= <-]. simpl. by rewrite (IH k).
Qed.

Lemma given_many_as {A p} o v (f : option arg_value → option A) :
  ag_arity o = Many → (∀ w x, convert (ag_type o) w = Some x → is_Some (f (Some x))) → given p o v →
  ∃ l, optional (list_of_arg f) (Some v) = Some (Some l) ∧ l ≠ [].
Proof.
  intros Ha Hf Hv. destruct (given_many o v Ha Hv) as (ws & l & -> & [Hne _] & Hl & Hlen).
  assert (Forall (λ x, is_Some (f (Some x))) l) as HF.
  { clear Hne Hlen Hv. revert l Hl. induction ws as [|w ws IH]; simpl; intros l; [intros [= <-]; constructor|].
    destruct (convert _ w) as [x|] eqn:Ew; [|done]. destruct (get_list o ws) as [k|]; [|done]. intros [= <-].
    constructor; [by eapply Hf|by apply IH]. }
  destruct (mapM (λ x, f (Some x)) l) as [k|] eqn:Em.
  - exists k. split; [unfold optional, list_of_arg; by rewrite Em|]. apply length_mapM in Em. intros ->. by destruct ws, l.
  - exfalso. apply mapM_None_1, Exists_exists in Em as (x & Hx & Ex). rewrite Forall_forall in HF.
    destruct (HF x Hx) as [y Hy]. congruence.
Qed.

Lemma optional_cases {A p} (f : option arg_value → option A) o v :
  ag_default o = ArgNone → (given p o v → ∃ l, optional f (Some v) = Some (Some l)) →
  given p o v ∨ v = ag_default o ∧ ag_required o = false → ∃ x, optional f (Some v) = Some x.
Proof. intros Hd Hf [Hg|[-> _]]; [destruct (Hf Hg) as [l Hl]; eauto|rewrite Hd; by exists None]. Qed.

Lemma list_cases {A p} (f : option arg_value → option A) o v :
  ag_default o = ArgNone → ag_arity o = Many → (∀ w x, convert (ag_type o) w = Some x → is_Some (f (Some x))) →
  given p o v ∨ v = ag_default o ∧ ag_required o = false → ∃ x, optional (list_of_arg f) (Some v) = Some x ∧ x ≠ Some [].
Proof.
  intros Hd Ha Hf [Hg|[-> _]]; [|rewrite Hd; by exists None].
  destruct (given_many_as o v f Ha Hf Hg) as (l & Hl & Hne). exists (Some l). split; [done|congruence].
Qed.

Lemma convert_int w x : convert IntArg w = Some x → is_Some (int_of_arg (Some x)).
Proof. simpl. destruct (py_int_of w); [|done]. by intros [= <-]. Qed.

Lemma convert_str w x : convert StrArg w = Some x → is_Some (text_of_arg (Some x)).
Proof. by intros [= <-]. Qed.

Definition experiments_value (p : list argument) (n : list (string * arg_value)) (o : argument) : Prop :=
  ∃ v, dict_lookup n (ag_dest o) = Some v ∧ (given p o v ∨ v = ag_default o ∧ ag_required o = false).

Lemma text_value {p} n o d : ag_arity o = One → ag_type o = StrArg → ag_default o = ArgStr d → experiments_value p n o →
  ∃ w, text_of_arg (dict_lookup n (ag_dest o)) = Some w ∧ (w = d ∨ match ag_choices o with Some l => w ∈ l | None => True end).
Proof.
  intros Ha Ht Hd (v & -> & [Hg|[-> _]]).
  - destruct (given_str o v Ha Ht Hg) as (w & -> & Hw). exists w. auto.
  - rewrite Hd. exists d. auto.
Qed.

Lemma int_value {p} n o d : ag_arity o = One → ag_type o = IntArg → ag_default o = ArgInt d → experiments_value p n o →
  ∃ z, int_of_arg (dict_lookup n (ag_dest o)) = Some z.
Proof.
  intros Ha Ht Hd (v & -> & [Hg|[-> _]]); [|rewrite Hd; by exists d]. destruct (given_z o v Ha Ht Hg) as (z & ->). by exists z.
Qed.

Lemma list_value {A p} n o (f : option arg_value → option A) :
  ag_default o = ArgNone → ag_arity o = Many → (∀ w x, convert (ag_type o) w = Some x → is_Some (f (Some x))) →
  experiments_value p n o → ∃ x, optional (list_of_arg f) (dict_lookup n (ag_dest o)) = Some x ∧ x ≠ Some [].
Proof. intros Hd Ha Hf (v & -> & H). by eapply list_cases. Qed.

(** The names that an option takes are those that can be given to it. *)
Lemma words_value {p} n o :
  ag_default o = ArgNone → ag_arity o = Many → ag_type o = StrArg → experiments_value p n o →
  ∃ x, optional (list_of_arg text_of_arg) (dict_lookup n (ag_dest o)) = Some x ∧ ∀ l, x = Some l → sayable p l.
Proof.
  intros Hd Ha Ht (v & -> & [Hg|[-> _]]); [|rewrite Hd; by exists None].
  destruct (given_many o v Ha Hg) as (ws & l & -> & Hs & Hl & _). rewrite get_list_words in Hl by done.
  injection Hl as <-. exists (Some ws). split; [|by intros ? [= <-]].
  unfold optional. by rewrite (mapM_arg text_of_arg ArgStr).
Qed.

Lemma dir_value {p} n o : ag_default o = ArgNone → ag_arity o = One → ag_type o = StrArg → experiments_value p n o →
  ∃ x, optional text_of_arg (dict_lookup n (ag_dest o)) = Some x.
Proof.
  intros Hd Ha Ht (v & -> & H). eapply optional_cases; [exact Hd| |exact H].
  intros Hg. destruct (given_str o v Ha Ht Hg) as (w & -> & _). by exists w.
Qed.

(** Whatever is accepted has every attribute that [main] reads. *)
Lemma args_of_accepted words n : parse_args experiments_parser words = Args n →
  ∃ a, args_of n = Some a ∧ expressible a.
Proof.
  intros H. assert (NoDup (ag_dest <$> experiments_parser)) as Hnd by (apply (bool_decide_unpack _); vm_compute; exact I).
  assert (∀ o, o ∈ experiments_parser → ag_arity o ≠ Help → experiments_value experiments_parser n o) as Hv
    by (intros o; apply (parse_args_sound experiments_parser Hnd words n H)).
  assert (∀ k o, experiments_parser !! S k = Some o → ag_arity o ≠ Help → experiments_value experiments_parser n o) as Hk
    by (intros k o Ho; apply Hv; by eapply list_elem_of_lookup_2). clear Hv Hnd H.
  destruct (text_value (p:=experiments_parser) n opt_experiment "load") as (x & E1 & Hx); [done..|by apply (Hk 0%nat)|].
  destruct (text_value (p:=experiments_parser) n opt_url "http://localhost:8000/predict") as (u & E2 & _); [done..|by apply (Hk 1%nat)|].
  destruct (int_value (p:=experiments_parser) n opt_duration 10) as (d & E3); [done..|by apply (Hk 2%nat)|].
  destruct (int_value (p:=experiments_parser) n opt_threads 4) as (t & E4); [done..|by apply (Hk 3%nat)|].
  destruct (list_value (p:=experiments_parser) n opt_request_rates int_of_arg) as (rs & E5 & Hr); [done|done|apply convert_int|by apply (Hk 4%nat)|].
  destruct (list_value (p:=experiments_parser) n opt_batch_sizes int_of_arg) as (bs & E6 & Hb); [done|done|apply convert_int|by apply (Hk 5%nat)|].
  destruct (words_value (p:=experiments_parser) n opt_schedulers) as (ss & E7 & Hs); [done..|by apply (Hk 6%nat)|].
  destruct (dir_value (p:=experiments_parser) n opt_output_dir) as (od & E8); [done..|by apply (Hk 7%nat)|].
  destruct (dir_value (p:=experiments_parser) n opt_plot_dir) as (pd & E9); [done..|by apply (Hk 8%nat)|].
  exists (mkArgs x u d t rs bs ss od pd). simpl in E1, E2, E3, E4, E5, E6, E7, E8, E9.
  split; [unfold args_of; rewrite E1, E2, E3, E4, E5, E6, E7, E8, E9; done|].
  split; try done. simpl. destruct Hx as [->|Hx]; [by left|exact Hx].
Qed.

(** *** The worker *)

Definition worker_given (worker_id port : Z) (zk : option string) (static : bool) (bind : option string) : list (setting * arg_value) :=
  given_as opt_worker_id int_arg (Some worker_id) ++ given_as opt_port int_arg (Some port) ++ given_as opt_zk_hosts word_arg zk ++
  given_as opt_no_zookeeper (λ _, ([], ArgTrue)) (if static then Some tt else None) ++ given_as opt_bind word_arg bind.

(** The command line of a worker reaches [serve] as it was written. *)
Lemma worker_command_line worker_id port zk static bind :
  reaches_serve ((worker_given worker_id port zk static bind).*1 ≫= write_setting) worker_id port
    (default "localhost:2181"%string zk) (negb static) bind.
Proof.
  intros bind_env backend health advertise. eexists. split.
  - apply parse_written; [done| |].
    + unfold worker_given. rewrite !Forall_app. split_and!; try by apply given_int. 1,3: by apply given_word.
      destruct static; [|constructor]. constructor; [|constructor]. by split.
    + intros o Ho Hr. unfold worker_given. rewrite !fmap_app. simpl. unfold worker_parser in Ho.
      rewrite !elem_of_cons in Ho. rewrite !elem_of_cons.
      destruct Ho as [->|[->|[->|[->|[->|[->|Ho]]]]]]; try done; [by left|by right; left|by apply not_elem_of_nil in Ho].
  - unfold serve_args, worker_given. by destruct zk, static, bind.
Qed.

Lemma declared_value p words n o : NoDup (ag_dest <$> p) → parse_args p words = Args n → o ∈ p → ag_arity o ≠ Help → experiments_value p n o.
Proof. intros Hnd H Ho Hh. by apply (parse_args_sound p Hnd words n H). Qed.

Lemma required_value {p} n o : ag_required o = true → experiments_value p n o → ∃ v, dict_lookup n (ag_dest o) = Some v ∧ given p o v.
Proof. intros Hr (v & Hv & [Hg|[_ Hf]]); [by exists v|congruence]. Qed.

(** No worker is started without its identifier and its port. *)
Lemma worker_needs_its_identity words n bind_env backend health advertise :
  parse_args worker_parser words = Args n → is_Some (serve_args n bind_env backend health advertise).
Proof.
  intros H. assert (NoDup (ag_dest <$> worker_parser)) as Hnd by (apply (bool_decide_unpack _); vm_compute; exact I).
  assert (∀ k o, worker_parser !! S k = Some o → ag_arity o ≠ Help → experiments_value worker_parser n o) as Hk
    by (intros k o Ho Hh; eapply declared_value; [exact Hnd|exact H|by eapply list_elem_of_lookup_2|exact Hh]).
  destruct (required_value (p:=worker_parser) n opt_worker_id) as (v1 & E1 & G1); [done|by apply (Hk 0%nat)|].
  destruct (required_value (p:=worker_parser) n opt_port) as (v2 & E2 & G2); [done|by apply (Hk 1%nat)|].
  apply given_z in G1 as [z1 ->]; [|done..]. apply given_z in G2 as [z2 ->]; [|done..].
  destruct (text_value (p:=worker_parser) n opt_zk_hosts "localhost:2181") as (zk & E3 & _); [done..|by apply (Hk 2%nat)|].
  destruct (Hk 3%nat opt_no_zookeeper) as (v4 & E4 & G4); [done..|].
  destruct (dir_value (p:=worker_parser) n opt_bind) as (b & E5); [done..|by apply (Hk 4%nat)|].
  simpl in E1, E2, E3, E4, E5. unfold serve_args. rewrite E1, E2, E3, E4, E5. simpl.
  destruct G4 as [->|[-> _]]; eexists; reflexivity.
Qed.

(** *** The sustained load test *)

Lemma sustained_main_stages rates duration concurrency stages : rates ≠ [] → sustained_main rates duration concurrency = Some stages →
  stages ≠ [] ∧ Forall (λ '(r, d, c), 0 < r ∧ 0 < d ∧ (0 < c)%Z)%Q stages.
Proof.
  assert (∀ x q, finite_positive x = Some q → (0 < q)%Q) as Hp.
  { intros [q| |] q'; simpl; try done. destruct (Qltb 0 q) eqn:E; [|done]. intros [= <-]. by apply Qltb_true. }
  unfold sustained_main. intros Hne. destruct (finite_positive duration) as [d|] eqn:Ed; simpl; [|done].
  destruct (concurrency <=? 0) eqn:Ec; [done|]. apply Z.leb_gt in Ec. destruct (mapM finite_positive rates) as [rs|] eqn:Er; simpl; [|done].
  intros [= <-]. pose proof (length_mapM _ _ _ Er) as Hl. split; [by destruct rs, rates|].
  apply Forall_fmap, Forall_forall. intros r Hr. simpl. split_and!; [|by eapply Hp|exact Ec].
  apply mapM_Some in Er. apply list_elem_of_lookup in Hr as [k Hk].
  destruct (Forall2_lookup_r _ _ _ _ _ Er Hk) as (x & _ & Hx). by eapply Hp.
Qed.

(** It either refuses its parameters or runs stages with positive rates, a positive duration and
    a positive limit. *)
Lemma sustained_program_stages words :
  (∃ url stages, sustained_program words = inl (url, stages) ∧ stages ≠ [] ∧ Forall (λ '(r, d, c), 0 < r ∧ 0 < d ∧ (0 < c)%Z)%Q stages) ∨
  sustained_program words = inr 0 ∨ sustained_program words = inr 2.
Proof.
  unfold sustained_program. destruct (parse_args sustained_parser words) as [n|status e] eqn:H;
    [|right; apply parse_args_exits in H as [[-> _]|[-> _]]; auto].
  assert (NoDup (ag_dest <$> sustained_parser)) as Hnd by (apply (bool_decide_unpack _); vm_compute; exact I).
  assert (∀ k o, sustained_parser !! S k = Some o → ag_arity o ≠ Help → experiments_value sustained_parser n o) as Hk
    by (intros k o Ho Hh; eapply declared_value; [exact Hnd|exact H|by eapply list_elem_of_lookup_2|exact Hh]).
  destruct (text_value (p:=sustained_parser) n opt_url "http://localhost:8000/predict") as (u & E1 & _); [done..|by apply (Hk 0%nat)|].
  destruct (Hk 1%nat opt_rates) as (v2 & E2 & G2); [done..|]. destruct (Hk 2%nat opt_stage_duration) as (v3 & E3 & G3); [done..|].
  destruct (int_value (p:=sustained_parser) n opt_concurrency 128) as (c & E4); [done..|by apply (Hk 3%nat)|].
  assert (∃ rates, list_of_arg float_of_arg (Some v2) = Some rates ∧ rates ≠ []) as (rates & Er & Hne).
  { destruct G2 as [G2|[-> _]]; [|by eexists]. apply (given_many_as _ _ float_of_arg) in G2 as (l & Hl & Hne); [|done|].
    - exists l. split; [|done]. destruct v2 as [| | | | | |k]; simpl in Hl; try discriminate. simpl. destruct (mapM _ k) as [l'|]; [|discriminate Hl]. by injection Hl as ->.
    - intros w x. simpl. destruct (py_float_of w); [|done]. by intros [= <-]. }
  assert (∃ d, float_of_arg (Some v3) = Some d) as [d Ed].
  { destruct G3 as [G3|[-> _]]; [|by eexists]. destruct G3 as [w Hw]. unfold get_value in Hw. simpl in Hw.
    destruct (py_float_of w) as [x|]; [|done]. injection Hw as <-. by exists x. }
  simpl in E1, E2, E3, E4. rewrite E1, E2, E3, E4, Er, Ed. simpl.
  destruct (sustained_main rates d c) as [stages|] eqn:Es; [|auto]. left. exists u, stages.
  split; [done|by eapply sustained_main_stages].
Qed.

(** *** The proposal *)

(** An inspection is only made for an environment that exists. *)
Lemma prepare_knows_its_environment words ob :
  (∃ output environment, prepare_program words ob = inl (output, prepare_host environment ob) ∧ is_Some (environment_of environment)) ∨
  prepare_program words ob = inr 0 ∨ prepare_program words ob = inr 2.
Proof.
  unfold prepare_program. destruct (parse_args prepare_parser words) as [n|status e] eqn:H;
    [|right; apply parse_args_exits in H as [[-> _]|[-> _]]; auto].
  left. assert (NoDup (ag_dest <$> prepare_parser)) as Hnd by (apply (bool_decide_unpack _); vm_compute; exact I).
  assert (∀ k o, prepare_parser !! S k = Some o → ag_arity o ≠ Help → experiments_value prepare_parser n o) as Hk
    by (intros k o Ho Hh; eapply declared_value; [exact Hnd|exact H|by eapply list_elem_of_lookup_2|exact Hh]).
  destruct (required_value (p:=prepare_parser) n opt_output) as (v1 & E1 & G1); [done|by apply (Hk 0%nat)|].
  apply given_str in G1 as (w & -> & _); [|done..].
  destruct (text_value (p:=prepare_parser) n opt_environment "staging") as (x & E2 & Hx); [done..|by apply (Hk 1%nat)|].
  simpl in E1, E2. rewrite E1, E2. exists w, x. split; [done|].
  assert (x = "staging" ∨ x = "dev")%string as [->| ->]; [|by eexists..].
  destruct Hx as [->|Hx]; [by left|]. simpl in Hx. rewrite !elem_of_cons in Hx. destruct Hx as [?|[?|Hx]]; [auto..|by apply not_elem_of_nil in Hx].
Qed.

(** ** The claims *)

Lemma written_words a : expressible a →
  parse_args experiments_parser (experiments_words a) = Args (applied (experiments_settings a) (defaults experiments_parser)).
Proof.
  intros Ha. apply parse_written; [done|by apply experiments_settings_stored|]. intros o Ho Hr.
  assert (Forall (λ o, ag_required o = false) experiments_parser) as H by by repeat constructor.
  rewrite Forall_forall in H. specialize (H o Ho). congruence.
Qed.

(** The words are accepted, and [main] runs on the configuration [a]. *)
Definition read_as (words : list string) (a : cli_args) : Prop :=
  ∃ n, parse_args experiments_parser words = Args n ∧ args_of n = Some a.

(** C40. The configurations that a command line can express are exactly the [expressible] ones.
    The words written for such a configuration are read back as exactly it, negative numbers,
    empty texts and texts that look like options included; and whatever words are read as it,
    the program behaves on them as [main] on the configuration, hence as on the words written
    for it.  No accepted command line lacks an attribute that [main] reads. *)
Theorem command_line_roundtrip (a : cli_args) :
  (expressible a ↔ ∃ words, read_as words a) ∧
  (expressible a → read_as (experiments_words a) a) ∧
  (∀ words, read_as words a → ∀ (W : Type) (env : exp_env W) dirs here s,
     experiments_program env dirs here words s = experiments_main env dirs here a s ∧
     experiments_program env dirs here (experiments_words a) s = experiments_main env dirs here a s) ∧
  (∀ words n, parse_args experiments_parser words = Args n → ∃ b, args_of n = Some b).
Proof.
  assert (∀ words, read_as words a → expressible a) as Hread.
  { intros words (n & H & Ha). destruct (args_of_accepted words n H) as (b & Hb & Hx). congruence. }
  assert (expressible a → read_as (experiments_words a) a) as Hwrite.
  { intros Ha. eexists. split; [by apply written_words|apply args_of_settings]. }
  split_and!; [split; [eauto|intros [words H]; eauto]|done| |].
  - intros words H W env dirs here s.
    destruct (Hwrite (Hread words H)) as (m & Hm & Hb), H as (n & Hn & Ha).
    unfold experiments_program. by rewrite Hn, Ha, Hm, Hb.
  - intros words n H. destruct (args_of_accepted words n H) as (b & Hb & _). eauto.
Qed.

(** Whatever words the program is started with, one of two things happens.  The parser ends
    it before anything is touched, with status 0 for the help text and with status 2 and a
    diagnosis otherwise; or [main] runs on a configuration that has every attribute it reads,
    and the status is 0 or 1. *)
Lemma command_line_is_diagnosed {W : Type} (env : exp_env W) dirs here (words : list string) (s : exp_state W) :
  (∃ status e, parse_args experiments_parser words = Exits status e ∧
     experiments_program env dirs here words s = (status, s) ∧ (status = 0 ∧ e = None ∨ status = 2 ∧ is_Some e)) ∨
  (∃ a, experiments_program env dirs here words s = experiments_main env dirs here a s ∧ expressible a ∧
     (experiments_main env dirs here a s).1 ∈ [0; 1]).
Proof.
  unfold experiments_program. destruct (parse_args experiments_parser words) as [n|status e] eqn:E.
  - right. destruct (args_of_accepted words n E) as (a & -> & Hx). exists a. split_and!; try done.
    unfold experiments_main. match goal with |- context [match ?m with _ => _ end] => destruct m as [[u|x] s'] end; [by left|right; by left].
  - left. exists status, e. split_and!; [done..|by eapply parse_args_exits].
Qed.

(** ** Runs *)

Definition custom_args (schedulers : list string) : cli_args :=
  mkArgs "load" "--url" 20 8 (Some [50; -5; 0]) None (Some schedulers) (Some EmptyString) None.

(** Two names are separate words, a single one follows [=] and may look like an option. *)
Example custom_words :
  experiments_words (custom_args ["fifo"; EmptyString]%string)
  = ["--experiment=load"; "--url=--url"; "--duration=20"; "--threads=8"; "--request-rates"; "50"; "-5"; "0";
     "--schedulers"; "fifo"; EmptyString; "--output-dir="]%string ∧
  experiments_words (custom_args ["-x"]%string)
  = ["--experiment=load"; "--url=--url"; "--duration=20"; "--threads=8"; "--request-rates"; "50"; "-5"; "0";
     "--schedulers=-x"; "--output-dir="]%string.
Proof. split; vm_compute; reflexivity. Qed.

(** Names that look like options cannot be given together. *)
Example two_dashed_names : parse_args experiments_parser ["--schedulers"; "-x"; "fifo"]%string = Exits 2 (Some (Expected "schedulers")).
Proof. vm_compute. reflexivity. Qed.

Lemma command_line_roundtrip_witness :
  read_as (experiments_words (custom_args ["-x"]%string)) (custom_args ["-x"]%string) ∧
  read_as ["--schedulers"; "a"; "--url=u"; "--schedulers=-x"]%string
    (mkArgs "load" "u" 10 4 None None (Some ["-x"]%string) None None) ∧
  expressible (mkArgs "load" "u" 10 4 None None (Some ["-x"]%string) None None).
Proof.
  assert (read_as ["--schedulers"; "a"; "--url=u"; "--schedulers=-x"]%string
    (mkArgs "load" "u" 10 4 None None (Some ["-x"]%string) None None)) as Hr.
  { eexists. split; vm_compute; reflexivity. }
  split; [|split; [exact Hr|]].
  - apply (command_line_roundtrip (custom_args ["-x"]%string)). split; try done; [by left|].
    intros l [= <-]. split; [done|by left].
  - apply (command_line_roundtrip (mkArgs "load" "u" 10 4 None None (Some ["-x"]%string) None None)). eauto.
Defined.

(** Abbreviations are accepted, ambiguous ones are not; a list takes every number that follows. *)
Example words_are_read :
  parse_args experiments_parser ["--dur"; "7"; "--exp=batch"; "--batch-sizes"; "1"; "-2"]%string
  = Args [("experiment", ArgStr "batch"); ("url", ArgStr "http://localhost:8000/predict"); ("duration", ArgInt 7);
          ("threads", ArgInt 4); ("request_rates", ArgNone); ("batch_sizes", ArgList [ArgInt 1; ArgInt (-2)]);
          ("schedulers", ArgNone); ("output_dir", ArgNone); ("plot_dir", ArgNone)]%string.
Proof. vm_compute. reflexivity. Qed.

Example words_are_refused :
  (λ w, match parse_args experiments_parser w with Exits status e => (status, e) | Args _ => (-1, None) end) <$>
    [["-h"; "--nothing"]; ["--nothing"]; ["extra"]; ["--threads"]; ["--threads=x"]; ["--experiment"; "soak"]; ["--"; "-h"];
     ["--url=a"; "--"]; ["--="]]%string
  = [(0, None); (2, Some (Unrecognized ["--nothing"])); (2, Some (Unrecognized ["extra"])); (2, Some (Expected "threads"));
     (2, Some (Invalid "threads" "x")); (2, Some (NotAChoice "experiment" "soak")); (2, Some (Unrecognized ["--"; "-h"]));
     (2, Some (Unrecognized ["--"])); (2, Some (Ambiguous "--="))]%string.
Proof. vm_compute. reflexivity. Qed.
